(* ===== verification/_CoqProject ===== *)
-Q . S2P
Prelude.v
Errors.v
Math.v
Loop.v
State.v
PoolFacts.v
Runtime.v
SplToken.v
Instruction.v
Cpi.v
Guards.v
Fees.v
Deposit.v
Withdraw.v
Insurance.v
Admin.v
Proxy.v
Init.v
Processor.v
Ledger.v
LedgerFacts.v
LedgerInv.v
Laws.v
Backing.v
BackingSteps.v
BackingLp.v
BackingInit.v
Safety.v
Frame.v
Register.v
Records.v
Sim.v
SimLaws.v
SimServes.v
Scenario.v
Run.v
Contract.v
Governance.v
Config.v
Panic.v
Treasury.v
Settlement.v
Serving.v
Exit.v
Join.v
Calls.v
Found.v
Exactness.v
Divergences.v
Forwarding.v
Checks.v
UnitMath.v
UnitState.v
UnitInstruction.v
UnitCpi.v
UnitProcessor.v
UnitTests.v
KaniMirror.v
KaniHarness.v
KaniChecks.v
Holders.v
