(* ===== verification/Prelude.v ===== *)
(** * percolator-stake: a verification development

    percolator-stake is a Solana program: a staking pool attached to one
    perpetuals market of the percolator wrapper program. Depositors put
    collateral into a vault and get LP shares; the admin may flush vault
    collateral into the market's insurance fund and bring it back; trading fees
    that reach the vault raise the share price; an optional junior tranche takes
    the losses first. This library models the program handler by handler and
    proves what its users rely on.

    ** The program's parts and the files that model them

    The model reads like the source and keeps its names. A Rust integer is a [Z]
    with the source's checked, saturating or wrapping operation; bytes are
    [list Z]; an account is an owner, lamports and bytes; a store of accounts
    ([Runtime.World]) is threaded through every handler, whose result is
    [Ok] of the new store or [Err] of a [ProgramError]. A panic is
    [Err Panicked]: indexing and slicing of account and instruction data are
    [index_at] and [index_range], which panic out of range as Rust's do, and so
    does a second borrow of an account. An error discards the store, as the chain
    does.

    - Prelude.v: machine integers, the result monad and [ensure], little-endian
      bytes, slices, record update, the tactics ([inv_ok], [width_lia], ...) and
      the hint database [stake].
    - Errors.v: src/error.rs, and the checked index operations. Math.v: src/math.rs. State.v: src/state.rs (the two
      records, their [repr(C)] layouts, accessors, value formulas).
      SplToken.v: src/spl_token.rs. Instruction.v: src/instruction.rs.
      Cpi.v: src/cpi.rs.
    - Runtime.v: what the handlers see of the [solana_program] crate: accounts,
      the borrow rule (an account whose data a handler holds mutably is in the
      list [mb] and a second borrow fails), and the class [Runtime] of what is
      not in the repository: [invoke_signed], program addresses, the clock and
      rent sysvars, the system instructions. The three address derivations of
      src/state.rs are here.
    - Guards.v, Init.v, Deposit.v, Withdraw.v, Insurance.v, Fees.v, Admin.v,
      Proxy.v, Processor.v: src/processor.rs. One definition per handler
      ([process_deposit], ...), built from its guards, its pure change of the
      record, its CPIs and its final stores, in the source's order;
      [Processor.process] decodes and dispatches as the entrypoint does.
    - PoolFacts.v: the record seen as fields ([rview]), well-formedness
      ([wf_pool]), the value without its 64-bit bound ([raw_value]).

    ** The specification and the refinement

    - Ledger.v: the contract. A [Ledger] is a pool record, the vault's balance
      and the LP mint's supply; [ledger_step] is what one instruction does to
      them, with no accounts, bytes or CPIs; [authorized] is the signature it
      needs. LedgerFacts.v and LedgerInv.v prove its invariants.
    - Laws.v: [RuntimeLaws], the documented behaviour of the code outside the
      repository: who may write an account, what the system and token programs'
      instructions do, what the wrapper's deposit and withdrawal of insurance
      move. Each law is about a call that succeeded; none speaks of a pool. The
      token program's cover the five instructions this program sends ([issued]),
      and its InitializeAccount opens an account of the native mint with the SOL
      it holds beyond its rent, and any other at zero ([opens_with]).
      [TokenProgramServes] and [SystemServes] say which calls do succeed.
    - Backing.v, BackingSteps.v, BackingLp.v, BackingInit.v: every handler
      refines its ledger step and keeps the pool [backed] (bound to its own
      accounts, well formed, value within the vault).
    - Safety.v: [accepts] (a transaction the entrypoint accepts), [environment]
      (what the rest of the chain may do: donate to the vault, burn LP tokens),
      [reachable] stores and [history], by rule induction.
    - Frame.v: what each handler leaves alone ([untouched], [dispatch_frame]).
      Register.v: the deposit records read as a finite map from addresses to
      holdings ([register]), with their sums. Records.v: the invariant that ties
      the register to the pool's totals, kept by every transaction and by an
      environment that respects the ownership of the records ([recorded]).
    - Sim.v, SimLaws.v, SimServes.v: an executable [Runtime] that satisfies
      [RuntimeLaws], [TokenProgramServes] and [SystemServes], so the laws are
      consistent. Scenario.v and Run.v: a market on it, run through [process] by
      computation; the witnesses of the theorems are steps of it.

    ** What the theorems show

    - Contract.v: solvency of every reachable store; each accepted transaction
      is its ledger step, signed by whom it must be; what Withdraw, the two
      deposits and the two pool creations do, amounts and records included.
    - The converse, that the program does whatever the ledger grants to a request
      with the right accounts: Exit.v (Withdraw), Join.v (both deposits, the
      record found or made), Found.v (both pool creations, the pool's address
      funded beforehand or not, the collateral SOL or a token), Config.v (the nine
      configuration instructions against a table of refusals and changes written
      out there, so that each transition is pinned; and against the ledger),
      Calls.v (the accrual, the insurance flows and the nine
      proxies, whose result is decided by the ledger's gate and the call out).
      Serving.v holds the steps they share. Each instruction is in one of them.
    - Holders.v: the deposit records account for every share; all holdings can be
      redeemed from the vault together; nobody else's transaction touches a
      record; tokens leave the vault only by their owners; the tranche invariant.
    - Governance.v: only the admin changes the configuration; two-step admin
      rotation; the cooldown time lock over any history; final flags stay
      final; resolution waits for the flushed insurance.
    - Panic.v: no transaction makes the program panic: every borrow and every index
      is behind the check that makes it safe.
    - Treasury.v: the insurance cycle moves exact amounts; the share price falls
      only by a flush; deposit then withdraw gains nothing, and loses at most a
      token and the price of a share; withdrawing before others or in parts gains
      nothing either.
    - Settlement.v: fee accrual, the split of the value, the high-water-mark
      floor with its exemption and the moves of the mark, the last junior exit.
    - Loop.v: the long division of the 256-bit multiply-divide as a loop that
      stops, with the exact quotient.
    - Exactness.v: fee and loss splits; prices; round trips of both records and of
      the instruction codec; refusals of malformed transactions; error codes;
      account creation; the dead shares.
    - KaniMirror.v: the functions of kani-proofs/src/lib.rs, which the repository's
      model checker runs on instead of the program's, and where they agree with it.
      Checks.v: programs that draw inputs, assume, assert and cover.
      KaniHarness.v, KaniChecks.v: the 56 harnesses as such programs; none can fail
      and every cover is reached.
    - UnitMath.v, UnitState.v, UnitInstruction.v, UnitCpi.v, UnitProcessor.v: the 162
      unit tests of the source files, the transactions among them run through
      [process]; UnitTests.v: all of them pass on the model. They are a regression
      test of the definitions, not a property.
    - Forwarding.v: the proxies send exactly the wrapper's message.
    - Divergences.v: where the code does not do what its comments say.

    ** Bounds and termination

    Every definition is total, and only one loops: [Math.mul_div_loop] counts
    down the 256 bit positions of the product, the source's own bound, and is
    structural in that count; Loop.v runs the same loop as a step relation. No
    fuel appears anywhere.

    ** What is assumed

    The wrapper, the token program, the system program and the runtime are
    outside the repository: parameters of the class [Runtime], under the laws of
    Laws.v (and, in Panic.v, that calls into them return; in Exit.v, Join.v and
    Found.v, that the token and system programs carry out the calls they are asked
    for properly; in Found.v, that the wrapper takes the market's new authority). A
    deposit record's
    history is that of a chain whose other programs cannot write this program's
    accounts and cannot create one with data in it ([Records.leaves_records]).
    Alignment of account data, which the runtime guarantees, cannot fail here.

    ** Not modelled

    - [msg!] logging: written to the transaction log, read by nobody.
    - src/src/entrypoint.rs (the macro that calls [process]), src/src/lib.rs
      (module list, documentation), [validate_account_empty] (dead code), the
      integration tests of src/tests, scripts. *)

From Stdlib Require Import ZArith Lia.
From stdpp Require Export base tactics list gmap numbers.
#[global] Open Scope Z_scope.

(** ** Machine integers

    A Rust [u8], [u16], [u64] or [u128] is a [Z]; the operations that can
    leave the width say what they do there, as in the standard library:
    [checked_*] returns [None], [saturating_*] clamps, [wrapping_*] and the
    plain shifts reduce modulo the width. *)

Definition U8_MAX : Z := 255.
Definition U16_MAX : Z := 65535.
Definition U32_MAX : Z := 4294967295.
Definition U64_MAX : Z := 18446744073709551615.
Definition U128_MAX : Z := 340282366920938463463374607431768211455.

(** [fits m z]: [z] is a value of the unsigned type whose maximum is [m]. *)
Definition fits (m z : Z) : Prop := 0 <= z <= m.

#[global] Instance fits_dec m z : Decision (fits m z).
Proof. unfold fits. apply _. Defined.

Abbreviation u8 := (fits U8_MAX).
Abbreviation u16 := (fits U16_MAX).
Abbreviation u32 := (fits U32_MAX).
Abbreviation u64 := (fits U64_MAX).
Abbreviation u128 := (fits U128_MAX).

Definition checked_add (m a b : Z) : option Z :=
  if a + b <=? m then Some (a + b) else None.
Definition checked_sub (a b : Z) : option Z :=
  if b <=? a then Some (a - b) else None.
Definition checked_mul (m a b : Z) : option Z :=
  if a * b <=? m then Some (a * b) else None.
Definition checked_div (a b : Z) : option Z :=
  if b =? 0 then None else Some (a / b).
Definition saturating_add (m a b : Z) : Z := Z.min m (a + b).
Definition saturating_sub (a b : Z) : Z := Z.max 0 (a - b).
(** Arithmetic modulo the width [m + 1]: [wrapping_*], [overflowing_*].0 and
    the bits a left shift keeps. *)
Definition wrap (m a : Z) : Z := a mod (m + 1).

(** ** Result

    A handler of the program returns [Result<T, ProgramError>]. An [Err]
    aborts the transaction, and the runtime rolls every account back, so the
    error carries no state. *)

Inductive result (E A : Type) : Type :=
  | Ok (a : A)
  | Err (e : E).
Arguments Ok {E A} a.
Arguments Err {E A} e.

#[global] Instance result_ret {E} : MRet (result E) := fun A a => Ok a.
#[global] Instance result_bind {E} : MBind (result E) :=
  fun A B f m => match m with Ok a => f a | Err e => Err e end.

(** [option.ok_or(e)] *)
Definition ok_or {E A} (o : option A) (e : E) : result E A :=
  match o with Some a => Ok a | None => Err e end.

Definition is_ok {E A} (r : result E A) : bool :=
  match r with Ok _ => true | Err _ => false end.

Declare Scope rust_scope.
Delimit Scope rust_scope with rust.
(** [if !b { return Err(e) }; k] *)
Notation "'ensure' b 'or_err' e ; k" :=
  (if (b : bool) then k else Err e)
  (at level 20, b at level 100, e at level 100, k at level 200,
   only parsing) : rust_scope.
#[global] Open Scope rust_scope.

(** ** Byte strings

    Account data, instruction data and public keys are lists of bytes. *)

Definition byte_ok (b : Z) : Prop := 0 <= b < 256.
Definition bytes_ok (l : list Z) : Prop := Forall byte_ok l.

(** Little-endian encoding on [n] bytes: [to_le_bytes] and [from_le_bytes]. *)
Fixpoint le_bytes (n : nat) (v : Z) : list Z :=
  match n with
  | O => []
  | S n' => v mod 256 :: le_bytes n' (v / 256)
  end.

Fixpoint le_val (l : list Z) : Z :=
  match l with
  | [] => 0
  | b :: l' => b + 256 * le_val l'
  end.

(** [l[a..b]] and [l[a..a + len(bs)].copy_from_slice(bs)]. *)
Definition slice (a b : nat) (l : list Z) : list Z := take (b - a) (drop a l).
Definition splice (a : nat) (bs l : list Z) : list Z :=
  take a l ++ bs ++ drop (a + length bs) l.

(** ** Record update

    [r <| f := v |>] is the assignment [r.f = v]. One [Setter] instance per
    field the program assigns, built by [solve_setter]. *)

Class Setter {R E : Type} (proj : R -> E) : Type := upd : (E -> E) -> R -> R.
Arguments upd {R E} proj {Setter} f r : simpl never.

Ltac solve_setter :=
  lazymatch goal with
  | |- @Setter ?R ?E ?proj =>
      let f := fresh "f" in let r := fresh "r" in
      intros f r; unfold Setter in *;
      let eta := constr:(ltac:(unshelve eexists; [econstructor | reflexivity])
                         : { r' : R | r = r' }) in
      lazymatch eta with
      | exist _ ?c _ =>
          lazymatch c with
          | context C [proj r] => let t := context C [f (proj r)] in exact t
          end
      end
  end.

Notation "r '<|' f ':=' v '|>'" := (upd f (fun _ => v) r)
  (at level 12, left associativity) : rust_scope.

(** ** Lemmas on machine integers *)

Section Widths.
Implicit Types m a b c : Z.

Lemma checked_add_Some m a b c :
  checked_add m a b = Some c <-> c = a + b /\ a + b <= m.
Proof.
  unfold checked_add. destruct (Z.leb_spec (a + b) m);
    split; intros H'; try discriminate; intuition (simplify_eq; eauto; lia).
Qed.

Lemma checked_sub_Some a b c :
  checked_sub a b = Some c <-> c = a - b /\ b <= a.
Proof.
  unfold checked_sub. destruct (Z.leb_spec b a);
    split; intros H'; try discriminate; intuition (simplify_eq; eauto; lia).
Qed.

Lemma checked_mul_Some m a b c :
  checked_mul m a b = Some c <-> c = a * b /\ a * b <= m.
Proof.
  unfold checked_mul. destruct (Z.leb_spec (a * b) m);
    split; intros H'; try discriminate; intuition (simplify_eq; eauto; lia).
Qed.

Lemma checked_div_Some a b c :
  checked_div a b = Some c <-> c = a / b /\ b <> 0.
Proof.
  unfold checked_div. destruct (Z.eqb_spec b 0);
    split; intros H'; try discriminate; intuition (simplify_eq; eauto).
Qed.

Lemma wrap_small m a : 0 <= a <= m -> wrap m a = a.
Proof. intros. unfold wrap. apply Z.mod_small. lia. Qed.

Lemma wrap_bounds m a : 0 <= m -> 0 <= wrap m a <= m.
Proof. intros. unfold wrap. pose proof (Z.mod_pos_bound a (m + 1)). lia. Qed.
End Widths.

(** ** Lemmas on results *)

Lemma bind_of_Ok {E A B} (a : A) (f : A -> result E B) : (Ok a ≫= f) = f a.
Proof. reflexivity. Qed.

Lemma bind_Ok {E A B} (m : result E A) (f : A -> result E B) b :
  (m ≫= f) = Ok b <-> exists a, m = Ok a /\ f a = Ok b.
Proof. destruct m; split; naive_solver. Qed.

Lemma bind_Err {E A B} (m : result E A) (f : A -> result E B) e :
  (m ≫= f) = Err e <-> m = Err e \/ exists a, m = Ok a /\ f a = Err e.
Proof. destruct m; split; naive_solver. Qed.

Lemma ok_or_Ok {E A} (o : option A) (e : E) a :
  ok_or o e = Ok a <-> o = Some a.
Proof. destruct o; split; intros; simplify_eq/=; done. Qed.

Lemma ensure_Ok {E A} (b : bool) (k : result E A) e a :
  (if b then k else Err e) = Ok a <-> b = true /\ k = Ok a.
Proof. destruct b; naive_solver. Qed.

(** ** Lemmas on byte strings *)

Section Bytes.
Implicit Types l bs : list Z.

Lemma length_le_bytes n v : length (le_bytes n v) = n.
Proof. revert v; induction n; intros; cbn; auto. Qed.

Lemma le_bytes_ok n v : bytes_ok (le_bytes n v).
Proof.
  revert v; induction n as [|n IH]; intros v; cbn; constructor; [|apply IH].
  unfold byte_ok. apply Z.mod_pos_bound. lia.
Qed.

Lemma le_val_le_bytes n v : le_val (le_bytes n v) = v mod 256 ^ Z.of_nat n.
Proof.
  revert v; induction n as [|n IH]; intros v; cbn [le_val le_bytes].
  - by rewrite Z.mod_1_r.
  - rewrite IH, Nat2Z.inj_succ, Z.pow_succ_r by lia.
    rewrite Z.rem_mul_r; [done | lia | apply Z.pow_pos_nonneg; lia].
Qed.

Lemma le_val_bound l :
  bytes_ok l -> 0 <= le_val l < 256 ^ Z.of_nat (length l).
Proof.
  induction 1 as [|b l Hb _ IH]; cbn [le_val length]; [cbn; lia|].
  rewrite Nat2Z.inj_succ, Z.pow_succ_r by lia. unfold byte_ok in Hb. lia.
Qed.

Lemma le_bytes_le_val l : bytes_ok l -> le_bytes (length l) (le_val l) = l.
Proof.
  induction 1 as [|b l Hb _ IH]; cbn [le_val le_bytes length]; [done|].
  unfold byte_ok in Hb. rewrite (Z.mul_comm 256).
  rewrite Z.mod_add, Z.mod_small, Z.div_add, Z.div_small, Z.add_0_l by lia.
  by rewrite IH.
Qed.

Lemma le_val_le_bytes_small n v :
  0 <= v < 256 ^ Z.of_nat n -> le_val (le_bytes n v) = v.
Proof. intros. rewrite le_val_le_bytes. by apply Z.mod_small. Qed.

Lemma length_slice a b l : (b <= length l)%nat -> length (slice a b l) = (b - a)%nat.
Proof. intros. unfold slice. rewrite length_take, length_drop. lia. Qed.

Lemma length_splice a bs l :
  (a + length bs <= length l)%nat -> length (splice a bs l) = length l.
Proof.
  intros. unfold splice.
  rewrite !length_app, length_take, length_drop. lia.
Qed.

Lemma bytes_ok_slice a b l : bytes_ok l -> bytes_ok (slice a b l).
Proof. intros. unfold slice, bytes_ok. by apply Forall_take, Forall_drop. Qed.

Lemma bytes_ok_splice a bs l : bytes_ok bs -> bytes_ok l -> bytes_ok (splice a bs l).
Proof.
  intros. unfold splice, bytes_ok. rewrite !Forall_app.
  split_and!; [by apply Forall_take | done | by apply Forall_drop].
Qed.

Lemma slice_splice_same a b bs l :
  b = (a + length bs)%nat -> (b <= length l)%nat -> slice a b (splice a bs l) = bs.
Proof.
  intros -> Hl. unfold slice, splice.
  rewrite drop_app_length' by (rewrite length_take; lia).
  by rewrite Nat.add_comm, Nat.add_sub, take_app_length.
Qed.

Lemma slice_lookup a b l i :
  (i < b - a)%nat -> slice a b l !! i = l !! (a + i)%nat.
Proof. intros. unfold slice. by rewrite lookup_take_lt, lookup_drop by lia. Qed.

Lemma splice_lookup_ne a bs l i :
  (a <= length l)%nat ->
  (i < a \/ a + length bs <= i)%nat ->
  splice a bs l !! i = l !! i.
Proof.
  intros Ha [Hi|Hi]; unfold splice.
  - rewrite lookup_app_l by (rewrite length_take; lia).
    by rewrite lookup_take_lt by lia.
  - rewrite lookup_app_r by (rewrite length_take; lia).
    rewrite lookup_app_r by (rewrite length_take; lia).
    rewrite lookup_drop, length_take. f_equal. lia.
Qed.

Lemma slice_splice_ne a b c bs l :
  (c + length bs <= length l)%nat ->
  (b <= c \/ c + length bs <= a)%nat ->
  slice a b (splice c bs l) = slice a b l.
Proof.
  intros Hl Hd. apply list_eq. intros i. unfold slice.
  destruct (decide (i < b - a)%nat) as [Hi|Hi].
  - rewrite !lookup_take_lt, !lookup_drop by lia.
    apply splice_lookup_ne; lia.
  - by rewrite !lookup_take_ge by lia.
Qed.

(** Two adjacent writes are one. *)
Lemma splice_splice a xs ys l :
  (a <= length l)%nat ->
  splice (a + length xs) ys (splice a xs l) = splice a (xs ++ ys) l.
Proof.
  intros Ha. unfold splice. rewrite !(app_assoc (take a l) xs).
  assert (Hl : length (take a l ++ xs) = (a + length xs)%nat)
    by (rewrite length_app, length_take; lia).
  rewrite take_app_length' by done. rewrite drop_app_ge by lia.
  rewrite Hl, drop_drop, length_app, <- !app_assoc. do 4 f_equal. lia.
Qed.

Lemma splice_slice a b l :
  (a <= b)%nat -> (b <= length l)%nat -> splice a (slice a b l) l = l.
Proof.
  intros Hab Hl. unfold splice. rewrite length_slice by done.
  replace (a + (b - a))%nat with b by lia. unfold slice.
  rewrite <- (take_drop a l) at 4. f_equal.
  rewrite <- (take_drop (b - a) (drop a l)) at 2. f_equal.
  rewrite drop_drop. f_equal. lia.
Qed.

Lemma slice_all n l : length l = n -> slice 0 n l = l.
Proof. intros <-. unfold slice. by rewrite Nat.sub_0_r, drop_0, firstn_all. Qed.
End Bytes.

#[global] Arguments le_bytes : simpl never.
#[global] Arguments le_val : simpl never.
#[global] Arguments slice : simpl never.
#[global] Arguments splice : simpl never.

(** ** Automation *)

(** Inverts one layer of a successful computation [H : m = Ok _]. *)
Ltac inv_ok_step H :=
  lazymatch type of H with
  | (_ ≫= _) = Ok _ =>
      apply bind_Ok in H; let x := fresh "v" in let E := fresh "E" in
      destruct H as (x & E & H); cbv beta in H
  | (let '(_, _) := ?x in _) = Ok _ => destruct x; cbv beta iota in H
  | (if _ then _ else Err _) = Ok _ =>
      apply ensure_Ok in H; let G := fresh "G" in destruct H as [G H]
  | Err _ = Ok _ => discriminate H
  | mret _ = Ok _ => unfold mret, result_ret in H
  | ok_or _ _ = Ok _ => apply ok_or_Ok in H
  end.
Ltac inv_ok H := repeat inv_ok_step H.

(** Reads through record updates: [g (r <| f := v |>)] becomes [v] when [g]
    is the projection [f], and [g r] when [g] does not depend on [f] (checked by
    conversion, so it also applies to functions of the record). *)
Ltac upd_step :=
  match goal with
  | |- context [?g (@upd ?R ?E ?f ?S ?h ?r)] =>
      first [ unify g f; progress change (g (@upd R E f S h r)) with (h (g r)); cbv beta
            | progress change (g (@upd R E f S h r)) with (g r) ]
  end.
Ltac upd_step_in H :=
  match type of H with
  | context [?g (@upd ?R ?E ?f ?S ?h ?r)] =>
      first [ unify g f; progress change (g (@upd R E f S h r)) with (h (g r)) in H; cbv beta in H
            | progress change (g (@upd R E f S h r)) with (g r) in H ]
  end.
Ltac upd_simpl := repeat upd_step.
Tactic Notation "upd_simpl" "in" hyp(H) := repeat upd_step_in H.

(** Turns boolean guards in the context into propositions. *)
Ltac bool_prop :=
  repeat match goal with
  | H : bool_decide _ = true |- _ => apply bool_decide_eq_true_1 in H
  | H : bool_decide _ = false |- _ => apply bool_decide_eq_false_1 in H
  | H : negb _ = true |- _ => apply negb_true_iff in H
  | H : negb _ = false |- _ => apply negb_false_iff in H
  | H : (_ && _)%bool = true |- _ => apply andb_true_iff in H; destruct H
  | H : (_ || _)%bool = false |- _ => apply orb_false_iff in H; destruct H
  | H : (_ <=? _) = true |- _ => apply Z.leb_le in H
  | H : (_ <=? _) = false |- _ => apply Z.leb_gt in H
  | H : (_ <? _) = true |- _ => apply Z.ltb_lt in H
  | H : (_ <? _) = false |- _ => apply Z.ltb_ge in H
  | H : (_ =? _) = true |- _ => apply Z.eqb_eq in H
  | H : (_ =? _) = false |- _ => apply Z.eqb_neq in H
  end.

(** Unfolds the widths and closes linear goals over them. *)
Ltac width_lia :=
  unfold fits, U8_MAX, U16_MAX, U64_MAX, U128_MAX, saturating_sub, saturating_add in *;
  lia.

Create HintDb stake discriminated.
#[export] Hint Resolve le_bytes_ok bytes_ok_slice bytes_ok_splice : stake.
#[export] Hint Rewrite length_le_bytes : stake.
#[export] Hint Extern 3 (fits _ _) => solve [width_lia] : stake.

(** ** Sums over finite maps *)

Definition map_sum `{Countable K} {A} (f : A -> Z) (m : gmap K A) : Z :=
  map_fold (fun _ x acc => f x + acc) 0 m.

Section Sums.
Context `{Countable K} {A : Type}.
Implicit Types (f g : A -> Z) (m : gmap K A) (k : K).

Lemma map_sum_empty f : map_sum f (∅ : gmap K A) = 0.
Proof. apply map_fold_empty. Qed.

Lemma map_sum_insert f m k x : m !! k = None -> map_sum f (<[k := x]> m) = f x + map_sum f m.
Proof. intros Hk. unfold map_sum. rewrite map_fold_insert_L; [done|lia|done]. Qed.

(** The term of one key, and the rest. *)
Lemma map_sum_at f m k : map_sum f m = from_option f 0 (m !! k) + map_sum f (delete k m).
Proof.
  destruct (m !! k) as [x|] eqn:E; cbn [from_option].
  - rewrite <- (map_sum_insert f (delete k m) k x) by apply lookup_delete_eq.
    by rewrite insert_delete_id.
  - by rewrite delete_id.
Qed.

(** Maps that agree but at one key. *)
Lemma map_sum_update f m m' k :
  (forall i, i <> k -> m' !! i = m !! i) ->
  map_sum f m' = map_sum f m - from_option f 0 (m !! k) + from_option f 0 (m' !! k).
Proof.
  intros Hne. rewrite (map_sum_at f m k), (map_sum_at f m' k).
  enough (delete k m' = delete k m) as ->; [lia|].
  apply map_eq. intros i. destruct (decide (i = k)) as [->|]; [by rewrite !lookup_delete_eq|].
  rewrite !lookup_delete_ne by done. by apply Hne.
Qed.

(** Pointwise bounds. *)
Lemma map_sum_scale f g m s v :
  (forall k x, m !! k = Some x -> f x * s <= g x * v) -> map_sum f m * s <= map_sum g m * v.
Proof.
  induction m as [|k x m Hk _ IH] using map_first_key_ind; intros Hle.
  - by rewrite !map_sum_empty.
  - rewrite !map_sum_insert by done.
    pose proof (Hle k x ltac:(apply lookup_insert_eq)) as Hx.
    enough (map_sum f m * s <= map_sum g m * v) by lia. apply IH. intros i y Hi. apply (Hle i).
    rewrite lookup_insert_ne; [done|]. intros ->. by rewrite Hk in Hi.
Qed.

Lemma map_sum_le f g m :
  (forall k x, m !! k = Some x -> f x <= g x) -> map_sum f m <= map_sum g m.
Proof.
  intros Hle. pose proof (map_sum_scale f g m 1 1) as H1. rewrite !Z.mul_1_r in H1.
  apply H1. intros k x Hk. rewrite !Z.mul_1_r. by eapply Hle.
Qed.

Lemma map_sum_add f g m : map_sum (fun x => f x + g x) m = map_sum f m + map_sum g m.
Proof.
  induction m as [|k x m Hk _ IH] using map_first_key_ind.
  - by rewrite !map_sum_empty.
  - rewrite !map_sum_insert by done. lia.
Qed.

Lemma map_sum_ext f g m :
  (forall k x, m !! k = Some x -> f x = g x) -> map_sum f m = map_sum g m.
Proof.
  intros He. apply Z.le_antisymm; apply map_sum_le; intros k x Hk; by rewrite (He k x Hk).
Qed.

Lemma map_sum_nonneg f m : (forall k x, m !! k = Some x -> 0 <= f x) -> 0 <= map_sum f m.
Proof.
  induction m as [|k x m Hk _ IH] using map_first_key_ind; intros Hp.
  - by rewrite map_sum_empty.
  - rewrite map_sum_insert by done. pose proof (Hp k x ltac:(apply lookup_insert_eq)).
    enough (0 <= map_sum f m) by lia. apply IH. intros i y Hi. apply (Hp i).
    rewrite lookup_insert_ne; [done|]. intros ->. by rewrite Hk in Hi.
Qed.

(** One term of a sum of non-negative terms. *)
Lemma map_sum_term f m k x :
  (forall k x, m !! k = Some x -> 0 <= f x) -> m !! k = Some x -> f x <= map_sum f m.
Proof.
  intros Hp Hk. rewrite (map_sum_at f m k), Hk. cbn [from_option].
  enough (0 <= map_sum f (delete k m)) by lia.
  apply map_sum_nonneg. intros i y [_ Hi]%lookup_delete_Some. by eapply Hp.
Qed.
End Sums.
