(* ===== verification/Errors.v ===== *)
(** * Errors (src/error.rs)

    [StakeError] with the source's constructors and discriminants, its
    conversion into [ProgramError::Custom], and [error_hint]. *)

From Stdlib Require Import String.
From S2P Require Import Prelude.
#[local] Open Scope string_scope.
#[local] Open Scope Z_scope.

Inductive StakeError : Set :=
  | AlreadyInitialized
  | NotInitialized
  | Unauthorized
  | CooldownNotElapsed
  | InsufficientLpTokens
  | ZeroAmount
  | Overflow
  | InvalidMint
  | MarketResolved
  | DepositCapExceeded
  | InvalidPda
  | _DeprecatedAdminAlreadyTransferred
  | _DeprecatedAdminNotTransferred
  | InsufficientVaultBalance
  | InvalidPercolatorProgram
  | CpiFailed
  | InvalidAccount
  | InvalidPoolMode
  | WithdrawalBelowHwmFloor
  | TrancheNotEnabled
  | JuniorBalanceInsufficient
  | WrongTranche
  | ZeroSharesMinted
  | NoPendingAdmin
  | InsuranceLossOutstanding
  | CooldownIncreaseRequiresTimelock
  | TimelockNotElapsed
  | NoPendingCooldownProposal
  | DepositBelowMinimumLiquidity.

#[global] Instance StakeError_eq_dec : EqDecision StakeError.
Proof. solve_decision. Defined.

(** The discriminant of the [#[repr(u32)]] enum: [e as u32]. *)
Definition stake_error_code (e : StakeError) : Z :=
  match e with
  | AlreadyInitialized => 0
  | NotInitialized => 1
  | Unauthorized => 2
  | CooldownNotElapsed => 3
  | InsufficientLpTokens => 4
  | ZeroAmount => 5
  | Overflow => 6
  | InvalidMint => 7
  | MarketResolved => 8
  | DepositCapExceeded => 9
  | InvalidPda => 10
  | _DeprecatedAdminAlreadyTransferred => 11
  | _DeprecatedAdminNotTransferred => 12
  | InsufficientVaultBalance => 13
  | InvalidPercolatorProgram => 14
  | CpiFailed => 15
  | InvalidAccount => 16
  | InvalidPoolMode => 17
  | WithdrawalBelowHwmFloor => 18
  | TrancheNotEnabled => 19
  | JuniorBalanceInsufficient => 20
  | WrongTranche => 21
  | ZeroSharesMinted => 22
  | NoPendingAdmin => 23
  | InsuranceLossOutstanding => 24
  | CooldownIncreaseRequiresTimelock => 25
  | TimelockNotElapsed => 26
  | NoPendingCooldownProposal => 27
  | DepositBelowMinimumLiquidity => 28
  end.

(** [solana_program::program_error::ProgramError], restricted to the variants
    this program names. [RuntimeFailure n] stands for every other failure the
    runtime or a called program can end the transaction with (the remaining
    built-in variants, and an instruction that panics). *)
Inductive ProgramError : Set :=
  | Custom (code : Z)
  | InvalidArgument
  | InvalidInstructionData
  | InvalidAccountData
  | IncorrectProgramId
  | MissingRequiredSignature
  | NotEnoughAccountKeys
  | AccountBorrowFailed
  | IllegalOwner
  | RuntimeFailure (n : Z).

#[global] Instance ProgramError_eq_dec : EqDecision ProgramError.
Proof. solve_decision. Defined.

(** [impl From<StakeError> for ProgramError] *)
Definition stake_err (e : StakeError) : ProgramError := Custom (stake_error_code e).

(** A panic (an out-of-range slice, a [RefCell] double borrow) aborts the
    instruction: the runtime reports it as a failure of the program. *)
Definition Panicked : ProgramError := RuntimeFailure 0.

Abbreviation ProgramResult A := (result ProgramError A).

(** [data[a..b]] and [data[i]] on a slice whose length is not in its type: a panic
    out of range. ([slice] alone is for arrays, whose length is.) *)
Definition index_range (a b : nat) (data : list Z) : ProgramResult (list Z) :=
  ensure bool_decide (a <= b)%nat && bool_decide (b <= length data)%nat or_err Panicked;
  Ok (slice a b data).
Definition index_at (i : nat) (data : list Z) : ProgramResult Z :=
  ok_or (data !! i) Panicked.

Definition error_hint (code : Z) : string :=
  match code with
  | 0 => "Pool already initialized — use a different slab address or check if InitPool was already called"
  | 1 => "Pool not initialized — call InitPool first to create the stake pool"
  | 2 => "Unauthorized — you must be the pool admin to perform this action"
  | 3 => "Cooldown not elapsed — wait for the cooldown period before withdrawing again"
  | 4 => "Insufficient LP tokens — you don't have enough LP tokens to burn"
  | 5 => "Zero amount — deposit and withdrawal amounts must be greater than zero"
  | 6 => "Arithmetic overflow — pool values exceeded u64 bounds, operation blocked"
  | 7 => "Invalid mint — LP mint doesn't match the pool's LP mint"
  | 8 => "Market is resolved — no new deposits allowed after resolution"
  | 9 => "Deposit cap exceeded — pool has reached its maximum deposit limit"
  | 10 => "Invalid PDA — account is not a valid PDA for the expected seed"
  | 11 => "Admin already transferred — transfer admin is a one-time operation"
  | 12 => "Admin not yet transferred — call TransferAdmin before performing admin operations"
  | 13 => "Insufficient vault balance — vault doesn't have enough collateral for this withdrawal"
  | 14 => "Invalid percolator program — percolator program ID doesn't match"
  | 15 => "CPI to percolator failed — the cross-program invoke to percolator failed"
  | 16 => "Invalid account — account is not owned by the expected program or is not writable"
  | 17 => "Pool mode mismatch — operation not valid for this pool's mode (e.g., AccrueFees on insurance pool)"
  | 18 => "Withdrawal blocked — would breach high-water mark floor protection"
  | 19 => "Tranches not enabled — senior/junior tranches are not enabled on this pool"
  | 20 => "Junior balance insufficient — junior tranche doesn't have enough balance for this operation"
  | 21 => "Wrong tranche — deposit already belongs to a different tranche"
  | 22 => "Zero shares minted — deposit amount too small to mint any LP at the current share price; increase the amount"
  | 23 => "No pending admin — there is no admin transfer to accept (propose one first, or it was cancelled)"
  | 24 => "Insurance loss outstanding — total_flushed > total_returned. Junior tranche deposits are paused, and AdminResolveMarket/SetMarketResolved are blocked until RecoverFlushedInsurance fully returns the flushed insurance (resolving first would strand it — recovery requires LIVE mode)"
  | 28 => "Deposit below minimum liquidity — the pool's first-ever deposit must exceed MINIMUM_LIQUIDITY so a permanent dead-share floor can be locked (N7 anti-inflation hardening); deposit a larger amount"
  | _ => "Unknown error — check the error code and pool state"
  end.

(** ** Facts *)

Lemma stake_error_code_range e : 0 <= stake_error_code e <= 28.
Proof. destruct e; cbn; lia. Qed.

(** Decoding an on-chain error code is unambiguous. *)
#[global] Instance stake_err_inj : Inj (=) (=) stake_err.
Proof.
  assert (forall i, exists z, z = stake_error_code i) as _ by eauto.
  intros e1 e2 H. unfold stake_err in H. injection H as H.
  destruct e1; destruct e2; cbn in H; congruence || lia.
Qed.

(** The variants whose code falls through to the generic hint. *)
Definition has_hint (e : StakeError) : bool :=
  negb (String.eqb (error_hint (stake_error_code e)) (error_hint 999)).

Lemma has_hint_false e :
  has_hint e = false <->
  e = CooldownIncreaseRequiresTimelock \/ e = TimelockNotElapsed \/
  e = NoPendingCooldownProposal.
Proof. destruct e; split; intros H; try done; try (by naive_solver); vm_compute in H; naive_solver. Qed.

(** ** Indexing in range *)

Lemma index_range_in a b data :
  (a <= b)%nat -> (b <= length data)%nat -> index_range a b data = Ok (slice a b data).
Proof. intros. unfold index_range. by rewrite !bool_decide_eq_true_2. Qed.

Lemma index_range_Ok a b data l : index_range a b data = Ok l -> l = slice a b data.
Proof. unfold index_range. by intros [_ [= <-]]%ensure_Ok. Qed.

Lemma index_at_in i data : (i < length data)%nat -> index_at i data = Ok (nth i data 0).
Proof.
  intros [b Hb]%lookup_lt_is_Some_2. unfold index_at. rewrite Hb.
  by rewrite (nth_lookup_Some _ _ 0 _ Hb).
Qed.

Lemma index_at_Ok i data b : index_at i data = Ok b -> b = nth i data 0.
Proof. intros Hb%ok_or_Ok. by rewrite (nth_lookup_Some _ _ 0 _ Hb). Qed.
