(* ===== verification/Math.v ===== *)
(** * LP mathematics (src/math.rs)

    The pure arithmetic of the program: pro-rata minting and redemption with
    the virtual offset, tranche loss and fee distribution, the 256-bit
    mul-div the fee split needs, and the high-water-mark floor.  [u64] values
    are widened to [u128] where the source widens them; every plain operator
    of the source that could leave its width is written with [wrap]. *)

From S2P Require Import Prelude.

Definition VIRTUAL_SHARES : Z := 1.
Definition VIRTUAL_ASSETS : Z := 1.

(** ** Minting and redemption *)

Definition calc_lp_for_deposit (total_lp_supply total_pool_value deposit_amount : Z)
    : option Z :=
  if (total_lp_supply =? 0) && (total_pool_value =? 0) then Some deposit_amount
  else if total_lp_supply =? 0 then None
  else if total_pool_value =? 0 then None
  else
    shares ← checked_add U128_MAX total_lp_supply VIRTUAL_SHARES;
    product ← checked_mul U128_MAX deposit_amount shares;
    assets ← checked_add U128_MAX total_pool_value VIRTUAL_ASSETS;
    lp ← checked_div product assets;
    if U64_MAX <? lp then None else Some lp.

Definition calc_collateral_for_withdraw (total_lp_supply total_pool_value lp_amount : Z)
    : option Z :=
  if total_lp_supply =? 0 then None
  else
    assets ← checked_add U128_MAX total_pool_value VIRTUAL_ASSETS;
    product ← checked_mul U128_MAX lp_amount assets;
    shares ← checked_add U128_MAX total_lp_supply VIRTUAL_SHARES;
    collateral ← checked_div product shares;
    if U64_MAX <? collateral then None else Some collateral.

Definition pool_value (total_deposited total_withdrawn : Z) : option Z :=
  checked_sub total_deposited total_withdrawn.

Definition pool_value_with_fees (total_deposited total_withdrawn total_fees_earned : Z)
    : option Z :=
  net ← checked_sub total_deposited total_withdrawn;
  checked_add U64_MAX net total_fees_earned.

(** ** Tranches *)

Definition calc_junior_lp_for_deposit (junior_total_lp junior_balance deposit_amount : Z)
    : option Z :=
  calc_lp_for_deposit junior_total_lp junior_balance deposit_amount.

Definition calc_senior_lp_for_deposit (senior_total_lp senior_balance deposit_amount : Z)
    : option Z :=
  calc_lp_for_deposit senior_total_lp senior_balance deposit_amount.

Definition calc_junior_collateral_for_withdraw (junior_total_lp junior_balance lp_amount : Z)
    : option Z :=
  calc_collateral_for_withdraw junior_total_lp junior_balance lp_amount.

Definition calc_senior_collateral_for_withdraw (senior_total_lp senior_balance lp_amount : Z)
    : option Z :=
  calc_collateral_for_withdraw senior_total_lp senior_balance lp_amount.

(** Junior absorbs first. *)
Definition distribute_loss (junior_balance senior_balance loss_amount : Z) : Z * Z :=
  let total := saturating_add U64_MAX junior_balance senior_balance in
  let capped_loss := Z.min loss_amount total in
  if capped_loss <=? junior_balance then (capped_loss, 0)
  else (junior_balance, saturating_sub capped_loss junior_balance).

(** ** [mul_div_floor]: 256-bit product, bit-by-bit division *)

(** One iteration of the [while i > 0] loop, at the decremented index [i]. *)
Definition mul_div_step (hi lo d : Z) (i : nat) (rem quo : Z) : Z * Z :=
  let i := Z.of_nat i in
  let bit := if 128 <=? i then Z.land (Z.shiftr hi (i - 128)) 1
             else Z.land (Z.shiftr lo i) 1 in
  let rem_top := Z.shiftr rem 127 in
  let rem := Z.lor (wrap U128_MAX (Z.shiftl rem 1)) bit in
  if (rem_top =? 1) || (d <=? rem) then
    (wrap U128_MAX (rem - d),
     if i <? 128 then Z.lor quo (Z.shiftl 1 i) else quo)
  else (rem, quo).

Fixpoint mul_div_loop (hi lo d : Z) (i : nat) (rem quo : Z) : Z :=
  match i with
  | O => quo
  | S i' => let '(rem, quo) := mul_div_step hi lo d i' rem quo in
            mul_div_loop hi lo d i' rem quo
  end.

(** The full product [a * b = hi * 2^128 + lo] from 64-bit limbs. *)
Definition mul_wide (a b : Z) : Z * Z :=
  let mask := U64_MAX in
  let a0 := Z.land a mask in let a1 := Z.shiftr a 64 in
  let b0 := Z.land b mask in let b1 := Z.shiftr b 64 in
  let m0 := wrap U128_MAX (a0 * b0) in
  let m1 := wrap U128_MAX (a0 * b1) in
  let m2 := wrap U128_MAX (a1 * b0) in
  let m3 := wrap U128_MAX (a1 * b1) in
  let mid := wrap U128_MAX (m1 + m2) in
  let mid_carry := if U128_MAX <? m1 + m2 then 1 else 0 in
  let mid_lo := wrap U128_MAX (Z.shiftl mid 64) in
  let lo := wrap U128_MAX (m0 + mid_lo) in
  let c1 := if U128_MAX <? m0 + mid_lo then 1 else 0 in
  let hi := wrap U128_MAX
              (wrap U128_MAX
                 (wrap U128_MAX (m3 + Z.shiftr mid 64)
                  + wrap U128_MAX (Z.shiftl mid_carry 64))
               + c1) in
  (hi, lo).

Definition mul_div_floor (a b d : Z) : Z :=
  match checked_mul U128_MAX a b with
  | Some p => p / d
  | None => let '(hi, lo) := mul_wide a b in mul_div_loop hi lo d 256 0 0
  end.

(** ** Fees *)

Definition distribute_fees
    (junior_balance senior_balance junior_fee_mult_bps total_fee : Z) : Z * Z :=
  if total_fee =? 0 then (0, 0)
  else
    let total_balance := wrap U128_MAX (junior_balance + senior_balance) in
    if total_balance =? 0 then (0, 0)
    else
      let junior_weight := wrap U128_MAX (junior_balance * junior_fee_mult_bps) in
      let senior_weight := wrap U128_MAX (senior_balance * 10000) in
      let total_weight := wrap U128_MAX (junior_weight + senior_weight) in
      if total_weight =? 0 then (0, 0)
      else
        let junior_fee_u128 :=
          match checked_mul U128_MAX total_fee junior_weight with
          | Some product => product / total_weight
          | None =>
              let q := total_fee / total_weight in
              let r := total_fee mod total_weight in
              let part1 := wrap U128_MAX (q * junior_weight) in
              let part2 := mul_div_floor r junior_weight total_weight in
              saturating_add U128_MAX part1 part2
          end in
        let junior_fee := Z.min junior_fee_u128 total_fee in
        (junior_fee, saturating_sub total_fee junior_fee).

Definition senior_protected (junior_balance _senior_balance loss_amount : Z) : bool :=
  loss_amount <=? junior_balance.

(** ** High-water mark *)

Definition hwm_floor (epoch_high_water_tvl hwm_floor_bps : Z) : option Z :=
  product ← checked_mul U128_MAX epoch_high_water_tvl hwm_floor_bps;
  floor ← checked_div product 10000;
  if U64_MAX <? floor then None else Some floor.

Definition hwm_withdrawal_allowed
    (post_withdrawal_tvl epoch_high_water_tvl hwm_floor_bps : Z) : bool :=
  match hwm_floor epoch_high_water_tvl hwm_floor_bps with
  | Some floor => floor <=? post_withdrawal_tvl
  | None => false
  end.

(** ** The mul-div loop computes the quotient *)

Lemma land1_mod2 x : Z.land x 1 = x mod 2.
Proof. change 1 with (Z.ones 1). by rewrite Z.land_ones. Qed.

Lemma lor_even_bit x b : x mod 2 = 0 -> 0 <= b <= 1 -> Z.lor x b = x + b.
Proof.
  intros Hx Hb. symmetry. apply Z.add_nocarry_lor.
  assert (b = 0 \/ b = 1) as [-> | ->] by lia; [apply Z.land_0_r|].
  by rewrite land1_mod2.
Qed.

Lemma lor_high_bit x i : 0 <= i -> x mod 2 ^ (i + 1) = 0 -> Z.lor x (Z.shiftl 1 i) = x + 2 ^ i.
Proof.
  intros Hi Hx. rewrite Z.shiftl_1_l. symmetry. apply Z.add_nocarry_lor.
  apply Z.bits_inj'. intros n Hn. rewrite Z.land_spec, Z.bits_0.
  rewrite Z.pow2_bits_eqb by lia.
  destruct (Z.eqb_spec i n) as [->|]; [|by rewrite andb_false_r].
  rewrite <- (Z.mod_pow2_bits_low x (n + 1) n) by lia.
  by rewrite Hx, Z.bits_0.
Qed.

Lemma div_pow2_succ N (i : nat) :
  N / 2 ^ Z.of_nat i = 2 * (N / 2 ^ Z.of_nat (S i)) + (N / 2 ^ Z.of_nat i) mod 2.
Proof.
  rewrite Nat2Z.inj_succ, Z.pow_succ_r, (Z.mul_comm 2 (2 ^ _)), <- Z.div_div by lia.
  apply Z.div_mod. lia.
Qed.

(** The bit the loop extracts at position [i] of the 256-bit number (hi:lo). *)
Lemma mul_div_bit hi lo (i : nat) :
  0 <= lo <= U128_MAX -> 0 <= hi ->
  (if 128 <=? Z.of_nat i then Z.land (Z.shiftr hi (Z.of_nat i - 128)) 1
   else Z.land (Z.shiftr lo (Z.of_nat i)) 1)
  = ((hi * 2 ^ 128 + lo) / 2 ^ Z.of_nat i) mod 2.
Proof.
  intros Hlo Hhi. unfold U128_MAX in Hlo. destruct (Z.leb_spec 128 (Z.of_nat i)).
  - rewrite land1_mod2, Z.shiftr_div_pow2 by lia. f_equal.
    replace (Z.of_nat i) with (128 + (Z.of_nat i - 128)) at 2 by lia.
    rewrite Z.pow_add_r, <- Z.div_div by lia.
    by rewrite Z.div_add_l, (Z.div_small lo), Z.add_0_r by lia.
  - rewrite land1_mod2, Z.shiftr_div_pow2 by lia.
    replace (hi * 2 ^ 128) with ((hi * 2 ^ (127 - Z.of_nat i)) * 2 * 2 ^ Z.of_nat i).
    2:{ rewrite <- !Z.mul_assoc. f_equal. rewrite Z.mul_comm, <- Z.mul_assoc, <- Z.pow_add_r by lia.
        change 2 with (2 ^ 1) at 1. rewrite <- Z.pow_add_r by lia. f_equal. lia. }
    rewrite Z.div_add_l by lia. rewrite Z.add_comm, Z.mod_add by lia. done.
Qed.

(** Schoolbook step: bringing down bit [b] under divisor [d]. *)
Lemma bring_down_bit M M' d b :
  M = 2 * M' + b -> 0 <= b < 2 -> 0 < d ->
  let r := 2 * (M' mod d) + b in
  (M mod d, M / d) =
    if d <=? r then (r - d, 2 * (M' / d) + 1) else (r, 2 * (M' / d)).
Proof.
  intros HM Hb Hd r. pose proof (Z.mod_pos_bound M' d Hd) as Hr.
  pose proof (Z.div_mod M' d ltac:(lia)) as HM'. subst r.
  destruct (Z.leb_spec d (2 * (M' mod d) + b)); f_equal; symmetry.
  - apply (Z.mod_unique_pos _ _ (2 * (M' / d) + 1)); lia.
  - apply (Z.div_unique_pos _ _ _ (2 * (M' mod d) + b - d)); lia.
  - apply (Z.mod_unique_pos _ _ (2 * (M' / d))); lia.
  - apply (Z.div_unique_pos _ _ _ (2 * (M' mod d) + b)); lia.
Qed.

(** The 128-bit shift of the remainder, with the bit that falls out of it. *)
Lemma shift_remainder rem d b :
  0 <= rem < d -> 0 < d <= U128_MAX -> 0 <= b < 2 ->
  let rem' := Z.lor (wrap U128_MAX (Z.shiftl rem 1)) b in
  let r := 2 * rem + b in
  ((Z.shiftr rem 127 =? 1) || (d <=? rem'))%bool = (d <=? r) /\
  (if d <=? r then wrap U128_MAX (rem' - d) = r - d else rem' = r).
Proof.
  intros Hr Hd Hb rem' r. unfold U128_MAX in *.
  assert (Hrem' : rem' = 2 * (rem mod 2 ^ 127) + b).
  { subst rem'. rewrite Z.shiftl_mul_pow2 by lia. unfold wrap.
    change (340282366920938463463374607431768211455 + 1) with (2 * 2 ^ 127).
    change (2 ^ 1) with 2. rewrite (Z.mul_comm rem 2), Z.mul_mod_distr_l by lia.
    by rewrite lor_even_bit by (rewrite ?(Z.mul_comm 2), ?Z.mod_mul; lia). }
  rewrite Z.shiftr_div_pow2 by lia. set (top := rem / 2 ^ 127).
  assert (Htop : rem = 2 ^ 127 * top + rem mod 2 ^ 127) by (apply Z.div_mod; lia).
  pose proof (Z.mod_pos_bound rem (2 ^ 127) ltac:(lia)) as Hlow.
  assert (top = 0 \/ top = 1) as Ht by lia. rewrite Hrem'. subst r. split.
  - destruct Ht as [Ht|Ht]; rewrite Ht; cbn [orb Z.eqb]; [f_equal; lia|].
    cbn. symmetry. apply Z.leb_le. lia.
  - destruct (Z.leb_spec d (2 * rem + b)); [|lia]. unfold wrap.
    symmetry. apply (Z.mod_unique_pos _ _ (- top)); lia.
Qed.

(** A quotient bit at a position [>= 128] is zero: the quotient fits 128 bits. *)
Lemma quotient_bit_high N d (i : nat) :
  0 <= N -> 0 < d -> N / d <= U128_MAX -> 128 <= Z.of_nat i ->
  N / 2 ^ Z.of_nat i / d = 0.
Proof.
  intros HN Hd HQ Hi. rewrite Z.div_div, Z.mul_comm, <- Z.div_div by lia.
  unfold U128_MAX in HQ. apply Z.div_small. split; [by apply Z.div_pos|].
  apply Z.lt_le_trans with (2 ^ 128); [lia|apply Z.pow_le_mono_r; lia].
Qed.

Lemma mul_div_step_spec N hi lo d (i : nat) rem quo :
  N = hi * 2 ^ 128 + lo -> 0 <= lo <= U128_MAX -> 0 <= hi ->
  0 < d <= U128_MAX -> N / d <= U128_MAX ->
  rem = (N / 2 ^ Z.of_nat (S i)) mod d ->
  quo = (N / 2 ^ Z.of_nat (S i) / d) * 2 ^ Z.of_nat (S i) ->
  mul_div_step hi lo d i rem quo =
    ((N / 2 ^ Z.of_nat i) mod d, (N / 2 ^ Z.of_nat i / d) * 2 ^ Z.of_nat i).
Proof.
  intros HN Hlo Hhi Hd HQ Hrem Hquo. unfold mul_div_step.
  rewrite mul_div_bit, <- HN by done.
  pose proof (div_pow2_succ N i) as HM.
  pose proof (quotient_bit_high N d i ltac:(unfold U128_MAX in *; lia) ltac:(lia) HQ) as Htop.
  set (M := N / 2 ^ Z.of_nat i) in *. set (M' := N / 2 ^ Z.of_nat (S i)) in *.
  pose proof (Z.mod_pos_bound M 2 ltac:(lia)) as Hb. set (b := M mod 2) in *.
  pose proof (Z.mod_pos_bound M' d ltac:(lia)) as Hr. rewrite <- Hrem in Hr.
  destruct (shift_remainder rem d b Hr Hd Hb) as [-> Hrem'].
  pose proof (bring_down_bit M M' d b HM Hb ltac:(lia)) as Hdm. cbn zeta in Hdm.
  rewrite <- Hrem in Hdm.
  destruct (d <=? 2 * rem + b); injection Hdm as Hm Hq; rewrite Hm, Hq, Hrem'; f_equal.
  - assert (0 <= M' / d)
      by (apply Z.div_pos; [|lia]; unfold M'; apply Z.div_pos; lia).
    destruct (Z.ltb_spec (Z.of_nat i) 128); [|lia].
    rewrite Nat2Z.inj_succ in Hquo.
    rewrite lor_high_bit by (try lia; rewrite Hquo; apply Z.mod_mul; lia).
    rewrite Hquo, Z.pow_succ_r by lia. ring.
  - rewrite Hquo, Nat2Z.inj_succ, Z.pow_succ_r by lia. ring.
Qed.

Lemma mul_div_loop_spec N hi lo d (i : nat) rem quo :
  N = hi * 2 ^ 128 + lo -> 0 <= lo <= U128_MAX -> 0 <= hi ->
  0 < d <= U128_MAX -> N / d <= U128_MAX ->
  rem = (N / 2 ^ Z.of_nat i) mod d ->
  quo = (N / 2 ^ Z.of_nat i / d) * 2 ^ Z.of_nat i ->
  mul_div_loop hi lo d i rem quo = N / d.
Proof.
  intros HN Hlo Hhi Hd HQ. revert rem quo.
  induction i as [|i IH]; intros rem quo Hrem Hquo; cbn [mul_div_loop].
  - rewrite Hquo. cbn. by rewrite Z.div_1_r, Z.mul_1_r.
  - erewrite mul_div_step_spec; eauto.
Qed.

(** ** The 256-bit product *)

Lemma limbs x : 0 <= x <= U128_MAX ->
  x = Z.land x U64_MAX + 2 ^ 64 * Z.shiftr x 64 /\
  0 <= Z.land x U64_MAX <= U64_MAX /\ 0 <= Z.shiftr x 64 <= U64_MAX.
Proof.
  intros Hx. unfold U128_MAX, U64_MAX in *.
  change 18446744073709551615 with (Z.ones 64).
  rewrite Z.land_ones, Z.shiftr_div_pow2 by lia.
  pose proof (Z.div_mod x (2 ^ 64) ltac:(lia)).
  pose proof (Z.mod_pos_bound x (2 ^ 64) ltac:(lia)).
  rewrite Z.ones_equiv. change (Z.pred (2 ^ 64)) with 18446744073709551615. lia.
Qed.

Lemma limb_product x y : 0 <= x <= U64_MAX -> 0 <= y <= U64_MAX ->
  0 <= x * y <= U64_MAX * U64_MAX.
Proof. intros. split; [nia|]. apply Z.mul_le_mono_nonneg; lia. Qed.

(** [overflowing_add]: the wrapped sum and the carry. *)
Lemma overflowing_add_spec x y :
  0 <= x <= U128_MAX -> 0 <= y <= U128_MAX ->
  let c := if U128_MAX <? x + y then 1 else 0 in
  x + y = wrap U128_MAX (x + y) + 2 ^ 128 * c /\ 0 <= c <= 1 /\
  0 <= wrap U128_MAX (x + y) <= U128_MAX.
Proof.
  intros Hx Hy c. subst c. unfold wrap, U128_MAX in *.
  change (340282366920938463463374607431768211455 + 1) with (2 ^ 128).
  pose proof (Z.mod_pos_bound (x + y) (2 ^ 128) ltac:(lia)).
  pose proof (Z.div_mod (x + y) (2 ^ 128) ltac:(lia)).
  destruct (Z.ltb_spec 340282366920938463463374607431768211455 (x + y)).
  - assert ((x + y) / 2 ^ 128 = 1) by (symmetry; apply (Z.div_unique_pos _ _ _ (x + y - 2 ^ 128)); lia). lia.
  - assert ((x + y) / 2 ^ 128 = 0) by (apply Z.div_small; lia). lia.
Qed.

Lemma mul_wide_spec a b hi lo :
  0 <= a <= U128_MAX -> 0 <= b <= U128_MAX -> mul_wide a b = (hi, lo) ->
  a * b = hi * 2 ^ 128 + lo /\ 0 <= lo <= U128_MAX /\ 0 <= hi.
Proof.
  intros Ha Hb. unfold mul_wide.
  pose proof (limbs a Ha) as (Ea & Ba0 & Ba1). pose proof (limbs b Hb) as (Eb & Bb0 & Bb1).
  set (a0 := Z.land a U64_MAX) in *. set (a1 := Z.shiftr a 64) in *.
  set (b0 := Z.land b U64_MAX) in *. set (b1 := Z.shiftr b 64) in *.
  assert (Eab : a * b = a0 * b0 + 2 ^ 64 * (a0 * b1 + a1 * b0) + 2 ^ 128 * (a1 * b1))
    by (rewrite Ea, Eb; ring).
  pose proof (Z.mul_le_mono_nonneg a U128_MAX b U128_MAX ltac:(lia) ltac:(lia) ltac:(lia) ltac:(lia)) as Hab.
  pose proof (limb_product a0 b0 Ba0 Bb0) as P0. pose proof (limb_product a0 b1 Ba0 Bb1) as P1.
  pose proof (limb_product a1 b0 Ba1 Bb0) as P2. pose proof (limb_product a1 b1 Ba1 Bb1) as P3.
  clearbody a0 a1 b0 b1. clear Ea Eb Ba0 Ba1 Bb0 Bb1 Ha Hb.
  rewrite !(wrap_small U128_MAX (_ * _)) by (unfold U64_MAX, U128_MAX in *; lia).
  set (m0 := a0 * b0) in *. set (m1 := a0 * b1) in *.
  set (m2 := a1 * b0) in *. set (m3 := a1 * b1) in *.
  clearbody m0 m1 m2 m3.
  destruct (overflowing_add_spec m1 m2) as (Hmid & Hc & Hm);
    [unfold U64_MAX, U128_MAX in *; lia..|].
  set (mid := wrap U128_MAX (m1 + m2)) in *.
  set (c := if U128_MAX <? m1 + m2 then 1 else 0) in *. clearbody mid c.
  pose proof (Z.div_mod mid (2 ^ 64) ltac:(lia)) as Hdm.
  pose proof (Z.mod_pos_bound mid (2 ^ 64) ltac:(lia)) as Hml.
  assert (Hshl : wrap U128_MAX (Z.shiftl mid 64) = 2 ^ 64 * (mid mod 2 ^ 64)).
  { rewrite Z.shiftl_mul_pow2, Z.mul_comm by lia. unfold wrap.
    change (U128_MAX + 1) with (2 ^ 64 * 2 ^ 64). apply Z.mul_mod_distr_l; lia. }
  rewrite Hshl, Z.shiftr_div_pow2, (Z.shiftl_mul_pow2 c) by lia. clear Hshl.
  set (ml := mid mod 2 ^ 64) in *. set (mh := mid / 2 ^ 64) in *. clearbody ml mh.
  destruct (overflowing_add_spec m0 (2 ^ 64 * ml)) as (Hlo & Hc1 & Hl);
    [unfold U64_MAX, U128_MAX in *; lia..|].
  set (lo' := wrap U128_MAX (m0 + 2 ^ 64 * ml)) in *.
  set (c1 := if U128_MAX <? m0 + 2 ^ 64 * ml then 1 else 0) in *. clearbody lo' c1.
  unfold U64_MAX, U128_MAX in *.
  rewrite (wrap_small _ (m3 + mh)), (wrap_small _ (c * 2 ^ 64)) by lia.
  rewrite (wrap_small _ (m3 + mh + c * 2 ^ 64)), wrap_small by lia.
  intros [= <- <-]. lia.
Qed.

(** [mul_div_floor] is the exact quotient whenever that quotient fits. *)
Lemma mul_div_floor_exact a b d :
  0 <= a <= U128_MAX -> 0 <= b <= U128_MAX -> 0 < d <= U128_MAX ->
  a * b / d <= U128_MAX ->
  mul_div_floor a b d = a * b / d.
Proof.
  intros Ha Hb Hd HQ. unfold mul_div_floor, checked_mul.
  destruct (a * b <=? U128_MAX); [done|].
  destruct (mul_wide a b) as [hi lo] eqn:E.
  apply mul_wide_spec in E as (E & Hlo & Hhi); [|done..].
  rewrite (mul_div_loop_spec (a * b) hi lo d); try done.
  - rewrite Z.div_small; [by rewrite Z.mod_0_l by lia|].
    split; [lia|]. unfold U128_MAX in *.
    apply Z.le_lt_trans with (340282366920938463463374607431768211455 * 340282366920938463463374607431768211455);
      [apply Z.mul_le_mono_nonneg; lia|]. done.
  - rewrite (Z.div_small (a * b)); [by rewrite Z.div_0_l by lia|].
    split; [lia|]. unfold U128_MAX in *.
    apply Z.le_lt_trans with (340282366920938463463374607431768211455 * 340282366920938463463374607431768211455);
      [apply Z.mul_le_mono_nonneg; lia|]. done.
Qed.

(** ** Pricing lemmas

    [price_le v s v' s']: one share of a pool worth [v] with [s] shares is
    worth at most one share of a pool worth [v'] with [s'] shares, both ratios
    taken with the virtual offset. *)

Definition price_le (v s v' s' : Z) : Prop := (v + 1) * (s' + 1) <= (v' + 1) * (s + 1).

Section Pricing.
Implicit Types s v a lp c : Z.

Lemma calc_lp_for_deposit_Some s v a lp :
  u64 s -> u64 v -> u64 a ->
  calc_lp_for_deposit s v a = Some lp <->
    (s = 0 /\ v = 0 /\ lp = a) \/
    (0 < s /\ 0 < v /\ lp = a * (s + 1) / (v + 1) /\ lp <= U64_MAX).
Proof.
  intros Hs Hv Ha. unfold calc_lp_for_deposit, VIRTUAL_SHARES, VIRTUAL_ASSETS.
  unfold fits, U64_MAX in *.
  destruct (Z.eqb_spec s 0) as [->|]; destruct (Z.eqb_spec v 0) as [->|]; cbn [andb];
    try (split; [intros ?|intros [?|?]]; simplify_eq; try lia; naive_solver lia).
  assert (Hm : a * (s + 1) <= U128_MAX).
  { unfold U128_MAX. transitivity (18446744073709551615 * (18446744073709551615 + 1)); [|lia].
    apply Z.mul_le_mono_nonneg; lia. }
  unfold checked_add, checked_mul, checked_div.
  repeat (rewrite (proj2 (Z.leb_le _ U128_MAX)) by (unfold U128_MAX in *; lia);
          cbn [mbind option_bind]).
  rewrite (proj2 (Z.eqb_neq (v + 1) 0)) by lia. cbn [mbind option_bind].
  destruct (Z.ltb_spec 18446744073709551615 (a * (s + 1) / (v + 1))).
  - split; [done|]. intros [|(_ & _ & -> & ?)]; lia.
  - split; [intros [= <-]; right; lia|]. intros [|(_ & _ & -> & ?)]; [lia|done].
Qed.

Lemma calc_collateral_for_withdraw_Some s v l c :
  u64 s -> u64 v -> u64 l ->
  calc_collateral_for_withdraw s v l = Some c <->
    0 < s /\ c = l * (v + 1) / (s + 1) /\ c <= U64_MAX.
Proof.
  intros Hs Hv Hl. unfold calc_collateral_for_withdraw, VIRTUAL_SHARES, VIRTUAL_ASSETS.
  unfold fits, U64_MAX in *.
  destruct (Z.eqb_spec s 0) as [->|]; [split; [done|lia]|].
  assert (Hm : l * (v + 1) <= U128_MAX).
  { unfold U128_MAX. transitivity (18446744073709551615 * (18446744073709551615 + 1)); [|lia].
    apply Z.mul_le_mono_nonneg; lia. }
  unfold checked_add, checked_mul, checked_div.
  repeat (rewrite (proj2 (Z.leb_le _ U128_MAX)) by (unfold U128_MAX in *; lia);
          cbn [mbind option_bind]).
  rewrite (proj2 (Z.eqb_neq (s + 1) 0)) by lia. cbn [mbind option_bind].
  destruct (Z.ltb_spec 18446744073709551615 (l * (v + 1) / (s + 1))).
  - split; [done|]. intros (_ & -> & ?); lia.
  - split; [intros [= <-]; lia|]. by intros (_ & -> & _).
Qed.

(** Rounding is always in favour of the pool. *)
Lemma deposit_rounds_down s v a lp :
  u64 s -> u64 v -> u64 a -> calc_lp_for_deposit s v a = Some lp ->
  0 <= lp <= U64_MAX /\ lp * (v + 1) <= a * (s + 1).
Proof.
  intros Hs Hv Ha H. apply calc_lp_for_deposit_Some in H; [|done..].
  unfold fits, U64_MAX in *. destruct H as [(-> & -> & ->)|(? & ? & -> & ?)]; [lia|].
  pose proof (Z.mul_div_le (a * (s + 1)) (v + 1) ltac:(lia)).
  assert (0 <= a * (s + 1) / (v + 1)) by (apply Z.div_pos; lia). lia.
Qed.

Lemma withdraw_rounds_down s v l c :
  u64 s -> u64 v -> u64 l -> calc_collateral_for_withdraw s v l = Some c ->
  0 < s /\ 0 <= c <= U64_MAX /\ c * (s + 1) <= l * (v + 1).
Proof.
  intros Hs Hv Hl H. apply calc_collateral_for_withdraw_Some in H; [|done..].
  unfold fits, U64_MAX in *. destruct H as (? & -> & ?).
  pose proof (Z.mul_div_le (l * (v + 1)) (s + 1) ltac:(lia)).
  assert (0 <= l * (v + 1) / (s + 1)) by (apply Z.div_pos; lia). lia.
Qed.

(** A redemption never exceeds the sub-pool it is valued against. *)
Lemma withdraw_le_value s v l c :
  u64 s -> u64 v -> u64 l -> l <= s ->
  calc_collateral_for_withdraw s v l = Some c -> c <= v.
Proof.
  intros Hs Hv Hl Hle H. apply withdraw_rounds_down in H; [|done..].
  unfold fits in *. destruct H as (? & ? & ?). nia.
Qed.

Lemma deposit_price_le s v a lp :
  u64 s -> u64 v -> u64 a -> calc_lp_for_deposit s v a = Some lp ->
  price_le v s (v + a) (s + lp).
Proof. intros Hs Hv Ha H. apply deposit_rounds_down in H; [|done..]. unfold price_le. lia. Qed.

Lemma withdraw_price_le s v l c :
  u64 s -> u64 v -> u64 l -> calc_collateral_for_withdraw s v l = Some c ->
  price_le v s (v - c) (s - l).
Proof. intros Hs Hv Hl H. apply withdraw_rounds_down in H; [|done..]. unfold price_le. lia. Qed.

(** [price_le] is what a holder of [x] shares observes. *)
Lemma price_le_redeem s v s' v' x :
  0 <= s -> 0 <= v -> 0 <= s' -> 0 <= v' -> 0 <= x -> price_le v s v' s' ->
  x * (v + 1) / (s + 1) <= x * (v' + 1) / (s' + 1).
Proof.
  intros Hs Hv Hs' Hv' Hx H. unfold price_le in H.
  apply Z.div_le_lower_bound; [lia|].
  pose proof (Z.mul_div_le (x * (v + 1)) (s + 1) ltac:(lia)) as Hd.
  set (q := x * (v + 1) / (s + 1)) in *.
  apply Z.mul_le_mono_pos_r with (p := s + 1); [lia|].
  transitivity (x * (v + 1) * (s' + 1)); [nia|].
  replace (x * (v + 1) * (s' + 1)) with (x * ((v + 1) * (s' + 1))) by ring.
  replace (x * (v' + 1) * (s + 1)) with (x * ((v' + 1) * (s + 1))) by ring.
  apply Z.mul_le_mono_nonneg_l; lia.
Qed.

Lemma price_le_trans v1 s1 v2 s2 v3 s3 :
  0 <= s1 -> 0 <= s2 -> 0 <= s3 ->
  price_le v1 s1 v2 s2 -> price_le v2 s2 v3 s3 -> price_le v1 s1 v3 s3.
Proof.
  unfold price_le. intros H1 H2 H3 Ha Hc. apply (Z.mul_le_mono_pos_r _ _ (s2 + 1)); [lia|].
  nia.
Qed.

(** How far rounding down can go. *)
Lemma deposit_rounds_by_one s v a lp :
  u64 s -> u64 v -> u64 a -> calc_lp_for_deposit s v a = Some lp ->
  a * (s + 1) < (lp + 1) * (v + 1).
Proof.
  intros Hs Hv Ha H. apply calc_lp_for_deposit_Some in H; [|done..].
  unfold fits in *. destruct H as [(-> & -> & ->)|(? & ? & -> & ?)]; [lia|].
  pose proof (Z.mul_succ_div_gt (a * (s + 1)) (v + 1) ltac:(lia)). lia.
Qed.

Lemma withdraw_rounds_by_one s v l c :
  u64 s -> u64 v -> u64 l -> calc_collateral_for_withdraw s v l = Some c ->
  l * (v + 1) < (c + 1) * (s + 1).
Proof.
  intros Hs Hv Hl H. apply calc_collateral_for_withdraw_Some in H as (? & -> & ?); [|done..].
  unfold fits in *. pose proof (Z.mul_succ_div_gt (l * (v + 1)) (s + 1) ltac:(lia)). lia.
Qed.

(** What a depositor gets back from an immediate redemption: no more than was
    put in, and all of it but one token and the price of a share. *)
Lemma deposit_then_withdraw s v a lp c :
  u64 s -> u64 v -> u64 a -> u64 (s + lp) -> u64 (v + a) ->
  calc_lp_for_deposit s v a = Some lp ->
  calc_collateral_for_withdraw (s + lp) (v + a) lp = Some c ->
  c <= a /\ (a - c - 1) * (s + lp + 1) <= v.
Proof.
  intros Hs Hv Ha Hs' Hv' Hd Hw. pose proof (deposit_rounds_by_one _ _ _ _ Hs Hv Ha Hd).
  apply deposit_rounds_down in Hd as [Hlp Hd]; [|done..].
  pose proof (withdraw_rounds_by_one _ _ _ _ Hs' Hv' Hlp Hw).
  apply withdraw_rounds_down in Hw as (_ & _ & Hw); [|done..].
  unfold fits in *. split; nia.
Qed.
End Pricing.

(** ** Tranche lemmas *)

Lemma distribute_loss_spec j s loss jl sl :
  u64 j -> u64 s -> 0 <= loss -> distribute_loss j s loss = (jl, sl) ->
  jl = Z.min loss j /\ sl = Z.min (loss - jl) (saturating_add U64_MAX j s - j).
Proof.
  intros Hj Hs Hl. unfold distribute_loss.
  destruct (Z.leb_spec (Z.min loss (saturating_add U64_MAX j s)) j);
    intros [= <- <-]; width_lia.
Qed.

Lemma fee_weights_bound j s m :
  u64 j -> u64 s -> u16 m ->
  0 <= j * m /\ 0 <= s * 10000 /\ j * m + s * 10000 <= U128_MAX.
Proof.
  intros Hj Hs Hm. unfold fits, U64_MAX, U16_MAX, U128_MAX in *.
  assert (j * m <= 18446744073709551615 * 65535) by (apply Z.mul_le_mono_nonneg; lia).
  split_and!; [nia|lia|lia].
Qed.

(** The two-part formula of the overflow branch is the exact quotient. *)
Lemma two_part_quotient fee w tw :
  0 <= fee -> 0 <= w -> 0 < tw ->
  fee * w / tw = fee / tw * w + fee mod tw * w / tw.
Proof.
  intros Hf Hw Ht. pose proof (Z.div_mod fee tw ltac:(lia)) as E.
  rewrite E at 1.
  replace ((tw * (fee / tw) + fee mod tw) * w) with (fee mod tw * w + fee / tw * w * tw) by ring.
  rewrite Z.div_add by lia. lia.
Qed.

(** The fee split is exact, on every input of the source's types: no operator
    of [distribute_fees] leaves [u128], and the junior share is the floor of
    the weighted share. *)
Lemma distribute_fees_spec j s m fee :
  u64 j -> u64 s -> u16 m -> u64 fee ->
  let w := j * m in let tw := w + s * 10000 in
  distribute_fees j s m fee =
    if (fee =? 0) || (tw =? 0) then (0, 0)
    else (fee * w / tw, fee - fee * w / tw).
Proof.
  intros Hj Hs Hm Hf w tw. unfold distribute_fees.
  pose proof (fee_weights_bound j s m Hj Hs Hm) as (Hw & Hsw & Htw).
  fold w in Hw, Htw |- *. fold tw in Htw.
  assert (Hwt : w <= tw) by (unfold tw; lia).
  destruct (Z.eqb_spec fee 0) as [->|Hf0]; [done|]. cbn [orb].
  unfold fits, U64_MAX in *.
  rewrite (wrap_small _ (j + s)) by (unfold U128_MAX; lia).
  rewrite (wrap_small _ w), (wrap_small _ (s * 10000)), wrap_small by (fold tw; lia).
  fold tw. destruct (Z.eqb_spec (j + s) 0).
  { destruct (Z.eqb_spec tw 0) as [|Htw0]; [done|]. destruct Htw0. unfold tw, w. nia. }
  destruct (Z.eqb_spec tw 0) as [|Htw0]; [done|].
  assert (Hq : fee * w / tw <= fee) by (apply Z.div_le_upper_bound; nia).
  assert (H0 : 0 <= fee * w / tw) by (apply Z.div_pos; nia).
  assert (Hval : match checked_mul U128_MAX fee w with
                 | Some product => product / tw
                 | None => saturating_add U128_MAX (wrap U128_MAX (fee / tw * w))
                             (mul_div_floor (fee mod tw) w tw)
                 end = fee * w / tw).
  { unfold checked_mul. destruct (fee * w <=? U128_MAX); [done|].
    pose proof (Z.mod_pos_bound fee tw ltac:(lia)).
    assert (0 <= fee / tw) by (apply Z.div_pos; lia).
    assert (0 <= fee mod tw * w / tw) by (apply Z.div_pos; nia).
    pose proof (two_part_quotient fee w tw ltac:(lia) ltac:(lia) ltac:(lia)) as E.
    rewrite mul_div_floor_exact;
      [|unfold U128_MAX in *; lia..].
    rewrite wrap_small by (unfold U128_MAX; nia).
    unfold saturating_add. rewrite <- E. unfold U128_MAX. lia. }
  rewrite Hval. f_equal; unfold saturating_sub; lia.
Qed.

(** Conservation of the split. *)
Lemma distribute_fees_sum j s m fee jf sf :
  u64 j -> u64 s -> u16 m -> u64 fee -> distribute_fees j s m fee = (jf, sf) ->
  0 <= jf /\ 0 <= sf /\ jf + sf <= fee /\
  (0 < j * m + s * 10000 -> jf + sf = fee).
Proof.
  intros Hj Hs Hm Hf. rewrite distribute_fees_spec by done. cbn zeta.
  pose proof (fee_weights_bound j s m Hj Hs Hm) as (Hw & Hsw & _).
  unfold fits in *.
  destruct (Z.eqb_spec fee 0); cbn [orb]; [intros [= <- <-]; lia|].
  destruct (Z.eqb_spec (j * m + s * 10000) 0); [intros [= <- <-]; lia|].
  intros [= <- <-].
  assert (fee * (j * m) / (j * m + s * 10000) <= fee) by (apply Z.div_le_upper_bound; nia).
  assert (0 <= fee * (j * m) / (j * m + s * 10000)) by (apply Z.div_pos; nia).
  lia.
Qed.

(** ** High-water mark lemmas *)

Lemma hwm_floor_Some tvl bps f :
  u64 tvl -> u16 bps -> hwm_floor tvl bps = Some f <-> f = tvl * bps / 10000 /\ f <= U64_MAX.
Proof.
  intros Ht Hb. unfold hwm_floor, checked_mul, checked_div, fits, U64_MAX, U16_MAX in *.
  assert (tvl * bps <= 18446744073709551615 * 65535) by (apply Z.mul_le_mono_nonneg; lia).
  rewrite (proj2 (Z.leb_le _ U128_MAX)) by (unfold U128_MAX; lia). cbn.
  destruct (Z.ltb_spec 18446744073709551615 (tvl * bps / 10000));
    split; intros; simplify_eq; [lia|naive_solver|naive_solver].
Qed.

Lemma hwm_withdrawal_allowed_spec post tvl bps :
  u64 tvl -> 0 <= bps <= 10000 ->
  hwm_withdrawal_allowed post tvl bps = true <-> tvl * bps / 10000 <= post.
Proof.
  intros Ht Hb. unfold hwm_withdrawal_allowed.
  assert (Hf : hwm_floor tvl bps = Some (tvl * bps / 10000)).
  { apply hwm_floor_Some; [done|width_lia|]. split; [done|].
    apply Z.div_le_upper_bound; [lia|]. unfold fits, U64_MAX in *. nia. }
  rewrite Hf. apply Z.leb_le.
Qed.
