(* ===== verification/Loop.v ===== *)
(** * The long division as a loop (src/math.rs, [mul_div_floor])

    The program's only unbounded-looking loop is the [while i > 0] of
    [mul_div_floor].  [Math.mul_div_loop] is its functional translation; here
    the loop is a step relation on its three mutable variables, as the source
    runs it, and the relation is shown to stop: after exactly 256 iterations,
    from any state, with the quotient in [quo]. *)

From stdpp Require Import relations.
From S2P Require Import Prelude Math.

(** The variables the loop assigns: [i], [rem] and [quo]. *)
Record DivState := { dv_i : nat; dv_rem : Z; dv_quo : Z }.

Section Division.
Variables hi lo d : Z.

(** One pass through the body of [while i > 0]: the guard holds, [i] is
    decremented, the bit at the new [i] is brought down. *)
Inductive iterates : DivState -> DivState -> Prop :=
  | iteration i rem quo rem' quo' :
      mul_div_step hi lo d i rem quo = (rem', quo') ->
      iterates {| dv_i := S i; dv_rem := rem; dv_quo := quo |}
               {| dv_i := i; dv_rem := rem'; dv_quo := quo' |}.

(** [let mut rem = 0; let mut quo = 0; let mut i = 256]. *)
Definition div_start : DivState := {| dv_i := 256; dv_rem := 0; dv_quo := 0 |}.

(** The guard decides whether there is a next state, and which. *)
Lemma iterates_deterministic x y z : iterates x y -> iterates x z -> y = z.
Proof. inversion 1; subst. inversion 1; subst. congruence. Qed.

Lemma iterates_nf x : nf iterates x <-> dv_i x = O.
Proof.
  destruct x as [[|i] rem quo]; cbn; split; try done.
  - intros _ [y H]. inversion H.
  - intros Hnf. destruct (mul_div_step hi lo d i rem quo) as [rem' quo'] eqn:E.
    destruct Hnf. by eexists; constructor.
Qed.

(** [i] decreases, so every run is finite. *)
Lemma iterates_terminates x : sn iterates x.
Proof.
  destruct x as [i rem quo]. revert rem quo.
  induction i as [|i IH]; intros rem quo; constructor; intros y Hy; inversion Hy; subst.
  apply IH.
Qed.

Lemma iterates_count n x y : nsteps iterates n x y -> dv_i x = (n + dv_i y)%nat.
Proof.
  induction 1 as [|n x y z Hxy _ IH]; [done|]. inversion Hxy; subst; cbn in *. lia.
Qed.

(** A complete run computes what [mul_div_loop] computes. *)
Lemma run_of_loop i rem quo :
  exists rem', nsteps iterates i {| dv_i := i; dv_rem := rem; dv_quo := quo |}
                 {| dv_i := 0; dv_rem := rem'; dv_quo := mul_div_loop hi lo d i rem quo |}.
Proof.
  revert rem quo. induction i as [|i IH]; intros rem quo; cbn [mul_div_loop].
  - exists rem. constructor.
  - destruct (mul_div_step hi lo d i rem quo) as [rem1 quo1] eqn:E.
    destruct (IH rem1 quo1) as [rem' IH']. exists rem'.
    econstructor; [by constructor|exact IH'].
Qed.

(** ** The loop invariant *)

Section Invariant.
Context (N : Z) (HN : N = hi * 2 ^ 128 + lo) (Hlo : 0 <= lo <= U128_MAX) (Hhi : 0 <= hi)
        (Hd : 0 < d <= U128_MAX) (HQ : N / d <= U128_MAX).

(** At index [i] the bits of the dividend at [i] and above have been divided:
    [rem] is their remainder and [quo] their quotient, in place. *)
Definition div_inv (x : DivState) : Prop :=
  dv_rem x = (N / 2 ^ Z.of_nat (dv_i x)) mod d /\
  dv_quo x = (N / 2 ^ Z.of_nat (dv_i x) / d) * 2 ^ Z.of_nat (dv_i x).

Lemma div_inv_step x y : iterates x y -> div_inv x -> div_inv y.
Proof using HN Hlo Hhi Hd HQ.
  destruct 1 as [i rem quo rem' quo' E]. intros [Hr Hq]; cbn [dv_i dv_rem dv_quo] in *.
  rewrite (mul_div_step_spec N) in E by done. by injection E as <- <-.
Qed.

Lemma div_inv_steps n x y : nsteps iterates n x y -> div_inv x -> div_inv y.
Proof using HN Hlo Hhi Hd HQ. induction 1; eauto using div_inv_step. Qed.

Lemma div_inv_start : N < 2 ^ 256 -> div_inv div_start.
Proof using HN Hlo Hhi Hd.
  intros Hb. assert (H0 : N / 2 ^ Z.of_nat 256 = 0)
    by (apply Z.div_small; split; [lia|exact Hb]).
  split; cbn [dv_i dv_rem dv_quo div_start]; rewrite H0.
  - by rewrite Z.mod_0_l by lia.
  - by rewrite Z.div_0_l by lia.
Qed.

Lemma div_inv_end x : div_inv x -> dv_i x = O -> dv_rem x = N mod d /\ dv_quo x = N / d.
Proof using Type.
  intros [Hr Hq] Hi. rewrite Hr, Hq, Hi. cbn. by rewrite Z.div_1_r, Z.mul_1_r.
Qed.

(** The machine registers never overflow: the remainder stays below the
    divisor and the quotient within the final one. *)
Lemma div_inv_bounds x : div_inv x -> 0 <= dv_rem x < d /\ 0 <= dv_quo x <= N / d.
Proof using HN Hlo Hhi Hd.
  intros [Hr Hq]. rewrite Hr, Hq. set (p := 2 ^ Z.of_nat (dv_i x)).
  assert (0 < p) by (apply Z.pow_pos_nonneg; lia).
  assert (0 <= N) by lia.
  pose proof (Z.div_pos N p ltac:(lia) ltac:(lia)).
  split; [apply Z.mod_pos_bound; lia|]. split.
  - assert (0 <= N / p / d) by (apply Z.div_pos; lia). apply Z.mul_nonneg_nonneg; lia.
  - rewrite Z.div_div, (Z.mul_comm p d), <- Z.div_div, Z.mul_comm by lia.
    apply Z.mul_div_le. lia.
Qed.
End Invariant.
End Division.

Lemma product_bound a b : u128 a -> u128 b -> 0 <= a * b < 2 ^ 256.
Proof.
  unfold fits, U128_MAX. intros Ha Hb. split; [lia|].
  apply Z.le_lt_trans
    with (340282366920938463463374607431768211455 * 340282366920938463463374607431768211455);
    [apply Z.mul_le_mono_nonneg; lia|]. done.
Qed.

(** C28: on the slow path of [mul_div_floor] every run of the [while i > 0] loop
    is finite; a run that has stopped has made exactly 256 iterations and holds
    the exact remainder and quotient of the 256-bit product; such a run exists
    and its quotient is what [mul_div_floor] returns; and at every iteration
    [rem] is below the divisor and [quo] below the result, so neither 128-bit
    register overflows. *)
Theorem long_division_terminates a b d hi lo :
  u128 a -> u128 b -> 0 < d <= U128_MAX -> a * b / d <= U128_MAX ->
  U128_MAX < a * b -> mul_wide a b = (hi, lo) ->
  sn (iterates hi lo d) div_start /\
  (forall n x, nsteps (iterates hi lo d) n div_start x ->
     0 <= dv_rem x < d /\ 0 <= dv_quo x <= a * b / d /\
     (nf (iterates hi lo d) x ->
      n = 256%nat /\ dv_rem x = (a * b) mod d /\ dv_quo x = a * b / d)) /\
  (exists x, nsteps (iterates hi lo d) 256 div_start x /\
             nf (iterates hi lo d) x /\ dv_quo x = mul_div_floor a b d).
Proof.
  intros Ha Hb Hd HQ Hslow Hw. pose proof (product_bound a b Ha Hb) as [_ HN].
  pose proof Hw as Hw'. apply mul_wide_spec in Hw' as (E & Hlo & Hhi); [|done..].
  assert (Hrun : forall n x, nsteps (iterates hi lo d) n div_start x -> div_inv d (a * b) x)
    by (intros; eapply div_inv_steps; eauto using div_inv_start).
  split; [apply iterates_terminates|]. split.
  - intros n x Hx. pose proof (Hrun n x Hx) as Hinv.
    destruct (div_inv_bounds hi lo d (a * b) E Hlo Hhi Hd x Hinv) as [Hr Hq].
    split; [exact Hr|]. split; [exact Hq|]. intros Hnf%iterates_nf.
    apply iterates_count in Hx. cbn [dv_i div_start] in Hx.
    split; [lia|]. by apply div_inv_end.
  - destruct (run_of_loop hi lo d 256 0 0) as [rem Hx].
    eexists; split; [exact Hx|]. split; [by apply iterates_nf|]. cbn [dv_quo].
    unfold mul_div_floor, checked_mul. by rewrite (proj2 (Z.leb_gt _ _) Hslow), Hw.
Qed.

(** The largest weights of a fee split: the loop runs, and its last state holds
    the quotient. *)
Lemma long_division_terminates_witness :
  exists x, nsteps (iterates (2 ^ 126) 0 (2 ^ 127)) 256 div_start x /\
            nf (iterates (2 ^ 126) 0 (2 ^ 127)) x /\
            dv_quo x = mul_div_floor (2 ^ 127) (2 ^ 127) (2 ^ 127) /\
            dv_quo x = 2 ^ 127.
Proof.
  destruct (long_division_terminates (2 ^ 127) (2 ^ 127) (2 ^ 127) (2 ^ 126) 0)
    as (_ & Hall & x & Hx & Hnf & Hq);
    [by vm_compute|by vm_compute|by vm_compute|by vm_compute|by vm_compute|by vm_compute|].
  exists x. split; [exact Hx|]. split; [exact Hnf|]. split; [exact Hq|].
  rewrite Hq. by vm_compute.
Defined.
