(* ===== verification/State.v ===== *)
(** * Program state (src/state.rs)

    [StakePool] and [StakeDeposit] with the source's fields (prefixed [sp_] and
    [sd_]), their [repr(C)] byte layout, the accessors carved out of
    [_reserved], and the derived quantities every handler prices against. *)

From S2P Require Import Prelude Math.

(** "SPOOL_V1" and "SDEP_V1\0" *)
Definition STAKE_POOL_DISCRIMINATOR : list Z :=
  [0x53; 0x50; 0x4F; 0x4F; 0x4C; 0x5F; 0x56; 0x31].
Definition STAKE_DEPOSIT_DISCRIMINATOR : list Z :=
  [0x53; 0x44; 0x45; 0x50; 0x5F; 0x56; 0x31; 0x00].

Definition MINIMUM_LIQUIDITY : Z := 1000.

(** ** The structs *)

#[local] Set Primitive Projections.
Record StakePool : Set := mkStakePool {
  sp_is_initialized : Z;
  sp_bump : Z;
  sp_vault_authority_bump : Z;
  sp_admin_transferred : Z;
  sp_padding : list Z;
  sp_slab : list Z;
  sp_admin : list Z;
  sp_collateral_mint : list Z;
  sp_lp_mint : list Z;
  sp_vault : list Z;
  sp_total_deposited : Z;
  sp_total_lp_supply : Z;
  sp_cooldown_slots : Z;
  sp_deposit_cap : Z;
  sp_total_flushed : Z;
  sp_total_returned : Z;
  sp_total_withdrawn : Z;
  sp_percolator_program : list Z;
  sp_total_fees_earned : Z;
  sp_last_fee_accrual_slot : Z;
  sp_last_vault_snapshot : Z;
  sp_pool_mode : Z;
  sp_mode_padding : list Z;
  sp_pending_admin : list Z;
  sp_reserved : list Z;
  sp_total_recovered_from_wrapper : Z;
  sp_pending_cooldown_slots : Z;
  sp_cooldown_proposed_at_slot : Z;
}.

Record StakeDeposit : Set := mkStakeDeposit {
  sd_is_initialized : Z;
  sd_bump : Z;
  sd_padding : list Z;
  sd_pool : list Z;
  sd_user : list Z;
  sd_last_deposit_slot : Z;
  sd_lp_amount : Z;
  sd_reserved : list Z;
}.
#[local] Unset Primitive Projections.

#[export] Instance set_sp_is_initialized : Setter sp_is_initialized := ltac:(solve_setter).
#[export] Instance set_sp_bump : Setter sp_bump := ltac:(solve_setter).
#[export] Instance set_sp_vault_authority_bump : Setter sp_vault_authority_bump := ltac:(solve_setter).
#[export] Instance set_sp_admin_transferred : Setter sp_admin_transferred := ltac:(solve_setter).
#[export] Instance set_sp_slab : Setter sp_slab := ltac:(solve_setter).
#[export] Instance set_sp_admin : Setter sp_admin := ltac:(solve_setter).
#[export] Instance set_sp_collateral_mint : Setter sp_collateral_mint := ltac:(solve_setter).
#[export] Instance set_sp_lp_mint : Setter sp_lp_mint := ltac:(solve_setter).
#[export] Instance set_sp_vault : Setter sp_vault := ltac:(solve_setter).
#[export] Instance set_sp_total_deposited : Setter sp_total_deposited := ltac:(solve_setter).
#[export] Instance set_sp_total_lp_supply : Setter sp_total_lp_supply := ltac:(solve_setter).
#[export] Instance set_sp_cooldown_slots : Setter sp_cooldown_slots := ltac:(solve_setter).
#[export] Instance set_sp_deposit_cap : Setter sp_deposit_cap := ltac:(solve_setter).
#[export] Instance set_sp_total_flushed : Setter sp_total_flushed := ltac:(solve_setter).
#[export] Instance set_sp_total_returned : Setter sp_total_returned := ltac:(solve_setter).
#[export] Instance set_sp_total_withdrawn : Setter sp_total_withdrawn := ltac:(solve_setter).
#[export] Instance set_sp_percolator_program : Setter sp_percolator_program := ltac:(solve_setter).
#[export] Instance set_sp_total_fees_earned : Setter sp_total_fees_earned := ltac:(solve_setter).
#[export] Instance set_sp_last_fee_accrual_slot : Setter sp_last_fee_accrual_slot := ltac:(solve_setter).
#[export] Instance set_sp_last_vault_snapshot : Setter sp_last_vault_snapshot := ltac:(solve_setter).
#[export] Instance set_sp_pool_mode : Setter sp_pool_mode := ltac:(solve_setter).
#[export] Instance set_sp_pending_admin : Setter sp_pending_admin := ltac:(solve_setter).
#[export] Instance set_sp_reserved : Setter sp_reserved := ltac:(solve_setter).
#[export] Instance set_sp_total_recovered_from_wrapper : Setter sp_total_recovered_from_wrapper := ltac:(solve_setter).
#[export] Instance set_sp_pending_cooldown_slots : Setter sp_pending_cooldown_slots := ltac:(solve_setter).
#[export] Instance set_sp_cooldown_proposed_at_slot : Setter sp_cooldown_proposed_at_slot := ltac:(solve_setter).

#[export] Instance set_sd_is_initialized : Setter sd_is_initialized := ltac:(solve_setter).
#[export] Instance set_sd_bump : Setter sd_bump := ltac:(solve_setter).
#[export] Instance set_sd_pool : Setter sd_pool := ltac:(solve_setter).
#[export] Instance set_sd_user : Setter sd_user := ltac:(solve_setter).
#[export] Instance set_sd_last_deposit_slot : Setter sd_last_deposit_slot := ltac:(solve_setter).
#[export] Instance set_sd_lp_amount : Setter sd_lp_amount := ltac:(solve_setter).
#[export] Instance set_sd_reserved : Setter sd_reserved := ltac:(solve_setter).

(** ** Byte layout

    [bytemuck] reinterprets the first [STAKE_POOL_SIZE] bytes of an account as
    the [repr(C)] struct: fields in declaration order, integers little-endian. *)

Definition byte_at (i : nat) (l : list Z) : Z := nth i l 0.

Definition STAKE_POOL_SIZE : nat := 408.
Definition STAKE_DEPOSIT_SIZE : nat := 152.

Definition pool_chunks (p : StakePool) : list (list Z) :=
  [ [p.(sp_is_initialized)];
    [p.(sp_bump)];
    [p.(sp_vault_authority_bump)];
    [p.(sp_admin_transferred)];
    p.(sp_padding);
    p.(sp_slab);
    p.(sp_admin);
    p.(sp_collateral_mint);
    p.(sp_lp_mint);
    p.(sp_vault);
    le_bytes 8 p.(sp_total_deposited);
    le_bytes 8 p.(sp_total_lp_supply);
    le_bytes 8 p.(sp_cooldown_slots);
    le_bytes 8 p.(sp_deposit_cap);
    le_bytes 8 p.(sp_total_flushed);
    le_bytes 8 p.(sp_total_returned);
    le_bytes 8 p.(sp_total_withdrawn);
    p.(sp_percolator_program);
    le_bytes 8 p.(sp_total_fees_earned);
    le_bytes 8 p.(sp_last_fee_accrual_slot);
    le_bytes 8 p.(sp_last_vault_snapshot);
    [p.(sp_pool_mode)];
    p.(sp_mode_padding);
    p.(sp_pending_admin);
    p.(sp_reserved);
    le_bytes 8 p.(sp_total_recovered_from_wrapper);
    le_bytes 8 p.(sp_pending_cooldown_slots);
    le_bytes 8 p.(sp_cooldown_proposed_at_slot) ].

Definition pool_encode (p : StakePool) : list Z := concat (pool_chunks p).

(** [offset_of!]: where the n-th field starts. *)
Definition pool_offset (field : nat) (p : StakePool) : nat :=
  length (concat (take field (pool_chunks p))).

(** The compile-time assertions on the offsets the wrapper reads: is_initialized,
    slab, vault, percolator_program, pool_mode and the discriminator and version
    inside the reserved area. *)
Definition pinned_layout (p : StakePool) : bool :=
  (pool_offset 0 p =? 0)%nat && (pool_offset 5 p =? 8)%nat && (pool_offset 9 p =? 136)%nat &&
  (pool_offset 17 p =? 224)%nat && (pool_offset 21 p =? 280)%nat &&
  (pool_offset 24 p =? 320)%nat && (pool_offset 24 p + 8 =? 328)%nat &&
  (STAKE_POOL_SIZE =? 408)%nat.

Definition pool_decode (data : list Z) : StakePool :=
  {| sp_is_initialized := byte_at 0 data;
     sp_bump := byte_at 1 data;
     sp_vault_authority_bump := byte_at 2 data;
     sp_admin_transferred := byte_at 3 data;
     sp_padding := slice 4 8 data;
     sp_slab := slice 8 40 data;
     sp_admin := slice 40 72 data;
     sp_collateral_mint := slice 72 104 data;
     sp_lp_mint := slice 104 136 data;
     sp_vault := slice 136 168 data;
     sp_total_deposited := le_val (slice 168 176 data);
     sp_total_lp_supply := le_val (slice 176 184 data);
     sp_cooldown_slots := le_val (slice 184 192 data);
     sp_deposit_cap := le_val (slice 192 200 data);
     sp_total_flushed := le_val (slice 200 208 data);
     sp_total_returned := le_val (slice 208 216 data);
     sp_total_withdrawn := le_val (slice 216 224 data);
     sp_percolator_program := slice 224 256 data;
     sp_total_fees_earned := le_val (slice 256 264 data);
     sp_last_fee_accrual_slot := le_val (slice 264 272 data);
     sp_last_vault_snapshot := le_val (slice 272 280 data);
     sp_pool_mode := byte_at 280 data;
     sp_mode_padding := slice 281 288 data;
     sp_pending_admin := slice 288 320 data;
     sp_reserved := slice 320 384 data;
     sp_total_recovered_from_wrapper := le_val (slice 384 392 data);
     sp_pending_cooldown_slots := le_val (slice 392 400 data);
     sp_cooldown_proposed_at_slot := le_val (slice 400 408 data) |}.

Definition deposit_chunks (d : StakeDeposit) : list (list Z) :=
  [ [d.(sd_is_initialized)];
    [d.(sd_bump)];
    d.(sd_padding);
    d.(sd_pool);
    d.(sd_user);
    le_bytes 8 d.(sd_last_deposit_slot);
    le_bytes 8 d.(sd_lp_amount);
    d.(sd_reserved) ].

Definition deposit_encode (d : StakeDeposit) : list Z := concat (deposit_chunks d).

Definition deposit_decode (data : list Z) : StakeDeposit :=
  {| sd_is_initialized := byte_at 0 data;
     sd_bump := byte_at 1 data;
     sd_padding := slice 2 8 data;
     sd_pool := slice 8 40 data;
     sd_user := slice 40 72 data;
     sd_last_deposit_slot := le_val (slice 72 80 data);
     sd_lp_amount := le_val (slice 80 88 data);
     sd_reserved := slice 88 152 data |}.

(** ** [StakeDeposit] accessors *)

Definition deposit_set_discriminator (d : StakeDeposit) : StakeDeposit :=
  d <| sd_reserved := splice 0 STAKE_DEPOSIT_DISCRIMINATOR d.(sd_reserved) |>.

Definition deposit_validate_discriminator (d : StakeDeposit) : bool :=
  bool_decide (slice 0 8 d.(sd_reserved) = STAKE_DEPOSIT_DISCRIMINATOR).

Definition is_junior_deposit (d : StakeDeposit) : bool :=
  byte_at 8 d.(sd_reserved) =? 1.

Definition set_junior_deposit (v : bool) (d : StakeDeposit) : StakeDeposit :=
  d <| sd_reserved := splice 8 [if v then 1 else 0] d.(sd_reserved) |>.

(** ** [StakePool] accessors *)

Definition ZERO_KEY : list Z := replicate 32 0.

Definition pending_admin_pubkey (p : StakePool) : option (list Z) :=
  if bool_decide (p.(sp_pending_admin) = ZERO_KEY) then None else Some p.(sp_pending_admin).

Definition market_resolved (p : StakePool) : bool :=
  negb (byte_at 9 p.(sp_reserved) =? 0).
Definition set_market_resolved (resolved : bool) (p : StakePool) : StakePool :=
  p <| sp_reserved := splice 9 [if resolved then 1 else 0] p.(sp_reserved) |>.

Definition tranche_enabled (p : StakePool) : bool := byte_at 32 p.(sp_reserved) =? 1.
Definition set_tranche_enabled (enabled : bool) (p : StakePool) : StakePool :=
  p <| sp_reserved := splice 32 [if enabled then 1 else 0] p.(sp_reserved) |>.

Definition junior_balance (p : StakePool) : Z := le_val (slice 33 41 p.(sp_reserved)).
Definition set_junior_balance (val : Z) (p : StakePool) : StakePool :=
  p <| sp_reserved := splice 33 (le_bytes 8 val) p.(sp_reserved) |>.

Definition junior_total_lp (p : StakePool) : Z := le_val (slice 41 49 p.(sp_reserved)).
Definition set_junior_total_lp (val : Z) (p : StakePool) : StakePool :=
  p <| sp_reserved := splice 41 (le_bytes 8 val) p.(sp_reserved) |>.

Definition junior_fee_mult_bps (p : StakePool) : Z := le_val (slice 49 51 p.(sp_reserved)).
Definition set_junior_fee_mult_bps (val : Z) (p : StakePool) : StakePool :=
  p <| sp_reserved := splice 49 (le_bytes 2 val) p.(sp_reserved) |>.

Definition senior_total_lp (p : StakePool) : Z :=
  saturating_sub p.(sp_total_lp_supply) (junior_total_lp p).

Definition realized_junior_loss (p : StakePool) : Z := le_val (slice 51 59 p.(sp_reserved)).
Definition set_realized_junior_loss (val : Z) (p : StakePool) : StakePool :=
  p <| sp_reserved := splice 51 (le_bytes 8 val) p.(sp_reserved) |>.

Definition asset_admin_burned (p : StakePool) : bool := byte_at 59 p.(sp_reserved) =? 1.
Definition set_asset_admin_burned (burned : bool) (p : StakePool) : StakePool :=
  p <| sp_reserved := splice 59 [if burned then 1 else 0] p.(sp_reserved) |>.

Definition set_pending_cooldown_slots (val : Z) (p : StakePool) : StakePool :=
  p <| sp_pending_cooldown_slots := val |>.
Definition set_cooldown_proposed_at_slot (val : Z) (p : StakePool) : StakePool :=
  p <| sp_cooldown_proposed_at_slot := val |>.

Definition CURRENT_VERSION : Z := 4.

Definition set_discriminator (p : StakePool) : StakePool :=
  let p := p <| sp_reserved := splice 0 STAKE_POOL_DISCRIMINATOR p.(sp_reserved) |> in
  p <| sp_reserved := splice 8 [CURRENT_VERSION] p.(sp_reserved) |>.
Definition version (p : StakePool) : Z := byte_at 8 p.(sp_reserved).
Definition validate_discriminator (p : StakePool) : bool :=
  bool_decide (slice 0 8 p.(sp_reserved) = STAKE_POOL_DISCRIMINATOR).

Definition hwm_enabled (p : StakePool) : bool := byte_at 10 p.(sp_reserved) =? 1.
Definition set_hwm_enabled (enabled : bool) (p : StakePool) : StakePool :=
  p <| sp_reserved := splice 10 [if enabled then 1 else 0] p.(sp_reserved) |>.

Definition hwm_floor_bps (p : StakePool) : Z :=
  le_val [byte_at 11 p.(sp_reserved); byte_at 12 p.(sp_reserved)].
Definition set_hwm_floor_bps (bps : Z) (p : StakePool) : StakePool :=
  let bytes := le_bytes 2 bps in
  let p := p <| sp_reserved := splice 11 [byte_at 0 bytes] p.(sp_reserved) |> in
  p <| sp_reserved := splice 12 [byte_at 1 bytes] p.(sp_reserved) |>.

Definition epoch_high_water_tvl (p : StakePool) : Z := le_val (slice 16 24 p.(sp_reserved)).
Definition set_epoch_high_water_tvl (tvl : Z) (p : StakePool) : StakePool :=
  p <| sp_reserved := splice 16 (le_bytes 8 tvl) p.(sp_reserved) |>.

Definition hwm_last_epoch (p : StakePool) : Z := le_val (slice 24 32 p.(sp_reserved)).
Definition set_hwm_last_epoch (epoch : Z) (p : StakePool) : StakePool :=
  p <| sp_reserved := splice 24 (le_bytes 8 epoch) p.(sp_reserved) |>.

(** The keys, as [Pubkey]s: keys and byte arrays are one type here. *)
Definition slab_pubkey (p : StakePool) : list Z := p.(sp_slab).
Definition admin_pubkey (p : StakePool) : list Z := p.(sp_admin).
Definition collateral_mint_pubkey (p : StakePool) : list Z := p.(sp_collateral_mint).
Definition lp_mint_pubkey (p : StakePool) : list Z := p.(sp_lp_mint).
Definition vault_pubkey (p : StakePool) : list Z := p.(sp_vault).
Definition percolator_program_pubkey (p : StakePool) : list Z := p.(sp_percolator_program).

Definition pending_cooldown_slots (p : StakePool) : Z := p.(sp_pending_cooldown_slots).
Definition cooldown_proposed_at_slot (p : StakePool) : Z := p.(sp_cooldown_proposed_at_slot).

(** ** Derived quantities *)

(** [refresh_hwm(&mut self, ..) -> u64]: the updated pool and the mark. *)
Definition refresh_hwm (current_epoch current_tvl : Z) (p : StakePool) : StakePool * Z :=
  let p :=
    if negb (current_epoch =? hwm_last_epoch p) then
      set_hwm_last_epoch current_epoch (set_epoch_high_water_tvl current_tvl p)
    else if epoch_high_water_tvl p <? current_tvl then
      set_epoch_high_water_tvl current_tvl p
    else p in
  (p, epoch_high_water_tvl p).

(** The source sums in [i128]; six [u64] terms cannot leave it. *)
Definition total_pool_value (p : StakePool) : option Z :=
  let value := p.(sp_total_deposited) - p.(sp_total_withdrawn) - p.(sp_total_flushed)
               + p.(sp_total_returned) + p.(sp_total_fees_earned)
               - realized_junior_loss p in
  if (value <? 0) || (U64_MAX <? value) then None else Some value.

Definition principal_tvl (p : StakePool) : option Z :=
  let value := p.(sp_total_deposited) - p.(sp_total_withdrawn) - p.(sp_total_flushed)
               + p.(sp_total_returned) - realized_junior_loss p in
  Some (Z.max 0 (Z.min U64_MAX value)).

Definition effective_junior_balance (p : StakePool) : Z :=
  let jb := junior_balance p in
  let net_loss := saturating_sub p.(sp_total_flushed) p.(sp_total_returned) in
  if net_loss =? 0 then jb
  else
    let gross_pool := saturating_sub p.(sp_total_deposited) p.(sp_total_withdrawn) in
    let gross_senior := saturating_sub gross_pool jb in
    let '(junior_loss, _) := distribute_loss jb gross_senior net_loss in
    saturating_sub jb junior_loss.

Definition senior_balance (p : StakePool) : option Z :=
  value ← total_pool_value p;
  checked_sub value (effective_junior_balance p).

Definition wrapper_recoverable (p : StakePool) : Z :=
  saturating_sub (saturating_sub p.(sp_total_flushed) (realized_junior_loss p))
    p.(sp_total_recovered_from_wrapper).

Definition wrapper_fully_recovered (p : StakePool) : bool := wrapper_recoverable p =? 0.

Definition pool_calc_lp_for_deposit (p : StakePool) (amount : Z) : option Z :=
  pv ← total_pool_value p;
  calc_lp_for_deposit p.(sp_total_lp_supply) pv amount.

Definition pool_calc_collateral_for_withdraw (p : StakePool) (lp_amount : Z) : option Z :=
  pv ← total_pool_value p;
  calc_collateral_for_withdraw p.(sp_total_lp_supply) pv lp_amount.

(** ** Well-formed records

    The ranges the Rust types give for free: every integer fits its width and
    every byte array has its length. *)

Definition key_ok (k : list Z) : Prop := length k = 32%nat /\ bytes_ok k.

Record wf_pool (p : StakePool) : Prop := {
  wf_u8 : Forall u8 [p.(sp_is_initialized); p.(sp_bump); p.(sp_vault_authority_bump);
                     p.(sp_admin_transferred); p.(sp_pool_mode)];
  wf_u64 : Forall u64 [p.(sp_total_deposited); p.(sp_total_lp_supply); p.(sp_cooldown_slots);
                       p.(sp_deposit_cap); p.(sp_total_flushed); p.(sp_total_returned);
                       p.(sp_total_withdrawn); p.(sp_total_fees_earned);
                       p.(sp_last_fee_accrual_slot); p.(sp_last_vault_snapshot);
                       p.(sp_total_recovered_from_wrapper); p.(sp_pending_cooldown_slots);
                       p.(sp_cooldown_proposed_at_slot)];
  wf_keys : Forall key_ok [p.(sp_slab); p.(sp_admin); p.(sp_collateral_mint); p.(sp_lp_mint);
                           p.(sp_vault); p.(sp_percolator_program); p.(sp_pending_admin)];
  wf_pads : length p.(sp_padding) = 4%nat /\ bytes_ok p.(sp_padding) /\
            length p.(sp_mode_padding) = 7%nat /\ bytes_ok p.(sp_mode_padding);
  wf_reserved : length p.(sp_reserved) = 64%nat /\ bytes_ok p.(sp_reserved);
}.

Record wf_deposit (d : StakeDeposit) : Prop := {
  wfd_u8 : Forall u8 [d.(sd_is_initialized); d.(sd_bump)];
  wfd_u64 : Forall u64 [d.(sd_last_deposit_slot); d.(sd_lp_amount)];
  wfd_keys : Forall key_ok [d.(sd_pool); d.(sd_user)];
  wfd_padding : length d.(sd_padding) = 6%nat /\ bytes_ok d.(sd_padding);
  wfd_reserved : length d.(sd_reserved) = 64%nat /\ bytes_ok d.(sd_reserved);
}.

(** ** Layout lemmas *)

Lemma byte_at_slice i (l : list Z) :
  (i < length l)%nat -> [byte_at i l] = slice i (S i) l.
Proof.
  intros Hi. apply list_eq. intros [|j]; cbn.
  - rewrite slice_lookup by lia. rewrite Nat.add_0_r. unfold byte_at.
    rewrite nth_lookup. by destruct (lookup_lt_is_Some_2 l i Hi) as [x ->].
  - by rewrite lookup_ge_None_2 by (rewrite length_slice; lia).
Qed.

Lemma byte_at_le_val i (l : list Z) :
  (i < length l)%nat -> byte_at i l = le_val (slice i (S i) l).
Proof. intros. rewrite <- byte_at_slice by done. unfold le_val. lia. Qed.

Lemma slice_concat (cs : list (list Z)) (i a b : nat) c :
  cs !! i = Some c ->
  a = sum_list (length <$> take i cs) -> b = (a + length c)%nat ->
  slice a b (concat cs) = c.
Proof.
  intros Hi -> ->. rewrite <- (take_drop_middle cs i c Hi) at 3.
  rewrite concat_app. cbn [concat]. unfold slice.
  assert (Hl : length (concat (take i cs)) = sum_list (length <$> take i cs)).
  { generalize (take i cs). induction l as [|x l IH]; [done|].
    cbn. by rewrite length_app, IH. }
  rewrite drop_app_length' by (by rewrite Hl).
  rewrite take_app_length'; [done|lia].
Qed.

Lemma slice_app a b c (l : list Z) :
  (a <= b)%nat -> (b <= c)%nat -> slice a b l ++ slice b c l = slice a c l.
Proof.
  intros. unfold slice. replace (c - a)%nat with ((b - a) + (c - b))%nat by lia.
  rewrite <- take_take_drop, drop_drop. do 3 f_equal. lia.
Qed.

Lemma le_bytes_slice n a b (l : list Z) :
  bytes_ok l -> b = (a + n)%nat -> (b <= length l)%nat ->
  le_bytes n (le_val (slice a b l)) = slice a b l.
Proof.
  intros Hl -> Hb. rewrite <- (le_bytes_le_val (slice a (a + n) l)) at 2 by auto with stake.
  rewrite length_slice by done. f_equal. lia.
Qed.

Lemma length_concat_chunks (cs : list (list Z)) :
  length (concat cs) = sum_list (length <$> cs).
Proof. induction cs as [|x cs IH]; [done|]. cbn. by rewrite length_app, IH. Qed.

Ltac forall_simpl :=
  repeat match goal with
  | H : Forall _ (_ :: _) |- _ => apply Forall_cons_1 in H; destruct H
  | H : Forall _ [] |- _ => clear H
  | H : key_ok _ |- _ => destruct H
  end.

Ltac wf_destruct :=
  repeat match goal with
  | H : wf_pool _ |- _ => destruct H
  | H : wf_deposit _ |- _ => destruct H
  end; forall_simpl; destruct_and?.

Lemma length_pool_encode p : wf_pool p -> length (pool_encode p) = STAKE_POOL_SIZE.
Proof.
  intros. wf_destruct. unfold pool_encode. rewrite length_concat_chunks. cbn.
  rewrite ?length_le_bytes. unfold STAKE_POOL_SIZE. lia.
Qed.

Lemma length_deposit_encode d : wf_deposit d -> length (deposit_encode d) = STAKE_DEPOSIT_SIZE.
Proof.
  intros. wf_destruct. unfold deposit_encode. rewrite length_concat_chunks. cbn.
  rewrite ?length_le_bytes. unfold STAKE_DEPOSIT_SIZE. lia.
Qed.

Lemma bytes_ok_1 z : u8 z -> bytes_ok [z].
Proof. intros. constructor; [|constructor]. unfold byte_ok. width_lia. Qed.
#[export] Hint Resolve bytes_ok_1 : stake.

Lemma bytes_ok_app l1 l2 : bytes_ok l1 -> bytes_ok l2 -> bytes_ok (l1 ++ l2).
Proof. intros. unfold bytes_ok. by rewrite Forall_app. Qed.
#[export] Hint Resolve bytes_ok_app Forall_nil_2 : stake.

Lemma bytes_ok_pool_encode p : wf_pool p -> bytes_ok (pool_encode p).
Proof.
  intros. wf_destruct. unfold pool_encode. cbn [concat pool_chunks].
  repeat (apply bytes_ok_app; [solve [auto with stake]|]). constructor.
Qed.

Lemma bytes_ok_deposit_encode d : wf_deposit d -> bytes_ok (deposit_encode d).
Proof.
  intros. wf_destruct. unfold deposit_encode. cbn [concat deposit_chunks].
  repeat (apply bytes_ok_app; [solve [auto with stake]|]). constructor.
Qed.

(** Closes a goal [<read at its offset> (encode r) = <field>] by locating the
    chunk of the field. *)
Ltac chunk_at i :=
  apply (slice_concat _ i);
  [reflexivity | cbn; rewrite ?length_le_bytes; lia | cbn; rewrite ?length_le_bytes; lia].

Ltac field_at i :=
  lazymatch goal with
  | |- slice _ _ _ = _ => chunk_at i
  | |- le_val _ = _ =>
      etransitivity; [apply (f_equal le_val); chunk_at i|];
      apply le_val_le_bytes_small; width_lia
  | |- byte_at _ _ = _ =>
      rewrite byte_at_le_val by
        (rewrite length_concat_chunks; cbn; rewrite ?length_le_bytes; lia);
      etransitivity; [apply (f_equal le_val); chunk_at i|]; unfold le_val; lia
  end.

Ltac solve_field i :=
  first [ solve [field_at i]
        | lazymatch i with 28%nat => fail 1 | _ => solve_field constr:(S i) end ].

Lemma StakePool_eta (p : StakePool) :
  p = mkStakePool
    p.(sp_is_initialized) p.(sp_bump) p.(sp_vault_authority_bump)
    p.(sp_admin_transferred) p.(sp_padding) p.(sp_slab) p.(sp_admin)
    p.(sp_collateral_mint) p.(sp_lp_mint) p.(sp_vault) p.(sp_total_deposited)
    p.(sp_total_lp_supply) p.(sp_cooldown_slots) p.(sp_deposit_cap)
    p.(sp_total_flushed) p.(sp_total_returned) p.(sp_total_withdrawn)
    p.(sp_percolator_program) p.(sp_total_fees_earned) p.(sp_last_fee_accrual_slot)
    p.(sp_last_vault_snapshot) p.(sp_pool_mode) p.(sp_mode_padding)
    p.(sp_pending_admin) p.(sp_reserved) p.(sp_total_recovered_from_wrapper)
    p.(sp_pending_cooldown_slots) p.(sp_cooldown_proposed_at_slot).
Proof. done. Qed.

Lemma StakeDeposit_eta (d : StakeDeposit) :
  d = mkStakeDeposit
    d.(sd_is_initialized) d.(sd_bump) d.(sd_padding) d.(sd_pool) d.(sd_user)
    d.(sd_last_deposit_slot) d.(sd_lp_amount) d.(sd_reserved).
Proof. done. Qed.

Lemma pool_decode_encode p : wf_pool p -> pool_decode (pool_encode p) = p.
Proof.
  intros. wf_destruct. unfold pool_decode, pool_encode.
  etransitivity; [|symmetry; apply StakePool_eta].
  f_equal; solve_field 0%nat.
Qed.

Lemma deposit_decode_encode d : wf_deposit d -> deposit_decode (deposit_encode d) = d.
Proof.
  intros. wf_destruct. unfold deposit_decode, deposit_encode.
  etransitivity; [|symmetry; apply StakeDeposit_eta].
  f_equal; solve_field 0%nat.
Qed.

Lemma u64_le_val (l : list Z) : bytes_ok l -> length l = 8%nat -> u64 (le_val l).
Proof. intros H Hl. pose proof (le_val_bound l H). rewrite Hl in *. width_lia. Qed.

Lemma u64_slice a b (l : list Z) :
  bytes_ok l -> (b <= length l)%nat -> (b - a = 8)%nat -> u64 (le_val (slice a b l)).
Proof. intros. apply u64_le_val; [auto with stake|]. by rewrite length_slice. Qed.

Lemma u8_byte_at i (l : list Z) : bytes_ok l -> u8 (byte_at i l).
Proof.
  intros Hl. unfold byte_at. destruct (nth_in_or_default i l 0) as [Hi| ->]; [|width_lia].
  apply (proj1 (Forall_forall _ l)) with (x := nth i l 0) in Hl; [|done].
  unfold byte_ok in Hl. width_lia.
Qed.

Lemma key_ok_slice a b (l : list Z) :
  bytes_ok l -> (b <= length l)%nat -> (b - a = 32)%nat -> key_ok (slice a b l).
Proof. intros. split; [by rewrite length_slice|auto with stake]. Qed.

#[export] Hint Resolve u64_slice u8_byte_at key_ok_slice : stake.

(** Side conditions of the byte-range lemmas. *)
Ltac solve_range :=
  first [ assumption
        | apply u64_slice; [assumption | lia | reflexivity]
        | apply u8_byte_at; assumption
        | apply key_ok_slice; [assumption | lia | reflexivity]
        | apply bytes_ok_slice; assumption
        | rewrite length_slice; lia ].

(** Any [STAKE_POOL_SIZE] bytes decode to a well-formed record. *)
Lemma wf_pool_decode data :
  bytes_ok data -> (STAKE_POOL_SIZE <= length data)%nat -> wf_pool (pool_decode data).
Proof.
  unfold STAKE_POOL_SIZE. intros.
  split; cbn; repeat first [apply Forall_nil_2 | apply Forall_cons_2]; split_and?;
    solve_range.
Qed.

Lemma wf_deposit_decode data :
  bytes_ok data -> (STAKE_DEPOSIT_SIZE <= length data)%nat -> wf_deposit (deposit_decode data).
Proof.
  unfold STAKE_DEPOSIT_SIZE. intros.
  split; cbn; repeat first [apply Forall_nil_2 | apply Forall_cons_2]; split_and?;
    solve_range.
Qed.

(** Re-encoding a decoded account gives the same bytes back. *)
Lemma pool_encode_decode data :
  bytes_ok data -> length data = STAKE_POOL_SIZE -> pool_encode (pool_decode data) = data.
Proof.
  unfold STAKE_POOL_SIZE. intros Hb Hl. unfold pool_encode. cbn [pool_chunks concat pool_decode
    sp_is_initialized sp_bump sp_vault_authority_bump sp_admin_transferred sp_padding sp_slab
    sp_admin sp_collateral_mint sp_lp_mint sp_vault sp_total_deposited sp_total_lp_supply
    sp_cooldown_slots sp_deposit_cap sp_total_flushed sp_total_returned sp_total_withdrawn
    sp_percolator_program sp_total_fees_earned sp_last_fee_accrual_slot sp_last_vault_snapshot
    sp_pool_mode sp_mode_padding sp_pending_admin sp_reserved sp_total_recovered_from_wrapper
    sp_pending_cooldown_slots sp_cooldown_proposed_at_slot].
  rewrite !le_bytes_slice by (done || lia). rewrite !byte_at_slice by lia.
  rewrite app_nil_r. rewrite !slice_app by lia. by apply slice_all.
Qed.

Lemma deposit_encode_decode data :
  bytes_ok data -> length data = STAKE_DEPOSIT_SIZE ->
  deposit_encode (deposit_decode data) = data.
Proof.
  unfold STAKE_DEPOSIT_SIZE. intros Hb Hl. unfold deposit_encode.
  cbn [deposit_chunks concat deposit_decode sd_is_initialized sd_bump sd_padding sd_pool
    sd_user sd_last_deposit_slot sd_lp_amount sd_reserved].
  rewrite !le_bytes_slice by (done || lia). rewrite !byte_at_slice by lia.
  rewrite app_nil_r. rewrite !slice_app by lia. by apply slice_all.
Qed.
