(* ===== verification/PoolFacts.v ===== *)
(** * Facts about the pool record

    The [_reserved] bytes seen as a record of fields ([ReservedView]), one
    lemma per setter saying that it changes its own field and no other, the
    preservation of well-formedness by every assignment the handlers make, and
    the accounting identities of src/state.rs. *)

From S2P Require Import Prelude Math State.

(** ** The reserved bytes as a record *)

#[local] Set Primitive Projections.
Record ReservedView : Set := mkReservedView {
  rv_discriminator : list Z;
  rv_version : Z;
  rv_resolved : Z;
  rv_hwm_enabled : Z;
  rv_hwm_floor_bps : Z;
  rv_gap : list Z;
  rv_hwm_tvl : Z;
  rv_hwm_epoch : Z;
  rv_tranche : Z;
  rv_junior_balance : Z;
  rv_junior_total_lp : Z;
  rv_junior_fee_mult_bps : Z;
  rv_realized_junior_loss : Z;
  rv_burned : Z;
  rv_tail : list Z;
}.
#[local] Unset Primitive Projections.

#[export] Instance set_rv_discriminator : Setter rv_discriminator := ltac:(solve_setter).
#[export] Instance set_rv_version : Setter rv_version := ltac:(solve_setter).
#[export] Instance set_rv_resolved : Setter rv_resolved := ltac:(solve_setter).
#[export] Instance set_rv_hwm_enabled : Setter rv_hwm_enabled := ltac:(solve_setter).
#[export] Instance set_rv_hwm_floor_bps : Setter rv_hwm_floor_bps := ltac:(solve_setter).
#[export] Instance set_rv_hwm_tvl : Setter rv_hwm_tvl := ltac:(solve_setter).
#[export] Instance set_rv_hwm_epoch : Setter rv_hwm_epoch := ltac:(solve_setter).
#[export] Instance set_rv_tranche : Setter rv_tranche := ltac:(solve_setter).
#[export] Instance set_rv_junior_balance : Setter rv_junior_balance := ltac:(solve_setter).
#[export] Instance set_rv_junior_total_lp : Setter rv_junior_total_lp := ltac:(solve_setter).
#[export] Instance set_rv_junior_fee_mult_bps : Setter rv_junior_fee_mult_bps := ltac:(solve_setter).
#[export] Instance set_rv_realized_junior_loss : Setter rv_realized_junior_loss := ltac:(solve_setter).
#[export] Instance set_rv_burned : Setter rv_burned := ltac:(solve_setter).

Definition reserved_view (r : list Z) : ReservedView :=
  {| rv_discriminator := slice 0 8 r;
     rv_version := byte_at 8 r;
     rv_resolved := byte_at 9 r;
     rv_hwm_enabled := byte_at 10 r;
     rv_hwm_floor_bps := le_val [byte_at 11 r; byte_at 12 r];
     rv_gap := slice 13 16 r;
     rv_hwm_tvl := le_val (slice 16 24 r);
     rv_hwm_epoch := le_val (slice 24 32 r);
     rv_tranche := byte_at 32 r;
     rv_junior_balance := le_val (slice 33 41 r);
     rv_junior_total_lp := le_val (slice 41 49 r);
     rv_junior_fee_mult_bps := le_val (slice 49 51 r);
     rv_realized_junior_loss := le_val (slice 51 59 r);
     rv_burned := byte_at 59 r;
     rv_tail := slice 60 64 r |}.

Definition rview (p : StakePool) : ReservedView := reserved_view p.(sp_reserved).

Lemma byte_at_splice_same i b r :
  (i < length r)%nat -> byte_at i (splice i [b] r) = b.
Proof.
  intros. rewrite byte_at_le_val by (rewrite length_splice; cbn; lia).
  rewrite slice_splice_same by (cbn; lia). unfold le_val. lia.
Qed.

Lemma byte_at_splice_ne i c bs r :
  (c + length bs <= length r)%nat -> (i < length r)%nat ->
  (i < c \/ c + length bs <= i)%nat -> byte_at i (splice c bs r) = byte_at i r.
Proof.
  intros. rewrite !byte_at_le_val by (rewrite ?length_splice; lia).
  by rewrite slice_splice_ne by lia.
Qed.

Ltac len64 := rewrite ?length_splice, ?length_le_bytes; cbn [length]; rewrite ?length_le_bytes; lia.

(** Solves [reserved_view (splice ..) = (reserved_view r) <| f := v |>]. *)
Ltac solve_view :=
  intros; unfold reserved_view, upd;
  unfold set_rv_discriminator, set_rv_version, set_rv_resolved, set_rv_hwm_enabled,
    set_rv_hwm_floor_bps, set_rv_hwm_tvl, set_rv_hwm_epoch, set_rv_tranche,
    set_rv_junior_balance, set_rv_junior_total_lp, set_rv_junior_fee_mult_bps,
    set_rv_realized_junior_loss, set_rv_burned;
  f_equal;
  repeat first
    [ reflexivity
    | rewrite slice_splice_same by len64
    | rewrite slice_splice_ne by len64
    | rewrite byte_at_splice_same by len64
    | rewrite byte_at_splice_ne by len64
    | apply le_val_le_bytes_small; width_lia ].

Section Setters.
Context (p : StakePool) (Hlen : length p.(sp_reserved) = 64%nat).

Lemma rview_set_market_resolved b :
  rview (set_market_resolved b p) = rview p <| rv_resolved := if b then 1 else 0 |>.
Proof. unfold rview, set_market_resolved. upd_simpl. solve_view. Qed.

Lemma rview_set_tranche_enabled b :
  rview (set_tranche_enabled b p) = rview p <| rv_tranche := if b then 1 else 0 |>.
Proof. unfold rview, set_tranche_enabled. upd_simpl. solve_view. Qed.

Lemma rview_set_junior_balance v :
  u64 v -> rview (set_junior_balance v p) = rview p <| rv_junior_balance := v |>.
Proof. unfold rview, set_junior_balance. upd_simpl. solve_view. Qed.

Lemma rview_set_junior_total_lp v :
  u64 v -> rview (set_junior_total_lp v p) = rview p <| rv_junior_total_lp := v |>.
Proof. unfold rview, set_junior_total_lp. upd_simpl. solve_view. Qed.

Lemma rview_set_junior_fee_mult_bps v :
  u16 v -> rview (set_junior_fee_mult_bps v p) = rview p <| rv_junior_fee_mult_bps := v |>.
Proof. unfold rview, set_junior_fee_mult_bps. upd_simpl. solve_view. Qed.

Lemma rview_set_realized_junior_loss v :
  u64 v -> rview (set_realized_junior_loss v p) = rview p <| rv_realized_junior_loss := v |>.
Proof. unfold rview, set_realized_junior_loss. upd_simpl. solve_view. Qed.

Lemma rview_set_asset_admin_burned b :
  rview (set_asset_admin_burned b p) = rview p <| rv_burned := if b then 1 else 0 |>.
Proof. unfold rview, set_asset_admin_burned. upd_simpl. solve_view. Qed.

Lemma rview_set_hwm_enabled b :
  rview (set_hwm_enabled b p) = rview p <| rv_hwm_enabled := if b then 1 else 0 |>.
Proof. unfold rview, set_hwm_enabled. upd_simpl. solve_view. Qed.

Lemma rview_set_epoch_high_water_tvl v :
  u64 v -> rview (set_epoch_high_water_tvl v p) = rview p <| rv_hwm_tvl := v |>.
Proof. unfold rview, set_epoch_high_water_tvl. upd_simpl. solve_view. Qed.

Lemma rview_set_hwm_last_epoch v :
  u64 v -> rview (set_hwm_last_epoch v p) = rview p <| rv_hwm_epoch := v |>.
Proof. unfold rview, set_hwm_last_epoch. upd_simpl. solve_view. Qed.

Lemma rview_set_hwm_floor_bps v :
  u16 v -> rview (set_hwm_floor_bps v p) = rview p <| rv_hwm_floor_bps := v |>.
Proof.
  unfold rview, set_hwm_floor_bps. cbn zeta. upd_simpl. intros Hv.
  assert (Hb : le_val [byte_at 0 (le_bytes 2 v); byte_at 1 (le_bytes 2 v)] = v).
  { rewrite <- (le_val_le_bytes_small 2 v) at 3 by width_lia. done. }
  solve_view. done.
Qed.

Lemma rview_set_discriminator :
  rview (set_discriminator p) =
    rview p <| rv_discriminator := STAKE_POOL_DISCRIMINATOR |> <| rv_version := CURRENT_VERSION |>.
Proof.
  unfold rview, set_discriminator. cbn zeta. upd_simpl.
  assert (length STAKE_POOL_DISCRIMINATOR = 8%nat) by done. solve_view.
Qed.
End Setters.

(** ** Well-formedness is preserved by every assignment *)

Lemma wf_intro p :
  wf_pool p <->
  (Forall u8 [p.(sp_is_initialized); p.(sp_bump); p.(sp_vault_authority_bump);
              p.(sp_admin_transferred); p.(sp_pool_mode)] /\
   Forall u64 [p.(sp_total_deposited); p.(sp_total_lp_supply); p.(sp_cooldown_slots);
               p.(sp_deposit_cap); p.(sp_total_flushed); p.(sp_total_returned);
               p.(sp_total_withdrawn); p.(sp_total_fees_earned);
               p.(sp_last_fee_accrual_slot); p.(sp_last_vault_snapshot);
               p.(sp_total_recovered_from_wrapper); p.(sp_pending_cooldown_slots);
               p.(sp_cooldown_proposed_at_slot)] /\
   Forall key_ok [p.(sp_slab); p.(sp_admin); p.(sp_collateral_mint); p.(sp_lp_mint);
                  p.(sp_vault); p.(sp_percolator_program); p.(sp_pending_admin)] /\
   (length p.(sp_padding) = 4%nat /\ bytes_ok p.(sp_padding) /\
    length p.(sp_mode_padding) = 7%nat /\ bytes_ok p.(sp_mode_padding)) /\
   (length p.(sp_reserved) = 64%nat /\ bytes_ok p.(sp_reserved))).
Proof. split; [intros []|intros (?&?&?&?&?); split]; done. Qed.

Ltac solve_wf_upd :=
  intros Hwf Hv; destruct Hwf as [H8 H64 Hk Hpad Hres];
  repeat match goal with
         | H : Forall _ (_ :: _) |- _ => apply Forall_cons_1 in H; destruct H
         end;
  split; upd_simpl; [| | | exact Hpad | exact Hres];
  repeat (apply Forall_cons_2; [assumption|]); apply Forall_nil_2.

Section WfUpdate.
Context (p : StakePool).

Lemma wf_sp_is_initialized v : wf_pool p -> u8 v -> wf_pool (p <| sp_is_initialized := v |>).
Proof. solve_wf_upd. Qed.
Lemma wf_sp_bump v : wf_pool p -> u8 v -> wf_pool (p <| sp_bump := v |>).
Proof. solve_wf_upd. Qed.
Lemma wf_sp_vault_authority_bump v : wf_pool p -> u8 v -> wf_pool (p <| sp_vault_authority_bump := v |>).
Proof. solve_wf_upd. Qed.
Lemma wf_sp_admin_transferred v : wf_pool p -> u8 v -> wf_pool (p <| sp_admin_transferred := v |>).
Proof. solve_wf_upd. Qed.
Lemma wf_sp_pool_mode v : wf_pool p -> u8 v -> wf_pool (p <| sp_pool_mode := v |>).
Proof. solve_wf_upd. Qed.
Lemma wf_sp_total_deposited v : wf_pool p -> u64 v -> wf_pool (p <| sp_total_deposited := v |>).
Proof. solve_wf_upd. Qed.
Lemma wf_sp_total_lp_supply v : wf_pool p -> u64 v -> wf_pool (p <| sp_total_lp_supply := v |>).
Proof. solve_wf_upd. Qed.
Lemma wf_sp_cooldown_slots v : wf_pool p -> u64 v -> wf_pool (p <| sp_cooldown_slots := v |>).
Proof. solve_wf_upd. Qed.
Lemma wf_sp_deposit_cap v : wf_pool p -> u64 v -> wf_pool (p <| sp_deposit_cap := v |>).
Proof. solve_wf_upd. Qed.
Lemma wf_sp_total_flushed v : wf_pool p -> u64 v -> wf_pool (p <| sp_total_flushed := v |>).
Proof. solve_wf_upd. Qed.
Lemma wf_sp_total_returned v : wf_pool p -> u64 v -> wf_pool (p <| sp_total_returned := v |>).
Proof. solve_wf_upd. Qed.
Lemma wf_sp_total_withdrawn v : wf_pool p -> u64 v -> wf_pool (p <| sp_total_withdrawn := v |>).
Proof. solve_wf_upd. Qed.
Lemma wf_sp_total_fees_earned v : wf_pool p -> u64 v -> wf_pool (p <| sp_total_fees_earned := v |>).
Proof. solve_wf_upd. Qed.
Lemma wf_sp_last_fee_accrual_slot v : wf_pool p -> u64 v -> wf_pool (p <| sp_last_fee_accrual_slot := v |>).
Proof. solve_wf_upd. Qed.
Lemma wf_sp_last_vault_snapshot v : wf_pool p -> u64 v -> wf_pool (p <| sp_last_vault_snapshot := v |>).
Proof. solve_wf_upd. Qed.
Lemma wf_sp_total_recovered_from_wrapper v : wf_pool p -> u64 v -> wf_pool (p <| sp_total_recovered_from_wrapper := v |>).
Proof. solve_wf_upd. Qed.
Lemma wf_sp_pending_cooldown_slots v : wf_pool p -> u64 v -> wf_pool (p <| sp_pending_cooldown_slots := v |>).
Proof. solve_wf_upd. Qed.
Lemma wf_sp_cooldown_proposed_at_slot v : wf_pool p -> u64 v -> wf_pool (p <| sp_cooldown_proposed_at_slot := v |>).
Proof. solve_wf_upd. Qed.
Lemma wf_sp_slab v : wf_pool p -> key_ok v -> wf_pool (p <| sp_slab := v |>).
Proof. solve_wf_upd. Qed.
Lemma wf_sp_admin v : wf_pool p -> key_ok v -> wf_pool (p <| sp_admin := v |>).
Proof. solve_wf_upd. Qed.
Lemma wf_sp_collateral_mint v : wf_pool p -> key_ok v -> wf_pool (p <| sp_collateral_mint := v |>).
Proof. solve_wf_upd. Qed.
Lemma wf_sp_lp_mint v : wf_pool p -> key_ok v -> wf_pool (p <| sp_lp_mint := v |>).
Proof. solve_wf_upd. Qed.
Lemma wf_sp_vault v : wf_pool p -> key_ok v -> wf_pool (p <| sp_vault := v |>).
Proof. solve_wf_upd. Qed.
Lemma wf_sp_percolator_program v : wf_pool p -> key_ok v -> wf_pool (p <| sp_percolator_program := v |>).
Proof. solve_wf_upd. Qed.
Lemma wf_sp_pending_admin v : wf_pool p -> key_ok v -> wf_pool (p <| sp_pending_admin := v |>).
Proof. solve_wf_upd. Qed.

Lemma wf_sp_reserved a bs :
  wf_pool p -> (a + length bs <= 64)%nat -> bytes_ok bs ->
  wf_pool (p <| sp_reserved := splice a bs p.(sp_reserved) |>).
Proof.
  intros Hp Ha Hb. pose proof (wf_reserved p Hp) as [Hl Hr].
  revert Hp. rewrite !wf_intro. upd_simpl. intros (?&?&?&?&_).
  repeat (split; [assumption|]). split; [rewrite length_splice; lia|auto with stake].
Qed.

Lemma bytes_ok_bool b : bytes_ok [if b : bool then 1 else 0].
Proof. apply bytes_ok_1. destruct b; width_lia. Qed.
End WfUpdate.

#[export] Hint Resolve bytes_ok_bool : stake.
#[export] Hint Resolve wf_sp_is_initialized wf_sp_bump wf_sp_vault_authority_bump wf_sp_admin_transferred wf_sp_pool_mode wf_sp_total_deposited wf_sp_total_lp_supply wf_sp_cooldown_slots wf_sp_deposit_cap wf_sp_total_flushed wf_sp_total_returned wf_sp_total_withdrawn wf_sp_total_fees_earned wf_sp_last_fee_accrual_slot wf_sp_last_vault_snapshot wf_sp_total_recovered_from_wrapper wf_sp_pending_cooldown_slots wf_sp_cooldown_proposed_at_slot wf_sp_slab wf_sp_admin wf_sp_collateral_mint wf_sp_lp_mint wf_sp_vault wf_sp_percolator_program wf_sp_pending_admin : stake.

Section WfSetters.
Context (p : StakePool) (Hp : wf_pool p).

Lemma wf_set_market_resolved b : wf_pool (set_market_resolved b p).
Proof. apply wf_sp_reserved; [done | rewrite ?length_le_bytes; cbn; lia | auto with stake]. Qed.
Lemma wf_set_tranche_enabled b : wf_pool (set_tranche_enabled b p).
Proof. apply wf_sp_reserved; [done | rewrite ?length_le_bytes; cbn; lia | auto with stake]. Qed.
Lemma wf_set_junior_balance v : wf_pool (set_junior_balance v p).
Proof. apply wf_sp_reserved; [done | rewrite ?length_le_bytes; cbn; lia | auto with stake]. Qed.
Lemma wf_set_junior_total_lp v : wf_pool (set_junior_total_lp v p).
Proof. apply wf_sp_reserved; [done | rewrite ?length_le_bytes; cbn; lia | auto with stake]. Qed.
Lemma wf_set_junior_fee_mult_bps v : wf_pool (set_junior_fee_mult_bps v p).
Proof. apply wf_sp_reserved; [done | rewrite ?length_le_bytes; cbn; lia | auto with stake]. Qed.
Lemma wf_set_realized_junior_loss v : wf_pool (set_realized_junior_loss v p).
Proof. apply wf_sp_reserved; [done | rewrite ?length_le_bytes; cbn; lia | auto with stake]. Qed.
Lemma wf_set_asset_admin_burned b : wf_pool (set_asset_admin_burned b p).
Proof. apply wf_sp_reserved; [done | rewrite ?length_le_bytes; cbn; lia | auto with stake]. Qed.
Lemma wf_set_hwm_enabled b : wf_pool (set_hwm_enabled b p).
Proof. apply wf_sp_reserved; [done | rewrite ?length_le_bytes; cbn; lia | auto with stake]. Qed.
Lemma wf_set_epoch_high_water_tvl v : wf_pool (set_epoch_high_water_tvl v p).
Proof. apply wf_sp_reserved; [done | rewrite ?length_le_bytes; cbn; lia | auto with stake]. Qed.
Lemma wf_set_hwm_last_epoch v : wf_pool (set_hwm_last_epoch v p).
Proof. apply wf_sp_reserved; [done | rewrite ?length_le_bytes; cbn; lia | auto with stake]. Qed.
Lemma wf_set_hwm_floor_bps v : wf_pool (set_hwm_floor_bps v p).
Proof.
  assert (forall i, bytes_ok [byte_at i (le_bytes 2 v)]).
  { intros. apply bytes_ok_1, u8_byte_at. auto with stake. }
  unfold set_hwm_floor_bps. set (p1 := p <| sp_reserved := _ |>).
  apply (wf_sp_reserved p1 12 [_]); [|cbn; lia|done].
  apply wf_sp_reserved; [done|cbn; lia|done].
Qed.
Lemma wf_set_discriminator : wf_pool (set_discriminator p).
Proof.
  unfold set_discriminator. set (p1 := p <| sp_reserved := _ |>).
  apply (wf_sp_reserved p1 8 [CURRENT_VERSION]); [|cbn; lia|apply bytes_ok_1; done].
  apply wf_sp_reserved; [done|cbn; lia|].
  repeat (apply Forall_cons_2; [unfold byte_ok; lia|]). apply Forall_nil_2.
Qed.
Lemma wf_set_pending_cooldown_slots v : u64 v -> wf_pool (set_pending_cooldown_slots v p).
Proof. unfold set_pending_cooldown_slots. auto with stake. Qed.
Lemma wf_set_cooldown_proposed_at_slot v : u64 v -> wf_pool (set_cooldown_proposed_at_slot v p).
Proof. unfold set_cooldown_proposed_at_slot. auto with stake. Qed.
Lemma wf_length_reserved : length p.(sp_reserved) = 64%nat.
Proof. apply Hp. Qed.

(** Ranges of the fields carved out of [_reserved]. *)
Lemma u64_junior_balance : u64 (junior_balance p).
Proof. destruct (wf_reserved p Hp). apply u64_slice; [done|lia|done]. Qed.
Lemma u64_junior_total_lp : u64 (junior_total_lp p).
Proof. destruct (wf_reserved p Hp). apply u64_slice; [done|lia|done]. Qed.
Lemma u64_realized_junior_loss : u64 (realized_junior_loss p).
Proof. destruct (wf_reserved p Hp). apply u64_slice; [done|lia|done]. Qed.
Lemma u64_epoch_high_water_tvl : u64 (epoch_high_water_tvl p).
Proof. destruct (wf_reserved p Hp). apply u64_slice; [done|lia|done]. Qed.
Lemma u16_le_val (l : list Z) : bytes_ok l -> length l = 2%nat -> u16 (le_val l).
Proof. intros H Hl. pose proof (le_val_bound l H). rewrite Hl in *. width_lia. Qed.
Lemma u16_junior_fee_mult_bps : u16 (junior_fee_mult_bps p).
Proof.
  destruct (wf_reserved p Hp). apply u16_le_val; [auto with stake|].
  rewrite length_slice; lia.
Qed.
Lemma u16_hwm_floor_bps : u16 (hwm_floor_bps p).
Proof.
  destruct (wf_reserved p Hp). apply u16_le_val; [|done].
  apply (bytes_ok_app [_] [_]); apply bytes_ok_1, u8_byte_at; done.
Qed.
End WfSetters.

#[export] Hint Resolve wf_set_market_resolved wf_set_tranche_enabled wf_set_junior_balance
  wf_set_junior_total_lp wf_set_junior_fee_mult_bps wf_set_realized_junior_loss
  wf_set_asset_admin_burned wf_set_hwm_enabled wf_set_epoch_high_water_tvl
  wf_set_hwm_last_epoch wf_set_hwm_floor_bps wf_set_discriminator
  wf_set_pending_cooldown_slots wf_set_cooldown_proposed_at_slot wf_length_reserved
  u64_junior_balance u64_junior_total_lp u64_realized_junior_loss
  u64_epoch_high_water_tvl u16_junior_fee_mult_bps u16_hwm_floor_bps : stake.

(** ** Reading a field after updates *)

Lemma junior_balance_rv p : junior_balance p = rv_junior_balance (rview p).
Proof. done. Qed.
Lemma junior_total_lp_rv p : junior_total_lp p = rv_junior_total_lp (rview p).
Proof. done. Qed.
Lemma junior_fee_mult_bps_rv p : junior_fee_mult_bps p = rv_junior_fee_mult_bps (rview p).
Proof. done. Qed.
Lemma realized_junior_loss_rv p : realized_junior_loss p = rv_realized_junior_loss (rview p).
Proof. done. Qed.
Lemma market_resolved_rv p : market_resolved p = negb (rv_resolved (rview p) =? 0).
Proof. done. Qed.
Lemma tranche_enabled_rv p : tranche_enabled p = (rv_tranche (rview p) =? 1).
Proof. done. Qed.
Lemma asset_admin_burned_rv p : asset_admin_burned p = (rv_burned (rview p) =? 1).
Proof. done. Qed.
Lemma hwm_enabled_rv p : hwm_enabled p = (rv_hwm_enabled (rview p) =? 1).
Proof. done. Qed.
Lemma hwm_floor_bps_rv p : hwm_floor_bps p = rv_hwm_floor_bps (rview p).
Proof. done. Qed.
Lemma epoch_high_water_tvl_rv p : epoch_high_water_tvl p = rv_hwm_tvl (rview p).
Proof. done. Qed.
Lemma hwm_last_epoch_rv p : hwm_last_epoch p = rv_hwm_epoch (rview p).
Proof. done. Qed.
Lemma version_rv p : version p = rv_version (rview p).
Proof. done. Qed.
Lemma validate_discriminator_rv p :
  validate_discriminator p = bool_decide (rv_discriminator (rview p) = STAKE_POOL_DISCRIMINATOR).
Proof. done. Qed.

Create HintDb pool_view.
#[export] Hint Rewrite rview_set_market_resolved rview_set_tranche_enabled
  rview_set_junior_balance rview_set_junior_total_lp rview_set_junior_fee_mult_bps
  rview_set_realized_junior_loss rview_set_asset_admin_burned rview_set_hwm_enabled
  rview_set_epoch_high_water_tvl rview_set_hwm_last_epoch rview_set_hwm_floor_bps
  rview_set_discriminator using (solve [auto with stake | width_lia]) : pool_view.
#[export] Hint Rewrite junior_balance_rv junior_total_lp_rv junior_fee_mult_bps_rv
  realized_junior_loss_rv market_resolved_rv tranche_enabled_rv asset_admin_burned_rv
  hwm_enabled_rv hwm_floor_bps_rv epoch_high_water_tvl_rv hwm_last_epoch_rv version_rv
  validate_discriminator_rv : pool_getters.

(** [g (set_x v p)] is [g p] when [g] does not read the reserved bytes [x]
    writes (by conversion). *)
Ltac set_step :=
  match goal with
  | |- context [?g (set_junior_balance ?v ?p)] =>
      progress change (g (set_junior_balance v p)) with (g p)
  | |- context [?g (set_junior_total_lp ?v ?p)] =>
      progress change (g (set_junior_total_lp v p)) with (g p)
  | |- context [?g (set_realized_junior_loss ?v ?p)] =>
      progress change (g (set_realized_junior_loss v p)) with (g p)
  | |- context [?g (set_epoch_high_water_tvl ?v ?p)] =>
      progress change (g (set_epoch_high_water_tvl v p)) with (g p)
  | |- context [?g (set_hwm_last_epoch ?v ?p)] =>
      progress change (g (set_hwm_last_epoch v p)) with (g p)
  | |- context [?g (set_tranche_enabled ?v ?p)] =>
      progress change (g (set_tranche_enabled v p)) with (g p)
  | |- context [?g (set_junior_fee_mult_bps ?v ?p)] =>
      progress change (g (set_junior_fee_mult_bps v p)) with (g p)
  | |- context [?g (set_hwm_enabled ?v ?p)] =>
      progress change (g (set_hwm_enabled v p)) with (g p)
  | |- context [?g (set_hwm_floor_bps ?v ?p)] =>
      progress change (g (set_hwm_floor_bps v p)) with (g p)
  | |- context [?g (set_market_resolved ?v ?p)] =>
      progress change (g (set_market_resolved v p)) with (g p)
  | |- context [?g (set_asset_admin_burned ?v ?p)] =>
      progress change (g (set_asset_admin_burned v p)) with (g p)
  | |- context [?g (set_pending_cooldown_slots ?v ?p)] =>
      progress change (g (set_pending_cooldown_slots v p)) with (g (p <| sp_pending_cooldown_slots := v |>))
  | |- context [?g (set_cooldown_proposed_at_slot ?v ?p)] =>
      progress change (g (set_cooldown_proposed_at_slot v p)) with (g (p <| sp_cooldown_proposed_at_slot := v |>))
  | |- context [?g (set_discriminator ?p)] =>
      progress change (g (set_discriminator p)) with (g p)
  end.

(** Normalises reads of an updated pool to reads of the original one. *)
Ltac pool_simpl :=
  autorewrite with pool_getters;
  repeat first [progress upd_simpl | set_step | progress autorewrite with pool_view];
  rewrite <- ?junior_balance_rv, <- ?junior_total_lp_rv, <- ?junior_fee_mult_bps_rv,
    <- ?realized_junior_loss_rv, <- ?hwm_floor_bps_rv, <- ?epoch_high_water_tvl_rv,
    <- ?hwm_last_epoch_rv, <- ?version_rv, <- ?market_resolved_rv, <- ?tranche_enabled_rv,
    <- ?asset_admin_burned_rv, <- ?hwm_enabled_rv, <- ?validate_discriminator_rv.

(** ** Accounting identities *)

(** The signed sum behind [total_pool_value]. *)
Definition raw_value (p : StakePool) : Z :=
  p.(sp_total_deposited) - p.(sp_total_withdrawn) - p.(sp_total_flushed)
  + p.(sp_total_returned) + p.(sp_total_fees_earned) - realized_junior_loss p.

(** The loss the tranches currently absorb. *)
Definition net_loss (p : StakePool) : Z :=
  saturating_sub p.(sp_total_flushed) p.(sp_total_returned).

Lemma total_pool_value_Some p v :
  total_pool_value p = Some v <-> v = raw_value p /\ u64 v.
Proof.
  unfold total_pool_value. fold (raw_value p). unfold fits.
  destruct (Z.ltb_spec (raw_value p) 0); destruct (Z.ltb_spec U64_MAX (raw_value p)); cbn [orb];
    split; intros; simplify_eq; naive_solver lia.
Qed.

(** The [i128] intermediate sums of [total_pool_value] are exact. *)
Lemma raw_value_i128 p :
  wf_pool p -> - 3 * U64_MAX <= raw_value p <= 3 * U64_MAX.
Proof.
  intros Hp. pose proof (u64_realized_junior_loss p Hp). unfold raw_value.
  wf_destruct. width_lia.
Qed.

Lemma principal_tvl_Some p :
  principal_tvl p = Some (Z.max 0 (Z.min U64_MAX (raw_value p - p.(sp_total_fees_earned)))).
Proof. unfold principal_tvl, raw_value. do 3 f_equal. lia. Qed.

(** Junior absorbs the net loss first, down to zero. *)
Lemma effective_junior_balance_eq p :
  wf_pool p -> effective_junior_balance p = Z.max 0 (junior_balance p - net_loss p).
Proof.
  intros Hp. pose proof (u64_junior_balance p Hp). unfold effective_junior_balance.
  fold (net_loss p). assert (u64 (net_loss p)) by (unfold net_loss; wf_destruct; width_lia).
  destruct (Z.eqb_spec (net_loss p) 0) as [->|]; [width_lia|].
  set (gs := saturating_sub _ (junior_balance p)).
  assert (u64 gs) by (subst gs; wf_destruct; width_lia).
  destruct (distribute_loss (junior_balance p) gs (net_loss p)) as [jl sl] eqn:E.
  apply distribute_loss_spec in E as [-> _]; [|done|done|width_lia]. width_lia.
Qed.

Lemma effective_junior_balance_u64 p : wf_pool p -> u64 (effective_junior_balance p).
Proof.
  intros Hp. pose proof (u64_junior_balance p Hp).
  rewrite effective_junior_balance_eq by done. unfold net_loss. width_lia.
Qed.

Lemma senior_balance_Some p v :
  senior_balance p = Some v <->
  exists pv, total_pool_value p = Some pv /\ v = pv - effective_junior_balance p /\
             effective_junior_balance p <= pv.
Proof.
  unfold senior_balance. destruct (total_pool_value p) as [pv|]; cbn.
  - rewrite checked_sub_Some. naive_solver.
  - naive_solver.
Qed.

(** What the two sub-pools are worth is what the pool is worth. *)
Lemma tranche_values_sum p v pv :
  total_pool_value p = Some pv -> senior_balance p = Some v ->
  effective_junior_balance p + v = pv.
Proof. intros Hpv Hs. apply senior_balance_Some in Hs as (pv' & Hpv' & -> & _). simplify_eq. lia. Qed.

Lemma senior_balance_u64 p v : wf_pool p -> senior_balance p = Some v -> u64 v.
Proof.
  intros Hp (pv & Hpv & -> & Hle)%senior_balance_Some.
  apply total_pool_value_Some in Hpv as [_ Hpv].
  pose proof (effective_junior_balance_u64 p Hp). width_lia.
Qed.

(** The tranche invariant under which both sub-pools can always be valued:
    the raw junior balance never exceeds the pool value plus the net loss the
    tranches absorb. *)
Definition tranche_solvent (p : StakePool) : Prop :=
  junior_balance p <= raw_value p + net_loss p.

Lemma tranche_solvent_senior p pv :
  wf_pool p -> tranche_solvent p -> total_pool_value p = Some pv ->
  exists v, senior_balance p = Some v.
Proof.
  intros Hp Hs Hpv. exists (pv - effective_junior_balance p).
  apply senior_balance_Some. exists pv. split_and!; [done|done|].
  apply total_pool_value_Some in Hpv as [-> Hpv].
  rewrite effective_junior_balance_eq by done. unfold tranche_solvent in Hs. width_lia.
Qed.

Lemma wrapper_recoverable_eq p :
  wrapper_recoverable p =
  Z.max 0 (Z.max 0 (p.(sp_total_flushed) - realized_junior_loss p)
           - p.(sp_total_recovered_from_wrapper)).
Proof. done. Qed.

Lemma wrapper_fully_recovered_true p :
  wf_pool p ->
  wrapper_fully_recovered p = true <->
  p.(sp_total_flushed) <= realized_junior_loss p + p.(sp_total_recovered_from_wrapper).
Proof.
  intros Hp. unfold wrapper_fully_recovered. rewrite wrapper_recoverable_eq, Z.eqb_eq.
  wf_destruct. width_lia.
Qed.

(** ** The high-water mark *)

Lemma wf_refresh_hwm e t p q m :
  wf_pool p -> u64 e -> u64 t -> refresh_hwm e t p = (q, m) -> wf_pool q.
Proof.
  intros Hp He Ht. unfold refresh_hwm.
  destruct (negb _); [|destruct (_ <? _)]; intros [= <- <-]; auto with stake.
Qed.

(** The mark is never below the current value, only the mark's own fields
    change, and within an epoch the mark only rises. *)
Lemma refresh_hwm_spec e t p q m :
  wf_pool p -> u64 e -> u64 t -> refresh_hwm e t p = (q, m) ->
  t <= m /\ m = epoch_high_water_tvl q /\ hwm_last_epoch q = e /\
  (e = hwm_last_epoch p -> m = Z.max t (epoch_high_water_tvl p)) /\
  (e <> hwm_last_epoch p -> m = t) /\
  q = p <| sp_reserved := q.(sp_reserved) |> /\
  rview q = rview p <| rv_hwm_tvl := m |> <| rv_hwm_epoch := e |>.
Proof.
  intros Hp He Ht. pose proof (u64_epoch_high_water_tvl p Hp). unfold refresh_hwm.
  destruct (Z.eqb_spec e (hwm_last_epoch p)) as [Heq|Hne]; cbn [negb].
  - destruct (Z.ltb_spec (epoch_high_water_tvl p) t); intros [= <- <-]; pool_simpl.
    + split_and!; try done; try lia. by rewrite Heq.
    + split_and!; try done; try lia. by rewrite Heq.
  - intros [= <- <-]; pool_simpl. split_and!; done || lia.
Qed.

(** ** Identity of a pool

    The fields InitPool sets once: what the record is, and which accounts and
    programs it is bound to. *)
Definition pool_ident (p : StakePool) :=
  (p.(sp_is_initialized), rv_discriminator (rview p), rv_version (rview p),
   (p.(sp_bump), p.(sp_vault_authority_bump), p.(sp_pool_mode)),
   (p.(sp_slab), p.(sp_collateral_mint), p.(sp_lp_mint), p.(sp_vault),
    p.(sp_percolator_program))).

Ltac solve_ident := unfold pool_ident; pool_simpl; reflexivity.

Lemma raw_value_u64_bounds p v : total_pool_value p = Some v -> u64 v /\ raw_value p = v.
Proof. intros [-> Hv]%total_pool_value_Some. done. Qed.

(** What a refresh can change: only the mark and its epoch. *)
Definition hwm_only (p q : StakePool) : Prop :=
  wf_pool q /\ pool_ident q = pool_ident p /\ raw_value q = raw_value p /\
  net_loss q = net_loss p /\ junior_balance q = junior_balance p /\
  junior_total_lp q = junior_total_lp p /\ realized_junior_loss q = realized_junior_loss p /\
  tranche_enabled q = tranche_enabled p /\ hwm_enabled q = hwm_enabled p /\
  hwm_floor_bps q = hwm_floor_bps p /\
  exists r, q = p <| sp_reserved := r |>.

Lemma hwm_only_refl p : wf_pool p -> hwm_only p p.
Proof. intros. unfold hwm_only. split_and!; try done. by exists (sp_reserved p). Qed.

Lemma refresh_hwm_only e t p q m :
  wf_pool p -> u64 e -> u64 t -> refresh_hwm e t p = (q, m) -> hwm_only p q.
Proof.
  intros Hp He Ht H. pose proof (wf_refresh_hwm e t p q m Hp He Ht H) as Hq.
  apply refresh_hwm_spec in H as (_ & _ & _ & _ & _ & Heq & Hv); [|done..].
  set (r := sp_reserved q) in Heq. clearbody r. subst q.
  unfold hwm_only, pool_ident, raw_value, net_loss. autorewrite with pool_getters. rewrite Hv.
  upd_simpl. split_and!; try done. by exists r.
Qed.

(** Assigning the junior balance: nothing else moves. *)
Lemma set_junior_balance_frame p v :
  wf_pool p -> u64 v ->
  let q := set_junior_balance v p in
  wf_pool q /\ pool_ident q = pool_ident p /\ raw_value q = raw_value p /\
  junior_balance q = v /\ junior_total_lp q = junior_total_lp p /\
  realized_junior_loss q = realized_junior_loss p /\ tranche_enabled q = tranche_enabled p.
Proof.
  intros Hp Hv. cbn zeta. unfold raw_value. pool_simpl.
  split_and!; try done; [auto with stake|solve_ident].
Qed.

(** The record in two halves: the books, which the money handlers keep, and the
    configuration, which belongs to the admin. *)
Definition books (p : StakePool) :=
  (p.(sp_total_deposited), p.(sp_total_lp_supply), p.(sp_total_flushed), p.(sp_total_returned),
   p.(sp_total_withdrawn), p.(sp_total_fees_earned), p.(sp_total_recovered_from_wrapper),
   (junior_balance p, junior_total_lp p, realized_junior_loss p)).

Definition config (p : StakePool) :=
  (p.(sp_admin), p.(sp_pending_admin), p.(sp_cooldown_slots), p.(sp_deposit_cap),
   p.(sp_pending_cooldown_slots), p.(sp_cooldown_proposed_at_slot),
   (market_resolved p, asset_admin_burned p, tranche_enabled p, junior_fee_mult_bps p,
    hwm_enabled p, hwm_floor_bps p)).

Ltac solve_config := unfold config; pool_simpl; reflexivity.

(** A step on the record that moves no value: configuration. *)
Definition neutral (p q : StakePool) : Prop :=
  wf_pool q /\ pool_ident q = pool_ident p /\ raw_value q = raw_value p /\ books q = books p.

Lemma neutral_refl p : wf_pool p -> neutral p p.
Proof. done. Qed.
Lemma neutral_trans p q r : neutral p q -> neutral q r -> neutral p r.
Proof.
  intros (_ & E1 & V1 & B1) (W & E2 & V2 & B2). split_and!; [done|congruence..].
Qed.

(** Closes [neutral p (updates of p)]. *)
Ltac solve_neutral :=
  unfold neutral, raw_value, books; pool_simpl;
  split_and!; [solve [auto with stake] | solve_ident | reflexivity | reflexivity].

(** A refresh of the mark keeps the configuration. *)
Lemma refresh_hwm_config e t p q m :
  wf_pool p -> u64 e -> u64 t -> refresh_hwm e t p = (q, m) -> config q = config p.
Proof.
  intros Hp He Ht H. apply refresh_hwm_spec in H as (_ & _ & _ & _ & _ & Hq & Hv); [|done..].
  set (r := sp_reserved q) in Hq. clearbody r. subst q. unfold config.
  rewrite !market_resolved_rv, !asset_admin_burned_rv, !tranche_enabled_rv,
    !junior_fee_mult_bps_rv, !hwm_enabled_rv, !hwm_floor_bps_rv, Hv. done.
Qed.

(** ** The deposit record *)

Ltac solve_wfd_upd :=
  intros Hwf Hv; destruct Hwf as [H8 H64 Hk Hpad Hres];
  repeat match goal with
         | H : Forall _ (_ :: _) |- _ => apply Forall_cons_1 in H; destruct H
         end;
  split; upd_simpl; [| | | exact Hpad | exact Hres];
  repeat (apply Forall_cons_2; [assumption|]); apply Forall_nil_2.

Section WfDeposit.
Context (d : StakeDeposit).

Lemma wf_sd_is_initialized v : wf_deposit d -> u8 v -> wf_deposit (d <| sd_is_initialized := v |>).
Proof. solve_wfd_upd. Qed.
Lemma wf_sd_bump v : wf_deposit d -> u8 v -> wf_deposit (d <| sd_bump := v |>).
Proof. solve_wfd_upd. Qed.
Lemma wf_sd_pool v : wf_deposit d -> key_ok v -> wf_deposit (d <| sd_pool := v |>).
Proof. solve_wfd_upd. Qed.
Lemma wf_sd_user v : wf_deposit d -> key_ok v -> wf_deposit (d <| sd_user := v |>).
Proof. solve_wfd_upd. Qed.
Lemma wf_sd_last_deposit_slot v :
  wf_deposit d -> u64 v -> wf_deposit (d <| sd_last_deposit_slot := v |>).
Proof. solve_wfd_upd. Qed.
Lemma wf_sd_lp_amount v : wf_deposit d -> u64 v -> wf_deposit (d <| sd_lp_amount := v |>).
Proof. solve_wfd_upd. Qed.

Lemma wf_sd_reserved i bs :
  wf_deposit d -> (i + length bs <= 64)%nat -> bytes_ok bs ->
  wf_deposit (d <| sd_reserved := splice i bs d.(sd_reserved) |>).
Proof.
  intros [H8 H64 Hk Hpad [Hl Hr]] Hi Hb. split; upd_simpl; try assumption.
  rewrite length_splice by lia. auto with stake.
Qed.

Lemma wf_set_junior_deposit b : wf_deposit d -> wf_deposit (set_junior_deposit b d).
Proof. intros. apply wf_sd_reserved; [done|cbn; lia|auto with stake]. Qed.

Lemma wf_deposit_set_discriminator : wf_deposit d -> wf_deposit (deposit_set_discriminator d).
Proof.
  intros. apply wf_sd_reserved; [done|cbn; lia|].
  repeat (apply Forall_cons_2; [unfold byte_ok; lia|]). apply Forall_nil_2.
Qed.
End WfDeposit.

#[export] Hint Resolve wf_sd_is_initialized wf_sd_bump wf_sd_pool wf_sd_user
  wf_sd_last_deposit_slot wf_sd_lp_amount wf_set_junior_deposit wf_deposit_set_discriminator
  : stake.

(** The tranche flag and the discriminator live in different bytes. *)
Lemma deposit_reserved_ops d :
  wf_deposit d ->
  is_junior_deposit (set_junior_deposit true d) = true /\
  is_junior_deposit (set_junior_deposit false d) = false /\
  is_junior_deposit (deposit_set_discriminator d) = is_junior_deposit d /\
  deposit_validate_discriminator (deposit_set_discriminator d) = true /\
  forall b, deposit_validate_discriminator (set_junior_deposit b d) = deposit_validate_discriminator d.
Proof.
  intros [_ _ _ _ [Hl _]].
  assert (H8 : length STAKE_DEPOSIT_DISCRIMINATOR = 8%nat) by done.
  unfold is_junior_deposit, set_junior_deposit, deposit_validate_discriminator,
    deposit_set_discriminator. upd_simpl.
  rewrite !byte_at_splice_same, byte_at_splice_ne, slice_splice_same by len64.
  split_and!; try done. intros b. upd_simpl. by rewrite slice_splice_ne by len64.
Qed.
