(* ===== verification/Runtime.v ===== *)
(** * The runtime the program executes in

    Accounts, instructions and the interface of the [solana_program] crate the
    handlers call. The crate, the SPL token program, the wrapper and the system
    program are not part of this repository: what they do is a parameter
    ([Runtime]), and what the handlers rely on is a class of laws
    ([RuntimeLaws]). The transaction's accounts are one shared store keyed by
    public key ([World]); two [AccountInfo]s with the same key alias the same
    entry, as they alias the same [RefCell] in the program. *)

From S2P Require Import Prelude Errors State.

Abbreviation Pubkey := (list Z).

(** ** Accounts *)

Record Account : Set := mkAccount {
  acc_owner : Pubkey;
  acc_lamports : Z;
  acc_data : list Z;
}.

#[global] Instance Account_eq_dec : EqDecision Account.
Proof. solve_decision. Defined.

(** The system program's id, the owner of every account not yet created. *)
Definition SYSTEM_PROGRAM_ID : Pubkey := ZERO_KEY.
Definition empty_account : Account := mkAccount SYSTEM_PROGRAM_ID 0 [].

Abbreviation World := (gmap (list Z) Account).
Definition get (w : World) (k : Pubkey) : Account := default empty_account (w !! k).
Definition set_data (k : Pubkey) (d : list Z) (w : World) : World :=
  <[k := mkAccount (acc_owner (get w k)) (acc_lamports (get w k)) d]> w.

(** [solana_program::account_info::AccountInfo]; owner, lamports and data are
    read from the store. *)
Record AccountInfo : Set := mkAccountInfo {
  ai_key : Pubkey;
  ai_is_signer : bool;
  ai_is_writable : bool;
}.

Definition ai_owner (w : World) (ai : AccountInfo) : Pubkey := acc_owner (get w ai.(ai_key)).
Definition ai_lamports (w : World) (ai : AccountInfo) : Z := acc_lamports (get w ai.(ai_key)).
Definition ai_data (w : World) (ai : AccountInfo) : list Z := acc_data (get w ai.(ai_key)).

Definition key_eqb (a b : Pubkey) : bool := bool_decide (a = b).

(** ** Borrows

    [mb] lists the keys whose data is mutably borrowed at that point of the
    handler. [try_borrow_data] fails on such an account; [data_len] and
    [data_is_empty] borrow without [try_] and panic. *)

Definition try_borrow_data (mb : list Pubkey) (ai : AccountInfo) (w : World)
    : ProgramResult (list Z) :=
  ensure negb (bool_decide (ai.(ai_key) ∈ mb)) or_err AccountBorrowFailed;
  Ok (ai_data w ai).

Definition data_len (mb : list Pubkey) (ai : AccountInfo) (w : World) : ProgramResult nat :=
  ensure negb (bool_decide (ai.(ai_key) ∈ mb)) or_err Panicked;
  Ok (length (ai_data w ai)).

Definition data_is_empty (mb : list Pubkey) (ai : AccountInfo) (w : World)
    : ProgramResult bool :=
  n ← data_len mb ai w;
  Ok (bool_decide (n = 0%nat)).

(** ** Instructions *)

Record AccountMeta : Set := mkMeta {
  am_pubkey : Pubkey;
  am_is_signer : bool;
  am_is_writable : bool;
}.
(** [AccountMeta::new] and [AccountMeta::new_readonly]. *)
Definition meta_new (k : Pubkey) (signer : bool) : AccountMeta := mkMeta k signer true.
Definition meta_new_readonly (k : Pubkey) (signer : bool) : AccountMeta := mkMeta k signer false.

Record Instruction : Set := mkInstruction {
  ix_program_id : Pubkey;
  ix_accounts : list AccountMeta;
  ix_data : list Z;
}.

Definition writable_keys (ix : Instruction) : list Pubkey :=
  am_pubkey <$> filter (fun m => am_is_writable m = true) ix.(ix_accounts).

Record Clock : Set := mkClock { clock_slot : Z; clock_epoch : Z }.

(** ** The interface *)

(** What the program calls of [solana_program]. [invoke_signed mb ix infos
    seeds w] executes [ix] with the accounts [infos] and the signer seeds
    [seeds], while the accounts [mb] are mutably borrowed by the caller. *)
Class Runtime := {
  find_program_address : list (list Z) -> Pubkey -> Pubkey * Z;
  invoke_signed : list Pubkey -> Instruction -> list AccountInfo -> list (list (list Z)) ->
                  World -> ProgramResult World;
  clock_from_account_info : AccountInfo -> World -> ProgramResult Clock;
  Rent : Type;
  rent_from_account_info : AccountInfo -> World -> ProgramResult Rent;
  rent_get : World -> ProgramResult Rent;
  rent_minimum_balance : Rent -> Z -> Z;
  RENT_SYSVAR_ID : Pubkey;
  system_create_account : Pubkey -> Pubkey -> Z -> Z -> Pubkey -> Instruction;
  system_transfer : Pubkey -> Pubkey -> Z -> Instruction;
  system_allocate : Pubkey -> Z -> Instruction;
  system_assign : Pubkey -> Pubkey -> Instruction;
}.

(** [solana_program::program::invoke] is [invoke_signed] without seeds. *)
Definition invoke `{Runtime} (mb : list Pubkey) (ix : Instruction)
    (infos : list AccountInfo) (w : World) : ProgramResult World :=
  invoke_signed mb ix infos [] w.

(** ** Program addresses (src/state.rs) *)

(** The byte strings b"stake_pool", b"vault_auth" and b"stake_deposit". *)
Definition SEED_STAKE_POOL : list Z := [115; 116; 97; 107; 101; 95; 112; 111; 111; 108].
Definition SEED_VAULT_AUTH : list Z := [118; 97; 117; 108; 116; 95; 97; 117; 116; 104].
Definition SEED_STAKE_DEPOSIT : list Z :=
  [115; 116; 97; 107; 101; 95; 100; 101; 112; 111; 115; 105; 116].

Definition derive_pool_pda `{Runtime} (program_id slab : Pubkey) : Pubkey * Z :=
  find_program_address [SEED_STAKE_POOL; slab] program_id.
Definition derive_vault_authority `{Runtime} (program_id pool : Pubkey) : Pubkey * Z :=
  find_program_address [SEED_VAULT_AUTH; pool] program_id.
Definition derive_deposit_pda `{Runtime} (program_id pool user : Pubkey) : Pubkey * Z :=
  find_program_address [SEED_STAKE_DEPOSIT; pool; user] program_id.

(** ** Lemmas on the store *)

Lemma get_set_data_eq k d w :
  get (set_data k d w) k = mkAccount (acc_owner (get w k)) (acc_lamports (get w k)) d.
Proof. unfold get, set_data. by rewrite lookup_insert_eq. Qed.

Lemma get_set_data_ne k k' d w : k <> k' -> get (set_data k d w) k' = get w k'.
Proof. intros. unfold get, set_data. by rewrite lookup_insert_ne. Qed.

Lemma acc_owner_set_data k k' d w : acc_owner (get (set_data k d w) k') = acc_owner (get w k').
Proof.
  destruct (decide (k = k')) as [<-|]; [by rewrite get_set_data_eq|by rewrite get_set_data_ne].
Qed.

Lemma try_borrow_data_Ok mb ai w d :
  try_borrow_data mb ai w = Ok d <-> ai.(ai_key) ∉ mb /\ d = ai_data w ai.
Proof.
  unfold try_borrow_data. rewrite ensure_Ok, negb_true_iff, bool_decide_eq_false.
  naive_solver.
Qed.

Lemma data_len_Ok mb ai w n :
  data_len mb ai w = Ok n <-> ai.(ai_key) ∉ mb /\ n = length (ai_data w ai).
Proof.
  unfold data_len. rewrite ensure_Ok, negb_true_iff, bool_decide_eq_false. naive_solver.
Qed.

Lemma data_is_empty_Ok mb ai w b :
  data_is_empty mb ai w = Ok b <->
  ai.(ai_key) ∉ mb /\ b = bool_decide (ai_data w ai = []).
Proof.
  unfold data_is_empty. rewrite bind_Ok. split.
  - intros (n & Hn & [= <-]). apply data_len_Ok in Hn as [? ->]. split; [done|].
    apply bool_decide_ext. by rewrite length_zero_iff_nil.
  - intros [? ->]. exists (length (ai_data w ai)). split; [by apply data_len_Ok|].
    f_equal. apply bool_decide_ext. by rewrite length_zero_iff_nil.
Qed.

Lemma key_eqb_eq a b : key_eqb a b = true <-> a = b.
Proof. apply bool_decide_eq_true. Qed.
Lemma key_eqb_neq a b : key_eqb a b = false <-> a <> b.
Proof. apply bool_decide_eq_false. Qed.
