(* ===== verification/SplToken.v ===== *)
(** * The SPL token shim (src/spl_token.rs)

    The instruction builders and the two account parsers the program carries
    instead of the [spl-token] crate. *)

From S2P Require Import Prelude Errors State Runtime.

(** "TokenkegQfeZyiNwAJbNbGKPFXCWuBvf9Ss623VQ5DA", base58-decoded. *)
Definition id : Pubkey := 
  [6; 221; 246; 225; 215; 101; 161; 147; 217; 203; 225; 70; 206; 235;
   121; 172; 28; 180; 133; 237; 95; 91; 55; 145; 58; 140; 245; 133; 126;
   255; 0; 169].

Definition IX_INITIALIZE_MINT : Z := 0.
Definition IX_INITIALIZE_ACCOUNT : Z := 1.
Definition IX_TRANSFER : Z := 3.
Definition IX_MINT_TO : Z := 7.
Definition IX_BURN : Z := 8.

(** The builders wrap their result in [Ok]; the [?] at the call sites never
    fires. *)
Definition initialize_mint `{Runtime} (_program_id mint mint_authority : Pubkey)
    (freeze_authority : option Pubkey) (decimals : Z) : ProgramResult Instruction :=
  let data :=
    match freeze_authority with
    | None =>
        let d := replicate 35 0 in
        let d := splice 0 [IX_INITIALIZE_MINT] d in
        let d := splice 1 [decimals] d in
        splice 2 mint_authority d
    | Some auth =>
        let d := replicate 67 0 in
        let d := splice 0 [IX_INITIALIZE_MINT] d in
        let d := splice 1 [decimals] d in
        let d := splice 2 mint_authority d in
        let d := splice 34 [1] d in
        splice 35 auth d
    end in
  Ok {| ix_program_id := id;
        ix_accounts := [meta_new mint false; meta_new_readonly RENT_SYSVAR_ID false];
        ix_data := data |}.

Definition initialize_account `{Runtime} (_program_id account mint owner : Pubkey)
    : ProgramResult Instruction :=
  Ok {| ix_program_id := id;
        ix_accounts := [meta_new account false; meta_new_readonly mint false;
                        meta_new_readonly owner false;
                        meta_new_readonly RENT_SYSVAR_ID false];
        ix_data := [IX_INITIALIZE_ACCOUNT] |}.

(** [data[0] = tag; data[1..9] = amount.to_le_bytes()] *)
Definition amount_data (tag amount : Z) : list Z :=
  splice 1 (le_bytes 8 amount) (splice 0 [tag] (replicate 9 0)).

Definition transfer (_program_id source dest authority : Pubkey)
    (_multisigners : list Pubkey) (amount : Z) : ProgramResult Instruction :=
  Ok {| ix_program_id := id;
        ix_accounts := [meta_new source false; meta_new dest false;
                        meta_new_readonly authority true];
        ix_data := amount_data IX_TRANSFER amount |}.

Definition mint_to (_program_id mint destination authority : Pubkey)
    (_multisigners : list Pubkey) (amount : Z) : ProgramResult Instruction :=
  Ok {| ix_program_id := id;
        ix_accounts := [meta_new mint false; meta_new destination false;
                        meta_new_readonly authority true];
        ix_data := amount_data IX_MINT_TO amount |}.

Definition burn (_program_id account mint authority : Pubkey)
    (_multisigners : list Pubkey) (amount : Z) : ProgramResult Instruction :=
  Ok {| ix_program_id := id;
        ix_accounts := [meta_new account false; meta_new mint false;
                        meta_new_readonly authority true];
        ix_data := amount_data IX_BURN amount |}.

(** ** Account parsing *)

Definition ACCOUNT_LEN : nat := 165.
Definition MINT_LEN : nat := 82.

(** [pinocchio_token::state::AccountState] *)
Inductive AccountState : Set := Uninitialized | Initialized | Frozen.
#[global] Instance AccountState_eq_dec : EqDecision AccountState.
Proof. solve_decision. Defined.

Record TokenAccount : Set := mkTokenAccount { ta_amount : Z; ta_state : AccountState }.

Definition account_state_of_byte (b : Z) : AccountState :=
  match b with 0 => Uninitialized | 1 => Initialized | _ => Frozen end.

Definition account_unpack (data : list Z) : ProgramResult TokenAccount :=
  ensure negb (bool_decide (length data < ACCOUNT_LEN)%nat) or_err InvalidAccountData;
  amount_bytes ← index_range 64 72 data;
  let amount := le_val amount_bytes in
  state_byte ← index_at 108 data;
  let state := account_state_of_byte state_byte in
  Ok {| ta_amount := amount; ta_state := state |}.

Record Mint : Set := mkMint { mint_decimals : Z; mint_is_initialized : bool }.

Definition mint_unpack (data : list Z) : ProgramResult Mint :=
  ensure negb (bool_decide (length data < MINT_LEN)%nat) or_err InvalidAccountData;
  decimals ← index_at 44 data;
  initialized_byte ← index_at 45 data;
  let is_initialized := negb (initialized_byte =? 0) in
  Ok {| mint_decimals := decimals; mint_is_initialized := is_initialized |}.

(** ** The fields of a token account and of a mint

    The positions the program reads or relies on ([0..32] mint, [32..64]
    owner, [64..72] amount, [108] state; for a mint, [36..44] supply). *)

Definition token_mint (a : Account) : Pubkey := slice 0 32 (acc_data a).
Definition token_owner (a : Account) : Pubkey := slice 32 64 (acc_data a).
Definition token_amount (a : Account) : Z := le_val (slice 64 72 (acc_data a)).
Definition token_state (a : Account) : Z := byte_at 108 (acc_data a).
Definition mint_supply (a : Account) : Z := le_val (slice 36 44 (acc_data a)).

(** ** Lemmas *)

Lemma account_unpack_Ok data t :
  account_unpack data = Ok t ->
  (ACCOUNT_LEN <= length data)%nat /\ ta_amount t = le_val (slice 64 72 data).
Proof.
  unfold account_unpack. intros [Hl H]%ensure_Ok. bool_prop.
  apply bind_Ok in H as (b & ->%index_range_Ok & H). apply bind_Ok in H as (s & _ & [= <-]).
  split; [lia|done].
Qed.

(** On an account of the length it checks, the parser reads the fields. *)
Lemma account_unpack_live data :
  (ACCOUNT_LEN <= length data)%nat ->
  account_unpack data = Ok {| ta_amount := le_val (slice 64 72 data);
                              ta_state := account_state_of_byte (byte_at 108 data) |}.
Proof.
  unfold account_unpack, ACCOUNT_LEN. intros Hl. rewrite bool_decide_eq_false_2 by lia. cbn [negb].
  by rewrite index_range_in, bind_of_Ok, index_at_in, bind_of_Ok by lia.
Qed.

Lemma mint_unpack_live data :
  (MINT_LEN <= length data)%nat ->
  mint_unpack data = Ok {| mint_decimals := byte_at 44 data;
                           mint_is_initialized := negb (byte_at 45 data =? 0) |}.
Proof.
  unfold mint_unpack, MINT_LEN. intros Hl. rewrite bool_decide_eq_false_2 by lia. cbn [negb].
  by rewrite !index_at_in by lia.
Qed.

Lemma length_amount_data tag amount : length (amount_data tag amount) = 9%nat.
Proof.
  unfold amount_data. rewrite !length_splice; rewrite ?length_splice, ?length_le_bytes; cbn; lia.
Qed.
