(* ===== verification/Instruction.v ===== *)
(** * Instructions (src/instruction.rs)

    The instruction set, the decoder the entrypoint calls on the instruction
    data, and a reference encoder the decoder is proved to invert. *)

From S2P Require Import Prelude Errors State.

Inductive StakeInstruction : Set :=
  | InitPool (cooldown_slots deposit_cap : Z)
  | Deposit (amount : Z)
  | Withdraw (lp_amount : Z)
  | FlushToInsurance (amount : Z)
  | UpdateConfig (new_cooldown_slots new_deposit_cap : option Z)
  | ProposeAdmin (new_admin : list Z)
  | AcceptAdmin
  | ProposeCooldownIncrease (new_cooldown_slots : Z)
  | CommitCooldownIncrease
  | CancelCooldownIncrease
  | BindInsuranceAuthority
  | RotateInsuranceAuthority
  | BurnAssetAdmin
  | RotateInsuranceOperator
  | RecoverFlushedInsurance (amount : Z)
  | ReturnInsurance (amount : Z)
  | AccrueFees
  | InitTradingPool (cooldown_slots deposit_cap : Z)
  | AdminSetHwmConfig (enabled : bool) (hwm_floor_bps : Z)
  | AdminSetTrancheConfig (junior_fee_mult_bps : Z)
  | DepositJunior (amount : Z)
  | SetMarketResolved
  | AdminResolveMarket
  | AdminUpdateFeeSplit (creator_share_bps lp_share_bps insurance_share_bps : Z)
  | AdminUpdateMaintenanceFeePerSlot (maintenance_fee_per_slot : Z)
  | AdminUpdateBackingFeePolicy (domain fee_bps insurance_share_bps : Z)
  | AdminUpdateTradeFeePolicy (trade_fee_base_bps : Z).

#[global] Instance StakeInstruction_eq_dec : EqDecision StakeInstruction.
Proof. solve_decision. Defined.

(** ** The decoder *)

(** [rest.len() != n => Err(InvalidInstructionData)] *)
Definition expect_len (rest : list Z) (n : nat) {A} (k : ProgramResult A) : ProgramResult A :=
  ensure bool_decide (length rest = n) or_err InvalidInstructionData; k.

(** An arm that takes no payload: [!rest.is_empty() => Err]. *)
Definition unpack_unit (rest : list Z) (i : StakeInstruction) : ProgramResult StakeInstruction :=
  expect_len rest 0 (Ok i).

(** An arm whose payload is one little-endian integer on [n] bytes. *)
Definition unpack_int (n : nat) (rest : list Z) (c : Z -> StakeInstruction)
    : ProgramResult StakeInstruction :=
  expect_len rest n (bytes ← index_range 0 n rest; Ok (c (le_val bytes))).

(** The arms with two [u64]s: InitPool and InitTradingPool. *)
Definition unpack_u64_pair (rest : list Z) (c : Z -> Z -> StakeInstruction)
    : ProgramResult StakeInstruction :=
  expect_len rest 16
    (cooldown_slots ← index_range 0 8 rest;
     deposit_cap ← index_range 8 16 rest;
     Ok (c (le_val cooldown_slots) (le_val deposit_cap))).

(** The arms with three [u16]s: AdminUpdateFeeSplit and
    AdminUpdateBackingFeePolicy. *)
Definition unpack_u16_triple (rest : list Z) (c : Z -> Z -> Z -> StakeInstruction)
    : ProgramResult StakeInstruction :=
  expect_len rest 6
    (x ← index_range 0 2 rest;
     y ← index_range 2 4 rest;
     z ← index_range 4 6 rest;
     Ok (c (le_val x) (le_val y) (le_val z))).

Definition unpack_update_config (rest : list Z) : ProgramResult StakeInstruction :=
  expect_len rest 18
    (b ← index_at 0 rest;
     let has_cooldown := negb (b =? 0) in
     cooldown_bytes ← index_range 1 9 rest;
     let cooldown := le_val cooldown_bytes in
     b ← index_at 9 rest;
     let has_cap := negb (b =? 0) in
     cap_bytes ← index_range 10 18 rest;
     let cap := le_val cap_bytes in
     Ok (UpdateConfig (if has_cooldown then Some cooldown else None)
                      (if has_cap then Some cap else None))).

Definition unpack_set_hwm_config (rest : list Z) : ProgramResult StakeInstruction :=
  expect_len rest 3
    (b ← index_at 0 rest;
     let enabled := negb (b =? 0) in
     hwm_floor_bytes ← index_range 1 3 rest;
     let hwm_floor_bps := le_val hwm_floor_bytes in
     Ok (AdminSetHwmConfig enabled hwm_floor_bps)).

Definition unpack (data : list Z) : ProgramResult StakeInstruction :=
  match data with
  | [] => Err InvalidInstructionData
  | tag :: rest =>
      match tag with
      | 0 => unpack_u64_pair rest InitPool
      | 1 => unpack_int 8 rest Deposit
      | 2 => unpack_int 8 rest Withdraw
      | 3 => unpack_int 8 rest FlushToInsurance
      | 4 => unpack_update_config rest
      | 5 => expect_len rest 32 (new_admin ← index_range 0 32 rest; Ok (ProposeAdmin new_admin))
      | 6 => unpack_unit rest AcceptAdmin
      | 7 => unpack_int 8 rest ProposeCooldownIncrease
      | 8 => unpack_unit rest CommitCooldownIncrease
      | 9 => unpack_unit rest CancelCooldownIncrease
      | 19 => unpack_unit rest BindInsuranceAuthority
      | 20 => unpack_unit rest RotateInsuranceAuthority
      | 21 => unpack_unit rest BurnAssetAdmin
      | 22 => unpack_unit rest RotateInsuranceOperator
      | 23 => unpack_int 8 rest RecoverFlushedInsurance
      | 10 => unpack_int 8 rest ReturnInsurance
      | 12 => unpack_unit rest AccrueFees
      | 13 => unpack_u64_pair rest InitTradingPool
      | 14 => unpack_set_hwm_config rest
      | 15 => unpack_int 2 rest AdminSetTrancheConfig
      | 16 => unpack_int 8 rest DepositJunior
      | 18 => unpack_unit rest SetMarketResolved
      | 24 => unpack_unit rest AdminResolveMarket
      | 25 => unpack_u16_triple rest AdminUpdateFeeSplit
      | 26 => unpack_int 16 rest AdminUpdateMaintenanceFeePerSlot
      | 27 => unpack_u16_triple rest AdminUpdateBackingFeePolicy
      | 28 => unpack_int 8 rest AdminUpdateTradeFeePolicy
      | _ => Err InvalidInstructionData
      end
  end.

(** ** The reference encoder *)

Definition opt_bytes (o : option Z) : list Z :=
  match o with Some v => 1 :: le_bytes 8 v | None => 0 :: le_bytes 8 0 end.

(** The tag and the payload of an instruction, as clients build them. *)
Definition pack (i : StakeInstruction) : list Z :=
  match i with
  | InitPool c d => 0 :: le_bytes 8 c ++ le_bytes 8 d
  | Deposit a => 1 :: le_bytes 8 a
  | Withdraw a => 2 :: le_bytes 8 a
  | FlushToInsurance a => 3 :: le_bytes 8 a
  | UpdateConfig c d => 4 :: opt_bytes c ++ opt_bytes d
  | ProposeAdmin k => 5 :: k
  | AcceptAdmin => [6]
  | ProposeCooldownIncrease c => 7 :: le_bytes 8 c
  | CommitCooldownIncrease => [8]
  | CancelCooldownIncrease => [9]
  | ReturnInsurance a => 10 :: le_bytes 8 a
  | AccrueFees => [12]
  | InitTradingPool c d => 13 :: le_bytes 8 c ++ le_bytes 8 d
  | AdminSetHwmConfig e b => 14 :: (if e then 1 else 0) :: le_bytes 2 b
  | AdminSetTrancheConfig b => 15 :: le_bytes 2 b
  | DepositJunior a => 16 :: le_bytes 8 a
  | SetMarketResolved => [18]
  | BindInsuranceAuthority => [19]
  | RotateInsuranceAuthority => [20]
  | BurnAssetAdmin => [21]
  | RotateInsuranceOperator => [22]
  | RecoverFlushedInsurance a => 23 :: le_bytes 8 a
  | AdminResolveMarket => [24]
  | AdminUpdateFeeSplit a b c => 25 :: le_bytes 2 a ++ le_bytes 2 b ++ le_bytes 2 c
  | AdminUpdateMaintenanceFeePerSlot m => 26 :: le_bytes 16 m
  | AdminUpdateBackingFeePolicy a b c => 27 :: le_bytes 2 a ++ le_bytes 2 b ++ le_bytes 2 c
  | AdminUpdateTradeFeePolicy b => 28 :: le_bytes 8 b
  end.

(** Every argument is a value of its Rust type. *)
Definition wf_instruction (i : StakeInstruction) : Prop :=
  match i with
  | InitPool c d | InitTradingPool c d => u64 c /\ u64 d
  | Deposit a | Withdraw a | FlushToInsurance a | RecoverFlushedInsurance a
  | ReturnInsurance a | DepositJunior a | ProposeCooldownIncrease a
  | AdminUpdateTradeFeePolicy a => u64 a
  | UpdateConfig c d => (forall v, c = Some v -> u64 v) /\ (forall v, d = Some v -> u64 v)
  | ProposeAdmin k => key_ok k
  | AdminSetHwmConfig _ b | AdminSetTrancheConfig b => u16 b
  | AdminUpdateFeeSplit a b c | AdminUpdateBackingFeePolicy a b c => u16 a /\ u16 b /\ u16 c
  | AdminUpdateMaintenanceFeePerSlot m => u128 m
  | _ => True
  end.

(** ** Lemmas *)

Lemma expect_len_Ok rest n {A} (k : ProgramResult A) a :
  expect_len rest n k = Ok a <-> length rest = n /\ k = Ok a.
Proof. unfold expect_len. by rewrite ensure_Ok, bool_decide_eq_true. Qed.

Lemma expect_len_eq rest n {A} (k : ProgramResult A) : length rest = n -> expect_len rest n k = k.
Proof. intros <-. unfold expect_len. by rewrite bool_decide_eq_true_2. Qed.

(** Behind its length check, a payload's decoding never indexes out of range: each
    read is [slice] or [nth]. *)
Ltac index_simpl Hl :=
  repeat first
    [ rewrite index_range_in by (rewrite ?Hl; lia)
    | rewrite index_at_in by (rewrite ?Hl; lia)
    | rewrite bind_of_Ok ]; cbv zeta.

Section Decoded.
Context (rest : list Z).

Lemma unpack_int_eq n c :
  unpack_int n rest c = expect_len rest n (Ok (c (le_val (slice 0 n rest)))).
Proof. unfold unpack_int, expect_len. case_bool_decide as Hl; [by index_simpl Hl|done]. Qed.

Lemma unpack_u64_pair_eq c :
  unpack_u64_pair rest c
  = expect_len rest 16 (Ok (c (le_val (slice 0 8 rest)) (le_val (slice 8 16 rest)))).
Proof. unfold unpack_u64_pair, expect_len. case_bool_decide as Hl; [by index_simpl Hl|done]. Qed.

Lemma unpack_u16_triple_eq c :
  unpack_u16_triple rest c
  = expect_len rest 6 (Ok (c (le_val (slice 0 2 rest)) (le_val (slice 2 4 rest))
                             (le_val (slice 4 6 rest)))).
Proof. unfold unpack_u16_triple, expect_len. case_bool_decide as Hl; [by index_simpl Hl|done]. Qed.

Lemma unpack_update_config_eq :
  unpack_update_config rest
  = expect_len rest 18 (Ok (UpdateConfig
      (if negb (byte_at 0 rest =? 0) then Some (le_val (slice 1 9 rest)) else None)
      (if negb (byte_at 9 rest =? 0) then Some (le_val (slice 10 18 rest)) else None))).
Proof.
  unfold unpack_update_config, expect_len. case_bool_decide as Hl; [by index_simpl Hl|done].
Qed.

Lemma unpack_set_hwm_config_eq :
  unpack_set_hwm_config rest
  = expect_len rest 3 (Ok (AdminSetHwmConfig (negb (byte_at 0 rest =? 0))
                             (le_val (slice 1 3 rest)))).
Proof.
  unfold unpack_set_hwm_config, expect_len. case_bool_decide as Hl; [by index_simpl Hl|done].
Qed.

Lemma unpack_key_eq :
  expect_len rest 32 (new_admin ← index_range 0 32 rest; Ok (ProposeAdmin new_admin))
  = expect_len rest 32 (Ok (ProposeAdmin (slice 0 32 rest))).
Proof. unfold expect_len. case_bool_decide as Hl; [by index_simpl Hl|done]. Qed.
End Decoded.

Lemma slice_app_l n l1 l2 : length l1 = n -> slice 0 n (l1 ++ l2) = l1.
Proof. intros <-. unfold slice. by rewrite drop_0, Nat.sub_0_r, take_app_length. Qed.

Lemma slice_app_r a b l1 l2 :
  (length l1 <= a)%nat -> slice a b (l1 ++ l2) = slice (a - length l1) (b - length l1) l2.
Proof.
  intros Ha. unfold slice. rewrite drop_app_ge by done. f_equal. lia.
Qed.

Lemma le_val_slice_all n v l :
  0 <= v < 256 ^ Z.of_nat n -> le_val (slice 0 n (le_bytes n v ++ l)) = v.
Proof. intros. rewrite slice_app_l by apply length_le_bytes. by apply le_val_le_bytes_small. Qed.

Ltac len_simpl := rewrite ?length_app; cbn [length]; rewrite ?length_app, ?length_le_bytes.

(** Reads one field of an encoded payload. *)
Ltac read_field :=
  repeat (rewrite slice_app_r by (rewrite ?length_le_bytes; cbn; lia);
          rewrite ?length_le_bytes; cbn [Nat.sub length]);
  first [ rewrite le_val_slice_all by width_lia; reflexivity
        | rewrite slice_all by apply length_le_bytes;
          rewrite le_val_le_bytes_small by width_lia; reflexivity ].

Lemma unpack_int_pack n c v :
  0 <= v < 256 ^ Z.of_nat n -> unpack_int n (le_bytes n v) c = Ok (c v).
Proof.
  intros Hv. rewrite unpack_int_eq, expect_len_eq by apply length_le_bytes.
  do 2 f_equal. read_field.
Qed.

Lemma unpack_u64_pair_pack c v w :
  u64 v -> u64 w -> unpack_u64_pair (le_bytes 8 v ++ le_bytes 8 w) c = Ok (c v w).
Proof.
  intros Hv Hw. rewrite unpack_u64_pair_eq, expect_len_eq by (len_simpl; done).
  cbv zeta. do 2 f_equal; read_field.
Qed.

Lemma unpack_u16_triple_pack c v w x :
  u16 v -> u16 w -> u16 x ->
  unpack_u16_triple (le_bytes 2 v ++ le_bytes 2 w ++ le_bytes 2 x) c = Ok (c v w x).
Proof.
  intros Hv Hw Hx. rewrite unpack_u16_triple_eq, expect_len_eq by (len_simpl; done).
  cbv zeta. do 2 f_equal; read_field.
Qed.

Lemma opt_bytes_cons o : exists f v, opt_bytes o = f :: le_bytes 8 v /\
  (if negb (f =? 0) then Some v else None) = o /\ (forall x, o = Some x -> v = x) /\
  (o = None -> v = 0).
Proof. destruct o as [v|]; [exists 1, v|exists 0, 0]; naive_solver. Qed.

Lemma unpack_update_config_pack c d :
  (forall v, c = Some v -> u64 v) -> (forall v, d = Some v -> u64 v) ->
  unpack_update_config (opt_bytes c ++ opt_bytes d) = Ok (UpdateConfig c d).
Proof.
  intros Hc Hd.
  destruct (opt_bytes_cons c) as (f & v & -> & <- & Hv & Hv0).
  destruct (opt_bytes_cons d) as (g & w & -> & <- & Hw & Hw0).
  assert (u64 v) by (destruct (negb (f =? 0)); [auto|rewrite Hv0 by done; width_lia]).
  assert (u64 w) by (destruct (negb (g =? 0)); [auto|rewrite Hw0 by done; width_lia]).
  rewrite unpack_update_config_eq, expect_len_eq by (len_simpl; done).
  change ((f :: le_bytes 8 v) ++ g :: le_bytes 8 w)
    with ([f] ++ le_bytes 8 v ++ [g] ++ le_bytes 8 w).
  assert (H9 : byte_at 9 ([f] ++ le_bytes 8 v ++ [g] ++ le_bytes 8 w) = g).
  { unfold byte_at. cbn [app nth]. by rewrite app_nth2; rewrite length_le_bytes; [|lia]. }
  cbv zeta. rewrite H9. do 2 f_equal.
  - change (byte_at 0 _) with f; destruct (negb (f =? 0)); [|done]. f_equal. read_field.
  - destruct (negb (g =? 0)); [|done]. f_equal. read_field.
Qed.

Lemma unpack_set_hwm_config_pack (e : bool) b :
  u16 b -> unpack_set_hwm_config ((if e then 1 else 0) :: le_bytes 2 b) = Ok (AdminSetHwmConfig e b).
Proof.
  intros Hb. rewrite unpack_set_hwm_config_eq, expect_len_eq by (len_simpl; done).
  cbv zeta. unfold byte_at. cbn [nth]. f_equal. f_equal; [by destruct e|].
  change ((if e then 1 else 0) :: le_bytes 2 b) with ([if e then 1 else 0] ++ le_bytes 2 b).
  read_field.
Qed.

(** ** Inversion: what a decoded payload was *)

Section Inversion.
Context (rest : list Z) (Hrest : bytes_ok rest).

Lemma unpack_unit_inv i j : unpack_unit rest i = Ok j -> j = i /\ rest = [].
Proof. intros [Hl [= <-]]%expect_len_Ok. split; [done|]. by apply nil_length_inv. Qed.

Lemma le_bytes_field n a b :
  (b <= length rest)%nat -> b = (a + n)%nat ->
  0 <= le_val (slice a b rest) < 256 ^ Z.of_nat n /\ le_bytes n (le_val (slice a b rest)) = slice a b rest.
Proof.
  intros Hb ->. assert (Hs : length (slice a (a + n) rest) = n) by (rewrite length_slice; lia).
  assert (Ho : bytes_ok (slice a (a + n) rest)) by auto with stake.
  pose proof (le_val_bound _ Ho) as Hb'. pose proof (le_bytes_le_val _ Ho) as He.
  by rewrite Hs in Hb', He.
Qed.

Lemma unpack_int_inv n c j :
  unpack_int n rest c = Ok j ->
  exists v, j = c v /\ rest = le_bytes n v /\ 0 <= v < 256 ^ Z.of_nat n.
Proof.
  rewrite unpack_int_eq. intros [Hl [= <-]]%expect_len_Ok. destruct (le_bytes_field n 0 n) as [Hv E]; [lia|lia|].
  rewrite (slice_all n rest Hl) in *. eauto.
Qed.

Lemma unpack_u64_pair_inv c j :
  unpack_u64_pair rest c = Ok j ->
  exists v w, j = c v w /\ rest = le_bytes 8 v ++ le_bytes 8 w /\ u64 v /\ u64 w.
Proof.
  rewrite unpack_u64_pair_eq. intros [Hl [= <-]]%expect_len_Ok. eexists _, _. split; [done|].
  destruct (le_bytes_field 8 0 8) as [Hv ->]; [lia|lia|].
  destruct (le_bytes_field 8 8 16) as [Hw ->]; [lia|lia|].
  rewrite slice_app, slice_all by lia. split_and!; [done|width_lia..].
Qed.

Lemma unpack_u16_triple_inv c j :
  unpack_u16_triple rest c = Ok j ->
  exists v w x, j = c v w x /\ rest = le_bytes 2 v ++ le_bytes 2 w ++ le_bytes 2 x /\
                u16 v /\ u16 w /\ u16 x.
Proof.
  rewrite unpack_u16_triple_eq. intros [Hl [= <-]]%expect_len_Ok. eexists _, _, _. split; [done|].
  destruct (le_bytes_field 2 0 2) as [Hv ->]; [lia|lia|].
  destruct (le_bytes_field 2 2 4) as [Hw ->]; [lia|lia|].
  destruct (le_bytes_field 2 4 6) as [Hx ->]; [lia|lia|].
  rewrite !slice_app, slice_all by lia. split_and!; [done|width_lia..].
Qed.

Lemma unpack_update_config_inv j :
  unpack_update_config rest = Ok j -> wf_instruction j /\ length rest = 18%nat /\
  exists c d, j = UpdateConfig c d.
Proof.
  rewrite unpack_update_config_eq. intros [Hl [= <-]]%expect_len_Ok. cbn.
  destruct (le_bytes_field 8 1 9) as [Hv _]; [lia|lia|].
  destruct (le_bytes_field 8 10 18) as [Hw _]; [lia|lia|].
  split; [|eauto]. split; intros x; destruct (negb _); intros; simplify_eq; width_lia.
Qed.

Lemma unpack_set_hwm_config_inv j :
  unpack_set_hwm_config rest = Ok j -> wf_instruction j /\ length rest = 3%nat /\
  exists e b, j = AdminSetHwmConfig e b.
Proof.
  rewrite unpack_set_hwm_config_eq. intros [Hl [= <-]]%expect_len_Ok. cbn.
  destruct (le_bytes_field 2 1 3) as [Hv _]; [lia|lia|].
  split; [width_lia|eauto].
Qed.
End Inversion.

Lemma length_opt_bytes o : length (opt_bytes o) = 9%nat.
Proof. destruct o; cbn; by rewrite length_le_bytes. Qed.

(** The two instructions whose encoding has redundancy: any non-zero flag byte
    means [true], and an absent option's value is ignored. *)
Definition has_flags (i : StakeInstruction) : bool :=
  match i with UpdateConfig _ _ | AdminSetHwmConfig _ _ => true | _ => false end.

(** Case analysis on the tag byte. *)
Ltac unpack_tag H :=
  cbn in H;
  repeat (match type of H with
          | context [match ?x with _ => _ end] => is_var x; destruct x; try discriminate H
          end);
  cbn in H.

Ltac unpack_arm H :=
  lazymatch type of H with
  | unpack_unit _ _ = _ => apply unpack_unit_inv in H as [-> ->]
  | unpack_int _ _ _ = _ => apply unpack_int_inv in H as (? & -> & -> & ?); [|assumption]
  | unpack_u64_pair _ _ = _ => apply unpack_u64_pair_inv in H as (? & ? & -> & -> & ? & ?); [|assumption]
  | unpack_u16_triple _ _ = _ =>
      apply unpack_u16_triple_inv in H as (? & ? & ? & -> & -> & ? & ? & ?); [|assumption]
  | unpack_update_config _ = _ =>
      apply unpack_update_config_inv in H as (? & ? & ? & ? & ->); [|assumption]
  | unpack_set_hwm_config _ = _ =>
      apply unpack_set_hwm_config_inv in H as (? & ? & ? & ? & ->); [|assumption]
  | expect_len _ _ _ = _ => rewrite unpack_key_eq in H; apply expect_len_Ok in H as [? [= <-]]
  end.

(** ** Properties *)

(** C: packed instructions decode to themselves. *)
Lemma unpack_pack i : wf_instruction i -> unpack (pack i) = Ok i.
Proof.
  intros Hi. destruct i; cbn in Hi; destruct_and?;
    cbn [pack unpack]; try (apply unpack_int_pack; width_lia);
    try (apply unpack_u64_pair_pack; assumption);
    try (apply unpack_u16_triple_pack; assumption); try reflexivity.
  - by apply unpack_update_config_pack.
  - destruct Hi as [Hl _]. rewrite unpack_key_eq, expect_len_eq by done. by rewrite slice_all.
  - by apply unpack_set_hwm_config_pack.
Qed.

(** Inversion of the decoder. *)
Lemma unpack_inv data i :
  bytes_ok data -> unpack data = Ok i ->
  wf_instruction i /\ length data = length (pack i) /\ (has_flags i = false -> data = pack i).
Proof.
  intros Hd H. destruct data as [|tag rest]; [discriminate H|].
  apply Forall_cons_1 in Hd as [_ Hr]. unpack_tag H; unpack_arm H; cbn [pack has_flags wf_instruction].
  all: try (split_and!; first [done | width_lia]).
  - rewrite slice_all by done. done.
  - split_and!; [done| |done]. cbn. rewrite length_le_bytes. lia.
  - split_and!; [apply H|apply H| |done]. rewrite !length_cons, length_app, !length_opt_bytes. lia.
Qed.

(** Every refusal is [InvalidInstructionData]. *)
Lemma expect_len_Err {A} rest n (k : ProgramResult A) e :
  (forall e', k = Err e' -> e' = InvalidInstructionData) ->
  expect_len rest n k = Err e -> e = InvalidInstructionData.
Proof. unfold expect_len. intros Hk. destruct (bool_decide _); [apply Hk|by intros [= <-]]. Qed.

Lemma unpack_Err data e : unpack data = Err e -> e = InvalidInstructionData.
Proof.
  destruct data as [|tag rest]; [by intros [= <-]|]. intros H. unpack_tag H;
    rewrite ?unpack_int_eq, ?unpack_u64_pair_eq, ?unpack_u16_triple_eq, ?unpack_update_config_eq,
      ?unpack_set_hwm_config_eq, ?unpack_key_eq in H; unfold unpack_unit in H;
    first [by injection H as <-|by eapply expect_len_Err in H; [|intros e' He; discriminate He]].
Qed.
