(* ===== verification/Cpi.v ===== *)
(** * Calls into the wrapper program (src/cpi.rs)

    One definition per CPI: the instruction data (a tag byte, then the fields
    in little-endian order), the account metas with their signer and writable
    flags, and the [invoke_signed] that executes it. *)

From S2P Require Import Prelude Errors State Runtime.

Definition TAG_TOP_UP_INSURANCE : Z := 9.
Definition TAG_UPDATE_AUTHORITY : Z := 32.
Definition TAG_UPDATE_ASSET_AUTHORITY : Z := 65.
Definition ASSET_INDEX_ZERO : Z := 0.
Definition ASSET_AUTH_INSURANCE : Z := 1.
Definition ASSET_AUTH_INSURANCE_OPERATOR : Z := 2.
Definition ASSET_AUTH_ADMIN : Z := 0.
Definition TAG_WITHDRAW_INSURANCE_ASSET : Z := 57.
Definition TAG_RESOLVE_MARKET : Z := 19.
Definition TAG_UPDATE_FEE_SPLIT : Z := 86.
Definition TAG_UPDATE_MAINTENANCE_FEE_PER_SLOT : Z := 88.
Definition TAG_UPDATE_BACKING_FEE_POLICY : Z := 51.
Definition TAG_UPDATE_TRADE_FEE_POLICY : Z := 55.

(** ** The instructions *)

(** [amount as u128] *)
Definition top_up_insurance_ix
    (percolator_program signer slab signer_ata wrapper_vault token_program : AccountInfo)
    (amount : Z) : Instruction :=
  {| ix_program_id := percolator_program.(ai_key);
     ix_accounts := [meta_new_readonly signer.(ai_key) true;
                     meta_new slab.(ai_key) false;
                     meta_new signer_ata.(ai_key) false;
                     meta_new wrapper_vault.(ai_key) false;
                     meta_new_readonly token_program.(ai_key) false];
     ix_data := TAG_TOP_UP_INSURANCE :: le_bytes 16 amount |}.

Definition update_authority_ix
    (percolator_program current_admin new_authority slab : AccountInfo) : Instruction :=
  {| ix_program_id := percolator_program.(ai_key);
     ix_accounts := [meta_new_readonly current_admin.(ai_key) true;
                     meta_new_readonly new_authority.(ai_key) true;
                     meta_new slab.(ai_key) false];
     ix_data := TAG_UPDATE_AUTHORITY :: new_authority.(ai_key) |}.

(** The body shared by the four asset-authority calls: kind, new key, and the
    two authority slots with the signer flag of the second. *)
Definition update_asset_authority_ix
    (percolator_program current new_slot market : AccountInfo) (new_signs : bool)
    (kind : Z) (new_pubkey : Pubkey) : Instruction :=
  {| ix_program_id := percolator_program.(ai_key);
     ix_accounts := [meta_new_readonly current.(ai_key) true;
                     meta_new_readonly new_slot.(ai_key) new_signs;
                     meta_new market.(ai_key) false];
     ix_data := TAG_UPDATE_ASSET_AUTHORITY :: le_bytes 2 ASSET_INDEX_ZERO ++ [kind] ++ new_pubkey |}.

Definition withdraw_insurance_asset_ix
    (percolator_program vault_auth market dest_token wrapper_vault wrapper_vault_auth
     token_program : AccountInfo) (amount : Z) : Instruction :=
  {| ix_program_id := percolator_program.(ai_key);
     ix_accounts := [meta_new_readonly vault_auth.(ai_key) true;
                     meta_new market.(ai_key) false;
                     meta_new dest_token.(ai_key) false;
                     meta_new wrapper_vault.(ai_key) false;
                     meta_new_readonly wrapper_vault_auth.(ai_key) false;
                     meta_new_readonly token_program.(ai_key) false];
     ix_data := TAG_WITHDRAW_INSURANCE_ASSET :: le_bytes 2 ASSET_INDEX_ZERO ++ le_bytes 16 amount |}.

(** The two-account calls: the signing authority and the market. *)
Definition authority_market_ix
    (percolator_program authority slab : AccountInfo) (data : list Z) : Instruction :=
  {| ix_program_id := percolator_program.(ai_key);
     ix_accounts := [meta_new_readonly authority.(ai_key) true;
                     meta_new slab.(ai_key) false];
     ix_data := data |}.

(** ** The calls *)

Section Calls.
Context `{Runtime} (mb : list Pubkey).

Definition cpi_top_up_insurance
    (percolator_program signer slab signer_ata wrapper_vault token_program : AccountInfo)
    (amount : Z) (signer_seeds : list (list Z)) (w : World) : ProgramResult World :=
  invoke_signed mb
    (top_up_insurance_ix percolator_program signer slab signer_ata wrapper_vault
       token_program amount)
    [signer; slab; signer_ata; wrapper_vault; token_program] [signer_seeds] w.

Definition cpi_update_authority
    (percolator_program current_admin new_authority slab : AccountInfo)
    (new_authority_seeds : list (list Z)) (w : World) : ProgramResult World :=
  invoke_signed mb
    (update_authority_ix percolator_program current_admin new_authority slab)
    [current_admin; new_authority; slab] [new_authority_seeds] w.

Definition cpi_bind_insurance_authority
    (percolator_program admin vault_auth market : AccountInfo)
    (signer_seeds : list (list Z)) (w : World) : ProgramResult World :=
  invoke_signed mb
    (update_asset_authority_ix percolator_program admin vault_auth market true
       ASSET_AUTH_INSURANCE vault_auth.(ai_key))
    [admin; vault_auth; market] [signer_seeds] w.

Definition cpi_bind_insurance_operator
    (percolator_program admin vault_auth market : AccountInfo)
    (signer_seeds : list (list Z)) (w : World) : ProgramResult World :=
  invoke_signed mb
    (update_asset_authority_ix percolator_program admin vault_auth market true
       ASSET_AUTH_INSURANCE_OPERATOR vault_auth.(ai_key))
    [admin; vault_auth; market] [signer_seeds] w.

(** The new authority slot is a placeholder that does not sign; a plain
    [invoke]. *)
Definition cpi_burn_asset_admin
    (percolator_program admin vault_auth market : AccountInfo) (w : World)
    : ProgramResult World :=
  invoke mb
    (update_asset_authority_ix percolator_program admin vault_auth market false
       ASSET_AUTH_ADMIN (replicate 32 0))
    [admin; vault_auth; market] w.

Definition cpi_rotate_insurance_operator
    (percolator_program vault_auth new_target market : AccountInfo)
    (signer_seeds : list (list Z)) (w : World) : ProgramResult World :=
  invoke_signed mb
    (update_asset_authority_ix percolator_program vault_auth new_target market true
       ASSET_AUTH_INSURANCE_OPERATOR new_target.(ai_key))
    [vault_auth; new_target; market] [signer_seeds] w.

Definition cpi_rotate_insurance_authority
    (percolator_program vault_auth new_target market : AccountInfo)
    (signer_seeds : list (list Z)) (w : World) : ProgramResult World :=
  invoke_signed mb
    (update_asset_authority_ix percolator_program vault_auth new_target market true
       ASSET_AUTH_INSURANCE new_target.(ai_key))
    [vault_auth; new_target; market] [signer_seeds] w.

Definition cpi_withdraw_insurance_asset
    (percolator_program vault_auth market dest_token wrapper_vault wrapper_vault_auth
     token_program : AccountInfo) (amount : Z) (signer_seeds : list (list Z)) (w : World)
    : ProgramResult World :=
  invoke_signed mb
    (withdraw_insurance_asset_ix percolator_program vault_auth market dest_token
       wrapper_vault wrapper_vault_auth token_program amount)
    [vault_auth; market; dest_token; wrapper_vault; wrapper_vault_auth; token_program]
    [signer_seeds] w.

Definition cpi_resolve_market
    (percolator_program pool_pda slab : AccountInfo) (pool_seeds : list (list Z)) (w : World)
    : ProgramResult World :=
  invoke_signed mb
    (authority_market_ix percolator_program pool_pda slab [TAG_RESOLVE_MARKET])
    [pool_pda; slab] [pool_seeds] w.

Definition cpi_update_fee_split
    (percolator_program pool_pda slab : AccountInfo)
    (creator_share_bps lp_share_bps insurance_share_bps : Z)
    (pool_seeds : list (list Z)) (w : World) : ProgramResult World :=
  invoke_signed mb
    (authority_market_ix percolator_program pool_pda slab
       (TAG_UPDATE_FEE_SPLIT :: le_bytes 2 creator_share_bps ++ le_bytes 2 lp_share_bps
          ++ le_bytes 2 insurance_share_bps))
    [pool_pda; slab] [pool_seeds] w.

Definition cpi_update_maintenance_fee_per_slot
    (percolator_program pool_pda slab : AccountInfo) (maintenance_fee_per_slot : Z)
    (pool_seeds : list (list Z)) (w : World) : ProgramResult World :=
  invoke_signed mb
    (authority_market_ix percolator_program pool_pda slab
       (TAG_UPDATE_MAINTENANCE_FEE_PER_SLOT :: le_bytes 16 maintenance_fee_per_slot))
    [pool_pda; slab] [pool_seeds] w.

Definition cpi_update_backing_fee_policy
    (percolator_program vault_auth slab : AccountInfo)
    (domain fee_bps insurance_share_bps : Z)
    (vault_auth_seeds : list (list Z)) (w : World) : ProgramResult World :=
  invoke_signed mb
    (authority_market_ix percolator_program vault_auth slab
       (TAG_UPDATE_BACKING_FEE_POLICY :: le_bytes 2 domain ++ le_bytes 2 fee_bps
          ++ le_bytes 2 insurance_share_bps))
    [vault_auth; slab] [vault_auth_seeds] w.

Definition cpi_update_trade_fee_policy
    (percolator_program vault_auth slab : AccountInfo) (trade_fee_base_bps : Z)
    (vault_auth_seeds : list (list Z)) (w : World) : ProgramResult World :=
  invoke_signed mb
    (authority_market_ix percolator_program vault_auth slab
       (TAG_UPDATE_TRADE_FEE_POLICY :: le_bytes 8 trade_fee_base_bps))
    [vault_auth; slab] [vault_auth_seeds] w.
End Calls.
