(* ===== verification/Guards.v ===== *)
(** * Shared guards of the handlers (src/processor.rs)

    The validators every handler opens with, the reinterpretation of account
    data as a pool or deposit record, and the creation of program accounts. *)

From S2P Require Import Prelude Errors State PoolFacts Runtime SplToken.

Definition MAX_COOLDOWN_SLOTS : Z := 78840000.
Definition TIMELOCK_SLOTS : Z := 432000.
Definition MAX_HWM_FLOOR_BPS : Z := 9000.
Definition INIT_POOL_POOL_PDA_INDEX : nat := 2.

Definition timelock_window_elapsed (proposed_at timelock_slots now : Z) : ProgramResult bool :=
  earliest ← ok_or (checked_add U64_MAX proposed_at timelock_slots) (stake_err Overflow);
  Ok (earliest <=? now).

Definition validate_cooldown_slots (cooldown_slots : Z) : ProgramResult unit :=
  ensure negb (cooldown_slots =? 0) or_err InvalidArgument;
  ensure negb (MAX_COOLDOWN_SLOTS <? cooldown_slots) or_err InvalidArgument;
  Ok tt.

Definition validate_hwm_floor_bps (hwm_floor_bps : Z) : ProgramResult unit :=
  ensure negb ((hwm_floor_bps =? 0) || (MAX_HWM_FLOOR_BPS <? hwm_floor_bps))
    or_err InvalidArgument;
  Ok tt.

Definition verify_token_program (token_program : AccountInfo) : ProgramResult unit :=
  ensure key_eqb token_program.(ai_key) SplToken.id or_err IncorrectProgramId;
  Ok tt.

Definition validate_account_owner (account : AccountInfo) (expected_owner : Pubkey) (w : World)
    : ProgramResult unit :=
  ensure key_eqb (ai_owner w account) expected_owner or_err stake_err InvalidAccount;
  Ok tt.

Definition validate_pool_version (pool : StakePool) : ProgramResult unit :=
  ensure version pool =? CURRENT_VERSION or_err stake_err InvalidAccount;
  Ok tt.

Definition validate_account_writable (account : AccountInfo) : ProgramResult unit :=
  ensure account.(ai_is_writable) or_err stake_err InvalidAccount;
  Ok tt.

Definition validate_account_not_empty (mb : list Pubkey) (account : AccountInfo) (w : World)
    : ProgramResult unit :=
  empty ← data_is_empty mb account w;
  ensure negb empty or_err stake_err InvalidAccount;
  Ok tt.

Definition require_signer (ai : AccountInfo) : ProgramResult unit :=
  ensure ai.(ai_is_signer) or_err MissingRequiredSignature;
  Ok tt.

(** ** Records in account data *)

(** [bytemuck::try_from_bytes] on a slice of the struct's exact size; account
    data is 8-aligned in the runtime's input buffer, so the cast succeeds. *)
Definition pool_from_data (data : list Z) : ProgramResult StakePool :=
  ensure negb (bool_decide (length data < STAKE_POOL_SIZE)%nat) or_err stake_err InvalidAccount;
  bytes ← index_range 0 STAKE_POOL_SIZE data;
  Ok (pool_decode bytes).

Definition deposit_from_data (data : list Z) : ProgramResult StakeDeposit :=
  ensure negb (bool_decide (length data < STAKE_DEPOSIT_SIZE)%nat) or_err stake_err InvalidAccount;
  bytes ← index_range 0 STAKE_DEPOSIT_SIZE data;
  Ok (deposit_decode bytes).

(** The record is a reference into the account's data: dropping it leaves the
    assigned fields there. *)
Definition store_pool (k : Pubkey) (pool : StakePool) (w : World) : World :=
  set_data k (splice 0 (pool_encode pool) (acc_data (get w k))) w.
Definition store_deposit (k : Pubkey) (d : StakeDeposit) (w : World) : World :=
  set_data k (splice 0 (deposit_encode d) (acc_data (get w k))) w.

(** The three checks every handler makes on the record it opened. *)
Definition check_pool (pool : StakePool) : ProgramResult unit :=
  ensure pool.(sp_is_initialized) =? 1 or_err stake_err NotInitialized;
  ensure validate_discriminator pool or_err stake_err InvalidAccount;
  validate_pool_version pool.

(** [try_borrow_mut_data] (or [try_borrow_data]), [pool_from_data], checks. *)
Definition open_pool (mb : list Pubkey) (pool_pda : AccountInfo) (w : World)
    : ProgramResult StakePool :=
  pool_data ← try_borrow_data mb pool_pda w;
  pool ← pool_from_data pool_data;
  _ ← check_pool pool;
  Ok pool.

(** The prologue of the admin handlers that write the pool: owner, data,
    writability. *)
Definition validate_pool_mut (program_id : Pubkey) (pool_pda : AccountInfo) (w : World)
    : ProgramResult unit :=
  _ ← validate_account_owner pool_pda program_id w;
  _ ← validate_account_not_empty [] pool_pda w;
  validate_account_writable pool_pda.

(** ... and, from the signature to the admin check, the prologue they share. *)
Definition open_pool_as_admin (program_id : Pubkey) (admin pool_pda : AccountInfo) (w : World)
    : ProgramResult StakePool :=
  _ ← require_signer admin;
  _ ← validate_pool_mut program_id pool_pda w;
  pool ← open_pool [] pool_pda w;
  ensure key_eqb pool.(sp_admin) admin.(ai_key) or_err stake_err Unauthorized;
  Ok pool.

(** The token-account checks made on raw bytes: SPL ownership (when the call
    site tests it), length, mint and, when given, the owner field. *)
Definition check_token_account (mb : list Pubkey) (ai : AccountInfo) (spl_owned : bool)
    (mint : Pubkey) (wrong_mint : StakeError) (owner : option Pubkey) (w : World)
    : ProgramResult unit :=
  ensure negb spl_owned || key_eqb (ai_owner w ai) SplToken.id or_err stake_err InvalidAccount;
  data ← try_borrow_data mb ai w;
  ensure negb (bool_decide (length data < ACCOUNT_LEN)%nat) or_err stake_err InvalidAccount;
  mint_bytes ← index_range 0 32 data;
  ensure key_eqb mint_bytes mint or_err stake_err wrong_mint;
  match owner with
  | None => Ok tt
  | Some o =>
      owner_bytes ← index_range 32 64 data;
      ensure key_eqb owner_bytes o or_err stake_err Unauthorized;
      Ok tt
  end.

Definition validate_lp_recipient_account (mb : list Pubkey) (user_lp_ata : AccountInfo)
    (expected_lp_mint expected_owner : Pubkey) (w : World) : ProgramResult unit :=
  check_token_account mb user_lp_ata true expected_lp_mint InvalidMint (Some expected_owner) w.

(** ** Program accounts *)

Definition create_or_adopt_pda `{Runtime} (mb : list Pubkey)
    (target payer system_program : AccountInfo) (owner : Pubkey) (space : Z)
    (signer_seeds : list (list Z)) (w : World) : ProgramResult World :=
  rent ← rent_get w;
  let need := rent_minimum_balance rent space in
  if ai_lamports w target =? 0 then
    invoke_signed mb
      (system_create_account payer.(ai_key) target.(ai_key) need space owner)
      [payer; target; system_program] [signer_seeds] w
  else
    let have := ai_lamports w target in
    w ← (if have <? need then
           invoke mb (system_transfer payer.(ai_key) target.(ai_key) (need - have))
             [payer; target; system_program] w
         else Ok w);
    w ← invoke_signed mb (system_allocate target.(ai_key) space)
          [target; system_program] [signer_seeds] w;
    invoke_signed mb (system_assign target.(ai_key) owner)
      [target; system_program] [signer_seeds] w.

(** ** Lemmas *)

Lemma unit_ensure (b : bool) (e : ProgramError) :
  (ensure b or_err e; Ok tt) = Ok tt <-> b = true.
Proof. rewrite ensure_Ok. naive_solver. Qed.

Lemma timelock_window_elapsed_Ok p t n b :
  timelock_window_elapsed p t n = Ok b <-> p + t <= U64_MAX /\ b = (p + t <=? n).
Proof.
  unfold timelock_window_elapsed. rewrite bind_Ok. setoid_rewrite ok_or_Ok.
  setoid_rewrite checked_add_Some. naive_solver.
Qed.

Lemma validate_cooldown_slots_Ok c :
  validate_cooldown_slots c = Ok tt <-> c <> 0 /\ c <= MAX_COOLDOWN_SLOTS.
Proof.
  unfold validate_cooldown_slots. rewrite !ensure_Ok, !negb_true_iff, Z.eqb_neq, Z.ltb_ge.
  naive_solver.
Qed.

Lemma validate_hwm_floor_bps_Ok b :
  validate_hwm_floor_bps b = Ok tt <-> b <> 0 /\ b <= MAX_HWM_FLOOR_BPS.
Proof.
  unfold validate_hwm_floor_bps.
  rewrite ensure_Ok, negb_true_iff, orb_false_iff, Z.eqb_neq, Z.ltb_ge. naive_solver.
Qed.

Lemma pool_from_data_Ok data p :
  pool_from_data data = Ok p <->
  (STAKE_POOL_SIZE <= length data)%nat /\ p = pool_decode (slice 0 STAKE_POOL_SIZE data).
Proof.
  unfold pool_from_data. rewrite ensure_Ok, negb_true_iff, bool_decide_eq_false.
  rewrite Nat.nlt_ge. split; intros [Hl H]; (split; [done|]);
    rewrite (index_range_in 0 _ _ ltac:(lia) Hl), bind_of_Ok in *; congruence.
Qed.

Lemma deposit_from_data_Ok data d :
  deposit_from_data data = Ok d <->
  (STAKE_DEPOSIT_SIZE <= length data)%nat /\ d = deposit_decode (slice 0 STAKE_DEPOSIT_SIZE data).
Proof.
  unfold deposit_from_data. rewrite ensure_Ok, negb_true_iff, bool_decide_eq_false.
  rewrite Nat.nlt_ge. split; intros [Hl H]; (split; [done|]);
    rewrite (index_range_in 0 _ _ ltac:(lia) Hl), bind_of_Ok in *; congruence.
Qed.

Lemma pool_from_data_wf data p :
  bytes_ok data -> pool_from_data data = Ok p -> wf_pool p.
Proof.
  intros Hb [Hl ->]%pool_from_data_Ok. apply wf_pool_decode; [auto with stake|].
  rewrite length_slice; lia.
Qed.

Lemma deposit_from_data_wf data d :
  bytes_ok data -> deposit_from_data data = Ok d -> wf_deposit d.
Proof.
  intros Hb [Hl ->]%deposit_from_data_Ok. apply wf_deposit_decode; [auto with stake|].
  rewrite length_slice; lia.
Qed.

(** What is stored is what is read back. *)
Lemma pool_from_data_splice p data :
  wf_pool p -> (STAKE_POOL_SIZE <= length data)%nat ->
  pool_from_data (splice 0 (pool_encode p) data) = Ok p.
Proof.
  intros Hp Hl. pose proof (length_pool_encode p Hp) as He.
  apply pool_from_data_Ok. rewrite length_splice by lia. split; [done|].
  by rewrite slice_splice_same, pool_decode_encode by (rewrite ?He; done || lia).
Qed.

Lemma deposit_from_data_splice d data :
  wf_deposit d -> (STAKE_DEPOSIT_SIZE <= length data)%nat ->
  deposit_from_data (splice 0 (deposit_encode d) data) = Ok d.
Proof.
  intros Hp Hl. pose proof (length_deposit_encode d Hp) as He.
  apply deposit_from_data_Ok. rewrite length_splice by lia. split; [done|].
  by rewrite slice_splice_same, deposit_decode_encode by (rewrite ?He; done || lia).
Qed.

Lemma check_pool_Ok p :
  check_pool p = Ok tt <->
  p.(sp_is_initialized) = 1 /\ validate_discriminator p = true /\ version p = CURRENT_VERSION.
Proof.
  unfold check_pool, validate_pool_version.
  rewrite !ensure_Ok, !Z.eqb_eq. naive_solver.
Qed.
