(* ===== verification/Fees.v ===== *)
(** * Fee accrual (src/processor.rs, PERC-272)

    The surplus of the vault balance over the tracked pool value is fee
    revenue; [accrue_fees_inner] folds it into the share price, and every
    deposit and withdrawal runs it first. *)

From S2P Require Import Prelude Errors Math State PoolFacts Runtime SplToken Guards.

Definition accrue_fees_inner (pool : StakePool) (current_balance : Z) : ProgramResult StakePool :=
  pool_value ← ok_or (total_pool_value pool) (stake_err Overflow);
  if (pool_value <? current_balance) && (0 <? pool.(sp_total_lp_supply)) then
    let fee_delta := current_balance - pool_value in
    let distribute_to_junior := tranche_enabled pool && (0 <? junior_total_lp pool) in
    snapshot ← (if distribute_to_junior then
                  senior ← ok_or (senior_balance pool) (stake_err Overflow);
                  Ok (junior_balance pool, senior)
                else Ok (0, 0));
    total_fees_earned ← ok_or (checked_add U64_MAX pool.(sp_total_fees_earned) fee_delta)
                          (stake_err Overflow);
    let pool := pool <| sp_total_fees_earned := total_fees_earned |> in
    if distribute_to_junior then
      let '(junior_fee, _) :=
        distribute_fees (fst snapshot) (snd snapshot) (junior_fee_mult_bps pool) fee_delta in
      new_junior ← ok_or (checked_add U64_MAX (junior_balance pool) junior_fee)
                     (stake_err Overflow);
      let pool := set_junior_balance new_junior pool in
      pv ← ok_or (total_pool_value pool) (stake_err Overflow);
      ensure negb (pv <? junior_balance pool) or_err stake_err Overflow;
      Ok pool
    else Ok pool
  else Ok pool.

(** The vault balance the accrual reads: SPL-owned, initialised account. *)
Definition vault_balance (mb : list Pubkey) (vault : AccountInfo) (w : World) : ProgramResult Z :=
  ensure key_eqb (ai_owner w vault) SplToken.id or_err IllegalOwner;
  vault_data ← try_borrow_data mb vault w;
  acct ← account_unpack vault_data;
  ensure bool_decide (acct.(ta_state) = Initialized) or_err InvalidAccountData;
  Ok acct.(ta_amount).

Definition pre_accrue_fee_modes (mb : list Pubkey) (pool : StakePool) (vault : AccountInfo)
    (w : World) : ProgramResult StakePool :=
  if pool.(sp_pool_mode) <=? 1 then
    current_balance ← vault_balance mb vault w;
    accrue_fees_inner pool current_balance
  else Ok pool.

(** 12: AccrueFees *)
Definition process_accrue_fees `{Runtime} (program_id : Pubkey) (accounts : list AccountInfo)
    (w : World) : ProgramResult World :=
  match accounts with
  | [] => Err NotEnoughAccountKeys
  | caller :: accounts =>
      _ ← require_signer caller;
      match accounts with
      | pool_ai :: vault_ai :: clock_ai :: _ =>
          _ ← validate_account_not_empty [] pool_ai w;
          _ ← validate_account_owner pool_ai program_id w;
          _ ← validate_account_writable pool_ai;
          pool ← open_pool [] pool_ai w;
          let mb := [pool_ai.(ai_key)] in
          let '(expected_pool, _) := derive_pool_pda program_id (slab_pubkey pool) in
          ensure key_eqb pool_ai.(ai_key) expected_pool or_err stake_err InvalidPda;
          ensure negb (1 <? pool.(sp_pool_mode)) or_err stake_err InvalidPoolMode;
          ensure key_eqb vault_ai.(ai_key) pool.(sp_vault) or_err InvalidAccountData;
          current_balance ← vault_balance mb vault_ai w;
          clock ← clock_from_account_info clock_ai w;
          pool ← accrue_fees_inner pool current_balance;
          let pool := pool <| sp_last_fee_accrual_slot := clock.(clock_slot) |> in
          let pool := pool <| sp_last_vault_snapshot := current_balance |> in
          Ok (store_pool pool_ai.(ai_key) pool w)
      | _ => Err NotEnoughAccountKeys
      end
  end.

(** ** What accrual does to the record *)

(** The junior share of a fee never exceeds it. *)
Lemma accrual_junior_fee p pv fee jf sf :
  wf_pool p -> total_pool_value p = Some pv -> u64 fee ->
  forall senior, senior_balance p = Some senior ->
  distribute_fees (junior_balance p) senior (junior_fee_mult_bps p) fee = (jf, sf) ->
  0 <= jf <= fee.
Proof.
  intros Hp Hpv Hfee senior Hs Hd.
  apply distribute_fees_sum in Hd; [lia| | | |done]; eauto using senior_balance_u64 with stake.
Qed.

Definition distributing (p : StakePool) : bool :=
  tranche_enabled p && (0 <? junior_total_lp p).

(** No surplus, or nobody to earn it: nothing happens. *)
Lemma accrue_idle p pv bal :
  total_pool_value p = Some pv -> bal <= pv \/ p.(sp_total_lp_supply) <= 0 ->
  accrue_fees_inner p bal = Ok p.
Proof.
  intros Hpv Hidle. unfold accrue_fees_inner. rewrite Hpv. cbn.
  replace ((pv <? bal) && (0 <? sp_total_lp_supply p)) with false; [done|].
  symmetry. apply andb_false_iff. rewrite !Z.ltb_ge. done.
Qed.

(** The accrued record: the whole surplus in the fee total, and the junior
    share of it in the junior balance. *)
Definition accrued (p : StakePool) (fee : Z) (q : StakePool) : Prop :=
  let p1 := p <| sp_total_fees_earned := p.(sp_total_fees_earned) + fee |> in
  u64 (p.(sp_total_fees_earned) + fee) /\
  if distributing p then
    exists senior jf,
      senior_balance p = Some senior /\
      jf = fst (distribute_fees (junior_balance p) senior (junior_fee_mult_bps p) fee) /\
      0 <= jf <= fee /\ u64 (junior_balance p + jf) /\
      junior_balance p + jf <= raw_value p + fee /\
      q = set_junior_balance (junior_balance p + jf) p1
  else q = p1.

Lemma accrue_active p pv bal q :
  wf_pool p -> u64 bal -> total_pool_value p = Some pv ->
  pv < bal -> 0 < p.(sp_total_lp_supply) ->
  accrue_fees_inner p bal = Ok q -> accrued p (bal - pv) q.
Proof.
  intros Hp Hb Hpv Hlt Hlp H. unfold accrue_fees_inner in H. rewrite Hpv in H. cbn in H.
  replace ((pv <? bal) && (0 <? sp_total_lp_supply p)) with true in H by (symmetry; lia).
  pose proof (raw_value_u64_bounds _ _ Hpv) as [Hpvu Hraw].
  set (fee := bal - pv) in *. assert (Hfee : u64 fee) by (subst fee; width_lia).
  fold (distributing p) in H. apply bind_Ok in H as (snapshot & Hsnap & H).
  inv_ok_step H. apply ok_or_Ok, checked_add_Some in E as [-> Hle].
  assert (Hf : u64 (sp_total_fees_earned p + fee)) by (wf_destruct; width_lia).
  unfold accrued. split; [done|]. destruct (distributing p); [|by injection H].
  apply bind_Ok in Hsnap as (senior & Hs & [= <-]). apply ok_or_Ok in Hs. cbn [fst snd] in H.
  set (p1 := p <| sp_total_fees_earned := _ |>) in *.
  change (junior_fee_mult_bps p1) with (junior_fee_mult_bps p) in H.
  change (junior_balance p1) with (junior_balance p) in H.
  destruct (distribute_fees _ _ _ _) as [jf sf] eqn:Hdf in H.
  pose proof (accrual_junior_fee p pv fee jf sf Hp Hpv Hfee senior Hs Hdf) as Hjf.
  inv_ok_step H. apply ok_or_Ok, checked_add_Some in E as [-> Hjle].
  pose proof (u64_junior_balance p Hp) as Hj.
  assert (Hju : u64 (junior_balance p + jf)) by width_lia.
  inv_ok_step H. apply ok_or_Ok, total_pool_value_Some in E as [-> _].
  inv_ok_step H. injection H as <-. exists senior, jf. rewrite Hdf.
  assert (wf_pool p1) by (subst p1; auto with stake).
  split_and!; try done; try lia. bool_prop. revert G. unfold raw_value. subst p1. pool_simpl. lia.
Qed.

Lemma accrue_fees_inner_inv p bal q :
  wf_pool p -> u64 bal -> accrue_fees_inner p bal = Ok q ->
  exists pv, total_pool_value p = Some pv /\
    ((bal <= pv \/ p.(sp_total_lp_supply) = 0) /\ q = p \/
     pv < bal /\ 0 < p.(sp_total_lp_supply) /\ accrued p (bal - pv) q).
Proof.
  intros Hp Hb H. destruct (total_pool_value p) as [pv|] eqn:Hpv.
  2:{ unfold accrue_fees_inner in H. by rewrite Hpv in H. }
  exists pv. split; [done|].
  assert (Hlp : u64 (sp_total_lp_supply p)) by (wf_destruct; done).
  destruct (decide (pv < bal /\ 0 < p.(sp_total_lp_supply))) as [[??]|Hn].
  - right. eauto using accrue_active.
  - left. split; [width_lia|]. rewrite (accrue_idle p pv) in H by (done || width_lia).
    by injection H.
Qed.

Lemma accrued_wf p fee q : wf_pool p -> accrued p fee q -> wf_pool q.
Proof.
  intros Hp [Hf H]. destruct (distributing p); [|by subst; auto with stake].
  destruct H as (s & jf & _ & _ & _ & ? & _ & ->). auto with stake.
Qed.

(** The value rises by exactly the fee; nothing else of the pool moves. *)
Lemma accrued_frame p fee q :
  wf_pool p -> accrued p fee q ->
  raw_value q = raw_value p + fee /\ pool_ident q = pool_ident p /\ net_loss q = net_loss p /\
  q.(sp_total_lp_supply) = p.(sp_total_lp_supply) /\ junior_total_lp q = junior_total_lp p /\
  realized_junior_loss q = realized_junior_loss p /\ tranche_enabled q = tranche_enabled p.
Proof.
  intros Hp [Hf H].
  assert (Hq : wf_pool (p <| sp_total_fees_earned := sp_total_fees_earned p + fee |>))
    by auto with stake.
  destruct (distributing p).
  - destruct H as (s & jf & _ & _ & _ & Hj & _ & ->).
    unfold raw_value, net_loss. pool_simpl. split_and!; try done; [lia|solve_ident].
  - subst q. unfold raw_value, net_loss. pool_simpl. split_and!; try done. lia.
Qed.

(** What [pre_accrue_fee_modes] and [accrue_fees_inner] guarantee, whichever
    branch they take. *)
Lemma accrue_frame p bal q :
  wf_pool p -> u64 bal -> accrue_fees_inner p bal = Ok q ->
  wf_pool q /\ pool_ident q = pool_ident p /\ net_loss q = net_loss p /\
  q.(sp_total_lp_supply) = p.(sp_total_lp_supply) /\ junior_total_lp q = junior_total_lp p /\
  realized_junior_loss q = realized_junior_loss p /\ tranche_enabled q = tranche_enabled p /\
  raw_value q = (if 0 <? p.(sp_total_lp_supply) then Z.max (raw_value p) bal else raw_value p).
Proof.
  intros Hp Hb H. destruct (accrue_fees_inner_inv p bal q Hp Hb H) as (pv & Hpv & Hc).
  apply raw_value_u64_bounds in Hpv as [Hpv Hraw].
  assert (u64 (sp_total_lp_supply p)) by (wf_destruct; done).
  destruct Hc as [[Hc ->]|(Hlt & Hlp & Ha)].
  - split_and!; try done. destruct (Z.ltb_spec 0 (sp_total_lp_supply p)); width_lia.
  - pose proof (accrued_wf _ _ _ Hp Ha). pose proof (accrued_frame _ _ _ Hp Ha) as (-> & ?).
    destruct_and!. split_and!; try done. rewrite (proj2 (Z.ltb_lt _ _) Hlp). lia.
Qed.

Lemma vault_balance_Ok mb vault w b :
  vault_balance mb vault w = Ok b ->
  acc_owner (get w vault.(ai_key)) = SplToken.id /\ b = token_amount (get w vault.(ai_key)).
Proof.
  unfold vault_balance. intros H. inv_ok_step H. apply key_eqb_eq in G.
  inv_ok_step H. apply try_borrow_data_Ok in E as [_ ->].
  inv_ok_step H. apply account_unpack_Ok in E as [_ E]. inv_ok_step H. simplify_eq. done.
Qed.

Lemma pre_accrue_inv mb p vault w q :
  pre_accrue_fee_modes mb p vault w = Ok q ->
  (1 < p.(sp_pool_mode) /\ q = p) \/
  accrue_fees_inner p (token_amount (get w vault.(ai_key))) = Ok q.
Proof.
  unfold pre_accrue_fee_modes. destruct (Z.leb_spec (sp_pool_mode p) 1); intros Hq.
  - right. apply bind_Ok in Hq as (b & Hb & Hq). apply vault_balance_Ok in Hb as [_ ->]. done.
  - left. split; [lia|]. by injection Hq.
Qed.
