(* ===== verification/Deposit.v ===== *)
(** * Deposits (src/processor.rs, tags 1 and 16)

    The senior (or non-tranche) deposit and the junior deposit. The two
    handlers differ in their gates and in the sub-pool they price against; the
    steps they share are the definitions of the first section. *)

From S2P Require Import Prelude Errors Math State PoolFacts Runtime SplToken Guards Fees.

Record DepositAccounts : Set := mkDepositAccounts {
  da_user : AccountInfo;
  da_pool_pda : AccountInfo;
  da_user_ata : AccountInfo;
  da_vault : AccountInfo;
  da_lp_mint : AccountInfo;
  da_user_lp_ata : AccountInfo;
  da_vault_auth : AccountInfo;
  da_deposit_pda : AccountInfo;
  da_token_program : AccountInfo;
  da_clock_sysvar : AccountInfo;
  da_system_program : AccountInfo;
}.

(** The eleven [next_account_info] calls. *)
Definition deposit_accounts (accounts : list AccountInfo) : ProgramResult DepositAccounts :=
  match accounts with
  | user :: pool_pda :: user_ata :: vault :: lp_mint :: user_lp_ata :: vault_auth ::
      deposit_pda :: token_program :: clock_sysvar :: system_program :: _ =>
      Ok (mkDepositAccounts user pool_pda user_ata vault lp_mint user_lp_ata vault_auth
            deposit_pda token_program clock_sysvar system_program)
  | _ => Err NotEnoughAccountKeys
  end.

(** N7: [total_lp_supply_before = 0] is the pool's genesis deposit. *)
Definition apply_minimum_liquidity_lock (total_lp_supply_before lp_to_mint : Z) : ProgramResult Z :=
  if negb (total_lp_supply_before =? 0) then Ok lp_to_mint
  else
    mint_amount ← ok_or (checked_sub lp_to_mint MINIMUM_LIQUIDITY)
                    (stake_err DepositBelowMinimumLiquidity);
    ensure negb (mint_amount =? 0) or_err stake_err DepositBelowMinimumLiquidity;
    Ok mint_amount.

(** The cap is enforced on principal TVL, when it is set. *)
Definition enforce_deposit_cap (pool : StakePool) (amount : Z) : ProgramResult unit :=
  if 0 <? pool.(sp_deposit_cap) then
    current_value ← ok_or (principal_tvl pool) (stake_err Overflow);
    new_value ← ok_or (checked_add U64_MAX current_value amount) (stake_err Overflow);
    ensure negb (pool.(sp_deposit_cap) <? new_value) or_err stake_err DepositCapExceeded;
    Ok tt
  else Ok tt.

Section Steps.
Context `{Runtime} (program_id : Pubkey) (a : DepositAccounts) (amount : Z).

Definition mb_pool : list Pubkey := [a.(da_pool_pda).(ai_key)].

(** Signature, pool account and record. *)
Definition deposit_open (w : World) : ProgramResult StakePool :=
  _ ← require_signer a.(da_user);
  _ ← validate_account_not_empty [] a.(da_pool_pda) w;
  _ ← validate_account_owner a.(da_pool_pda) program_id w;
  _ ← validate_account_writable a.(da_pool_pda);
  open_pool [] a.(da_pool_pda) w.

(** The guards from the mint check to the LP recipient check.
    [wrong_mint] is the error for a [user_ata] of the wrong mint, where the
    two handlers differ. *)
Definition deposit_guards (pool : StakePool) (wrong_mint : StakeError) (w : World)
    : ProgramResult unit :=
  ensure key_eqb pool.(sp_lp_mint) a.(da_lp_mint).(ai_key) or_err stake_err InvalidMint;
  ensure key_eqb pool.(sp_vault) a.(da_vault).(ai_key) or_err stake_err InvalidPda;
  ensure negb (market_resolved pool) or_err stake_err MarketResolved;
  let '(expected_vault_auth, _) := derive_vault_authority program_id a.(da_pool_pda).(ai_key) in
  ensure key_eqb a.(da_vault_auth).(ai_key) expected_vault_auth or_err stake_err InvalidAccount;
  _ ← enforce_deposit_cap pool amount;
  _ ← verify_token_program a.(da_token_program);
  _ ← check_token_account mb_pool a.(da_user_ata) true pool.(sp_collateral_mint) wrong_mint
        (Some a.(da_user).(ai_key)) w;
  validate_lp_recipient_account mb_pool a.(da_user_lp_ata) pool.(sp_lp_mint)
    a.(da_user).(ai_key) w.

(** User ATA to vault, then LP mint to the user. *)
Definition collect_and_mint (mint_amount : Z) (w : World) : ProgramResult World :=
  ix ← SplToken.transfer a.(da_token_program).(ai_key) a.(da_user_ata).(ai_key)
         a.(da_vault).(ai_key) a.(da_user).(ai_key) [] amount;
  w ← invoke mb_pool ix [a.(da_user_ata); a.(da_vault); a.(da_user); a.(da_token_program)] w;
  let '(_, vault_auth_bump) := derive_vault_authority program_id a.(da_pool_pda).(ai_key) in
  let vault_auth_seeds := [SEED_VAULT_AUTH; a.(da_pool_pda).(ai_key); [vault_auth_bump]] in
  ix ← SplToken.mint_to a.(da_token_program).(ai_key) a.(da_lp_mint).(ai_key)
         a.(da_user_lp_ata).(ai_key) a.(da_vault_auth).(ai_key) [] mint_amount;
  invoke_signed mb_pool ix
    [a.(da_lp_mint); a.(da_user_lp_ata); a.(da_vault_auth); a.(da_token_program)]
    [vault_auth_seeds] w.

Definition credit_totals (pool : StakePool) (lp_to_mint : Z) : ProgramResult StakePool :=
  total_deposited ← ok_or (checked_add U64_MAX pool.(sp_total_deposited) amount)
                      (stake_err Overflow);
  let pool := pool <| sp_total_deposited := total_deposited |> in
  total_lp_supply ← ok_or (checked_add U64_MAX pool.(sp_total_lp_supply) lp_to_mint)
                      (stake_err Overflow);
  Ok (pool <| sp_total_lp_supply := total_lp_supply |>).

Definition credit_junior (pool : StakePool) (lp_to_mint : Z) : ProgramResult StakePool :=
  new_lp ← ok_or (checked_add U64_MAX (junior_total_lp pool) lp_to_mint) (stake_err Overflow);
  let pool := set_junior_total_lp new_lp pool in
  new_balance ← ok_or (checked_add U64_MAX (junior_balance pool) amount) (stake_err Overflow);
  Ok (set_junior_balance new_balance pool).

Definition refresh_mark (pool : StakePool) (clock : Clock) : ProgramResult StakePool :=
  if hwm_enabled pool then
    current_tvl ← ok_or (total_pool_value pool) (stake_err Overflow);
    Ok (fst (refresh_hwm clock.(clock_epoch) current_tvl pool))
  else Ok pool.

(** The per-user record's account: its address, its owner, and its creation
    on first use. Returns the bump. *)
Definition ensure_deposit_account (w : World) : ProgramResult (World * Z) :=
  let '(expected_deposit_pda, deposit_bump) :=
    derive_deposit_pda program_id a.(da_pool_pda).(ai_key) a.(da_user).(ai_key) in
  ensure key_eqb a.(da_deposit_pda).(ai_key) expected_deposit_pda or_err stake_err InvalidPda;
  empty ← data_is_empty mb_pool a.(da_deposit_pda) w;
  ensure negb (negb empty && negb (key_eqb (ai_owner w a.(da_deposit_pda)) program_id))
    or_err stake_err InvalidAccount;
  if empty then
    w ← create_or_adopt_pda mb_pool a.(da_deposit_pda) a.(da_user) a.(da_system_program)
          program_id (Z.of_nat STAKE_DEPOSIT_SIZE)
          [SEED_STAKE_DEPOSIT; a.(da_pool_pda).(ai_key); a.(da_user).(ai_key); [deposit_bump]] w;
    Ok (w, deposit_bump)
  else Ok (w, deposit_bump).

(** A fresh record gets its discriminator, an existing one must carry it. *)
Definition init_or_check_record (deposit : StakeDeposit) : ProgramResult StakeDeposit :=
  if negb (deposit.(sd_is_initialized) =? 1) then Ok (deposit_set_discriminator deposit)
  else
    ensure deposit_validate_discriminator deposit or_err stake_err InvalidAccount;
    Ok deposit.

Definition credit_record (deposit : StakeDeposit) (deposit_bump : Z) (clock : Clock)
    (lp_to_mint : Z) : ProgramResult StakeDeposit :=
  let deposit := deposit <| sd_is_initialized := 1 |> in
  let deposit := deposit <| sd_bump := deposit_bump |> in
  let deposit := deposit <| sd_pool := a.(da_pool_pda).(ai_key) |> in
  let deposit := deposit <| sd_user := a.(da_user).(ai_key) |> in
  let deposit := deposit <| sd_last_deposit_slot := clock.(clock_slot) |> in
  lp_amount ← ok_or (checked_add U64_MAX deposit.(sd_lp_amount) lp_to_mint)
                (stake_err Overflow);
  Ok (deposit <| sd_lp_amount := lp_amount |>).

Definition open_record (w : World) : ProgramResult StakeDeposit :=
  deposit_data ← try_borrow_data mb_pool a.(da_deposit_pda) w;
  deposit_from_data deposit_data.

Definition close_accounts (pool : StakePool) (deposit : StakeDeposit) (w : World) : World :=
  store_pool a.(da_pool_pda).(ai_key) pool
    (store_deposit a.(da_deposit_pda).(ai_key) deposit w).
End Steps.

(** ** 1: Deposit *)

(** The recovery-snipe gate: a loss that spilled past the junior tranche. *)
Definition senior_snipe_gate (pool : StakePool) : ProgramResult unit :=
  if tranche_enabled pool then
    let net_loss := saturating_sub pool.(sp_total_flushed) pool.(sp_total_returned) in
    ensure negb (junior_balance pool <? net_loss) or_err stake_err InsuranceLossOutstanding;
    Ok tt
  else Ok tt.

Definition senior_lp_to_mint (pool : StakePool) (amount : Z) : ProgramResult Z :=
  lp_to_mint ←
    (if tranche_enabled pool then
       let senior_lp := senior_total_lp pool in
       senior_bal ← ok_or (senior_balance pool) (stake_err Overflow);
       ok_or (calc_senior_lp_for_deposit senior_lp senior_bal amount) (stake_err Overflow)
     else ok_or (pool_calc_lp_for_deposit pool amount) (stake_err Overflow));
  ensure negb (lp_to_mint =? 0) or_err stake_err ZeroSharesMinted;
  Ok lp_to_mint.

Definition senior_record (deposit : StakeDeposit) : ProgramResult StakeDeposit :=
  deposit ← init_or_check_record deposit;
  ensure negb (is_junior_deposit deposit) or_err stake_err WrongTranche;
  Ok deposit.

Definition process_deposit `{Runtime} (program_id : Pubkey) (accounts : list AccountInfo)
    (amount : Z) (w : World) : ProgramResult World :=
  ensure negb (amount =? 0) or_err stake_err ZeroAmount;
  a ← deposit_accounts accounts;
  pool ← deposit_open program_id a w;
  _ ← deposit_guards program_id a amount pool InvalidMint w;
  pool ← pre_accrue_fee_modes (mb_pool a) pool a.(da_vault) w;
  _ ← senior_snipe_gate pool;
  lp_to_mint ← senior_lp_to_mint pool amount;
  mint_amount ← apply_minimum_liquidity_lock pool.(sp_total_lp_supply) lp_to_mint;
  w ← collect_and_mint program_id a amount mint_amount w;
  pool ← credit_totals amount pool lp_to_mint;
  clock ← clock_from_account_info a.(da_clock_sysvar) w;
  pool ← refresh_mark pool clock;
  '(w, deposit_bump) ← ensure_deposit_account program_id a w;
  deposit ← open_record a w;
  deposit ← senior_record deposit;
  deposit ← credit_record a deposit deposit_bump clock lp_to_mint;
  Ok (close_accounts a pool deposit w).

(** ** 16: DepositJunior *)

(** Junior deposits pause while any flushed insurance is physically out. *)
Definition junior_loss_gate (pool : StakePool) : ProgramResult unit :=
  let physical_net_loss :=
    saturating_sub pool.(sp_total_flushed)
      (saturating_sub pool.(sp_total_returned) (realized_junior_loss pool)) in
  ensure negb (0 <? physical_net_loss) or_err stake_err InsuranceLossOutstanding;
  Ok tt.

Definition junior_lp_to_mint (pool : StakePool) (amount : Z) : ProgramResult Z :=
  let junior_lp := junior_total_lp pool in
  let junior_bal := effective_junior_balance pool in
  lp_to_mint ← ok_or (calc_junior_lp_for_deposit junior_lp junior_bal amount)
                 (stake_err Overflow);
  ensure negb (lp_to_mint =? 0) or_err stake_err ZeroSharesMinted;
  Ok lp_to_mint.

Definition junior_record (deposit : StakeDeposit) : ProgramResult StakeDeposit :=
  deposit ← init_or_check_record deposit;
  ensure negb (negb (is_junior_deposit deposit) && (deposit.(sd_is_initialized) =? 1))
    or_err stake_err WrongTranche;
  Ok (set_junior_deposit true deposit).

Definition process_deposit_junior `{Runtime} (program_id : Pubkey) (accounts : list AccountInfo)
    (amount : Z) (w : World) : ProgramResult World :=
  ensure negb (amount =? 0) or_err stake_err ZeroAmount;
  a ← deposit_accounts accounts;
  pool ← deposit_open program_id a w;
  ensure tranche_enabled pool or_err stake_err TrancheNotEnabled;
  _ ← deposit_guards program_id a amount pool InvalidAccount w;
  pool ← pre_accrue_fee_modes (mb_pool a) pool a.(da_vault) w;
  _ ← junior_loss_gate pool;
  lp_to_mint ← junior_lp_to_mint pool amount;
  mint_amount ← apply_minimum_liquidity_lock pool.(sp_total_lp_supply) lp_to_mint;
  w ← collect_and_mint program_id a amount mint_amount w;
  pool ← credit_totals amount pool lp_to_mint;
  pool ← credit_junior amount pool lp_to_mint;
  clock ← clock_from_account_info a.(da_clock_sysvar) w;
  pool ← refresh_mark pool clock;
  '(w, deposit_bump) ← ensure_deposit_account program_id a w;
  deposit ← open_record a w;
  deposit ← junior_record deposit;
  deposit ← credit_record a deposit deposit_bump clock lp_to_mint;
  Ok (close_accounts a pool deposit w).

(** ** What the steps do to the records *)

Lemma deposit_accounts_in accounts a :
  deposit_accounts accounts = Ok a ->
  da_user a ∈ accounts /\ da_pool_pda a ∈ accounts /\ da_vault a ∈ accounts /\
  accounts !! 1%nat = Some (da_pool_pda a).
Proof.
  unfold deposit_accounts. intros H.
  do 11 (destruct accounts as [|? accounts]; [discriminate H|]). injection H as <-. cbn.
  split_and!; set_solver.
Qed.

Lemma credit_totals_Ok amount p lp q :
  credit_totals amount p lp = Ok q <->
  p.(sp_total_deposited) + amount <= U64_MAX /\ p.(sp_total_lp_supply) + lp <= U64_MAX /\
  q = p <| sp_total_deposited := p.(sp_total_deposited) + amount |>
        <| sp_total_lp_supply := p.(sp_total_lp_supply) + lp |>.
Proof.
  unfold credit_totals. rewrite bind_Ok. setoid_rewrite ok_or_Ok.
  setoid_rewrite checked_add_Some. setoid_rewrite bind_Ok. setoid_rewrite ok_or_Ok.
  setoid_rewrite checked_add_Some. split.
  - intros (d & [-> Hd] & l & [-> Hl] & [= <-]). done.
  - intros (Hd & Hl & ->). eexists. split; [done|]. eexists. split; done.
Qed.

Lemma credit_junior_Ok amount p lp q :
  wf_pool p -> 0 <= lp ->
  credit_junior amount p lp = Ok q <->
  junior_total_lp p + lp <= U64_MAX /\ junior_balance p + amount <= U64_MAX /\
  q = set_junior_balance (junior_balance p + amount) (set_junior_total_lp (junior_total_lp p + lp) p).
Proof.
  intros Hp Hlp. pose proof (u64_junior_total_lp p Hp) as Hj.
  assert (Hsame : junior_total_lp p + lp <= U64_MAX ->
    junior_balance (set_junior_total_lp (junior_total_lp p + lp) p) = junior_balance p).
  { intros. assert (u64 (junior_total_lp p + lp)) by width_lia. pool_simpl. done. }
  unfold credit_junior. rewrite bind_Ok. setoid_rewrite ok_or_Ok.
  setoid_rewrite checked_add_Some. split.
  - intros (l & [-> Hl] & H). apply bind_Ok in H as (b & Hb & [= <-]).
    apply ok_or_Ok, checked_add_Some in Hb as [-> Hb]. rewrite Hsame in * by done. done.
  - intros (Hl & Hb & ->). eexists. split; [done|]. rewrite Hsame by done.
    apply bind_Ok. eexists. split; [by apply ok_or_Ok, checked_add_Some|done].
Qed.

Lemma refresh_mark_inv p c q :
  wf_pool p -> u64 c.(clock_epoch) -> refresh_mark p c = Ok q -> hwm_only p q.
Proof.
  intros Hp Hc. unfold refresh_mark. destruct (hwm_enabled p).
  - intros H. apply bind_Ok in H as (tvl & Ht & [= <-]).
    apply ok_or_Ok, total_pool_value_Some in Ht as [_ Ht].
    destruct (refresh_hwm (clock_epoch c) tvl p) as [q m] eqn:E. eauto using refresh_hwm_only.
  - intros [= <-]. by apply hwm_only_refl.
Qed.

Lemma apply_minimum_liquidity_lock_Ok before lp m :
  apply_minimum_liquidity_lock before lp = Ok m <->
  (before <> 0 /\ m = lp) \/ (before = 0 /\ m = lp - MINIMUM_LIQUIDITY /\ MINIMUM_LIQUIDITY < lp).
Proof.
  unfold apply_minimum_liquidity_lock. destruct (Z.eqb_spec before 0) as [->|Hb]; cbn [negb].
  - rewrite bind_Ok. setoid_rewrite ok_or_Ok. setoid_rewrite checked_sub_Some.
    setoid_rewrite ensure_Ok. setoid_rewrite negb_true_iff. setoid_rewrite Z.eqb_neq.
    split; [|naive_solver lia].
    intros (x & [-> ?] & ? & [= <-]). right. lia.
  - naive_solver.
Qed.
