(* ===== verification/Withdraw.v ===== *)
(** * Withdrawals (src/processor.rs, tag 2)

    One handler for the three valuations: global pool, senior sub-pool and
    junior sub-pool. *)

From S2P Require Import Prelude Errors Math State PoolFacts Runtime SplToken Guards Fees.

Record WithdrawAccounts : Set := mkWithdrawAccounts {
  wa_user : AccountInfo;
  wa_pool_pda : AccountInfo;
  wa_user_lp_ata : AccountInfo;
  wa_lp_mint : AccountInfo;
  wa_vault : AccountInfo;
  wa_user_ata : AccountInfo;
  wa_vault_auth : AccountInfo;
  wa_deposit_pda : AccountInfo;
  wa_token_program : AccountInfo;
  wa_clock_sysvar : AccountInfo;
}.

Definition withdraw_accounts (accounts : list AccountInfo) : ProgramResult WithdrawAccounts :=
  match accounts with
  | user :: pool_pda :: user_lp_ata :: lp_mint :: vault :: user_ata :: vault_auth ::
      deposit_pda :: token_program :: clock_sysvar :: _ =>
      Ok (mkWithdrawAccounts user pool_pda user_lp_ata lp_mint vault user_ata vault_auth
            deposit_pda token_program clock_sysvar)
  | _ => Err NotEnoughAccountKeys
  end.

(** The collateral a withdrawal is worth, by tranche. *)
Definition withdrawal_value (pool : StakePool) (is_junior : bool) (lp_amount : Z)
    : ProgramResult Z :=
  if tranche_enabled pool && is_junior then
    let junior_lp := junior_total_lp pool in
    let junior_bal := effective_junior_balance pool in
    ok_or (calc_junior_collateral_for_withdraw junior_lp junior_bal lp_amount)
      (stake_err Overflow)
  else if tranche_enabled pool then
    let senior_lp := senior_total_lp pool in
    senior_bal ← ok_or (senior_balance pool) (stake_err Overflow);
    ok_or (calc_senior_collateral_for_withdraw senior_lp senior_bal lp_amount)
      (stake_err Overflow)
  else ok_or (pool_calc_collateral_for_withdraw pool lp_amount) (stake_err Overflow).

Definition is_fully_wiped_junior_exit (pool : StakePool) (is_junior : bool)
    (withdrawal_amount : Z) : bool :=
  tranche_enabled pool && is_junior && (effective_junior_balance pool =? 0)
  && (withdrawal_amount =? 0).

(** The high-water-mark floor; the mark is refreshed on the way. *)
Definition enforce_hwm_floor (pool : StakePool) (clock : Clock) (withdrawal_amount : Z)
    (fully_wiped_junior_exit : bool) : ProgramResult StakePool :=
  if hwm_enabled pool && negb fully_wiped_junior_exit then
    current_tvl ← ok_or (total_pool_value pool) (stake_err Overflow);
    let '(pool, hwm) := refresh_hwm clock.(clock_epoch) current_tvl pool in
    post_tvl ← ok_or (checked_sub current_tvl withdrawal_amount) (stake_err Overflow);
    ensure hwm_withdrawal_allowed post_tvl hwm (hwm_floor_bps pool)
      or_err stake_err WithdrawalBelowHwmFloor;
    Ok pool
  else Ok pool.

(** The pool-wide totals of a withdrawal. *)
Definition debit_totals (pool : StakePool) (lp_amount withdrawal_amount : Z)
    : ProgramResult StakePool :=
  total_withdrawn ← ok_or (checked_add U64_MAX pool.(sp_total_withdrawn) withdrawal_amount)
                      (stake_err Overflow);
  let pool := pool <| sp_total_withdrawn := total_withdrawn |> in
  total_lp_supply ← ok_or (checked_sub pool.(sp_total_lp_supply) lp_amount) (stake_err Overflow);
  Ok (pool <| sp_total_lp_supply := total_lp_supply |>).

(** #161: the last junior forfeits the loss it absorbed. *)
Definition realize_junior_loss (pool : StakePool) : ProgramResult StakePool :=
  let net_loss := saturating_sub pool.(sp_total_flushed) pool.(sp_total_returned) in
  if 0 <? net_loss then
    let forfeited := saturating_sub (junior_balance pool) (effective_junior_balance pool) in
    let forfeited := Z.min forfeited net_loss in
    if 0 <? forfeited then
      total_returned ← ok_or (checked_add U64_MAX pool.(sp_total_returned) forfeited)
                         (stake_err Overflow);
      let pool := pool <| sp_total_returned := total_returned |> in
      new_loss ← ok_or (checked_add U64_MAX (realized_junior_loss pool) forfeited)
                   (stake_err Overflow);
      Ok (set_realized_junior_loss new_loss pool)
    else Ok pool
  else Ok pool.

(** The junior sub-pool's totals. *)
Definition debit_junior (pool : StakePool) (lp_amount withdrawal_amount : Z)
    : ProgramResult StakePool :=
  let junior_lp_before := junior_total_lp pool in
  new_junior_lp ← ok_or (checked_sub junior_lp_before lp_amount) (stake_err Overflow);
  let pool := set_junior_total_lp new_junior_lp pool in
  if new_junior_lp =? 0 then
    pool ← realize_junior_loss pool;
    Ok (set_junior_balance 0 pool)
  else
    new_balance ← ok_or (checked_sub (junior_balance pool) withdrawal_amount)
                    (stake_err Overflow);
    Ok (set_junior_balance new_balance pool).

(** #155: an emptied record can be reused for either tranche. *)
Definition debit_record (deposit : StakeDeposit) (lp_amount : Z) : ProgramResult StakeDeposit :=
  lp ← ok_or (checked_sub deposit.(sd_lp_amount) lp_amount) (stake_err InsufficientLpTokens);
  let deposit := deposit <| sd_lp_amount := lp |> in
  if lp =? 0 then
    let deposit := deposit <| sd_is_initialized := 0 |> in
    Ok (deposit <| sd_reserved := splice 8 [0] deposit.(sd_reserved) |>)
  else Ok deposit.

Section Steps.
Context `{Runtime} (program_id : Pubkey) (a : WithdrawAccounts) (lp_amount : Z).

Definition mb_pool : list Pubkey := [a.(wa_pool_pda).(ai_key)].

Definition withdraw_open (w : World) : ProgramResult StakePool :=
  _ ← require_signer a.(wa_user);
  _ ← validate_account_not_empty [] a.(wa_pool_pda) w;
  _ ← validate_account_owner a.(wa_pool_pda) program_id w;
  _ ← validate_account_writable a.(wa_pool_pda);
  open_pool [] a.(wa_pool_pda) w.

(** The guards on the token accounts and on [vault_auth]. *)
Definition withdraw_token_guards (pool : StakePool) (w : World) : ProgramResult unit :=
  ensure key_eqb pool.(sp_lp_mint) a.(wa_lp_mint).(ai_key) or_err stake_err InvalidMint;
  ensure key_eqb pool.(sp_vault) a.(wa_vault).(ai_key) or_err stake_err InvalidPda;
  _ ← verify_token_program a.(wa_token_program);
  _ ← check_token_account mb_pool a.(wa_user_lp_ata) false pool.(sp_lp_mint) InvalidMint
        (Some a.(wa_user).(ai_key)) w;
  ensure negb (key_eqb a.(wa_user_ata).(ai_key) a.(wa_vault).(ai_key))
    or_err stake_err InvalidAccount;
  _ ← check_token_account mb_pool a.(wa_user_ata) true pool.(sp_collateral_mint) InvalidMint
        None w;
  let '(expected_vault_auth, _) := derive_vault_authority program_id a.(wa_pool_pda).(ai_key) in
  ensure key_eqb a.(wa_vault_auth).(ai_key) expected_vault_auth or_err stake_err InvalidAccount;
  Ok tt.

(** The guards on the deposit record's account. *)
Definition withdraw_record_guards (w : World) : ProgramResult unit :=
  let '(expected_deposit_pda, _) :=
    derive_deposit_pda program_id a.(wa_pool_pda).(ai_key) a.(wa_user).(ai_key) in
  ensure key_eqb a.(wa_deposit_pda).(ai_key) expected_deposit_pda or_err stake_err InvalidPda;
  ensure key_eqb (ai_owner w a.(wa_deposit_pda)) program_id or_err stake_err InvalidAccount;
  n ← data_len mb_pool a.(wa_deposit_pda) w;
  ensure negb (bool_decide (n < STAKE_DEPOSIT_SIZE)%nat) or_err stake_err InvalidAccount;
  validate_account_writable a.(wa_deposit_pda).

Definition open_record (w : World) : ProgramResult StakeDeposit :=
  deposit_data ← try_borrow_data mb_pool a.(wa_deposit_pda) w;
  deposit_from_data deposit_data.

(** Ownership of the record, cooldown and balance; returns the tranche. *)
Definition check_record (pool : StakePool) (deposit : StakeDeposit) (clock : Clock)
    : ProgramResult bool :=
  ensure deposit_validate_discriminator deposit or_err stake_err InvalidAccount;
  ensure (deposit.(sd_is_initialized) =? 1) && key_eqb deposit.(sd_user) a.(wa_user).(ai_key)
         && key_eqb deposit.(sd_pool) a.(wa_pool_pda).(ai_key)
    or_err stake_err Unauthorized;
  ensure negb (clock.(clock_slot) <?
               saturating_add U64_MAX deposit.(sd_last_deposit_slot) pool.(sp_cooldown_slots))
    or_err stake_err CooldownNotElapsed;
  ensure negb (deposit.(sd_lp_amount) <? lp_amount) or_err stake_err InsufficientLpTokens;
  Ok (is_junior_deposit deposit).

(** LP burn, then vault to user ATA. *)
Definition burn_and_pay (pool : StakePool) (withdrawal_amount : Z) (w : World)
    : ProgramResult World :=
  ix ← SplToken.burn a.(wa_token_program).(ai_key) a.(wa_user_lp_ata).(ai_key)
         a.(wa_lp_mint).(ai_key) a.(wa_user).(ai_key) [] lp_amount;
  w ← invoke mb_pool ix [a.(wa_user_lp_ata); a.(wa_lp_mint); a.(wa_user); a.(wa_token_program)] w;
  let vault_auth_bump := pool.(sp_vault_authority_bump) in
  let '(_, derived_bump) := derive_vault_authority program_id a.(wa_pool_pda).(ai_key) in
  ensure vault_auth_bump =? derived_bump or_err stake_err InvalidPda;
  let vault_auth_seeds := [SEED_VAULT_AUTH; a.(wa_pool_pda).(ai_key); [vault_auth_bump]] in
  if 0 <? withdrawal_amount then
    ix ← SplToken.transfer a.(wa_token_program).(ai_key) a.(wa_vault).(ai_key)
           a.(wa_user_ata).(ai_key) a.(wa_vault_auth).(ai_key) [] withdrawal_amount;
    invoke_signed mb_pool ix
      [a.(wa_vault); a.(wa_user_ata); a.(wa_vault_auth); a.(wa_token_program)]
      [vault_auth_seeds] w
  else Ok w.
End Steps.

(** ** 2: Withdraw *)

Definition process_withdraw `{Runtime} (program_id : Pubkey) (accounts : list AccountInfo)
    (lp_amount : Z) (w : World) : ProgramResult World :=
  ensure negb (lp_amount =? 0) or_err stake_err ZeroAmount;
  a ← withdraw_accounts accounts;
  pool ← withdraw_open program_id a w;
  _ ← withdraw_token_guards program_id a pool w;
  _ ← withdraw_record_guards program_id a w;
  clock ← clock_from_account_info a.(wa_clock_sysvar) w;
  deposit ← open_record a w;
  is_junior ← check_record a lp_amount pool deposit clock;
  pool ← pre_accrue_fee_modes (mb_pool a) pool a.(wa_vault) w;
  withdrawal_amount ← withdrawal_value pool is_junior lp_amount;
  let fully_wiped := is_fully_wiped_junior_exit pool is_junior withdrawal_amount in
  ensure negb ((withdrawal_amount =? 0) && negb fully_wiped) or_err stake_err ZeroAmount;
  pool ← enforce_hwm_floor pool clock withdrawal_amount fully_wiped;
  w ← burn_and_pay program_id a lp_amount pool withdrawal_amount w;
  pool ← debit_totals pool lp_amount withdrawal_amount;
  pool ← (if tranche_enabled pool && is_junior then debit_junior pool lp_amount withdrawal_amount
          else Ok pool);
  deposit ← open_record a w;
  deposit ← debit_record deposit lp_amount;
  Ok (store_pool a.(wa_pool_pda).(ai_key) pool
        (store_deposit a.(wa_deposit_pda).(ai_key) deposit w)).

(** ** What the steps do to the records *)

Lemma withdraw_accounts_in accounts a :
  withdraw_accounts accounts = Ok a ->
  wa_user a ∈ accounts /\ wa_pool_pda a ∈ accounts /\ wa_vault a ∈ accounts /\
  accounts !! 1%nat = Some (wa_pool_pda a).
Proof.
  unfold withdraw_accounts. intros H.
  do 10 (destruct accounts as [|? accounts]; [discriminate H|]). injection H as <-. cbn.
  split_and!; set_solver.
Qed.

Lemma debit_totals_Ok p lp c q :
  debit_totals p lp c = Ok q <->
  p.(sp_total_withdrawn) + c <= U64_MAX /\ lp <= p.(sp_total_lp_supply) /\
  q = p <| sp_total_withdrawn := p.(sp_total_withdrawn) + c |>
        <| sp_total_lp_supply := p.(sp_total_lp_supply) - lp |>.
Proof.
  unfold debit_totals. rewrite bind_Ok. setoid_rewrite ok_or_Ok.
  setoid_rewrite checked_add_Some. setoid_rewrite bind_Ok. setoid_rewrite ok_or_Ok.
  setoid_rewrite checked_sub_Some. split.
  - intros (d & [-> Hd] & l & [-> Hl] & [= <-]). done.
  - intros (Hd & Hl & ->). eexists. split; [done|]. eexists. split; done.
Qed.

(** The loss the last junior forfeits. *)
Definition forfeited (p : StakePool) : Z := Z.min (junior_balance p) (net_loss p).

(** The settled record: the forfeited loss counts as returned and as realised,
    so the pool value does not move. *)
Lemma realize_junior_loss_inv p q :
  wf_pool p -> realize_junior_loss p = Ok q ->
  wf_pool q /\ pool_ident q = pool_ident p /\ raw_value q = raw_value p /\
  q.(sp_total_lp_supply) = p.(sp_total_lp_supply) /\
  q.(sp_total_returned) = p.(sp_total_returned) + forfeited p /\
  realized_junior_loss q = realized_junior_loss p + forfeited p /\
  junior_balance q = junior_balance p /\ junior_total_lp q = junior_total_lp p /\
  q.(sp_total_flushed) = p.(sp_total_flushed) /\ tranche_enabled q = tranche_enabled p.
Proof.
  intros Hp. pose proof (u64_junior_balance p Hp) as Hj.
  pose proof (effective_junior_balance_eq p Hp) as He.
  assert (Hn : u64 (net_loss p)) by (unfold net_loss; wf_destruct; width_lia).
  assert (Hid : forfeited p = 0 ->
    wf_pool p /\ pool_ident p = pool_ident p /\ raw_value p = raw_value p /\
    sp_total_lp_supply p = sp_total_lp_supply p /\
    sp_total_returned p = sp_total_returned p + forfeited p /\
    realized_junior_loss p = realized_junior_loss p + forfeited p /\
    junior_balance p = junior_balance p /\ junior_total_lp p = junior_total_lp p /\
    sp_total_flushed p = sp_total_flushed p /\ tranche_enabled p = tranche_enabled p)
    by (intros ->; rewrite !Z.add_0_r; done).
  unfold realize_junior_loss. fold (net_loss p). rewrite He.
  assert (Hf : Z.min (saturating_sub (junior_balance p) (Z.max 0 (junior_balance p - net_loss p)))
                 (net_loss p) = forfeited p) by (unfold forfeited; width_lia).
  rewrite Hf. destruct (Z.ltb_spec 0 (net_loss p)).
  2:{ intros [= <-]. apply Hid. unfold forfeited. width_lia. }
  destruct (Z.ltb_spec 0 (forfeited p)).
  2:{ intros [= <-]. apply Hid. unfold forfeited in *. width_lia. }
  clear Hid. intros H1. inv_ok_step H1. apply ok_or_Ok, checked_add_Some in E as [-> Hr].
  set (p1 := p <| sp_total_returned := _ |>) in *.
  assert (Hr1 : u64 (sp_total_returned p + forfeited p)) by (wf_destruct; width_lia).
  assert (Hp1 : wf_pool p1) by (subst p1; auto with stake).
  inv_ok_step H1. injection H1 as <-. apply ok_or_Ok, checked_add_Some in E as [-> Hl].
  change (realized_junior_loss p1) with (realized_junior_loss p) in *.
  pose proof (u64_realized_junior_loss p Hp) as Hrl.
  assert (u64 (realized_junior_loss p + forfeited p)) by width_lia.
  unfold raw_value. subst p1. pool_simpl.
  split_and!; try done; [auto with stake|solve_ident|lia].
Qed.

(** A junior debit: the raw junior balance falls by the payout, or to zero
    with the forfeited loss realised when the tranche empties. *)
Lemma debit_junior_inv p lp c q :
  wf_pool p -> 0 <= lp -> 0 <= c -> debit_junior p lp c = Ok q ->
  wf_pool q /\ pool_ident q = pool_ident p /\ raw_value q = raw_value p /\
  q.(sp_total_lp_supply) = p.(sp_total_lp_supply) /\
  lp <= junior_total_lp p /\ junior_total_lp q = junior_total_lp p - lp /\
  tranche_enabled q = tranche_enabled p /\ q.(sp_total_flushed) = p.(sp_total_flushed) /\
  (lp < junior_total_lp p /\ junior_balance q = junior_balance p - c /\
   q.(sp_total_returned) = p.(sp_total_returned) /\
   realized_junior_loss q = realized_junior_loss p \/
   lp = junior_total_lp p /\ junior_balance q = 0 /\
   q.(sp_total_returned) = p.(sp_total_returned) + forfeited p /\
   realized_junior_loss q = realized_junior_loss p + forfeited p).
Proof.
  intros Hp Hlp Hc H. unfold debit_junior in H. inv_ok_step H.
  apply ok_or_Ok, checked_sub_Some in E as [-> Hle].
  pose proof (u64_junior_total_lp p Hp). pose proof (u64_junior_balance p Hp).
  assert (Hn : u64 (junior_total_lp p - lp)) by width_lia.
  set (p1 := set_junior_total_lp (junior_total_lp p - lp) p) in *.
  assert (Hp1 : wf_pool p1) by (subst p1; auto with stake).
  assert (Hb1 : junior_balance p1 = junior_balance p) by (subst p1; pool_simpl; done).
  assert (Hl1 : realized_junior_loss p1 = realized_junior_loss p) by (subst p1; pool_simpl; done).
  assert (Hj1 : junior_total_lp p1 = junior_total_lp p - lp) by (subst p1; pool_simpl; done).
  assert (Hv1 : raw_value p1 = raw_value p) by (unfold raw_value; by rewrite Hl1).
  assert (Hi1 : pool_ident p1 = pool_ident p) by (subst p1; solve_ident).
  assert (Ht1 : tranche_enabled p1 = tranche_enabled p) by (subst p1; pool_simpl; done).
  assert (Hf1 : forfeited p1 = forfeited p) by (unfold forfeited; by rewrite Hb1).
  assert (Hs1 : sp_total_lp_supply p1 = sp_total_lp_supply p) by done.
  assert (Hr1 : sp_total_returned p1 = sp_total_returned p) by done.
  assert (Hfl1 : sp_total_flushed p1 = sp_total_flushed p) by done.
  clearbody p1. destruct (Z.eqb_spec (junior_total_lp p - lp) 0).
  - inv_ok_step H. injection H as <-.
    apply realize_junior_loss_inv in E as (Hw & Hi & Hv & Hs & Hr & Hl & Hb & Hj & Hf & Ht); [|done].
    destruct (set_junior_balance_frame v 0 Hw ltac:(width_lia))
      as (Hw' & -> & -> & -> & -> & -> & ->).
    change (sp_total_lp_supply (set_junior_balance 0 v)) with (sp_total_lp_supply v).
    change (sp_total_flushed (set_junior_balance 0 v)) with (sp_total_flushed v).
    change (sp_total_returned (set_junior_balance 0 v)) with (sp_total_returned v).
    split_and!; try congruence; lia.
  - inv_ok_step H. injection H as <-. apply ok_or_Ok, checked_sub_Some in E as [-> Hb].
    rewrite Hb1 in *. assert (Hu : u64 (junior_balance p - c)) by width_lia.
    destruct (set_junior_balance_frame p1 _ Hp1 Hu) as (Hw' & -> & -> & -> & -> & -> & ->).
    change (sp_total_lp_supply (set_junior_balance ?v ?q)) with (sp_total_lp_supply q).
    change (sp_total_flushed (set_junior_balance ?v ?q)) with (sp_total_flushed q).
    change (sp_total_returned (set_junior_balance ?v ?q)) with (sp_total_returned q).
    split_and!; try congruence; lia.
Qed.

(** Refreshing the mark does not change what is paid. *)
Lemma enforce_hwm_floor_inv p clock c wiped q :
  wf_pool p -> u64 clock.(clock_epoch) -> enforce_hwm_floor p clock c wiped = Ok q ->
  hwm_only p q /\
  (hwm_enabled p = true -> wiped = false ->
   exists v m, total_pool_value p = Some v /\ c <= v /\ v <= m /\ m = epoch_high_water_tvl q /\
               hwm_withdrawal_allowed (v - c) m (hwm_floor_bps p) = true).
Proof.
  intros Hp Hc. unfold enforce_hwm_floor.
  destruct (hwm_enabled p && negb wiped) eqn:He.
  2:{ intros [= <-]. split; [by apply hwm_only_refl|]. intros Hx ->. rewrite Hx in He. discriminate He. }
  intros H. inv_ok_step H. apply ok_or_Ok in E. rename v into tvl.
  pose proof (raw_value_u64_bounds _ _ E) as [Hv _].
  destruct (refresh_hwm (clock_epoch clock) tvl p) as [q' m] eqn:Hr.
  inv_ok H. injection H as <-. apply ok_or_Ok, checked_sub_Some in E0 as [-> Hle].
  pose proof (refresh_hwm_only _ _ _ _ _ Hp Hc Hv Hr) as Ho. split; [done|].
  intros _ _. apply refresh_hwm_spec in Hr as (? & ? & _); [|done..].
  destruct Ho as (_ & _ & _ & _ & _ & _ & _ & _ & _ & Hbps & _). rewrite Hbps in G.
  exists tvl, m. done.
Qed.

Lemma withdrawal_value_nonneg p j lp c :
  wf_pool p -> u64 lp -> withdrawal_value p j lp = Ok c -> u64 c.
Proof.
  intros Hp Hlp. unfold withdrawal_value.
  assert (Hs : u64 (sp_total_lp_supply p)) by (wf_destruct; done).
  pose proof (u64_junior_total_lp p Hp).
  destruct (tranche_enabled p && j); [|destruct (tranche_enabled p)]; intros Hc.
  - apply ok_or_Ok, withdraw_rounds_down in Hc as (_ & ? & _); auto using effective_junior_balance_u64.
  - apply bind_Ok in Hc as (sb & Hsb & Hc). apply ok_or_Ok in Hsb, Hc.
    pose proof (senior_balance_u64 _ _ Hp Hsb).
    apply withdraw_rounds_down in Hc as (_ & ? & _); [done| |done..].
    unfold senior_total_lp. width_lia.
  - apply ok_or_Ok in Hc. unfold pool_calc_collateral_for_withdraw in Hc.
    destruct (total_pool_value p) as [pv|] eqn:Hpv; [|discriminate Hc]. cbn in Hc.
    apply raw_value_u64_bounds in Hpv as [? _].
    apply withdraw_rounds_down in Hc as (_ & ? & _); done.
Qed.

Lemma debit_record_inv d lp e :
  wf_deposit d -> 0 <= lp -> debit_record d lp = Ok e ->
  wf_deposit e /\ lp <= d.(sd_lp_amount) /\ e.(sd_lp_amount) = d.(sd_lp_amount) - lp /\
  e.(sd_user) = d.(sd_user) /\ e.(sd_pool) = d.(sd_pool) /\
  (lp < d.(sd_lp_amount) -> e = d <| sd_lp_amount := d.(sd_lp_amount) - lp |>) /\
  (lp = d.(sd_lp_amount) -> e.(sd_is_initialized) = 0 /\ is_junior_deposit e = false).
Proof.
  intros Hd Hlp H. unfold debit_record in H. inv_ok_step H.
  apply ok_or_Ok, checked_sub_Some in E as [-> Hle].
  assert (Hu : u64 (sd_lp_amount d - lp)) by (wf_destruct; width_lia).
  set (d1 := d <| sd_lp_amount := sd_lp_amount d - lp |>) in *.
  assert (Hd1 : wf_deposit d1) by (subst d1; auto with stake).
  destruct (Z.eqb_spec (sd_lp_amount d - lp) 0); injection H as <-.
  - set (d2 := d1 <| sd_is_initialized := 0 |>).
    assert (Hd2 : wf_deposit d2) by (subst d2; apply wf_sd_is_initialized; [done|width_lia]).
    split_and!; try done; [|lia| ].
    + apply (wf_sd_reserved d2 8 [0]); [done|cbn; lia|apply bytes_ok_1; width_lia].
    + intros _. split; [done|]. unfold is_junior_deposit. upd_simpl.
      rewrite byte_at_splice_same; [done|]. destruct Hd2 as [_ _ _ _ [Hl _]]. change (length (sd_reserved d2) = 64%nat) in Hl. unfold d2, d1 in Hl |- *. upd_simpl in Hl. upd_simpl. lia.
  - split_and!; try done. lia.
Qed.

(** The conditions a record passes. *)
Lemma check_record_Ok a lp p d clk j :
  check_record a lp p d clk = Ok j <->
  deposit_validate_discriminator d = true /\ d.(sd_is_initialized) = 1 /\
  d.(sd_user) = a.(wa_user).(ai_key) /\ d.(sd_pool) = a.(wa_pool_pda).(ai_key) /\
  saturating_add U64_MAX d.(sd_last_deposit_slot) p.(sp_cooldown_slots) <= clk.(clock_slot) /\
  lp <= d.(sd_lp_amount) /\ j = is_junior_deposit d.
Proof.
  unfold check_record.
  rewrite !ensure_Ok, !andb_true_iff, !negb_true_iff, !key_eqb_eq, Z.eqb_eq, !Z.ltb_ge.
  naive_solver.
Qed.
