(* ===== verification/Insurance.v ===== *)
(** * Insurance flows (src/processor.rs, tags 3, 10 and 23)

    FlushToInsurance moves vault collateral to the wrapper, ReturnInsurance
    brings it back from the admin's account, RecoverFlushedInsurance pulls it
    from the wrapper. *)

From S2P Require Import Prelude Errors State PoolFacts Runtime SplToken Cpi Guards.

Section Handlers.
Context `{Runtime} (program_id : Pubkey).

(** ** 3: FlushToInsurance *)

(** The checks on the opened pool: admin, addresses, mode, resolution. *)
Definition flush_guards (pool : StakePool) (caller vault slab percolator_program : AccountInfo)
    : ProgramResult unit :=
  ensure key_eqb pool.(sp_admin) caller.(ai_key) or_err stake_err Unauthorized;
  ensure key_eqb pool.(sp_slab) slab.(ai_key) or_err stake_err InvalidPda;
  ensure key_eqb pool.(sp_vault) vault.(ai_key) or_err stake_err InvalidPda;
  ensure key_eqb pool.(sp_percolator_program) percolator_program.(ai_key)
    or_err stake_err InvalidPercolatorProgram;
  ensure pool.(sp_pool_mode) =? 0 or_err stake_err InvalidPoolMode;
  ensure negb (market_resolved pool) or_err stake_err MarketResolved;
  Ok tt.

(** The record's update: the flushed total, and the mark lowered by the
    realised loss. *)
Definition flush_totals (pool : StakePool) (amount : Z) : ProgramResult StakePool :=
  total_flushed ← ok_or (checked_add U64_MAX pool.(sp_total_flushed) amount)
                    (stake_err Overflow);
  let pool := pool <| sp_total_flushed := total_flushed |> in
  Ok (set_epoch_high_water_tvl (saturating_sub (epoch_high_water_tvl pool) amount) pool).

Definition process_flush_to_insurance (accounts : list AccountInfo) (amount : Z) (w : World)
    : ProgramResult World :=
  ensure negb (amount =? 0) or_err stake_err ZeroAmount;
  match accounts with
  | caller :: pool_pda :: vault :: vault_auth :: slab :: wrapper_vault ::
      percolator_program :: token_program :: _ =>
      _ ← require_signer caller;
      _ ← validate_pool_mut program_id pool_pda w;
      _ ← verify_token_program token_program;
      pool ← open_pool [] pool_pda w;
      let mb := [pool_pda.(ai_key)] in
      _ ← flush_guards pool caller vault slab percolator_program;
      _ ← check_token_account mb wrapper_vault true pool.(sp_collateral_mint) InvalidMint None w;
      available ← ok_or (total_pool_value pool) (stake_err Overflow);
      ensure negb (available <? amount) or_err stake_err InsufficientVaultBalance;
      let '(expected_vault_auth, vault_auth_bump) :=
        derive_vault_authority program_id pool_pda.(ai_key) in
      ensure key_eqb vault_auth.(ai_key) expected_vault_auth or_err stake_err InvalidPda;
      let vault_auth_seeds := [SEED_VAULT_AUTH; pool_pda.(ai_key); [vault_auth_bump]] in
      w ← cpi_top_up_insurance mb percolator_program vault_auth slab vault wrapper_vault
            token_program amount vault_auth_seeds w;
      pool ← flush_totals pool amount;
      Ok (store_pool pool_pda.(ai_key) pool w)
  | _ => Err NotEnoughAccountKeys
  end.

(** ** 10: ReturnInsurance *)

Definition return_totals (pool : StakePool) (amount : Z) : ProgramResult StakePool :=
  total_returned ← ok_or (checked_add U64_MAX pool.(sp_total_returned) amount)
                     (stake_err Overflow);
  Ok (pool <| sp_total_returned := total_returned |>).

Definition process_return_insurance (accounts : list AccountInfo) (amount : Z) (w : World)
    : ProgramResult World :=
  ensure negb (amount =? 0) or_err stake_err ZeroAmount;
  match accounts with
  | admin :: pool_pda :: admin_ata :: vault :: token_program :: _ =>
      _ ← require_signer admin;
      _ ← verify_token_program token_program;
      _ ← validate_pool_mut program_id pool_pda w;
      _ ← validate_account_writable vault;
      pool ← open_pool [] pool_pda w;
      let mb := [pool_pda.(ai_key)] in
      ensure key_eqb pool.(sp_admin) admin.(ai_key) or_err stake_err Unauthorized;
      ensure key_eqb pool.(sp_vault) vault.(ai_key) or_err stake_err InvalidPda;
      ensure key_eqb (ai_owner w vault) SplToken.id or_err IllegalOwner;
      let outstanding := saturating_sub pool.(sp_total_flushed) pool.(sp_total_returned) in
      ensure negb (outstanding <? amount) or_err InvalidArgument;
      _ ← check_token_account mb admin_ata true pool.(sp_collateral_mint) InvalidMint
            (Some admin.(ai_key)) w;
      transfer_ix ← SplToken.transfer token_program.(ai_key) admin_ata.(ai_key)
                      vault.(ai_key) admin.(ai_key) [] amount;
      w ← invoke mb transfer_ix [admin_ata; vault; admin] w;
      pool ← return_totals pool amount;
      Ok (store_pool pool_pda.(ai_key) pool w)
  | _ => Err NotEnoughAccountKeys
  end.

(** ** 23: RecoverFlushedInsurance *)

Definition recover_totals (pool : StakePool) (amount : Z) : ProgramResult StakePool :=
  pool ← return_totals pool amount;
  recovered ← ok_or (checked_add U64_MAX pool.(sp_total_recovered_from_wrapper) amount)
                (stake_err Overflow);
  Ok (pool <| sp_total_recovered_from_wrapper := recovered |>).

(** Mode, amount and cap. *)
Definition recover_guards (pool : StakePool) (amount : Z) : ProgramResult unit :=
  ensure pool.(sp_pool_mode) =? 0 or_err stake_err InvalidPoolMode;
  ensure negb (amount =? 0) or_err stake_err ZeroAmount;
  let outstanding := wrapper_recoverable pool in
  ensure negb (outstanding =? 0) or_err stake_err InsufficientVaultBalance;
  ensure negb (outstanding <? amount) or_err stake_err InsufficientVaultBalance;
  Ok tt.

Definition process_recover_flushed_insurance (accounts : list AccountInfo) (amount : Z)
    (w : World) : ProgramResult World :=
  match accounts with
  | _caller :: pool_pda :: vault :: vault_auth :: market :: wrapper_vault ::
      wrapper_vault_auth :: token_program :: percolator_program :: _ =>
      _ ← verify_token_program token_program;
      _ ← validate_pool_mut program_id pool_pda w;
      pool ← open_pool [] pool_pda w;
      let mb := [pool_pda.(ai_key)] in
      _ ← recover_guards pool amount;
      ensure key_eqb pool.(sp_percolator_program) percolator_program.(ai_key)
        or_err stake_err InvalidPercolatorProgram;
      ensure key_eqb pool.(sp_vault) vault.(ai_key) or_err stake_err InvalidPda;
      let '(expected_vault_auth, vault_auth_bump) :=
        derive_vault_authority program_id pool_pda.(ai_key) in
      ensure key_eqb vault_auth.(ai_key) expected_vault_auth or_err stake_err InvalidPda;
      let vault_auth_seeds := [SEED_VAULT_AUTH; pool_pda.(ai_key); [vault_auth_bump]] in
      w ← cpi_withdraw_insurance_asset mb percolator_program vault_auth market vault
            wrapper_vault wrapper_vault_auth token_program amount vault_auth_seeds w;
      pool ← recover_totals pool amount;
      Ok (store_pool pool_pda.(ai_key) pool w)
  | _ => Err NotEnoughAccountKeys
  end.
End Handlers.

(** ** What the flows do to the record *)

Lemma flush_totals_inv p amount q :
  wf_pool p -> u64 amount -> flush_totals p amount = Ok q ->
  wf_pool q /\ pool_ident q = pool_ident p /\ raw_value q = raw_value p - amount /\
  q.(sp_total_flushed) = p.(sp_total_flushed) + amount /\
  q.(sp_total_returned) = p.(sp_total_returned) /\
  q.(sp_total_lp_supply) = p.(sp_total_lp_supply) /\
  junior_balance q = junior_balance p /\ junior_total_lp q = junior_total_lp p /\
  realized_junior_loss q = realized_junior_loss p /\ tranche_enabled q = tranche_enabled p /\
  epoch_high_water_tvl q = saturating_sub (epoch_high_water_tvl p) amount.
Proof.
  intros Hp Ha H. unfold flush_totals in H. inv_ok H. injection H as <-.
  apply ok_or_Ok, checked_add_Some in E as [-> Hle].
  assert (u64 (sp_total_flushed p + amount)) by (wf_destruct; width_lia).
  pose proof (u64_epoch_high_water_tvl p Hp).
  assert (u64 (saturating_sub (epoch_high_water_tvl p) amount)) by width_lia.
  set (p1 := p <| sp_total_flushed := _ |>) in *.
  assert (wf_pool p1) by (subst p1; auto with stake).
  change (epoch_high_water_tvl p1) with (epoch_high_water_tvl p).
  unfold raw_value. subst p1. pool_simpl.
  split_and!; try done; [auto with stake|solve_ident|lia].
Qed.

Lemma return_totals_inv p amount q :
  wf_pool p -> u64 amount -> return_totals p amount = Ok q ->
  wf_pool q /\ pool_ident q = pool_ident p /\ raw_value q = raw_value p + amount /\
  q = p <| sp_total_returned := p.(sp_total_returned) + amount |>.
Proof.
  intros Hp Ha H. unfold return_totals in H. inv_ok H. injection H as <-.
  apply ok_or_Ok, checked_add_Some in E as [-> Hle].
  assert (u64 (sp_total_returned p + amount)) by (wf_destruct; width_lia).
  unfold raw_value. pool_simpl. split_and!; [auto with stake|solve_ident|lia|done].
Qed.

Lemma recover_totals_inv p amount q :
  wf_pool p -> u64 amount -> recover_totals p amount = Ok q ->
  wf_pool q /\ pool_ident q = pool_ident p /\ raw_value q = raw_value p + amount /\
  q = p <| sp_total_returned := p.(sp_total_returned) + amount |>
        <| sp_total_recovered_from_wrapper := p.(sp_total_recovered_from_wrapper) + amount |>.
Proof.
  intros Hp Ha H. unfold recover_totals in H. inv_ok_step H.
  apply return_totals_inv in E as (Hw & Hi & Hv & ->); [|done..].
  inv_ok H. injection H as <-. apply ok_or_Ok, checked_add_Some in E as [-> Hle]. revert Hv Hle. upd_simpl.
  intros Hv Hle.
  assert (u64 (sp_total_recovered_from_wrapper p + amount)) by (wf_destruct; width_lia).
  unfold raw_value in *. split_and!; [auto with stake|done|done|done].
Qed.

Lemma recover_guards_Ok p amount :
  recover_guards p amount = Ok tt <->
  p.(sp_pool_mode) = 0 /\ amount <> 0 /\ wrapper_recoverable p <> 0 /\
  amount <= wrapper_recoverable p.
Proof.
  unfold recover_guards.
  rewrite !ensure_Ok, !negb_true_iff, !Z.eqb_neq, Z.eqb_eq, Z.ltb_ge. naive_solver.
Qed.

Lemma flush_guards_Ok p caller vault slab perc :
  flush_guards p caller vault slab perc = Ok tt <->
  p.(sp_admin) = caller.(ai_key) /\ p.(sp_slab) = slab.(ai_key) /\
  p.(sp_vault) = vault.(ai_key) /\ p.(sp_percolator_program) = perc.(ai_key) /\
  p.(sp_pool_mode) = 0 /\ market_resolved p = false.
Proof.
  unfold flush_guards.
  rewrite !ensure_Ok, !key_eqb_eq, negb_true_iff, Z.eqb_eq. naive_solver.
Qed.
