(* ===== verification/Admin.v ===== *)
(** * Pool administration (src/processor.rs, tags 4 to 9, 14, 15 and 18)

    Configuration, the two-step admin rotation, the cooldown timelock, the
    high-water-mark and tranche settings, and market resolution. Each handler
    is its prologue, a pure transition on the record, and the store. *)

From S2P Require Import Prelude Errors State PoolFacts Runtime Guards.

(** ** The transitions *)

(** 4: UpdateConfig *)
Definition update_config (new_cooldown_slots new_deposit_cap : option Z) (pool : StakePool)
    : ProgramResult StakePool :=
  pool ← match new_cooldown_slots with
         | Some cooldown =>
             _ ← validate_cooldown_slots cooldown;
             ensure negb (pool.(sp_cooldown_slots) <? cooldown)
               or_err stake_err CooldownIncreaseRequiresTimelock;
             Ok (pool <| sp_cooldown_slots := cooldown |>)
         | None => Ok pool
         end;
  match new_deposit_cap with
  | Some cap => Ok (pool <| sp_deposit_cap := cap |>)
  | None => Ok pool
  end.

(** 6: AcceptAdmin *)
Definition accept_admin (new_admin : Pubkey) (pool : StakePool) : ProgramResult StakePool :=
  ensure negb (key_eqb pool.(sp_pending_admin) ZERO_KEY) or_err stake_err NoPendingAdmin;
  ensure key_eqb pool.(sp_pending_admin) new_admin or_err stake_err Unauthorized;
  let pool := pool <| sp_admin := pool.(sp_pending_admin) |> in
  Ok (pool <| sp_pending_admin := ZERO_KEY |>).

(** 7: ProposeCooldownIncrease *)
Definition propose_cooldown_increase (new_cooldown_slots : Z) (clock : Clock) (pool : StakePool)
    : ProgramResult StakePool :=
  _ ← validate_cooldown_slots new_cooldown_slots;
  ensure negb (new_cooldown_slots <=? pool.(sp_cooldown_slots))
    or_err stake_err CooldownIncreaseRequiresTimelock;
  let pool := set_pending_cooldown_slots new_cooldown_slots pool in
  Ok (set_cooldown_proposed_at_slot clock.(clock_slot) pool).

(** 8: CommitCooldownIncrease *)
Definition commit_cooldown_increase (clock : Clock) (pool : StakePool)
    : ProgramResult StakePool :=
  let proposed_at := cooldown_proposed_at_slot pool in
  ensure negb (proposed_at =? 0) or_err stake_err NoPendingCooldownProposal;
  elapsed ← timelock_window_elapsed proposed_at TIMELOCK_SLOTS clock.(clock_slot);
  ensure elapsed or_err stake_err TimelockNotElapsed;
  let pending := pending_cooldown_slots pool in
  _ ← validate_cooldown_slots pending;
  let pool := pool <| sp_cooldown_slots := pending |> in
  let pool := set_pending_cooldown_slots 0 pool in
  Ok (set_cooldown_proposed_at_slot 0 pool).

(** 9: CancelCooldownIncrease *)
Definition cancel_cooldown_increase (pool : StakePool) : ProgramResult StakePool :=
  ensure negb (cooldown_proposed_at_slot pool =? 0)
    or_err stake_err NoPendingCooldownProposal;
  let pool := set_pending_cooldown_slots 0 pool in
  Ok (set_cooldown_proposed_at_slot 0 pool).

(** 14: AdminSetHwmConfig *)
Definition apply_hwm_config (enabled : bool) (hwm_floor_bps : Z) (pool : StakePool) : StakePool :=
  let pool := set_hwm_enabled enabled pool in
  if enabled then set_hwm_floor_bps hwm_floor_bps pool else pool.

(** 15: AdminSetTrancheConfig *)
Definition set_tranche_config (mult_bps : Z) (pool : StakePool)
    : ProgramResult StakePool :=
  ensure (10000 <=? mult_bps) && (mult_bps <=? 50000)
    or_err InvalidArgument;
  ensure negb ((0 <? junior_total_lp pool) && negb (junior_fee_mult_bps pool =? mult_bps))
    or_err stake_err Unauthorized;
  let pool := set_tranche_enabled true pool in
  Ok (set_junior_fee_mult_bps mult_bps pool).

(** 18: SetMarketResolved *)
Definition resolve_pool (pool : StakePool) : ProgramResult StakePool :=
  ensure negb (market_resolved pool) or_err stake_err MarketResolved;
  ensure wrapper_fully_recovered pool or_err stake_err InsuranceLossOutstanding;
  Ok (set_market_resolved true pool).

(** ** The handlers *)

Section Handlers.
Context `{Runtime} (program_id : Pubkey).

Definition process_update_config (accounts : list AccountInfo)
    (new_cooldown_slots new_deposit_cap : option Z) (w : World) : ProgramResult World :=
  match accounts with
  | admin :: pool_pda :: _ =>
      pool ← open_pool_as_admin program_id admin pool_pda w;
      pool ← update_config new_cooldown_slots new_deposit_cap pool;
      Ok (store_pool pool_pda.(ai_key) pool w)
  | _ => Err NotEnoughAccountKeys
  end.

Definition process_propose_admin (accounts : list AccountInfo) (new_admin : Pubkey)
    (w : World) : ProgramResult World :=
  match accounts with
  | admin :: pool_pda :: _ =>
      pool ← open_pool_as_admin program_id admin pool_pda w;
      let pool := pool <| sp_pending_admin := new_admin |> in
      Ok (store_pool pool_pda.(ai_key) pool w)
  | _ => Err NotEnoughAccountKeys
  end.

Definition process_accept_admin (accounts : list AccountInfo) (w : World)
    : ProgramResult World :=
  match accounts with
  | new_admin :: pool_pda :: _ =>
      _ ← require_signer new_admin;
      _ ← validate_pool_mut program_id pool_pda w;
      pool ← open_pool [] pool_pda w;
      pool ← accept_admin new_admin.(ai_key) pool;
      Ok (store_pool pool_pda.(ai_key) pool w)
  | _ => Err NotEnoughAccountKeys
  end.

(** The timelock handlers read the clock between the account checks and the
    record. *)
Definition open_pool_with_clock (admin pool_pda clock_sysvar : AccountInfo) (w : World)
    : ProgramResult (Clock * StakePool) :=
  _ ← require_signer admin;
  _ ← validate_pool_mut program_id pool_pda w;
  clock ← clock_from_account_info clock_sysvar w;
  pool ← open_pool [] pool_pda w;
  ensure key_eqb pool.(sp_admin) admin.(ai_key) or_err stake_err Unauthorized;
  Ok (clock, pool).

Definition process_propose_cooldown_increase (accounts : list AccountInfo)
    (new_cooldown_slots : Z) (w : World) : ProgramResult World :=
  match accounts with
  | admin :: pool_pda :: clock_sysvar :: _ =>
      '(clock, pool) ← open_pool_with_clock admin pool_pda clock_sysvar w;
      pool ← propose_cooldown_increase new_cooldown_slots clock pool;
      Ok (store_pool pool_pda.(ai_key) pool w)
  | _ => Err NotEnoughAccountKeys
  end.

Definition process_commit_cooldown_increase (accounts : list AccountInfo) (w : World)
    : ProgramResult World :=
  match accounts with
  | admin :: pool_pda :: clock_sysvar :: _ =>
      '(clock, pool) ← open_pool_with_clock admin pool_pda clock_sysvar w;
      pool ← commit_cooldown_increase clock pool;
      Ok (store_pool pool_pda.(ai_key) pool w)
  | _ => Err NotEnoughAccountKeys
  end.

Definition process_cancel_cooldown_increase (accounts : list AccountInfo) (w : World)
    : ProgramResult World :=
  match accounts with
  | admin :: pool_pda :: _ =>
      pool ← open_pool_as_admin program_id admin pool_pda w;
      pool ← cancel_cooldown_increase pool;
      Ok (store_pool pool_pda.(ai_key) pool w)
  | _ => Err NotEnoughAccountKeys
  end.

Definition process_admin_set_hwm_config (accounts : list AccountInfo) (enabled : bool)
    (hwm_floor_bps : Z) (w : World) : ProgramResult World :=
  match accounts with
  | admin :: pool_pda :: _ =>
      pool ← open_pool_as_admin program_id admin pool_pda w;
      _ ← (if enabled then validate_hwm_floor_bps hwm_floor_bps else Ok tt);
      let pool := apply_hwm_config enabled hwm_floor_bps pool in
      Ok (store_pool pool_pda.(ai_key) pool w)
  | _ => Err NotEnoughAccountKeys
  end.

Definition process_admin_set_tranche_config (accounts : list AccountInfo)
    (junior_fee_mult_bps : Z) (w : World) : ProgramResult World :=
  match accounts with
  | admin :: pool_ai :: _ =>
      pool ← open_pool_as_admin program_id admin pool_ai w;
      pool ← set_tranche_config junior_fee_mult_bps pool;
      Ok (store_pool pool_ai.(ai_key) pool w)
  | _ => Err NotEnoughAccountKeys
  end.

Definition process_set_market_resolved (accounts : list AccountInfo) (w : World)
    : ProgramResult World :=
  match accounts with
  | admin :: pool_pda :: _ =>
      pool ← open_pool_as_admin program_id admin pool_pda w;
      pool ← resolve_pool pool;
      Ok (store_pool pool_pda.(ai_key) pool w)
  | _ => Err NotEnoughAccountKeys
  end.
End Handlers.

(** ** The transitions move no value *)

Lemma u64_0 : u64 0.
Proof. width_lia. Qed.
#[export] Hint Resolve u64_0 : stake.

Lemma key_ok_zero : key_ok ZERO_KEY.
Proof. split; [done|]. apply Forall_replicate. unfold byte_ok. lia. Qed.
#[export] Hint Resolve key_ok_zero : stake.


Lemma update_config_neutral c d p q :
  wf_pool p -> (forall v, c = Some v -> u64 v) -> (forall v, d = Some v -> u64 v) ->
  update_config c d p = Ok q -> neutral p q.
Proof.
  intros Hp Hc Hd H. unfold update_config in H. apply bind_Ok in H as (p1 & H1 & H2).
  assert (N1 : neutral p p1).
  { destruct c as [c|]; [|injection H1 as <-; by apply neutral_refl].
    apply bind_Ok in H1 as ([] & _ & H1). apply ensure_Ok in H1 as [_ [= <-]].
    specialize (Hc _ eq_refl). solve_neutral. }
  apply neutral_trans with p1; [done|]. destruct N1 as (Hp1 & _).
  destruct d as [d|]; injection H2 as <-; [|by apply neutral_refl].
  specialize (Hd _ eq_refl). solve_neutral.
Qed.

Lemma propose_admin_neutral k p : wf_pool p -> key_ok k -> neutral p (p <| sp_pending_admin := k |>).
Proof. intros. solve_neutral. Qed.

Lemma accept_admin_neutral k p q : wf_pool p -> accept_admin k p = Ok q -> neutral p q.
Proof.
  intros Hp H. unfold accept_admin in H. inv_ok H. injection H as <-.
  assert (key_ok (sp_pending_admin p)) by (destruct Hp; forall_simpl; split; done).
  solve_neutral.
Qed.

Lemma propose_cooldown_neutral c clk p q :
  wf_pool p -> u64 c -> u64 clk.(clock_slot) ->
  propose_cooldown_increase c clk p = Ok q -> neutral p q.
Proof.
  intros Hp Hc Hs H. unfold propose_cooldown_increase in H.
  apply bind_Ok in H as ([] & _ & H). apply ensure_Ok in H as [_ [= <-]]. solve_neutral.
Qed.

Lemma commit_cooldown_neutral clk p q :
  wf_pool p -> commit_cooldown_increase clk p = Ok q -> neutral p q.
Proof.
  intros Hp H. unfold commit_cooldown_increase in H. apply ensure_Ok in H as [_ H].
  apply bind_Ok in H as (b & _ & H). apply ensure_Ok in H as [_ H].
  apply bind_Ok in H as ([] & _ & [= <-]).
  assert (u64 (sp_pending_cooldown_slots p)) by (wf_destruct; done). solve_neutral.
Qed.

Lemma cancel_cooldown_neutral p q :
  wf_pool p -> cancel_cooldown_increase p = Ok q -> neutral p q.
Proof.
  intros Hp H. unfold cancel_cooldown_increase in H. apply ensure_Ok in H as [_ [= <-]].
  solve_neutral.
Qed.

Lemma apply_hwm_config_neutral e b p : wf_pool p -> u16 b -> neutral p (apply_hwm_config e b p).
Proof. intros Hp Hb. unfold apply_hwm_config. cbn zeta. destruct e; solve_neutral. Qed.

Lemma set_tranche_config_neutral m p q :
  wf_pool p -> u16 m -> set_tranche_config m p = Ok q -> neutral p q.
Proof.
  intros Hp Hm H. unfold set_tranche_config in H. apply ensure_Ok in H as [_ H].
  apply ensure_Ok in H as [_ [= <-]]. solve_neutral.
Qed.

Lemma resolve_pool_neutral p q : wf_pool p -> resolve_pool p = Ok q -> neutral p q.
Proof.
  intros Hp H. unfold resolve_pool in H. apply ensure_Ok in H as [_ H].
  apply ensure_Ok in H as [_ [= <-]]. solve_neutral.
Qed.
