(* ===== verification/Proxy.v ===== *)
(** * Wrapper proxies (src/processor.rs, tags 19 to 22 and 24 to 28)

    Handlers that sign a wrapper instruction with a program address of the
    pool: the insurance authority bindings, market resolution and the four fee
    settings. Only BurnAssetAdmin writes the pool record. *)

From S2P Require Import Prelude Errors State PoolFacts Runtime Cpi Guards.

Section Handlers.
Context `{Runtime} (program_id : Pubkey).

(** Owner and data, without writability: the record is only read. *)
Definition open_pool_read (admin pool_pda : AccountInfo) (w : World) : ProgramResult StakePool :=
  _ ← validate_account_owner pool_pda program_id w;
  _ ← validate_account_not_empty [] pool_pda w;
  pool ← open_pool [] pool_pda w;
  ensure key_eqb pool.(sp_admin) admin.(ai_key) or_err stake_err Unauthorized;
  Ok pool.

(** The pool's recorded market and wrapper. *)
Definition check_market (pool : StakePool) (slab percolator_program : AccountInfo)
    : ProgramResult unit :=
  ensure key_eqb pool.(sp_slab) slab.(ai_key) or_err stake_err InvalidPda;
  ensure key_eqb pool.(sp_percolator_program) percolator_program.(ai_key)
    or_err stake_err InvalidPercolatorProgram;
  Ok tt.

(** The [vault_auth] address; returns its signer seeds. *)
Definition vault_auth_seeds_for (pool_pda vault_auth : AccountInfo)
    : ProgramResult (list (list Z)) :=
  let '(expected_vault_auth, vault_auth_bump) :=
    derive_vault_authority program_id pool_pda.(ai_key) in
  ensure key_eqb vault_auth.(ai_key) expected_vault_auth or_err stake_err InvalidPda;
  Ok [SEED_VAULT_AUTH; pool_pda.(ai_key); [vault_auth_bump]].

(** ** 19: BindInsuranceAuthority *)
Definition process_bind_insurance_authority (accounts : list AccountInfo) (w : World)
    : ProgramResult World :=
  match accounts with
  | admin :: pool_pda :: vault_auth :: slab :: percolator_program :: _ =>
      _ ← require_signer admin;
      pool ← open_pool_read admin pool_pda w;
      _ ← check_market pool slab percolator_program;
      seeds ← vault_auth_seeds_for pool_pda vault_auth;
      w ← cpi_bind_insurance_authority [] percolator_program admin vault_auth slab seeds w;
      cpi_bind_insurance_operator [] percolator_program admin vault_auth slab seeds w
  | _ => Err NotEnoughAccountKeys
  end.

(** ** 21: BurnAssetAdmin *)

(** [from_bytes_mut(&mut data[..STAKE_POOL_SIZE])]: panics on short data. *)
Definition mark_burned (pool_pda : AccountInfo) (w : World) : ProgramResult World :=
  pool_data ← try_borrow_data [] pool_pda w;
  bytes ← index_range 0 STAKE_POOL_SIZE pool_data;
  let pool := pool_decode bytes in
  let pool := set_asset_admin_burned true pool in
  Ok (store_pool pool_pda.(ai_key) pool w).

Definition process_burn_asset_admin (accounts : list AccountInfo) (w : World)
    : ProgramResult World :=
  match accounts with
  | admin :: pool_pda :: vault_auth :: slab :: percolator_program :: _ =>
      _ ← require_signer admin;
      _ ← validate_account_writable pool_pda;
      pool ← open_pool_read admin pool_pda w;
      ensure negb (asset_admin_burned pool) or_err stake_err Unauthorized;
      _ ← check_market pool slab percolator_program;
      _ ← vault_auth_seeds_for pool_pda vault_auth;
      w ← cpi_burn_asset_admin [] percolator_program admin vault_auth slab w;
      mark_burned pool_pda w
  | _ => Err NotEnoughAccountKeys
  end.

(** ** 22 and 20: rotation off the [vault_auth] address *)

(** The guards the two rotations share; returns the signer seeds. *)
Definition rotate_guards (admin pool_pda vault_auth new_target slab percolator_program
    : AccountInfo) (w : World) : ProgramResult (list (list Z)) :=
  _ ← require_signer admin;
  _ ← require_signer new_target;
  pool ← open_pool_read admin pool_pda w;
  ensure negb (asset_admin_burned pool) or_err stake_err Unauthorized;
  _ ← check_market pool slab percolator_program;
  vault_auth_seeds_for pool_pda vault_auth.

Definition process_rotate_insurance_operator (accounts : list AccountInfo) (w : World)
    : ProgramResult World :=
  match accounts with
  | admin :: pool_pda :: vault_auth :: new_target :: slab :: percolator_program :: _ =>
      seeds ← rotate_guards admin pool_pda vault_auth new_target slab percolator_program w;
      cpi_rotate_insurance_operator [] percolator_program vault_auth new_target slab seeds w
  | _ => Err NotEnoughAccountKeys
  end.

Definition process_rotate_insurance_authority (accounts : list AccountInfo) (w : World)
    : ProgramResult World :=
  match accounts with
  | admin :: pool_pda :: vault_auth :: new_target :: slab :: percolator_program :: _ =>
      seeds ← rotate_guards admin pool_pda vault_auth new_target slab percolator_program w;
      cpi_rotate_insurance_authority [] percolator_program vault_auth new_target slab seeds w
  | _ => Err NotEnoughAccountKeys
  end.

(** ** 24: AdminResolveMarket *)
Definition process_admin_resolve_market (accounts : list AccountInfo) (w : World)
    : ProgramResult World :=
  match accounts with
  | admin :: pool_pda :: slab :: percolator_program :: _ =>
      _ ← require_signer admin;
      pool ← open_pool_read admin pool_pda w;
      _ ← check_market pool slab percolator_program;
      ensure wrapper_fully_recovered pool or_err stake_err InsuranceLossOutstanding;
      let pool_seeds := [SEED_STAKE_POOL; slab.(ai_key); [pool.(sp_bump)]] in
      cpi_resolve_market [] percolator_program pool_pda slab pool_seeds w
  | _ => Err NotEnoughAccountKeys
  end.

(** ** 25 to 28: fee settings *)

Definition validate_group_a_proxy (admin pool_pda slab percolator_program : AccountInfo)
    (w : World) : ProgramResult Z :=
  _ ← require_signer admin;
  pool ← open_pool_read admin pool_pda w;
  _ ← check_market pool slab percolator_program;
  Ok pool.(sp_bump).

Definition validate_group_b_proxy
    (admin pool_pda vault_auth slab percolator_program : AccountInfo) (w : World)
    : ProgramResult Z :=
  _ ← validate_group_a_proxy admin pool_pda slab percolator_program w;
  let '(expected_vault_auth, vault_auth_bump) :=
    derive_vault_authority program_id pool_pda.(ai_key) in
  ensure key_eqb vault_auth.(ai_key) expected_vault_auth or_err stake_err InvalidPda;
  Ok vault_auth_bump.

Definition process_admin_update_fee_split (accounts : list AccountInfo)
    (creator_share_bps lp_share_bps insurance_share_bps : Z) (w : World)
    : ProgramResult World :=
  match accounts with
  | admin :: pool_pda :: slab :: percolator_program :: _ =>
      pool_bump ← validate_group_a_proxy admin pool_pda slab percolator_program w;
      let pool_seeds := [SEED_STAKE_POOL; slab.(ai_key); [pool_bump]] in
      cpi_update_fee_split [] percolator_program pool_pda slab creator_share_bps lp_share_bps
        insurance_share_bps pool_seeds w
  | _ => Err NotEnoughAccountKeys
  end.

Definition process_admin_update_maintenance_fee_per_slot (accounts : list AccountInfo)
    (maintenance_fee_per_slot : Z) (w : World) : ProgramResult World :=
  match accounts with
  | admin :: pool_pda :: slab :: percolator_program :: _ =>
      pool_bump ← validate_group_a_proxy admin pool_pda slab percolator_program w;
      let pool_seeds := [SEED_STAKE_POOL; slab.(ai_key); [pool_bump]] in
      cpi_update_maintenance_fee_per_slot [] percolator_program pool_pda slab
        maintenance_fee_per_slot pool_seeds w
  | _ => Err NotEnoughAccountKeys
  end.

Definition process_admin_update_backing_fee_policy (accounts : list AccountInfo)
    (domain fee_bps insurance_share_bps : Z) (w : World) : ProgramResult World :=
  match accounts with
  | admin :: pool_pda :: vault_auth :: slab :: percolator_program :: _ =>
      vault_auth_bump ← validate_group_b_proxy admin pool_pda vault_auth slab
                          percolator_program w;
      let vault_auth_seeds := [SEED_VAULT_AUTH; pool_pda.(ai_key); [vault_auth_bump]] in
      cpi_update_backing_fee_policy [] percolator_program vault_auth slab domain fee_bps
        insurance_share_bps vault_auth_seeds w
  | _ => Err NotEnoughAccountKeys
  end.

Definition process_admin_update_trade_fee_policy (accounts : list AccountInfo)
    (trade_fee_base_bps : Z) (w : World) : ProgramResult World :=
  match accounts with
  | admin :: pool_pda :: vault_auth :: slab :: percolator_program :: _ =>
      vault_auth_bump ← validate_group_b_proxy admin pool_pda vault_auth slab
                          percolator_program w;
      let vault_auth_seeds := [SEED_VAULT_AUTH; pool_pda.(ai_key); [vault_auth_bump]] in
      cpi_update_trade_fee_policy [] percolator_program vault_auth slab trade_fee_base_bps
        vault_auth_seeds w
  | _ => Err NotEnoughAccountKeys
  end.
End Handlers.

(** The burn marker moves no value. *)
Lemma set_asset_admin_burned_neutral p : wf_pool p -> neutral p (set_asset_admin_burned true p).
Proof. intros. solve_neutral. Qed.
