(* ===== verification/Init.v ===== *)
(** * Pool creation (src/processor.rs, tags 0 and 13) *)

From S2P Require Import Prelude Errors State PoolFacts Runtime SplToken Cpi Guards.

(** Cargo features: [devnet] widens the wrapper allowlist. *)
Class BuildConfig := { feature_devnet : bool }.

(** "ESa89R5Es3rJ5mnwGybVRG1GrNt9etP11Z5V2QWD4edv", base58-decoded. *)
Definition PERCOLATOR_MAINNET : Pubkey :=
  [199; 180; 231; 28; 169; 127; 223; 6; 13; 64; 223; 31; 229; 237; 183;
   2; 182; 201; 78; 87; 235; 180; 40; 205; 87; 58; 38; 116; 241; 27; 43;
   41].
(** "DhSkE7uTb8HBUYYWF1xkxMYBGtLYJEoDq1tfBD7SnHcj", base58-decoded. *)
Definition PERCOLATOR_DEVNET : Pubkey :=
  [188; 168; 149; 244; 80; 4; 190; 119; 202; 217; 212; 60; 119; 171;
   183; 30; 200; 129; 65; 34; 237; 55; 171; 151; 174; 191; 152; 206; 115;
   223; 99; 176].

Definition is_percolator `{BuildConfig} (k : Pubkey) : bool :=
  key_eqb k PERCOLATOR_MAINNET || (feature_devnet && key_eqb k PERCOLATOR_DEVNET).

Record InitAccounts : Set := mkInitAccounts {
  ia_admin : AccountInfo;
  ia_slab : AccountInfo;
  ia_pool_pda : AccountInfo;
  ia_lp_mint : AccountInfo;
  ia_vault : AccountInfo;
  ia_vault_auth : AccountInfo;
  ia_collateral_mint : AccountInfo;
  ia_percolator_program : AccountInfo;
  ia_token_program : AccountInfo;
  ia_system_program : AccountInfo;
  ia_rent_sysvar : AccountInfo;
}.

Definition init_accounts (accounts : list AccountInfo) : ProgramResult InitAccounts :=
  match accounts with
  | admin :: slab :: pool_pda :: lp_mint :: vault :: vault_auth :: collateral_mint ::
      percolator_program :: token_program :: system_program :: rent_sysvar :: _ =>
      Ok (mkInitAccounts admin slab pool_pda lp_mint vault vault_auth collateral_mint
            percolator_program token_program system_program rent_sysvar)
  | _ => Err NotEnoughAccountKeys
  end.

Section Init.
Context `{Runtime} `{BuildConfig} (program_id : Pubkey) (a : InitAccounts).

(** Every check before the first CPI; returns the two bumps. *)
Definition init_guards (cooldown_slots : Z) (w : World) : ProgramResult (Z * Z) :=
  _ ← require_signer a.(ia_admin);
  ensure is_percolator a.(ia_percolator_program).(ai_key)
    or_err stake_err InvalidPercolatorProgram;
  _ ← validate_cooldown_slots cooldown_slots;
  let '(expected_pool, pool_bump) := derive_pool_pda program_id a.(ia_slab).(ai_key) in
  ensure key_eqb a.(ia_pool_pda).(ai_key) expected_pool or_err stake_err InvalidPda;
  empty ← data_is_empty [] a.(ia_pool_pda) w;
  ensure empty or_err stake_err AlreadyInitialized;
  let '(expected_vault_auth, vault_auth_bump) :=
    derive_vault_authority program_id expected_pool in
  ensure key_eqb a.(ia_vault_auth).(ai_key) expected_vault_auth or_err stake_err InvalidPda;
  ensure negb (key_eqb a.(ia_lp_mint).(ai_key) a.(ia_collateral_mint).(ai_key))
    or_err stake_err InvalidMint;
  _ ← verify_token_program a.(ia_token_program);
  ensure key_eqb (ai_owner w a.(ia_slab)) a.(ia_percolator_program).(ai_key)
    or_err stake_err InvalidPercolatorProgram;
  ensure a.(ia_slab).(ai_is_writable) or_err InvalidArgument;
  _ ← rent_from_account_info a.(ia_rent_sysvar) w;
  Ok (pool_bump, vault_auth_bump).

(** The collateral mint's decimals. *)
Definition collateral_decimals (w : World) : ProgramResult Z :=
  mint_data ← try_borrow_data [] a.(ia_collateral_mint) w;
  ensure negb (bool_decide (length mint_data < MINT_LEN)%nat) or_err stake_err InvalidAccount;
  mint ← mint_unpack mint_data;
  Ok mint.(mint_decimals).

(** The five CPIs: pool account, wrapper marketauth, LP mint, vault. *)
Definition init_create (pool_bump vault_auth_bump : Z) (w : World) : ProgramResult World :=
  let pool_seeds := [SEED_STAKE_POOL; a.(ia_slab).(ai_key); [pool_bump]] in
  w ← create_or_adopt_pda [] a.(ia_pool_pda) a.(ia_admin) a.(ia_system_program) program_id
        (Z.of_nat STAKE_POOL_SIZE) pool_seeds w;
  w ← cpi_update_authority [] a.(ia_percolator_program) a.(ia_admin) a.(ia_pool_pda)
        a.(ia_slab) pool_seeds w;
  decimals ← collateral_decimals w;
  let vault_auth_seeds := [SEED_VAULT_AUTH; a.(ia_pool_pda).(ai_key); [vault_auth_bump]] in
  ix ← SplToken.initialize_mint a.(ia_token_program).(ai_key) a.(ia_lp_mint).(ai_key)
         a.(ia_vault_auth).(ai_key) None decimals;
  w ← invoke_signed [] ix [a.(ia_lp_mint); a.(ia_rent_sysvar)] [vault_auth_seeds] w;
  ix ← SplToken.initialize_account a.(ia_token_program).(ai_key) a.(ia_vault).(ai_key)
         a.(ia_collateral_mint).(ai_key) a.(ia_vault_auth).(ai_key);
  invoke_signed [] ix
    [a.(ia_vault); a.(ia_collateral_mint); a.(ia_vault_auth); a.(ia_rent_sysvar)]
    [vault_auth_seeds] w.

(** The field assignments on the freshly created record. *)
Definition init_record (pool_bump vault_auth_bump cooldown_slots deposit_cap : Z)
    (pool : StakePool) : StakePool :=
  let pool := pool <| sp_is_initialized := 1 |> in
  let pool := pool <| sp_bump := pool_bump |> in
  let pool := pool <| sp_vault_authority_bump := vault_auth_bump |> in
  let pool := pool <| sp_admin_transferred := 0 |> in
  let pool := pool <| sp_slab := a.(ia_slab).(ai_key) |> in
  let pool := pool <| sp_admin := a.(ia_admin).(ai_key) |> in
  let pool := pool <| sp_collateral_mint := a.(ia_collateral_mint).(ai_key) |> in
  let pool := pool <| sp_lp_mint := a.(ia_lp_mint).(ai_key) |> in
  let pool := pool <| sp_vault := a.(ia_vault).(ai_key) |> in
  let pool := pool <| sp_total_deposited := 0 |> in
  let pool := pool <| sp_total_lp_supply := 0 |> in
  let pool := pool <| sp_cooldown_slots := cooldown_slots |> in
  let pool := pool <| sp_deposit_cap := deposit_cap |> in
  let pool := pool <| sp_total_flushed := 0 |> in
  let pool := pool <| sp_total_returned := 0 |> in
  let pool := pool <| sp_total_withdrawn := 0 |> in
  let pool := pool <| sp_percolator_program := a.(ia_percolator_program).(ai_key) |> in
  let pool := pool <| sp_total_fees_earned := 0 |> in
  let pool := pool <| sp_last_fee_accrual_slot := 0 |> in
  let pool := pool <| sp_last_vault_snapshot := 0 |> in
  let pool := pool <| sp_pool_mode := 0 |> in
  let pool := pool <| sp_pending_admin := ZERO_KEY |> in
  set_discriminator pool.
End Init.

(** 0: InitPool *)
Definition process_init_pool `{Runtime} `{BuildConfig} (program_id : Pubkey)
    (accounts : list AccountInfo) (cooldown_slots deposit_cap : Z) (w : World)
    : ProgramResult World :=
  a ← init_accounts accounts;
  '(pool_bump, vault_auth_bump) ← init_guards program_id a cooldown_slots w;
  w ← init_create program_id a pool_bump vault_auth_bump w;
  pool_data ← try_borrow_data [] a.(ia_pool_pda) w;
  pool ← pool_from_data pool_data;
  let pool := init_record a pool_bump vault_auth_bump cooldown_slots deposit_cap pool in
  Ok (store_pool a.(ia_pool_pda).(ai_key) pool w).

(** 13: InitTradingPool *)
Definition process_init_trading_pool `{Runtime} `{BuildConfig} (program_id : Pubkey)
    (accounts : list AccountInfo) (cooldown_slots deposit_cap : Z) (w : World)
    : ProgramResult World :=
  w ← process_init_pool program_id accounts cooldown_slots deposit_cap w;
  pool_ai ← ok_or (accounts !! INIT_POOL_POOL_PDA_INDEX) Panicked;
  _ ← validate_account_owner pool_ai program_id w;
  pool_data ← try_borrow_data [] pool_ai w;
  pool ← pool_from_data pool_data;
  ensure validate_discriminator pool or_err stake_err InvalidAccount;
  let pool := pool <| sp_pool_mode := 1 |> in
  Ok (store_pool pool_ai.(ai_key) pool w).
