(* ===== verification/Processor.v ===== *)
(** * The entrypoint (src/processor.rs [process], src/entrypoint.rs)

    Decode, dispatch, run one handler. *)

From S2P Require Import Prelude Errors State Instruction Runtime Guards Fees Deposit Withdraw.
From S2P Require Import Insurance Admin Proxy Init.

Section Process.
Context `{Runtime} `{BuildConfig} (program_id : Pubkey) (accounts : list AccountInfo).

(** The handler of a decoded instruction. *)
Definition dispatch (instruction : StakeInstruction) (w : World) : ProgramResult World :=
  match instruction with
  | InitPool cooldown_slots deposit_cap =>
      process_init_pool program_id accounts cooldown_slots deposit_cap w
  | Instruction.Deposit amount => process_deposit program_id accounts amount w
  | Instruction.Withdraw lp_amount => process_withdraw program_id accounts lp_amount w
  | FlushToInsurance amount => process_flush_to_insurance program_id accounts amount w
  | UpdateConfig new_cooldown_slots new_deposit_cap =>
      process_update_config program_id accounts new_cooldown_slots new_deposit_cap w
  | ProposeAdmin new_admin => process_propose_admin program_id accounts new_admin w
  | AcceptAdmin => process_accept_admin program_id accounts w
  | ProposeCooldownIncrease new_cooldown_slots =>
      process_propose_cooldown_increase program_id accounts new_cooldown_slots w
  | CommitCooldownIncrease => process_commit_cooldown_increase program_id accounts w
  | CancelCooldownIncrease => process_cancel_cooldown_increase program_id accounts w
  | BindInsuranceAuthority => process_bind_insurance_authority program_id accounts w
  | RotateInsuranceAuthority => process_rotate_insurance_authority program_id accounts w
  | BurnAssetAdmin => process_burn_asset_admin program_id accounts w
  | RotateInsuranceOperator => process_rotate_insurance_operator program_id accounts w
  | ReturnInsurance amount => process_return_insurance program_id accounts amount w
  | RecoverFlushedInsurance amount =>
      process_recover_flushed_insurance program_id accounts amount w
  | AccrueFees => process_accrue_fees program_id accounts w
  | InitTradingPool cooldown_slots deposit_cap =>
      process_init_trading_pool program_id accounts cooldown_slots deposit_cap w
  | AdminSetHwmConfig enabled hwm_floor_bps =>
      process_admin_set_hwm_config program_id accounts enabled hwm_floor_bps w
  | AdminSetTrancheConfig junior_fee_mult_bps =>
      process_admin_set_tranche_config program_id accounts junior_fee_mult_bps w
  | DepositJunior amount => process_deposit_junior program_id accounts amount w
  | SetMarketResolved => process_set_market_resolved program_id accounts w
  | AdminResolveMarket => process_admin_resolve_market program_id accounts w
  | AdminUpdateFeeSplit creator_share_bps lp_share_bps insurance_share_bps =>
      process_admin_update_fee_split program_id accounts creator_share_bps lp_share_bps
        insurance_share_bps w
  | AdminUpdateMaintenanceFeePerSlot maintenance_fee_per_slot =>
      process_admin_update_maintenance_fee_per_slot program_id accounts
        maintenance_fee_per_slot w
  | AdminUpdateBackingFeePolicy domain fee_bps insurance_share_bps =>
      process_admin_update_backing_fee_policy program_id accounts domain fee_bps
        insurance_share_bps w
  | AdminUpdateTradeFeePolicy trade_fee_base_bps =>
      process_admin_update_trade_fee_policy program_id accounts trade_fee_base_bps w
  end.

Definition process (instruction_data : list Z) (w : World) : ProgramResult World :=
  instruction ← unpack instruction_data;
  dispatch instruction w.
End Process.

(** ** Short account lists *)

(** How many accounts the handler of an instruction takes from the list. *)
Definition accounts_read (i : StakeInstruction) : nat :=
  match i with
  | InitPool _ _ | InitTradingPool _ _ | Instruction.Deposit _ | DepositJunior _ => 11
  | Instruction.Withdraw _ => 10
  | RecoverFlushedInsurance _ => 9
  | FlushToInsurance _ => 8
  | RotateInsuranceAuthority | RotateInsuranceOperator => 6
  | ReturnInsurance _ | BindInsuranceAuthority | BurnAssetAdmin
  | AdminUpdateBackingFeePolicy _ _ _ | AdminUpdateTradeFeePolicy _ => 5
  | AccrueFees | AdminResolveMarket | AdminUpdateFeeSplit _ _ _
  | AdminUpdateMaintenanceFeePerSlot _ => 4
  | ProposeCooldownIncrease _ | CommitCooldownIncrease => 3
  | UpdateConfig _ _ | ProposeAdmin _ | AcceptAdmin | CancelCooldownIncrease
  | AdminSetHwmConfig _ _ | AdminSetTrancheConfig _ | SetMarketResolved => 2
  end.

(** The instructions whose amount is checked before their accounts are read. *)
Definition moves_zero (i : StakeInstruction) : bool :=
  match i with
  | Instruction.Deposit a | DepositJunior a | Instruction.Withdraw a | FlushToInsurance a
  | ReturnInsurance a => a =? 0
  | _ => false
  end.

Lemma dispatch_short `{Runtime} `{BuildConfig} program_id accounts i w :
  (length accounts < accounts_read i)%nat ->
  dispatch program_id accounts i w = Err NotEnoughAccountKeys \/
  dispatch program_id accounts i w = Err (stake_err ZeroAmount) /\ moves_zero i = true \/
  dispatch program_id accounts i w = Err MissingRequiredSignature /\ i = AccrueFees.
Proof.
  assert (Hz : forall (b : bool) (k : ProgramResult World), k = Err NotEnoughAccountKeys ->
            (ensure negb b or_err stake_err ZeroAmount; k) = Err NotEnoughAccountKeys \/
            (ensure negb b or_err stake_err ZeroAmount; k) = Err (stake_err ZeroAmount) /\ b = true).
  { intros [] k ->; [right|left]; done. }
  intros Hl. destruct i; cbn [accounts_read] in Hl;
    repeat (destruct accounts as [|? accounts]; [|cbn [length] in Hl; try lia]);
    cbn [dispatch moves_zero];
    try (left; reflexivity);
    try (match goal with
         | |- _ = _ \/ _ /\ (?amount =? 0) = true \/ _ =>
             destruct (Hz (amount =? 0) (Err NotEnoughAccountKeys) eq_refl) as [E|[E Eb]];
             [left; exact E|right; left; exact (conj E Eb)]
         end);
    try (unfold process_accrue_fees, require_signer;
         destruct (ai_is_signer _); [left; reflexivity|by right; right]).
Qed.
