(* ===== verification/Ledger.v ===== *)
(** * The ledger: what the program promises

    The abstract specification of the handlers. A pool is three things: its
    record, the vault's balance and the LP mint's supply. [ledger_step] is the
    effect of an instruction on them, with the account plumbing (keys, borrows,
    CPIs, account data) gone; [authorized] says whose signature it needs.
    [BackingSteps], [BackingLp] and [Safety] prove that every handler refines
    it. *)

From S2P Require Import Prelude Errors Math State PoolFacts Instruction Runtime Guards Fees Deposit.
From S2P Require Import Withdraw Insurance Admin Proxy.

Record Ledger : Set := mkLedger {
  lg_pool : StakePool;
  lg_vault : Z;
  lg_supply : Z;
}.

(** Fee accrual against the vault balance, in the modes that have it. *)
Definition ledger_accrue (p : StakePool) (vault : Z) : ProgramResult StakePool :=
  if p.(sp_pool_mode) <=? 1 then accrue_fees_inner p vault else Ok p.

(** What a deposit of either tranche checks before it is priced. *)
Definition ledger_deposit_open (p : StakePool) (vault amount : Z) : ProgramResult StakePool :=
  ensure negb (amount =? 0) or_err stake_err ZeroAmount;
  ensure negb (market_resolved p) or_err stake_err MarketResolved;
  _ ← enforce_deposit_cap p amount;
  ledger_accrue p vault.

Definition ledger_deposit (clk : Clock) (amount : Z) (l : Ledger) : ProgramResult Ledger :=
  let '(mkLedger p vault supply) := l in
  p ← ledger_deposit_open p vault amount;
  _ ← senior_snipe_gate p;
  lp ← senior_lp_to_mint p amount;
  minted ← apply_minimum_liquidity_lock p.(sp_total_lp_supply) lp;
  p ← credit_totals amount p lp;
  p ← refresh_mark p clk;
  Ok (mkLedger p (vault + amount) (supply + minted)).

Definition ledger_deposit_junior (clk : Clock) (amount : Z) (l : Ledger) : ProgramResult Ledger :=
  let '(mkLedger p vault supply) := l in
  ensure tranche_enabled p or_err stake_err TrancheNotEnabled;
  p ← ledger_deposit_open p vault amount;
  _ ← junior_loss_gate p;
  lp ← junior_lp_to_mint p amount;
  minted ← apply_minimum_liquidity_lock p.(sp_total_lp_supply) lp;
  p ← credit_totals amount p lp;
  p ← credit_junior amount p lp;
  p ← refresh_mark p clk;
  Ok (mkLedger p (vault + amount) (supply + minted)).

(** The record's side of a payout [c]. *)
Definition ledger_debit (p : StakePool) (is_junior : bool) (lp c : Z) : ProgramResult StakePool :=
  p ← debit_totals p lp c;
  if tranche_enabled p && is_junior then debit_junior p lp c else Ok p.

Definition ledger_withdraw (clk : Clock) (is_junior : bool) (lp : Z) (l : Ledger)
    : ProgramResult Ledger :=
  let '(mkLedger p vault supply) := l in
  ensure negb (lp =? 0) or_err stake_err ZeroAmount;
  p ← ledger_accrue p vault;
  c ← withdrawal_value p is_junior lp;
  let wiped := is_fully_wiped_junior_exit p is_junior c in
  ensure negb ((c =? 0) && negb wiped) or_err stake_err ZeroAmount;
  p ← enforce_hwm_floor p clk c wiped;
  ensure (lp <=? supply) && (c <=? vault) or_err stake_err InsufficientVaultBalance;
  p ← ledger_debit p is_junior lp c;
  Ok (mkLedger p (vault - c) (supply - lp)).

Definition ledger_flush (amount : Z) (l : Ledger) : ProgramResult Ledger :=
  let '(mkLedger p vault supply) := l in
  ensure negb (amount =? 0) or_err stake_err ZeroAmount;
  ensure p.(sp_pool_mode) =? 0 or_err stake_err InvalidPoolMode;
  ensure negb (market_resolved p) or_err stake_err MarketResolved;
  available ← ok_or (total_pool_value p) (stake_err Overflow);
  ensure negb (available <? amount) or_err stake_err InsufficientVaultBalance;
  ensure amount <=? vault or_err stake_err InsufficientVaultBalance;
  p ← flush_totals p amount;
  Ok (mkLedger p (vault - amount) supply).

Definition ledger_return (amount : Z) (l : Ledger) : ProgramResult Ledger :=
  let '(mkLedger p vault supply) := l in
  ensure negb (amount =? 0) or_err stake_err ZeroAmount;
  ensure negb (saturating_sub p.(sp_total_flushed) p.(sp_total_returned) <? amount)
    or_err InvalidArgument;
  p ← return_totals p amount;
  Ok (mkLedger p (vault + amount) supply).

Definition ledger_recover (amount : Z) (l : Ledger) : ProgramResult Ledger :=
  let '(mkLedger p vault supply) := l in
  _ ← recover_guards p amount;
  p ← recover_totals p amount;
  Ok (mkLedger p (vault + amount) supply).

Definition ledger_accrue_fees (clk : Clock) (l : Ledger) : ProgramResult Ledger :=
  let '(mkLedger p vault supply) := l in
  ensure negb (1 <? p.(sp_pool_mode)) or_err stake_err InvalidPoolMode;
  p ← accrue_fees_inner p vault;
  let p := p <| sp_last_fee_accrual_slot := clk.(clock_slot) |> in
  let p := p <| sp_last_vault_snapshot := vault |> in
  Ok (mkLedger p vault supply).

(** A change of the record alone. *)
Definition on_pool (l : Ledger) (q : ProgramResult StakePool) : ProgramResult Ledger :=
  p ← q; Ok (mkLedger p l.(lg_vault) l.(lg_supply)).

Definition set_hwm_config (enabled : bool) (bps : Z) (p : StakePool) : ProgramResult StakePool :=
  _ ← (if enabled then validate_hwm_floor_bps bps else Ok tt);
  Ok (apply_hwm_config enabled bps p).

Definition burn_admin (p : StakePool) : ProgramResult StakePool :=
  ensure negb (asset_admin_burned p) or_err stake_err Unauthorized;
  Ok (set_asset_admin_burned true p).

(** [is_junior] is the tranche of the caller's deposit record, read by
    Withdraw; [clk] the clock the handler read. *)
Definition ledger_step (clk : Clock) (is_junior : bool) (i : StakeInstruction) (l : Ledger)
    : ProgramResult Ledger :=
  let p := l.(lg_pool) in
  match i with
  | InitPool _ _ | InitTradingPool _ _ => Err (stake_err AlreadyInitialized)
  | Instruction.Deposit amount => ledger_deposit clk amount l
  | DepositJunior amount => ledger_deposit_junior clk amount l
  | Instruction.Withdraw lp => ledger_withdraw clk is_junior lp l
  | FlushToInsurance amount => ledger_flush amount l
  | ReturnInsurance amount => ledger_return amount l
  | RecoverFlushedInsurance amount => ledger_recover amount l
  | AccrueFees => ledger_accrue_fees clk l
  | UpdateConfig c d => on_pool l (update_config c d p)
  | ProposeAdmin k => on_pool l (Ok (p <| sp_pending_admin := k |>))
  | AcceptAdmin => on_pool l (accept_admin p.(sp_pending_admin) p)
  | ProposeCooldownIncrease c => on_pool l (propose_cooldown_increase c clk p)
  | CommitCooldownIncrease => on_pool l (commit_cooldown_increase clk p)
  | CancelCooldownIncrease => on_pool l (cancel_cooldown_increase p)
  | AdminSetHwmConfig e b => on_pool l (set_hwm_config e b p)
  | AdminSetTrancheConfig m => on_pool l (set_tranche_config m p)
  | SetMarketResolved => on_pool l (resolve_pool p)
  | BurnAssetAdmin => on_pool l (burn_admin p)
  | RotateInsuranceAuthority | RotateInsuranceOperator =>
      ensure negb (asset_admin_burned p) or_err stake_err Unauthorized; Ok l
  | AdminResolveMarket =>
      ensure wrapper_fully_recovered p or_err stake_err InsuranceLossOutstanding; Ok l
  | BindInsuranceAuthority | AdminUpdateFeeSplit _ _ _ | AdminUpdateMaintenanceFeePerSlot _
  | AdminUpdateBackingFeePolicy _ _ _ | AdminUpdateTradeFeePolicy _ => Ok l
  end.

(** The admin's signature, where an instruction needs it. A user's is not the
    ledger's matter: it is stated with the deposit record it is checked against. *)
Definition authorized (signed : Pubkey -> Prop) (i : StakeInstruction) (p : StakePool) : Prop :=
  match i with
  | Instruction.Deposit _ | DepositJunior _ | Instruction.Withdraw _ | AccrueFees
  | RecoverFlushedInsurance _ => True
  | AcceptAdmin => signed p.(sp_pending_admin)
  | _ => signed p.(sp_admin)
  end.
