(* ===== verification/LedgerFacts.v ===== *)
(** * The ledger keeps its records well formed and backed *)

From S2P Require Import Prelude Errors Math State PoolFacts Instruction Runtime Guards Fees Deposit.
From S2P Require Import Withdraw Insurance Admin Proxy Ledger.

(** What every step keeps: types, identity, and a vault that covers the value. *)
Record ledger_ok (l : Ledger) : Prop := {
  lo_wf : wf_pool l.(lg_pool);
  lo_vault : u64 l.(lg_vault);
  lo_value : raw_value l.(lg_pool) <= l.(lg_vault);
}.

(** The totals are [u64]s. *)
Lemma wf_totals p :
  wf_pool p ->
  u64 (sp_total_deposited p) /\ u64 (sp_total_lp_supply p) /\ u64 (sp_total_flushed p) /\
  u64 (sp_total_returned p) /\ u64 (sp_total_withdrawn p) /\ u64 (sp_total_fees_earned p) /\
  u64 (sp_total_recovered_from_wrapper p) /\ u64 (sp_cooldown_slots p).
Proof. intros. by wf_destruct. Qed.

(** ** Steps on the record *)

Lemma debit_totals_inv p lp c q :
  wf_pool p -> u64 lp -> u64 c -> debit_totals p lp c = Ok q ->
  wf_pool q /\ pool_ident q = pool_ident p /\ raw_value q = raw_value p - c /\
  junior_balance q = junior_balance p /\ junior_total_lp q = junior_total_lp p /\
  lp <= sp_total_lp_supply p /\ sp_total_lp_supply q = sp_total_lp_supply p - lp /\
  tranche_enabled q = tranche_enabled p /\ realized_junior_loss q = realized_junior_loss p /\
  net_loss q = net_loss p.
Proof.
  intros Hp Hlp Hc (H1 & H2 & ->)%debit_totals_Ok.
  assert (u64 (sp_total_withdrawn p + c)) by (wf_destruct; width_lia).
  assert (u64 (sp_total_lp_supply p - lp)) by (wf_destruct; width_lia).
  unfold raw_value, net_loss. pool_simpl.
  split_and!; first [done | lia | solve [auto with stake] | solve_ident].
Qed.

Lemma credit_totals_inv amount p lp q :
  wf_pool p -> u64 amount -> u64 lp -> credit_totals amount p lp = Ok q ->
  wf_pool q /\ pool_ident q = pool_ident p /\ raw_value q = raw_value p + amount /\
  junior_balance q = junior_balance p /\ junior_total_lp q = junior_total_lp p /\
  sp_total_lp_supply q = sp_total_lp_supply p + lp /\
  tranche_enabled q = tranche_enabled p /\ realized_junior_loss q = realized_junior_loss p /\
  net_loss q = net_loss p.
Proof.
  intros Hp Ha Hlp (H1 & H2 & ->)%credit_totals_Ok.
  assert (u64 (sp_total_deposited p + amount)) by (wf_destruct; width_lia).
  assert (u64 (sp_total_lp_supply p + lp)) by (wf_destruct; width_lia).
  unfold raw_value, net_loss. pool_simpl.
  split_and!; first [done | lia | solve [auto with stake] | solve_ident].
Qed.

Lemma credit_junior_inv amount p lp q :
  wf_pool p -> u64 amount -> u64 lp -> credit_junior amount p lp = Ok q ->
  wf_pool q /\ pool_ident q = pool_ident p /\ raw_value q = raw_value p /\
  junior_balance q = junior_balance p + amount /\ junior_total_lp q = junior_total_lp p + lp /\
  sp_total_lp_supply q = sp_total_lp_supply p /\
  tranche_enabled q = tranche_enabled p /\ realized_junior_loss q = realized_junior_loss p /\
  net_loss q = net_loss p.
Proof.
  intros Hp Ha Hlp (H1 & H2 & ->)%credit_junior_Ok; [|done|width_lia].
  pose proof (u64_junior_total_lp p Hp). pose proof (u64_junior_balance p Hp).
  assert (u64 (junior_total_lp p + lp)) by width_lia.
  assert (u64 (junior_balance p + amount)) by width_lia.
  unfold raw_value, net_loss. pool_simpl.
  split_and!; first [done | lia | solve [auto with stake] | solve_ident].
Qed.

Lemma senior_lp_to_mint_u64 p amount lp :
  wf_pool p -> u64 amount -> senior_lp_to_mint p amount = Ok lp -> u64 lp /\ lp <> 0.
Proof.
  intros Hp Ha H. unfold senior_lp_to_mint in H. apply bind_Ok in H as (x & Hx & H).
  apply ensure_Ok in H as [Hn [= <-]]. bool_prop. split; [|done].
  assert (Hs : u64 (sp_total_lp_supply p)) by (wf_destruct; done).
  pose proof (u64_junior_total_lp p Hp). destruct (tranche_enabled p).
  - apply bind_Ok in Hx as (sb & Hsb%ok_or_Ok & Hx%ok_or_Ok).
    pose proof (senior_balance_u64 _ _ Hp Hsb).
    apply deposit_rounds_down in Hx as [? _]; [done| |done|done].
    unfold senior_total_lp. width_lia.
  - apply ok_or_Ok in Hx. unfold pool_calc_lp_for_deposit in Hx.
    destruct (total_pool_value p) as [pv|] eqn:Hpv; [|discriminate Hx]. cbn in Hx.
    apply raw_value_u64_bounds in Hpv as [? _].
    by apply deposit_rounds_down in Hx as [? _].
Qed.

Lemma junior_lp_to_mint_u64 p amount lp :
  wf_pool p -> u64 amount -> junior_lp_to_mint p amount = Ok lp -> u64 lp /\ lp <> 0.
Proof.
  intros Hp Ha H. unfold junior_lp_to_mint in H. cbn zeta in H.
  apply bind_Ok in H as (x & Hx%ok_or_Ok & H). apply ensure_Ok in H as [Hn [= <-]].
  bool_prop. split; [|done].
  apply deposit_rounds_down in Hx as [? _]; auto using effective_junior_balance_u64 with stake.
Qed.

Lemma minimum_liquidity_u64 before lp m :
  u64 lp -> apply_minimum_liquidity_lock before lp = Ok m -> u64 m.
Proof.
  intros Hlp [[_ ->]|(_ & -> & Hlt)]%apply_minimum_liquidity_lock_Ok; [done|].
  unfold MINIMUM_LIQUIDITY in *. width_lia.
Qed.

(** The accounting half of a withdrawal: the value falls by the payout. *)
Lemma ledger_debit_inv p j lp c q :
  wf_pool p -> u64 lp -> u64 c -> ledger_debit p j lp c = Ok q ->
  wf_pool q /\ pool_ident q = pool_ident p /\ raw_value q = raw_value p - c /\
  lp <= sp_total_lp_supply p /\ sp_total_lp_supply q = sp_total_lp_supply p - lp.
Proof.
  intros Hp Hlp Hc H. unfold ledger_debit in H. apply bind_Ok in H as (p3 & H3 & H4).
  apply debit_totals_inv in H3 as (W3 & I3 & V3 & _ & _ & Hle & S3 & _); [|done..].
  destruct (tranche_enabled p3 && j).
  - apply debit_junior_inv in H4 as (W4 & I4 & V4 & S4 & _); [|done|width_lia|width_lia].
    split_and!; try congruence; lia.
  - injection H4 as <-. done.
Qed.

Lemma ledger_accrue_inv p vault q :
  wf_pool p -> u64 vault -> ledger_accrue p vault = Ok q ->
  (1 < sp_pool_mode p /\ q = p) \/ accrue_fees_inner p vault = Ok q.
Proof.
  unfold ledger_accrue. intros _ _. destruct (Z.leb_spec (sp_pool_mode p) 1); [by right|].
  intros [= <-]. by left.
Qed.

Lemma ledger_accrue_ok p vault q :
  wf_pool p -> u64 vault -> raw_value p <= vault -> ledger_accrue p vault = Ok q ->
  wf_pool q /\ pool_ident q = pool_ident p /\ raw_value p <= raw_value q <= vault /\
  sp_total_lp_supply q = sp_total_lp_supply p /\ junior_total_lp q = junior_total_lp p /\
  realized_junior_loss q = realized_junior_loss p /\ tranche_enabled q = tranche_enabled p /\
  net_loss q = net_loss p.
Proof.
  intros Hp Hb Hv [[_ ->]|H]%ledger_accrue_inv; [split_and!; done|..|done|done].
  apply accrue_frame in H as (W & I & L & S & J & R & T & V); [|done..].
  split_and!; try done; rewrite V; destruct (0 <? _); lia.
Qed.

Lemma hwm_only_supply p q : hwm_only p q -> sp_total_lp_supply q = sp_total_lp_supply p.
Proof. intros (_ & _ & _ & _ & _ & _ & _ & _ & _ & _ & r & ->). done. Qed.

(** ** The invariant of the steps *)

Definition wf_clock (clk : Clock) : Prop := u64 clk.(clock_slot) /\ u64 clk.(clock_epoch).

Section Steps.
Context (p : StakePool) (vault supply : Z) (Hp : wf_pool p) (Hb : u64 vault)
        (Hv : raw_value p <= vault) (clk : Clock) (Hclk : wf_clock clk).
#[local] Abbreviation l := (mkLedger p vault supply).

(** The record of a step's result. *)
Definition step_ok (l' : Ledger) : Prop :=
  wf_pool l'.(lg_pool) /\ pool_ident l'.(lg_pool) = pool_ident p /\
  raw_value l'.(lg_pool) <= l'.(lg_vault).

Lemma neutral_step_ok q : neutral p q -> step_ok (mkLedger q vault supply).
Proof. intros (Hw & Hi & Hr & _). split_and!; cbn; [done|done|lia]. Qed.

Lemma refresh_mark_step q0 q vault' supply' :
  wf_pool q0 -> pool_ident q0 = pool_ident p -> raw_value q0 <= vault' ->
  refresh_mark q0 clk = Ok q -> step_ok (mkLedger q vault' supply').
Proof.
  intros W I V (W' & I' & V' & _)%refresh_mark_inv; [|done|apply Hclk].
  split_and!; cbn; [done|congruence|lia].
Qed.

Lemma ledger_deposit_ok amount l' :
  u64 amount -> ledger_deposit clk amount l = Ok l' -> step_ok l'.
Proof.
  intros Ha H. unfold ledger_deposit, ledger_deposit_open in H.
  apply bind_Ok in H as (p1 & H1 & H). do 2 apply ensure_Ok in H1 as [_ H1].
  apply bind_Ok in H1 as ([] & _ & H1). apply ledger_accrue_ok in H1 as (W1 & I1 & V1 & _); [|done..].
  apply bind_Ok in H as ([] & _ & H).
  apply bind_Ok in H as (lp & [Hlp _]%senior_lp_to_mint_u64 & H); [|done|done].
  apply bind_Ok in H as (m & _ & H).
  apply bind_Ok in H as (p3 & (W3 & I3 & V3 & _)%credit_totals_inv & H); [|done..].
  apply bind_Ok in H as (p4 & H4 & [= <-]).
  apply (refresh_mark_step p3); [done|congruence|lia|done].
Qed.

Lemma ledger_deposit_junior_ok amount l' :
  u64 amount -> ledger_deposit_junior clk amount l = Ok l' -> step_ok l'.
Proof.
  intros Ha H. unfold ledger_deposit_junior, ledger_deposit_open in H.
  apply ensure_Ok in H as [_ H].
  apply bind_Ok in H as (p1 & H1 & H). do 2 apply ensure_Ok in H1 as [_ H1].
  apply bind_Ok in H1 as ([] & _ & H1). apply ledger_accrue_ok in H1 as (W1 & I1 & V1 & _); [|done..].
  apply bind_Ok in H as ([] & _ & H).
  apply bind_Ok in H as (lp & [Hlp _]%junior_lp_to_mint_u64 & H); [|done|done].
  apply bind_Ok in H as (m & _ & H).
  apply bind_Ok in H as (p2 & (W2 & I2 & V2 & _)%credit_totals_inv & H); [|done..].
  apply bind_Ok in H as (p3 & (W3 & I3 & V3 & _)%credit_junior_inv & H); [|done..].
  apply bind_Ok in H as (p4 & H4 & [= <-]).
  apply (refresh_mark_step p3); [done|congruence|lia|done].
Qed.

Lemma ledger_withdraw_ok j lp l' :
  u64 lp -> ledger_withdraw clk j lp l = Ok l' -> step_ok l'.
Proof.
  intros Hlp H. unfold ledger_withdraw in H. apply ensure_Ok in H as [_ H].
  apply bind_Ok in H as (p1 & (W1 & I1 & V1 & _)%ledger_accrue_ok & H); [|done..].
  apply bind_Ok in H as (c & Hc%withdrawal_value_nonneg & H); [|done..].
  apply ensure_Ok in H as [_ H].
  apply bind_Ok in H as (p2 & [(W2 & I2 & V2 & _) _]%enforce_hwm_floor_inv & H);
    [|done|apply Hclk].
  apply ensure_Ok in H as [Hle H]. apply bind_Ok in H as (p3 & H3 & [= <-]).
  apply ledger_debit_inv in H3 as (W3 & I3 & V3 & _); [|done..].
  split_and!; cbn; [done|congruence|lia].
Qed.

Lemma ledger_flush_ok amount l' : u64 amount -> ledger_flush amount l = Ok l' -> step_ok l'.
Proof.
  intros Ha H. unfold ledger_flush in H. do 3 apply ensure_Ok in H as [_ H].
  apply bind_Ok in H as (av & _ & H). do 2 apply ensure_Ok in H as [_ H].
  apply bind_Ok in H as (q & (W & I & V & _)%flush_totals_inv & [= <-]); [|done|done].
  split_and!; cbn; [done|done|lia].
Qed.

Lemma ledger_return_ok amount l' : u64 amount -> ledger_return amount l = Ok l' -> step_ok l'.
Proof.
  intros Ha H. unfold ledger_return in H. do 2 apply ensure_Ok in H as [_ H].
  apply bind_Ok in H as (q & (W & I & V & _)%return_totals_inv & [= <-]); [|done|done].
  split_and!; cbn; [done|done|lia].
Qed.

Lemma ledger_recover_ok amount l' : u64 amount -> ledger_recover amount l = Ok l' -> step_ok l'.
Proof.
  intros Ha H. unfold ledger_recover in H. apply bind_Ok in H as ([] & _ & H).
  apply bind_Ok in H as (q & (W & I & V & _)%recover_totals_inv & [= <-]); [|done|done].
  split_and!; cbn; [done|done|lia].
Qed.

Lemma ledger_accrue_fees_ok l' : ledger_accrue_fees clk l = Ok l' -> step_ok l'.
Proof.
  destruct Hclk as [Hs _].
  intros H. unfold ledger_accrue_fees in H. apply ensure_Ok in H as [_ H].
  apply bind_Ok in H as (q & Hq & [= <-]).
  apply accrue_frame in Hq as (W & I & _ & _ & _ & _ & _ & V); [|done..].
  set (q1 := q <| sp_last_fee_accrual_slot := clock_slot clk |>).
  assert (N1 : neutral q q1) by (subst q1; solve_neutral). destruct N1 as (Hw1 & Hi1 & Hr1 & _).
  assert (N2 : neutral q1 (q1 <| sp_last_vault_snapshot := vault |>)) by solve_neutral.
  destruct N2 as (Hw2 & Hi2 & Hr2 & _). split_and!; cbn [lg_pool lg_vault]; [done|congruence|].
  rewrite Hr2, Hr1, V. destruct (0 <? _); lia.
Qed.

Lemma on_pool_Ok r l' : on_pool l r = Ok l' -> exists q, r = Ok q /\ l' = mkLedger q vault supply.
Proof. unfold on_pool. intros (q & Hq & [= <-])%bind_Ok. eauto. Qed.

Lemma set_hwm_config_neutral e b q :
  u16 b -> set_hwm_config e b p = Ok q -> neutral p q.
Proof. intros Hb16 ([] & _ & [= <-])%bind_Ok. by apply apply_hwm_config_neutral. Qed.

Lemma burn_admin_neutral q : burn_admin p = Ok q -> neutral p q.
Proof. intros [_ [= <-]]%ensure_Ok. by apply set_asset_admin_burned_neutral. Qed.

Lemma ledger_step_ok j i l' :
  wf_instruction i -> ledger_step clk j i l = Ok l' -> step_ok l'.
Proof.
  assert (Hid : step_ok l) by (split_and!; done).
  intros Hi H. destruct i; cbn [ledger_step wf_instruction lg_pool] in Hi, H; destruct_and?;
    try discriminate H; try (injection H as <-; exact Hid);
    try (apply ensure_Ok in H as [_ [= <-]]; exact Hid);
    try (apply on_pool_Ok in H as (q & Hq & ->); apply neutral_step_ok);
    eauto using ledger_deposit_ok, ledger_deposit_junior_ok, ledger_withdraw_ok, ledger_flush_ok,
      ledger_return_ok, ledger_recover_ok, ledger_accrue_fees_ok, update_config_neutral,
      accept_admin_neutral, commit_cooldown_neutral, cancel_cooldown_neutral,
      set_hwm_config_neutral, set_tranche_config_neutral, resolve_pool_neutral,
      burn_admin_neutral.
  - injection Hq as <-. by apply propose_admin_neutral.
  - destruct Hclk. eauto using propose_cooldown_neutral.
Qed.
End Steps.
