(* ===== verification/LedgerInv.v ===== *)
(** * Invariants of the ledger

    What each step leaves alone (configuration or books), the lock on the LP
    supply, the share price, and the tranche invariant. *)

From S2P Require Import Prelude Errors Math State PoolFacts Instruction Runtime Guards Fees Deposit.
From S2P Require Import Withdraw Insurance Admin Proxy Ledger LedgerFacts.

(** The instructions that move value. *)
Definition is_money (i : StakeInstruction) : bool :=
  match i with
  | Instruction.Deposit _ | DepositJunior _ | Instruction.Withdraw _ | FlushToInsurance _
  | ReturnInsurance _ | RecoverFlushedInsurance _ | AccrueFees => true
  | _ => false
  end.

(** ** Money steps keep the configuration *)

Lemma accrued_config p fee q : wf_pool p -> accrued p fee q -> config q = config p.
Proof.
  intros Hp [Hf H].
  assert (Hq : wf_pool (p <| sp_total_fees_earned := sp_total_fees_earned p + fee |>))
    by auto with stake.
  destruct (distributing p); [|subst q; solve_config].
  destruct H as (s & jf & _ & _ & _ & Hj & _ & ->). solve_config.
Qed.

Lemma accrue_config p bal q :
  wf_pool p -> u64 bal -> accrue_fees_inner p bal = Ok q -> config q = config p.
Proof.
  intros Hp Hb H. destruct (accrue_fees_inner_inv p bal q Hp Hb H) as (pv & _ & [[_ ->]|(_ & _ & Ha)]);
    [done|]. by eapply accrued_config.
Qed.

Lemma ledger_accrue_config p vault q :
  wf_pool p -> u64 vault -> ledger_accrue p vault = Ok q -> config q = config p.
Proof. intros Hp Hb [[_ ->]|H]%ledger_accrue_inv; [done| |done|done]. by eapply accrue_config. Qed.

Lemma credit_totals_config amount p lp q : credit_totals amount p lp = Ok q -> config q = config p.
Proof. intros (_ & _ & ->)%credit_totals_Ok. solve_config. Qed.

Lemma credit_junior_config amount p lp q :
  wf_pool p -> u64 amount -> u64 lp -> credit_junior amount p lp = Ok q -> config q = config p.
Proof.
  intros Hp Ha Hlp (H1 & H2 & ->)%credit_junior_Ok; [|done|width_lia].
  pose proof (u64_junior_total_lp p Hp). pose proof (u64_junior_balance p Hp).
  assert (u64 (junior_total_lp p + lp)) by width_lia.
  assert (u64 (junior_balance p + amount)) by width_lia. solve_config.
Qed.

Lemma refresh_mark_config p c q :
  wf_pool p -> wf_clock c -> refresh_mark p c = Ok q -> config q = config p.
Proof.
  intros Hp [_ Hc]. unfold refresh_mark. destruct (hwm_enabled p); [|by intros [= <-]].
  intros (tvl & Ht%ok_or_Ok & [= <-])%bind_Ok. apply total_pool_value_Some in Ht as [_ Ht].
  exact (refresh_hwm_config (clock_epoch c) tvl p _ _ Hp Hc Ht (surjective_pairing _)).
Qed.

Lemma enforce_hwm_config p clk c wiped q :
  wf_pool p -> wf_clock clk -> enforce_hwm_floor p clk c wiped = Ok q -> config q = config p.
Proof.
  intros Hp [_ Hc]. unfold enforce_hwm_floor.
  destruct (hwm_enabled p && negb wiped); [|by intros [= <-]].
  intros (tvl & Ht%ok_or_Ok & H)%bind_Ok. apply total_pool_value_Some in Ht as [_ Ht].
  destruct (refresh_hwm (clock_epoch clk) tvl p) as [q' m] eqn:E.
  apply bind_Ok in H as (post & _ & H). apply ensure_Ok in H as [_ [= <-]].
  exact (refresh_hwm_config _ _ _ _ _ Hp Hc Ht E).
Qed.

Lemma debit_totals_config p lp c q : debit_totals p lp c = Ok q -> config q = config p.
Proof. intros (_ & _ & ->)%debit_totals_Ok. solve_config. Qed.

Lemma realize_junior_loss_config p q :
  wf_pool p -> realize_junior_loss p = Ok q -> config q = config p.
Proof.
  intros Hp H. pose proof (realize_junior_loss_inv _ _ Hp H) as (_ & _ & _ & _ & _ & Hl & _).
  revert H. unfold realize_junior_loss.
  destruct (0 <? _); [|by intros [= <-]]. destruct (0 <? _); [|by intros [= <-]].
  intros (r & [-> Hr]%ok_or_Ok%checked_add_Some & H)%bind_Ok.
  apply bind_Ok in H as (n & [-> Hn]%ok_or_Ok%checked_add_Some & [= <-]).
  change (realized_junior_loss (p <| sp_total_returned := _ |>)) with (realized_junior_loss p) in *.
  set (f := Z.min _ _) in *.
  assert (0 <= f).
  { unfold f. pose proof (effective_junior_balance_u64 p Hp). pose proof (u64_junior_balance p Hp).
    wf_destruct. width_lia. }
  pose proof (u64_realized_junior_loss p Hp).
  assert (u64 (sp_total_returned p + f)) by (wf_destruct; width_lia).
  assert (u64 (realized_junior_loss p + f)) by width_lia.
  assert (wf_pool (p <| sp_total_returned := sp_total_returned p + f |>)) by auto with stake.
  solve_config.
Qed.

Lemma debit_junior_config p lp c q :
  wf_pool p -> u64 lp -> u64 c -> debit_junior p lp c = Ok q -> config q = config p.
Proof.
  intros Hp Hlp Hc H. unfold debit_junior in H.
  apply bind_Ok in H as (n & [-> Hle]%ok_or_Ok%checked_sub_Some & H).
  pose proof (u64_junior_total_lp p Hp). pose proof (u64_junior_balance p Hp).
  assert (Hn : u64 (junior_total_lp p - lp)) by width_lia.
  set (p1 := set_junior_total_lp (junior_total_lp p - lp) p) in *.
  assert (Hp1 : wf_pool p1) by (subst p1; auto with stake).
  assert (C1 : config p1 = config p) by (subst p1; solve_config).
  assert (B1 : junior_balance p1 = junior_balance p) by (subst p1; pool_simpl; done).
  clearbody p1. destruct (_ =? 0).
  - apply bind_Ok in H as (p2 & H2 & [= <-]).
    pose proof (realize_junior_loss_inv _ _ Hp1 H2) as (W2 & _).
    rewrite <- C1, <- (realize_junior_loss_config _ _ Hp1 H2).
    assert (u64 0) by width_lia. solve_config.
  - apply bind_Ok in H as (b & [-> Hb]%ok_or_Ok%checked_sub_Some & [= <-]). rewrite B1 in *.
    assert (u64 (junior_balance p - c)) by width_lia. rewrite <- C1. solve_config.
Qed.

Lemma ledger_debit_config p j lp c q :
  wf_pool p -> u64 lp -> u64 c -> ledger_debit p j lp c = Ok q -> config q = config p.
Proof.
  intros Hp Hlp Hc (p3 & H3 & H4)%bind_Ok.
  pose proof (debit_totals_inv _ _ _ _ Hp Hlp Hc H3) as (W3 & _).
  rewrite <- (debit_totals_config _ _ _ _ H3).
  destruct (_ && _); [|by injection H4 as <-]. exact (debit_junior_config _ _ _ _ W3 Hlp Hc H4).
Qed.

Lemma flush_totals_config p amount q :
  wf_pool p -> u64 amount -> flush_totals p amount = Ok q -> config q = config p.
Proof.
  intros Hp Ha (f & [-> Hle]%ok_or_Ok%checked_add_Some & [= <-])%bind_Ok.
  change (epoch_high_water_tvl (p <| sp_total_flushed := _ |>)) with (epoch_high_water_tvl p).
  pose proof (u64_epoch_high_water_tvl p Hp).
  assert (u64 (saturating_sub (epoch_high_water_tvl p) amount)) by width_lia.
  assert (u64 (sp_total_flushed p + amount)) by (wf_destruct; width_lia).
  assert (wf_pool (p <| sp_total_flushed := sp_total_flushed p + amount |>)) by auto with stake.
  solve_config.
Qed.

Section Frames.
Context (p : StakePool) (vault supply : Z) (Hp : wf_pool p) (Hb : u64 vault)
        (Hv : raw_value p <= vault) (clk : Clock) (Hclk : wf_clock clk).
#[local] Abbreviation l := (mkLedger p vault supply).

Lemma open_config amount q :
  ledger_deposit_open p vault amount = Ok q -> wf_pool q /\ config q = config p.
Proof.
  unfold ledger_deposit_open. intros [_ [_ H]%ensure_Ok]%ensure_Ok.
  apply bind_Ok in H as ([] & _ & H). split; [by apply ledger_accrue_ok in H as [? _]|].
  by eapply ledger_accrue_config.
Qed.

Lemma deposit_config amount l' :
  u64 amount -> ledger_deposit clk amount l = Ok l' -> config (lg_pool l') = config p.
Proof.
  intros Ha (p1 & [W1 C1]%open_config & H)%bind_Ok. apply bind_Ok in H as ([] & _ & H).
  apply bind_Ok in H as (lp & [Hlp _]%senior_lp_to_mint_u64 & H); [|done|done].
  apply bind_Ok in H as (m & _ & H). apply bind_Ok in H as (p3 & H3 & H).
  destruct (credit_totals_inv _ _ _ _ W1 Ha Hlp H3) as [W3 _]. apply credit_totals_config in H3.
  apply bind_Ok in H as (p4 & H4%refresh_mark_config & [= <-]); [|done|done].
  cbn [lg_pool]. congruence.
Qed.

Lemma deposit_junior_config amount l' :
  u64 amount -> ledger_deposit_junior clk amount l = Ok l' -> config (lg_pool l') = config p.
Proof.
  intros Ha [_ (p1 & [W1 C1]%open_config & H)%bind_Ok]%ensure_Ok.
  apply bind_Ok in H as ([] & _ & H).
  apply bind_Ok in H as (lp & [Hlp _]%junior_lp_to_mint_u64 & H); [|done|done].
  apply bind_Ok in H as (m & _ & H). apply bind_Ok in H as (p2 & H2 & H).
  destruct (credit_totals_inv _ _ _ _ W1 Ha Hlp H2) as [W2 _]. apply credit_totals_config in H2.
  apply bind_Ok in H as (p3 & H3 & H).
  destruct (credit_junior_inv _ _ _ _ W2 Ha Hlp H3) as [W3 _]. apply credit_junior_config in H3; [|done..].
  apply bind_Ok in H as (p4 & H4%refresh_mark_config & [= <-]); [|done|done].
  cbn [lg_pool]. congruence.
Qed.

Lemma withdraw_config j lp l' :
  u64 lp -> ledger_withdraw clk j lp l = Ok l' -> config (lg_pool l') = config p.
Proof.
  intros Hlp [_ (p1 & H1 & H)%bind_Ok]%ensure_Ok.
  destruct (ledger_accrue_ok _ _ _ Hp Hb Hv H1) as (W1 & _). apply ledger_accrue_config in H1; [|done..].
  apply bind_Ok in H as (c & Hc%withdrawal_value_nonneg & H); [|done..].
  apply ensure_Ok in H as [_ H]. apply bind_Ok in H as (p2 & H2 & H).
  destruct (enforce_hwm_floor_inv _ _ _ _ _ W1 (proj2 Hclk) H2) as [(W2 & _) _].
  apply enforce_hwm_config in H2; [|done|done].
  apply ensure_Ok in H as [_ H]. apply bind_Ok in H as (p3 & H3%ledger_debit_config & [= <-]); [|done..].
  cbn [lg_pool]. congruence.
Qed.

(** A money step keeps the configuration. *)
Lemma ledger_step_config j i l' :
  wf_instruction i -> is_money i = true -> ledger_step clk j i l = Ok l' ->
  config (lg_pool l') = config p.
Proof.
  intros Hi Hm H. destruct i; try discriminate Hm; cbn [ledger_step wf_instruction] in Hi, H;
    eauto using deposit_config, deposit_junior_config, withdraw_config.
  - unfold ledger_flush in H. do 3 apply ensure_Ok in H as [_ H].
    apply bind_Ok in H as (av & _ & H). do 2 apply ensure_Ok in H as [_ H].
    apply bind_Ok in H as (q & Hq & [= <-]). by eapply flush_totals_config.
  - unfold ledger_recover in H. apply bind_Ok in H as ([] & _ & H).
    apply bind_Ok in H as (q & (_ & _ & _ & ->)%recover_totals_inv & [= <-]); [|done|done].
    cbn [lg_pool]. solve_config.
  - unfold ledger_return in H. do 2 apply ensure_Ok in H as [_ H].
    apply bind_Ok in H as (q & (_ & _ & _ & ->)%return_totals_inv & [= <-]); [|done|done].
    cbn [lg_pool]. solve_config.
  - unfold ledger_accrue_fees in H. apply ensure_Ok in H as [_ H].
    apply bind_Ok in H as (q & Hq%accrue_config & [= <-]); [|done|done].
    cbn [lg_pool]. rewrite <- Hq. solve_config.
Qed.

(** Every other step keeps the books, the vault and the supply. *)
Lemma ledger_step_books j i l' :
  wf_instruction i -> is_money i = false -> ledger_step clk j i l = Ok l' ->
  books (lg_pool l') = books p /\ lg_vault l' = vault /\ lg_supply l' = supply.
Proof.
  intros Hi Hm H. destruct i; try discriminate Hm;
    cbn [ledger_step wf_instruction lg_pool] in Hi, H; destruct_and?;
    try discriminate H; try (injection H as <-; done); try (apply ensure_Ok in H as [_ [= <-]]; done);
    apply on_pool_Ok in H as (q & Hq & ->); cbn [lg_pool lg_vault lg_supply];
    (split; [|done]); (enough (neutral p q) as (_ & _ & _ & ?); [done|]);
    eauto using update_config_neutral, accept_admin_neutral, commit_cooldown_neutral,
      cancel_cooldown_neutral, set_hwm_config_neutral, set_tranche_config_neutral,
      resolve_pool_neutral, burn_admin_neutral.
  destruct Hclk. eauto using propose_cooldown_neutral.
Qed.
End Frames.

(** ** Flags that are only ever raised *)

Definition sticky (p q : StakePool) : Prop :=
  (tranche_enabled p = true -> tranche_enabled q = true) /\
  (market_resolved p = true -> market_resolved q = true) /\
  (asset_admin_burned p = true -> asset_admin_burned q = true).

Lemma sticky_eq p q :
  tranche_enabled q = tranche_enabled p -> market_resolved q = market_resolved p ->
  asset_admin_burned q = asset_admin_burned p -> sticky p q.
Proof. unfold sticky. intros -> -> ->. done. Qed.

Lemma config_sticky p q : config q = config p -> sticky p q.
Proof. unfold config. intros E. injection E. intros. by apply sticky_eq. Qed.

Lemma sticky_trans p q r : sticky p q -> sticky q r -> sticky p r.
Proof. unfold sticky. naive_solver. Qed.

(** Closes [sticky p (updates of p)] where no flag is touched. *)
Ltac solve_sticky := apply sticky_eq; pool_simpl; reflexivity.

Section Sticky.
Context (p q : StakePool) (Hp : wf_pool p).

Lemma update_config_sticky c d :
  (forall v, c = Some v -> u64 v) -> (forall v, d = Some v -> u64 v) ->
  update_config c d p = Ok q -> sticky p q.
Proof.
  intros Hc Hd (p1 & H1 & H2)%bind_Ok. apply (sticky_trans _ p1).
  - destruct c as [c|]; [|by injection H1 as <-]. apply bind_Ok in H1 as ([] & _ & H1).
    apply ensure_Ok in H1 as [_ [= <-]]. solve_sticky.
  - destruct d as [d|]; injection H2 as <-; [|done]. solve_sticky.
Qed.

Lemma accept_admin_sticky k : accept_admin k p = Ok q -> sticky p q.
Proof. intros [_ [_ [= <-]]%ensure_Ok]%ensure_Ok. solve_sticky. Qed.

Lemma propose_cooldown_sticky c clk :
  u64 c -> wf_clock clk -> propose_cooldown_increase c clk p = Ok q -> sticky p q.
Proof. intros Hc [Hs _] ([] & _ & [_ [= <-]]%ensure_Ok)%bind_Ok. solve_sticky. Qed.

Lemma commit_cooldown_sticky clk : commit_cooldown_increase clk p = Ok q -> sticky p q.
Proof.
  intros [_ (b & _ & H)%bind_Ok]%ensure_Ok. apply ensure_Ok in H as [_ H].
  apply bind_Ok in H as ([] & _ & [= <-]). solve_sticky.
Qed.

Lemma cancel_cooldown_sticky : cancel_cooldown_increase p = Ok q -> sticky p q.
Proof. intros [_ [= <-]]%ensure_Ok. solve_sticky. Qed.

Lemma set_hwm_config_sticky e b : u16 b -> set_hwm_config e b p = Ok q -> sticky p q.
Proof.
  intros Hb ([] & _ & [= <-])%bind_Ok. unfold apply_hwm_config. destruct e; solve_sticky.
Qed.

Lemma set_tranche_config_sticky m : u16 m -> set_tranche_config m p = Ok q -> sticky p q.
Proof.
  intros Hm [_ [_ [= <-]]%ensure_Ok]%ensure_Ok. unfold sticky. pool_simpl. done.
Qed.

Lemma resolve_pool_sticky : resolve_pool p = Ok q -> sticky p q.
Proof. intros [_ [_ [= <-]]%ensure_Ok]%ensure_Ok. unfold sticky. pool_simpl. done. Qed.

Lemma burn_admin_sticky : burn_admin p = Ok q -> sticky p q.
Proof. intros [_ [= <-]]%ensure_Ok. unfold sticky. pool_simpl. done. Qed.
End Sticky.

(** ** What the money steps do to the books *)

Section Parts.
Context (p : StakePool) (vault supply : Z) (Hp : wf_pool p) (Hb : u64 vault)
        (Hv : raw_value p <= vault) (clk : Clock) (Hclk : wf_clock clk).
#[local] Abbreviation l := (mkLedger p vault supply).

(** [accrual p1]: the record after the accrual that opens every deposit and
    withdrawal. *)
Definition accrual (p1 : StakePool) : Prop :=
  ledger_accrue p vault = Ok p1 /\ wf_pool p1 /\ raw_value p <= raw_value p1 <= vault /\
  sp_total_lp_supply p1 = sp_total_lp_supply p /\ junior_total_lp p1 = junior_total_lp p /\
  realized_junior_loss p1 = realized_junior_loss p /\ tranche_enabled p1 = tranche_enabled p /\
  net_loss p1 = net_loss p.

Lemma accrual_intro p1 : ledger_accrue p vault = Ok p1 -> accrual p1.
Proof.
  intros H. destruct (ledger_accrue_ok _ _ _ Hp Hb Hv H) as (W & _ & V & S & J & R & T & N).
  done.
Qed.

Lemma deposit_parts amount l' :
  u64 amount -> ledger_deposit clk amount l = Ok l' ->
  amount <> 0 /\ market_resolved p = false /\ enforce_deposit_cap p amount = Ok tt /\
  exists p1 lp m p3 p4,
    accrual p1 /\ senior_snipe_gate p1 = Ok tt /\
    senior_lp_to_mint p1 amount = Ok lp /\ u64 lp /\ lp <> 0 /\
    apply_minimum_liquidity_lock (sp_total_lp_supply p1) lp = Ok m /\
    credit_totals amount p1 lp = Ok p3 /\ hwm_only p3 p4 /\
    l' = mkLedger p4 (vault + amount) (supply + m).
Proof.
  intros Ha (p1 & H1 & H)%bind_Ok. unfold ledger_deposit_open in H1.
  apply ensure_Ok in H1 as [Hnz%negb_true_iff%Z.eqb_neq H1].
  apply ensure_Ok in H1 as [Hr%negb_true_iff H1]. apply bind_Ok in H1 as ([] & Hcap & H1).
  apply accrual_intro in H1. pose proof H1 as (_ & W1 & _).
  apply bind_Ok in H as ([] & Hg & H). apply bind_Ok in H as (lp & Hlp & H).
  destruct (senior_lp_to_mint_u64 _ _ _ W1 Ha Hlp) as [Ulp Nlp].
  apply bind_Ok in H as (m & Hm & H). apply bind_Ok in H as (p3 & H3 & H).
  destruct (credit_totals_inv _ _ _ _ W1 Ha Ulp H3) as [W3 _].
  apply bind_Ok in H as (p4 & H4%refresh_mark_inv & [= <-]); [|done|apply Hclk].
  split_and!; [done..|]. exists p1, lp, m, p3, p4. done.
Qed.

Lemma deposit_junior_parts amount l' :
  u64 amount -> ledger_deposit_junior clk amount l = Ok l' ->
  amount <> 0 /\ market_resolved p = false /\ enforce_deposit_cap p amount = Ok tt /\
  tranche_enabled p = true /\
  exists p1 lp m p2 p3 p4,
    accrual p1 /\ junior_loss_gate p1 = Ok tt /\
    junior_lp_to_mint p1 amount = Ok lp /\ u64 lp /\ lp <> 0 /\
    apply_minimum_liquidity_lock (sp_total_lp_supply p1) lp = Ok m /\
    credit_totals amount p1 lp = Ok p2 /\ wf_pool p2 /\ credit_junior amount p2 lp = Ok p3 /\
    hwm_only p3 p4 /\ l' = mkLedger p4 (vault + amount) (supply + m).
Proof.
  intros Ha [Ht (p1 & H1 & H)%bind_Ok]%ensure_Ok. unfold ledger_deposit_open in H1.
  apply ensure_Ok in H1 as [Hnz%negb_true_iff%Z.eqb_neq H1].
  apply ensure_Ok in H1 as [Hr%negb_true_iff H1]. apply bind_Ok in H1 as ([] & Hcap & H1).
  apply accrual_intro in H1. pose proof H1 as (_ & W1 & _).
  apply bind_Ok in H as ([] & Hg & H). apply bind_Ok in H as (lp & Hlp & H).
  destruct (junior_lp_to_mint_u64 _ _ _ W1 Ha Hlp) as [Ulp Nlp].
  apply bind_Ok in H as (m & Hm & H). apply bind_Ok in H as (p2 & H2 & H).
  destruct (credit_totals_inv _ _ _ _ W1 Ha Ulp H2) as [W2 _].
  apply bind_Ok in H as (p3 & H3 & H).
  destruct (credit_junior_inv _ _ _ _ W2 Ha Ulp H3) as [W3 _].
  apply bind_Ok in H as (p4 & H4%refresh_mark_inv & [= <-]); [|done|apply Hclk].
  split_and!; [done..|]. exists p1, lp, m, p2, p3, p4. done.
Qed.

Lemma withdraw_parts j lp l' :
  u64 lp -> ledger_withdraw clk j lp l = Ok l' ->
  lp <> 0 /\ lp <= supply /\
  exists p1 c p2 p4,
    accrual p1 /\ withdrawal_value p1 j lp = Ok c /\ u64 c /\ c <= vault /\
    (c = 0 -> is_fully_wiped_junior_exit p1 j c = true) /\
    enforce_hwm_floor p1 clk c (is_fully_wiped_junior_exit p1 j c) = Ok p2 /\ hwm_only p1 p2 /\
    ledger_debit p2 j lp c = Ok p4 /\ l' = mkLedger p4 (vault - c) (supply - lp).
Proof.
  intros Hlp [Hnz%negb_true_iff%Z.eqb_neq (p1 & H1%accrual_intro & H)%bind_Ok]%ensure_Ok.
  pose proof H1 as (_ & W1 & _).
  apply bind_Ok in H as (c & Hc & H). pose proof (withdrawal_value_nonneg _ _ _ _ W1 Hlp Hc) as Hcu.
  apply ensure_Ok in H as [Hz H]. apply bind_Ok in H as (p2 & H2 & H).
  pose proof (enforce_hwm_floor_inv _ _ _ _ _ W1 (proj2 Hclk) H2) as [Ho _].
  apply ensure_Ok in H as [[Hs%Z.leb_le Hcv%Z.leb_le]%andb_true_iff H].
  apply bind_Ok in H as (p4 & H4 & [= <-]). split_and!; [done|done|].
  exists p1, c, p2, p4. split_and!; try done.
  intros Hc0. apply Z.eqb_eq in Hc0 as E. rewrite E in Hz. by destruct (is_fully_wiped_junior_exit _ _ _).
Qed.

(** Moving tokens in and out of the insurance fund. *)
Lemma insurance_parts j i amount l' :
  u64 amount ->
  i = FlushToInsurance amount \/ i = ReturnInsurance amount \/ i = RecoverFlushedInsurance amount ->
  ledger_step clk j i l = Ok l' ->
  sp_total_lp_supply (lg_pool l') = sp_total_lp_supply p /\ lg_supply l' = supply /\
  junior_balance (lg_pool l') = junior_balance p /\
  junior_total_lp (lg_pool l') = junior_total_lp p /\
  realized_junior_loss (lg_pool l') = realized_junior_loss p /\
  tranche_enabled (lg_pool l') = tranche_enabled p /\ wf_pool (lg_pool l') /\
  lg_vault l' - vault = raw_value (lg_pool l') - raw_value p /\
  (i = FlushToInsurance amount ->
     0 <= raw_value (lg_pool l') /\ raw_value (lg_pool l') = raw_value p - amount /\
     sp_total_flushed (lg_pool l') = sp_total_flushed p + amount /\
     sp_total_returned (lg_pool l') = sp_total_returned p) /\
  (i <> FlushToInsurance amount ->
     raw_value (lg_pool l') = raw_value p + amount /\
     sp_total_flushed (lg_pool l') = sp_total_flushed p /\
     sp_total_returned (lg_pool l') = sp_total_returned p + amount) /\
  (i = ReturnInsurance amount -> sp_total_returned (lg_pool l') <= sp_total_flushed p).
Proof.
  destruct (wf_totals p Hp) as (_ & _ & Hf & Hr & _).
  intros Ha Hi H. destruct Hi as [-> | [-> | ->]]; cbn [ledger_step] in H.
  - unfold ledger_flush in H. apply ensure_Ok in H as [Hn H]. do 2 apply ensure_Ok in H as [_ H].
    apply bind_Ok in H as (av & Hav%ok_or_Ok & H). apply raw_value_u64_bounds in Hav as [Hav Er].
    apply ensure_Ok in H as [Hle%negb_true_iff%Z.ltb_ge H]. apply ensure_Ok in H as [_ H].
    apply bind_Ok in H as (q & Hq & [= <-]). cbn [lg_pool lg_vault lg_supply].
    apply flush_totals_inv in Hq as (W & _ & V & F & R & S & J & JL & RL & T & _); [|done|done].
    split_and!; try done; lia.
  - unfold ledger_return in H. apply ensure_Ok in H as [Hn%negb_true_iff%Z.eqb_neq H].
    apply ensure_Ok in H as [Ho%negb_true_iff%Z.ltb_ge H].
    apply bind_Ok in H as (q & (W & _ & V & ->)%return_totals_inv & [= <-]); [|done|done].
    cbn [lg_pool lg_vault lg_supply]. split_and!; try done; [lia|].
    intros _. change (sp_total_returned p + amount <= sp_total_flushed p).
    width_lia.
  - unfold ledger_recover in H. apply bind_Ok in H as ([] & _ & H).
    apply bind_Ok in H as (q & (W & _ & V & ->)%recover_totals_inv & [= <-]); [|done|done].
    cbn [lg_pool lg_vault lg_supply]. split_and!; try done. lia.
Qed.
End Parts.

(** ** The books as projections *)

Lemma books_eq p q :
  books q = books p ->
  sp_total_lp_supply q = sp_total_lp_supply p /\ raw_value q = raw_value p /\
  net_loss q = net_loss p /\ junior_balance q = junior_balance p /\
  junior_total_lp q = junior_total_lp p /\ realized_junior_loss q = realized_junior_loss p /\
  sp_total_flushed q = sp_total_flushed p /\ sp_total_returned q = sp_total_returned p.
Proof. unfold books, raw_value, net_loss. intros E. injection E. intros. split_and!; congruence. Qed.

Lemma hwm_only_books p q :
  hwm_only p q ->
  wf_pool q /\ sp_total_lp_supply q = sp_total_lp_supply p /\ raw_value q = raw_value p /\
  net_loss q = net_loss p /\ junior_balance q = junior_balance p /\
  junior_total_lp q = junior_total_lp p /\ realized_junior_loss q = realized_junior_loss p /\
  tranche_enabled q = tranche_enabled p.
Proof. intros H. pose proof (hwm_only_supply _ _ H). destruct H as (? & ? & ? & ? & ? & ? & ? & ? & _). done. Qed.

(** ** The lock on the LP supply *)

(** Either no share exists, or at least [MINIMUM_LIQUIDITY] of the accounted
    shares were never minted and can never be burned. *)
Definition supply_locked (l : Ledger) : Prop :=
  0 <= l.(lg_supply) /\
  (l.(lg_pool).(sp_total_lp_supply) = 0 /\ l.(lg_supply) = 0 \/
   l.(lg_supply) + MINIMUM_LIQUIDITY <= l.(lg_pool).(sp_total_lp_supply)).

(** ** The share price *)

(** Shares of the new ledger are worth at least shares of the old one. *)
Definition price_rises (p q : StakePool) : Prop :=
  price_le (raw_value p) (sp_total_lp_supply p) (raw_value q) (sp_total_lp_supply q).

(** ** The tranche invariant *)

Record tranche_ok (p : StakePool) : Prop := {
  tk_value : 0 <= raw_value p;
  tk_solvent : tranche_solvent p;
  tk_shares : junior_total_lp p <= sp_total_lp_supply p;
  tk_empty : junior_total_lp p = 0 -> junior_balance p = 0;
  tk_off : tranche_enabled p = false -> junior_total_lp p = 0;
}.

Lemma tranche_ok_frame p q :
  sp_total_lp_supply q = sp_total_lp_supply p -> raw_value q = raw_value p ->
  net_loss q = net_loss p -> junior_balance q = junior_balance p ->
  junior_total_lp q = junior_total_lp p ->
  (tranche_enabled p = true -> tranche_enabled q = true) -> tranche_ok p -> tranche_ok q.
Proof.
  intros ES EV EN EB EL ET [V S Sh E O].
  split; unfold tranche_solvent in *; rewrite ?ES, ?EV, ?EN, ?EB, ?EL; try done.
  intros Ht. apply O. destruct (tranche_enabled p); [|done]. by rewrite ET in Ht.
Qed.

Section Invariants.
Context (p : StakePool) (vault supply : Z) (Hp : wf_pool p) (Hb : u64 vault)
        (Hv : raw_value p <= vault) (clk : Clock) (Hclk : wf_clock clk).
#[local] Abbreviation l := (mkLedger p vault supply).

Lemma locked_mint total s lp m :
  0 <= s -> 0 <= lp -> total = 0 /\ s = 0 \/ s + MINIMUM_LIQUIDITY <= total ->
  apply_minimum_liquidity_lock total lp = Ok m ->
  0 <= s + m /\ s + m + MINIMUM_LIQUIDITY <= total + lp.
Proof.
  unfold MINIMUM_LIQUIDITY. intros Hs Hlp Hl [[? ->]|(-> & -> & ?)]%apply_minimum_liquidity_lock_Ok;
    unfold MINIMUM_LIQUIDITY in *; lia.
Qed.

Lemma ledger_step_locked j i l' :
  wf_instruction i -> ledger_step clk j i l = Ok l' -> supply_locked l -> supply_locked l'.
Proof.
  intros Hi H [Hs Hl]. cbn [lg_supply lg_pool] in Hs, Hl. destruct (is_money i) eqn:Hm.
  2:{ destruct (ledger_step_books p vault supply Hp clk Hclk j i l' Hi Hm H)
        as ((E & _)%books_eq & _ & Es).
      split; [by rewrite Es|]. by rewrite E, Es. }
  assert (Hsame : sp_total_lp_supply (lg_pool l') = sp_total_lp_supply p ->
                  lg_supply l' = supply -> supply_locked l').
  { intros E1 E2. split; rewrite ?E1, ?E2; done. }
  destruct i; try discriminate Hm; cbn [ledger_step wf_instruction] in Hi, H.
  - apply deposit_parts in H as (_ & _ & _ & p1 & lp & m & p3 & p4 & A & _ & _ & U & _ & M & C & O & ->);
      [|done..]. destruct A as (_ & W1 & _ & S1 & _).
    apply credit_totals_inv in C as (_ & _ & _ & _ & _ & S3 & _); [|done..].
    apply hwm_only_supply in O. rewrite S1 in M.
    destruct (locked_mint _ _ _ _ Hs (proj1 U) Hl M). split; cbn [lg_supply lg_pool]; lia.
  - apply withdraw_parts in H as (Hn & Hle & p1 & c & p2 & p4 & A & _ & U & _ & _ & _ & O & D & ->);
      [|done..]. destruct A as (_ & W1 & _ & S1 & _).
    pose proof O as (W2 & _). apply hwm_only_supply in O.
    apply ledger_debit_inv in D as (_ & _ & _ & _ & S4); [|done..].
    split; cbn [lg_supply lg_pool]; [lia|]. rewrite S4, O, S1. unfold MINIMUM_LIQUIDITY in *.
    width_lia.
  - destruct (insurance_parts p vault supply Hp clk j _ _ l' Hi (or_introl eq_refl) H) as (E & Es & _).
    by apply Hsame.
  - destruct (insurance_parts p vault supply Hp clk j _ _ l' Hi (or_intror (or_intror eq_refl)) H)
      as (E & Es & _). by apply Hsame.
  - destruct (insurance_parts p vault supply Hp clk j _ _ l' Hi (or_intror (or_introl eq_refl)) H)
      as (E & Es & _). by apply Hsame.
  - unfold ledger_accrue_fees in H. apply ensure_Ok in H as [_ H].
    apply bind_Ok in H as (q & (_ & _ & _ & S & _)%accrue_frame & [= <-]); [|done..].
    by apply Hsame.
  - apply deposit_junior_parts in H as
      (_ & _ & _ & _ & p1 & lp & m & p2 & p3 & p4 & A & _ & _ & U & _ & M & C & W2 & J & O & ->);
      [|done..]. destruct A as (_ & W1 & _ & S1 & _).
    apply credit_totals_inv in C as (_ & _ & _ & _ & _ & S2 & _); [|done..].
    apply credit_junior_inv in J as (_ & _ & _ & _ & _ & S3 & _); [|done..].
    apply hwm_only_supply in O. rewrite S1 in M.
    destruct (locked_mint _ _ _ _ Hs (proj1 U) Hl M). split; cbn [lg_supply lg_pool]; lia.
Qed.

(** ** The price *)

Lemma price_rises_value (a b : StakePool) :
  sp_total_lp_supply b = sp_total_lp_supply a -> raw_value a <= raw_value b ->
  0 <= sp_total_lp_supply a -> price_rises a b.
Proof. unfold price_rises, price_le. intros -> Hle Hs. apply Z.mul_le_mono_nonneg_r; lia. Qed.

Lemma accrual_price p1 : accrual p vault p1 -> price_rises p p1.
Proof.
  intros (_ & _ & V & S & _). apply price_rises_value; [done|lia|]. by apply wf_totals.
Qed.

Lemma price_rises_trans a b c :
  wf_pool a -> wf_pool b -> wf_pool c -> price_rises a b -> price_rises b c -> price_rises a c.
Proof.
  unfold price_rises.
  intros (_ & A & _)%wf_totals (_ & B & _)%wf_totals (_ & C & _)%wf_totals.
  apply price_le_trans; [apply A|apply B|apply C].
Qed.

(** Without tranches, only a flush can lower the price of a share. *)
Lemma ledger_step_price j i l' :
  tranche_enabled p = false -> (forall a, i <> FlushToInsurance a) ->
  wf_instruction i -> ledger_step clk j i l = Ok l' -> price_rises p (lg_pool l').
Proof.
  intros Ht Hnf Hi H. pose proof (wf_totals p Hp) as (_ & Us & _).
  destruct (ledger_step_ok p vault supply Hp Hb Hv clk Hclk j i l' Hi H) as [W' _].
  destruct (is_money i) eqn:Hm.
  2:{ destruct (ledger_step_books p vault supply Hp clk Hclk j i l' Hi Hm H)
        as ((E & V & _)%books_eq & _). apply price_rises_value; [done|lia|apply Us]. }
  destruct i; try discriminate Hm; cbn [ledger_step wf_instruction] in Hi, H.
  - apply deposit_parts in H as (_ & _ & _ & p1 & lp & m & p3 & p4 & A & _ & L & U & _ & _ & C & O & ->);
      [|done..]. pose proof A as (_ & W1 & _ & _ & _ & _ & T1 & _).
    apply (price_rises_trans _ p1); [done..|by apply accrual_price|].
    apply credit_totals_inv in C as (W3 & _ & V3 & _ & _ & S3 & _); [|done..].
    apply hwm_only_books in O as (_ & S4 & V4 & _).
    unfold senior_lp_to_mint in L. rewrite T1, Ht in L.
    apply bind_Ok in L as (x & L%ok_or_Ok & L'). apply ensure_Ok in L' as [_ [= ->]].
    unfold pool_calc_lp_for_deposit in L. apply bind_Some in L as (pv & Hpv & L).
    apply raw_value_u64_bounds in Hpv as [Upv <-].
    apply deposit_price_le in L; [|by apply wf_totals|done|done].
    unfold price_rises. cbn [lg_pool]. by rewrite V4, V3, S4, S3.
  - apply withdraw_parts in H as (_ & _ & p1 & c & p2 & p4 & A & C & U & _ & _ & _ & O & D & ->);
      [|done..]. pose proof A as (_ & W1 & _ & _ & _ & _ & T1 & _).
    apply (price_rises_trans _ p1); [done..|by apply accrual_price|].
    apply hwm_only_books in O as (W2 & S2 & V2 & _).
    apply ledger_debit_inv in D as (_ & _ & V4 & _ & S4); [|done..].
    unfold withdrawal_value in C. rewrite T1, Ht in C. cbn in C. apply ok_or_Ok in C.
    unfold pool_calc_collateral_for_withdraw in C. apply bind_Some in C as (pv & Hpv & C).
    apply raw_value_u64_bounds in Hpv as [Upv <-].
    apply withdraw_price_le in C; [|by apply wf_totals|done|done].
    unfold price_rises. cbn [lg_pool]. by rewrite V4, V2, S4, S2.
  - by destruct (Hnf amount).
  - destruct (insurance_parts p vault supply Hp clk j _ _ l' Hi (or_intror (or_intror eq_refl)) H)
      as (E & _ & _ & _ & _ & _ & _ & _ & _ & Hr & _).
    destruct Hr as [V _]; [done|]. apply price_rises_value; [done|width_lia|apply Us].
  - destruct (insurance_parts p vault supply Hp clk j _ _ l' Hi (or_intror (or_introl eq_refl)) H)
      as (E & _ & _ & _ & _ & _ & _ & _ & _ & Hr & _).
    destruct Hr as [V _]; [done|]. apply price_rises_value; [done|width_lia|apply Us].
  - unfold ledger_accrue_fees in H. apply ensure_Ok in H as [_ H].
    apply bind_Ok in H as (q & (_ & _ & _ & S & _ & _ & _ & V)%accrue_frame & [= <-]); [|done..].
    apply price_rises_value; [done| |apply Us]. change (raw_value p <= raw_value q).
    rewrite V. destruct (0 <? _); lia.
  - unfold ledger_deposit_junior in H. apply ensure_Ok in H as [E _]. by rewrite Ht in E.
Qed.

(** ** Tranches *)

Lemma accrue_tranche bal q :
  u64 bal -> accrue_fees_inner p bal = Ok q -> tranche_ok p -> tranche_ok q.
Proof.
  intros Hbal H T.
  destruct (accrue_fees_inner_inv p bal q Hp Hbal H) as (pv & Hpv & [[_ ->]|(Hlt & _ & A)]); [done|].
  pose proof (accrued_frame _ _ _ Hp A) as (V & _ & N & S & L & _ & E).
  destruct T as [T1 T2 T3 T4 T5]. unfold tranche_solvent in *. destruct A as [Hf A].
  assert (B : junior_balance q = junior_balance p /\ distributing p = false \/
              exists jf, junior_balance q = junior_balance p + jf /\ 0 <= jf <= bal - pv /\
                         0 < junior_total_lp p).
  { destruct (distributing p) eqn:D; [right|left; by subst q].
    destruct A as (s & jf & _ & _ & Hjf & Hju & _ & ->). exists jf.
    assert (wf_pool (p <| sp_total_fees_earned := sp_total_fees_earned p + (bal - pv) |>))
      by auto with stake.
    split_and!; [pool_simpl; done|lia|lia|].
    apply andb_true_iff in D as [_ D%Z.ltb_lt]. done. }
  split; unfold tranche_solvent; rewrite ?V, ?N, ?S, ?L, ?E; try done; [lia| |].
  - destruct B as [[-> _]|(jf & -> & ? & _)]; lia.
  - intros H0. destruct B as [[-> _]|(jf & _ & _ & Hpos)]; [by apply T4|lia].
Qed.

Lemma accrual_tranche p1 : accrual p vault p1 -> tranche_ok p -> tranche_ok p1.
Proof.
  intros (H & _) T. apply ledger_accrue_inv in H as [[_ ->]|H]; [done| |done|done].
  by eapply accrue_tranche.
Qed.
End Invariants.

(** The value of an effective junior balance never exceeds the pool's. *)
Lemma effective_le_value p :
  wf_pool p -> tranche_ok p -> effective_junior_balance p <= raw_value p.
Proof.
  intros Hp [V S _ _ _]. rewrite effective_junior_balance_eq by done.
  unfold tranche_solvent in S. lia.
Qed.

(** What a withdrawal is worth, tranche by tranche. *)
Lemma withdrawal_value_le p j lp c :
  wf_pool p -> u64 lp -> lp <= sp_total_lp_supply p ->
  (tranche_enabled p = true -> j = true -> lp <= junior_total_lp p) ->
  (tranche_enabled p = true -> j = false -> lp <= senior_total_lp p) ->
  withdrawal_value p j lp = Ok c ->
  if tranche_enabled p then
    if j then c <= effective_junior_balance p
    else exists s, senior_balance p = Some s /\ c <= s
  else c <= raw_value p.
Proof.
  intros Hp Hlp Hle Hj Hs H. unfold withdrawal_value in H.
  pose proof (wf_totals p Hp) as (_ & Us & _). pose proof (u64_junior_total_lp p Hp) as Uj.
  destruct (tranche_enabled p); cbn in H.
  - destruct j; cbn in H.
    + apply ok_or_Ok, withdraw_le_value in H; auto using effective_junior_balance_u64.
    + apply bind_Ok in H as (sb & Hsb%ok_or_Ok & H%ok_or_Ok). exists sb. split; [done|].
      pose proof (senior_balance_u64 _ _ Hp Hsb).
      apply withdraw_le_value in H; auto. unfold senior_total_lp. width_lia.
  - apply ok_or_Ok in H. unfold pool_calc_collateral_for_withdraw in H.
    apply bind_Some in H as (pv & Hpv & H). apply raw_value_u64_bounds in Hpv as [Upv <-].
    by apply withdraw_le_value in H.
Qed.

(** The debit of a withdrawal worth at most its sub-pool. *)
Lemma ledger_debit_tranche p j lp c q :
  wf_pool p -> u64 lp -> u64 c ->
  (tranche_enabled p = true -> j = false -> lp <= senior_total_lp p) ->
  withdrawal_value p j lp = Ok c -> ledger_debit p j lp c = Ok q ->
  tranche_ok p -> tranche_ok q.
Proof.
  intros Hp Hlp Hc Hs Hval (p3 & H3 & H4)%bind_Ok T.
  apply debit_totals_inv in H3 as (W3 & _ & V3 & B3 & L3 & Hle & S3 & T3 & _ & N3); [|done..].
  pose proof (effective_le_value p Hp T) as Heff. pose proof (effective_junior_balance_eq p Hp) as Eeff.
  pose proof (u64_junior_balance p Hp) as Uj.
  assert (Hjl : tranche_enabled p = true -> j = true -> lp <= junior_total_lp p).
  { intros Et Ej. rewrite T3, Et, Ej in H4. cbn in H4.
    apply debit_junior_inv in H4 as (_ & _ & _ & _ & ? & _); [lia|done|width_lia|width_lia]. }
  pose proof (withdrawal_value_le p j lp c Hp Hlp Hle Hjl Hs Hval) as Hcle.
  destruct T as [T1 T2 T4 T5 T6]. unfold tranche_solvent in T2.
  rewrite T3 in H4. destruct (tranche_enabled p) eqn:Et; [destruct j|]; cbn in H4.
  - apply debit_junior_inv in H4 as (_ & _ & V4 & S4 & Hlj & L4 & E4 & F4 & H4);
      [|done|width_lia|width_lia].
    assert (Hnet : net_loss q = saturating_sub (sp_total_flushed p3) (sp_total_returned q))
      by (unfold net_loss; by rewrite F4).
    unfold net_loss in *.
    split; unfold tranche_solvent, net_loss; rewrite ?V4, ?S4, ?L4, ?V3, ?S3, ?L3.
    + lia.
    + destruct H4 as [(_ & -> & ER & _)|(_ & -> & ER & _)]; rewrite Hnet, ER.
      * rewrite <- N3 in T2. rewrite B3. lia.
      * unfold forfeited, net_loss. width_lia.
    + lia.
    + intros H0. destruct H4 as [(? & _)|(_ & -> & _)]; [lia|done].
    + rewrite E4, T3. done.
  - injection H4 as <-. destruct Hcle as (s & (pv & Hpv & -> & _)%senior_balance_Some & Hcs).
    apply raw_value_u64_bounds in Hpv as [_ <-]. specialize (Hs eq_refl eq_refl).
    unfold senior_total_lp in Hs.
    split; unfold tranche_solvent; rewrite ?V3, ?S3, ?L3, ?N3, ?B3; [width_lia..|done|].
    by rewrite T3.
  - injection H4 as <-. specialize (T6 eq_refl). rewrite T5 in Eeff by done.
    split; unfold tranche_solvent; rewrite ?V3, ?S3, ?L3, ?N3, ?B3; [lia| |lia|done|done].
    rewrite T5 by done. unfold net_loss. width_lia.
Qed.

(** Side conditions under which a step keeps the tranche invariant: a senior
    burns senior shares only (the deposit records see to it), and returns have
    not overshot the flushed total when more is flushed. *)
Definition tranche_side (j : bool) (i : StakeInstruction) (p : StakePool) : Prop :=
  match i with
  | Instruction.Withdraw lp => tranche_enabled p = true -> j = false -> lp <= senior_total_lp p
  | FlushToInsurance _ => sp_total_returned p <= sp_total_flushed p
  | _ => True
  end.

Lemma hwm_only_withdrawal_value p q j lp :
  wf_pool p -> hwm_only p q -> withdrawal_value q j lp = withdrawal_value p j lp.
Proof.
  intros Hp O. pose proof (hwm_only_books _ _ O) as (W & S & V & N & B & L & R & T).
  assert (EJ : effective_junior_balance q = effective_junior_balance p)
    by (by rewrite !effective_junior_balance_eq, B, N by done).
  assert (EV : total_pool_value q = total_pool_value p)
    by (unfold total_pool_value; unfold raw_value in V; by rewrite V).
  unfold withdrawal_value, senior_balance, senior_total_lp, pool_calc_collateral_for_withdraw.
  by rewrite T, EJ, EV, S, L.
Qed.

Lemma ledger_step_sticky p vault supply clk j i l' :
  wf_pool p -> u64 vault -> raw_value p <= vault -> wf_clock clk -> wf_instruction i ->
  ledger_step clk j i (mkLedger p vault supply) = Ok l' -> sticky p (lg_pool l').
Proof.
  intros Hp Hb Hv Hclk Hi H. destruct (is_money i) eqn:Hm.
  { by eapply config_sticky, ledger_step_config. }
  destruct i; try discriminate Hm; cbn [ledger_step wf_instruction lg_pool] in Hi, H;
    destruct_and?; try discriminate H; try (injection H as <-; done);
    try (apply ensure_Ok in H as [_ [= <-]]; done);
    apply on_pool_Ok in H as (q & Hq & ->); cbn [lg_pool];
    eauto using update_config_sticky, accept_admin_sticky, propose_cooldown_sticky,
      commit_cooldown_sticky, cancel_cooldown_sticky, set_hwm_config_sticky,
      set_tranche_config_sticky, resolve_pool_sticky, burn_admin_sticky.
Qed.

Section TrancheStep.
Context (p : StakePool) (vault supply : Z) (Hp : wf_pool p) (Hb : u64 vault)
        (Hv : raw_value p <= vault) (clk : Clock) (Hclk : wf_clock clk).
#[local] Abbreviation l := (mkLedger p vault supply).

Lemma deposit_tranche amount l' :
  u64 amount -> ledger_deposit clk amount l = Ok l' -> tranche_ok p -> tranche_ok (lg_pool l').
Proof.
  intros Ha H T. apply deposit_parts in H as
    (_ & _ & _ & p1 & lp & m & p3 & p4 & A & _ & _ & U & _ & _ & C & O & ->); [|done..].
  pose proof A as (_ & W1 & _). apply accrual_tranche in A as [T1 T2 T3 T4 T5]; [|done..].
  apply credit_totals_inv in C as (_ & _ & V & B & L & S & E & _ & N); [|done..].
  apply hwm_only_books in O as (_ & S4 & V4 & N4 & B4 & L4 & _ & E4). cbn [lg_pool].
  unfold tranche_solvent in *.
  split; unfold tranche_solvent; rewrite ?V4, ?V, ?N4, ?N, ?B4, ?B, ?L4, ?L, ?S4, ?S, ?E4, ?E;
    try done; width_lia.
Qed.

Lemma deposit_junior_tranche amount l' :
  u64 amount -> ledger_deposit_junior clk amount l = Ok l' -> tranche_ok p ->
  tranche_ok (lg_pool l').
Proof.
  intros Ha H T. apply deposit_junior_parts in H as
    (_ & _ & _ & Et & p1 & lp & m & p2 & p3 & p4 & A & _ & _ & U & Hn & _ & C & W2 & J & O & ->);
    [|done..].
  pose proof A as (_ & W1 & _ & _ & _ & _ & ET & _).
  apply accrual_tranche in A as [T1 T2 T3 T4 T5]; [|done..].
  apply credit_totals_inv in C as (_ & _ & V & B & L & S & E & _ & N); [|done..].
  apply credit_junior_inv in J as (_ & _ & V3 & B3 & L3 & S3 & E3 & _ & N3); [|done..].
  apply hwm_only_books in O as (_ & S4 & V4 & N4 & B4 & L4 & _ & E4). cbn [lg_pool].
  pose proof (u64_junior_total_lp p1 W1) as Uj. unfold tranche_solvent in *.
  split; unfold tranche_solvent;
    rewrite ?V4, ?V3, ?V, ?N4, ?N3, ?N, ?B4, ?B3, ?B, ?L4, ?L3, ?L, ?S4, ?S3, ?S, ?E4, ?E3, ?E, ?ET;
    [width_lia..|congruence].
Qed.

Lemma withdraw_tranche j lp l' :
  u64 lp -> tranche_side j (Instruction.Withdraw lp) p ->
  ledger_withdraw clk j lp l = Ok l' -> tranche_ok p -> tranche_ok (lg_pool l').
Proof.
  intros Hlp Hs H T. apply withdraw_parts in H as
    (_ & _ & p1 & c & p2 & p4 & A & C & U & _ & _ & _ & O & D & ->); [|done..].
  pose proof A as (_ & W1 & _ & S1 & L1 & _ & T1 & _). apply accrual_tranche in A; [|done..].
  pose proof (hwm_only_books _ _ O) as (W2 & S2 & V2 & N2 & B2 & L2 & _ & E2).
  apply (ledger_debit_tranche p2 j lp c); try done.
  - intros Et Ej. cbn in Hs. unfold senior_total_lp in *. rewrite S2, L2, S1, L1.
    apply Hs; congruence.
  - by rewrite (hwm_only_withdrawal_value p1).
  - eapply tranche_ok_frame; [..|exact A]; try done. by rewrite E2.
Qed.

Lemma insurance_tranche j i amount l' :
  u64 amount ->
  i = FlushToInsurance amount \/ i = ReturnInsurance amount \/ i = RecoverFlushedInsurance amount ->
  tranche_side j i p -> ledger_step clk j i l = Ok l' -> tranche_ok p -> tranche_ok (lg_pool l').
Proof.
  intros Ha Hi Hs H [T1 T2 T3 T4 T5]. 
  destruct (insurance_parts p vault supply Hp clk j i amount l' Ha Hi H)
    as (S & _ & B & L & _ & E & _ & _ & Hflush & Hret & Hcap).
  pose proof (wf_totals p Hp) as (_ & _ & UF & UR & _). unfold tranche_solvent, net_loss in *.
  destruct (decide (i = FlushToInsurance amount)) as [Ei|Ei].
  - destruct (Hflush Ei) as (V0 & V & F & R). rewrite Ei in Hs. cbn in Hs.
    split; unfold tranche_solvent, net_loss; rewrite ?S, ?B, ?L, ?E, ?F, ?R; try done.
    width_lia.
  - destruct (Hret Ei) as (V & F & R).
    split; unfold tranche_solvent, net_loss; rewrite ?S, ?B, ?L, ?E, ?F, ?R; try done; width_lia.
Qed.

Lemma ledger_step_tranche j i l' :
  wf_instruction i -> tranche_side j i p -> ledger_step clk j i l = Ok l' ->
  tranche_ok p -> tranche_ok (lg_pool l').
Proof.
  intros Hi Hs H T. destruct (is_money i) eqn:Hm.
  2:{ destruct (ledger_step_books p vault supply Hp clk Hclk j i l' Hi Hm H)
        as ((S & V & N & B & L & _)%books_eq & _).
      eapply tranche_ok_frame; [..|exact T]; try done.
      by destruct (ledger_step_sticky _ _ _ _ _ _ _ Hp Hb Hv Hclk Hi H) as [? _]. }
  destruct i; try discriminate Hm; cbn [wf_instruction] in Hi.
  - by eapply deposit_tranche.
  - by eapply withdraw_tranche.
  - refine (insurance_tranche j _ amount l' Hi _ Hs H T); auto.
  - refine (insurance_tranche j _ amount l' Hi _ Hs H T); auto.
  - refine (insurance_tranche j _ amount l' Hi _ Hs H T); auto.
  - unfold ledger_step, ledger_accrue_fees in H. apply ensure_Ok in H as [_ H].
    apply bind_Ok in H as (q & Hq & [= <-]).
    apply (accrue_tranche p Hp) in Hq; [|done|done]. cbn [lg_pool].
    by eapply (tranche_ok_frame q).
  - by eapply deposit_junior_tranche.
Qed.
End TrancheStep.

(** ** The cooldown timelock and the admin rotation, one step *)

Definition cooldown_step (i : StakeInstruction) (clk : Clock) (p q : StakePool) : Prop :=
  (q.(sp_cooldown_proposed_at_slot) = p.(sp_cooldown_proposed_at_slot) \/
   q.(sp_cooldown_proposed_at_slot) = 0 \/
   exists c, i = ProposeCooldownIncrease c /\
             q.(sp_cooldown_proposed_at_slot) = clk.(clock_slot)) /\
  (q.(sp_cooldown_slots) <= p.(sp_cooldown_slots) \/
   i = CommitCooldownIncrease /\ p.(sp_cooldown_proposed_at_slot) <> 0 /\
   p.(sp_cooldown_proposed_at_slot) + TIMELOCK_SLOTS <= clk.(clock_slot) /\
   q.(sp_cooldown_slots) = p.(sp_pending_cooldown_slots)).

Definition admin_step (i : StakeInstruction) (p q : StakePool) : Prop :=
  (q.(sp_admin) = p.(sp_admin) \/
   i = AcceptAdmin /\ q.(sp_admin) = p.(sp_pending_admin) /\ p.(sp_pending_admin) <> ZERO_KEY) /\
  (q.(sp_pending_admin) = p.(sp_pending_admin) \/
   i = ProposeAdmin q.(sp_pending_admin) \/ i = AcceptAdmin /\ q.(sp_pending_admin) = ZERO_KEY).

(** A step that keeps the four fields. *)
Definition keeps_roles (p q : StakePool) : Prop :=
  sp_cooldown_slots q = sp_cooldown_slots p /\
  sp_cooldown_proposed_at_slot q = sp_cooldown_proposed_at_slot p /\
  sp_admin q = sp_admin p /\ sp_pending_admin q = sp_pending_admin p.

Lemma keeps_roles_steps i clk p q : keeps_roles p q -> cooldown_step i clk p q /\ admin_step i p q.
Proof. intros (E1 & E2 & E3 & E4). unfold cooldown_step, admin_step. split; (split; [by left|left; done || lia]) || (split; by left). Qed.

Lemma config_roles p q : config q = config p -> keeps_roles p q.
Proof. unfold config. intros E. injection E. intros. by split_and!. Qed.

Section Timelock.
Context (p q : StakePool) (clk : Clock).

Lemma update_config_steps c d :
  update_config c d p = Ok q ->
  cooldown_step (UpdateConfig c d) clk p q /\ admin_step (UpdateConfig c d) p q.
Proof.
  intros (p1 & H1 & H2)%bind_Ok.
  assert (R2 : keeps_roles p1 q) by (destruct d; injection H2 as <-; done).
  destruct c as [c|]; [|injection H1 as <-; by apply keeps_roles_steps].
  apply bind_Ok in H1 as ([] & _ & H1).
  apply ensure_Ok in H1 as [Hle%negb_true_iff%Z.ltb_ge [= <-]].
  destruct R2 as (E1 & E2 & E3 & E4). cbn in E1, E2, E3, E4.
  unfold cooldown_step, admin_step. rewrite E1. split; [split; [by left|left; done]|split; by left].
Qed.

Lemma accept_admin_steps :
  accept_admin (sp_pending_admin p) p = Ok q ->
  cooldown_step AcceptAdmin clk p q /\ admin_step AcceptAdmin p q.
Proof.
  intros [Hn%negb_true_iff%key_eqb_neq [_ [= <-]]%ensure_Ok]%ensure_Ok.
  unfold cooldown_step, admin_step. split.
  - split; [by left|left; apply Z.le_refl].
  - split; [right; done|right; right; done].
Qed.

Lemma propose_admin_steps k :
  q = p <| sp_pending_admin := k |> ->
  cooldown_step (ProposeAdmin k) clk p q /\ admin_step (ProposeAdmin k) p q.
Proof.
  intros ->. unfold cooldown_step, admin_step.
  split; [split; [by left|left; apply Z.le_refl]|split; [by left|right; by left]].
Qed.

Lemma propose_cooldown_steps c :
  propose_cooldown_increase c clk p = Ok q ->
  cooldown_step (ProposeCooldownIncrease c) clk p q /\
  admin_step (ProposeCooldownIncrease c) p q.
Proof.
  intros ([] & _ & [_ [= <-]]%ensure_Ok)%bind_Ok. unfold cooldown_step, admin_step.
  split; [split; [right; right; eauto|left; apply Z.le_refl]|split; by left].
Qed.

Lemma commit_cooldown_steps :
  commit_cooldown_increase clk p = Ok q ->
  cooldown_step CommitCooldownIncrease clk p q /\ admin_step CommitCooldownIncrease p q.
Proof.
  intros [Hn%negb_true_iff%Z.eqb_neq (b & [_ ->]%timelock_window_elapsed_Ok & H)%bind_Ok]%ensure_Ok.
  apply ensure_Ok in H as [Hel%Z.leb_le H]. apply bind_Ok in H as ([] & _ & [= <-]).
  unfold cooldown_step, admin_step.
  split; [split; [right; by left|right; done]|split; by left].
Qed.

Lemma cancel_cooldown_steps :
  cancel_cooldown_increase p = Ok q ->
  cooldown_step CancelCooldownIncrease clk p q /\ admin_step CancelCooldownIncrease p q.
Proof.
  intros [_ [= <-]]%ensure_Ok. unfold cooldown_step, admin_step.
  split; [split; [right; by left|left; apply Z.le_refl]|split; by left].
Qed.

Lemma set_hwm_config_roles e b : set_hwm_config e b p = Ok q -> keeps_roles p q.
Proof. intros ([] & _ & [= <-])%bind_Ok. unfold apply_hwm_config. by destruct e. Qed.
Lemma set_tranche_config_roles m : set_tranche_config m p = Ok q -> keeps_roles p q.
Proof. by intros [_ [_ [= <-]]%ensure_Ok]%ensure_Ok. Qed.
Lemma resolve_pool_roles : resolve_pool p = Ok q -> keeps_roles p q.
Proof. by intros [_ [_ [= <-]]%ensure_Ok]%ensure_Ok. Qed.
Lemma burn_admin_roles : burn_admin p = Ok q -> keeps_roles p q.
Proof. by intros [_ [= <-]]%ensure_Ok. Qed.
End Timelock.

Lemma ledger_step_roles p vault supply clk j i l' :
  wf_pool p -> u64 vault -> raw_value p <= vault -> wf_clock clk -> wf_instruction i ->
  ledger_step clk j i (mkLedger p vault supply) = Ok l' ->
  cooldown_step i clk p (lg_pool l') /\ admin_step i p (lg_pool l').
Proof.
  intros Hp Hb Hv Hclk Hi H. destruct (is_money i) eqn:Hm.
  { by eapply keeps_roles_steps, config_roles, ledger_step_config. }
  destruct i; try discriminate Hm; cbn [ledger_step lg_pool] in H;
    try discriminate H; try (injection H as <-; by apply keeps_roles_steps);
    try (apply ensure_Ok in H as [_ [= <-]]; by apply keeps_roles_steps);
    apply on_pool_Ok in H as (q & Hq & ->); cbn [lg_pool];
    eauto using update_config_steps, accept_admin_steps, propose_cooldown_steps,
      commit_cooldown_steps, cancel_cooldown_steps, keeps_roles_steps, set_hwm_config_roles,
      set_tranche_config_roles, resolve_pool_roles, burn_admin_roles.
  injection Hq as <-. by apply propose_admin_steps.
Qed.
