(* ===== verification/Laws.v ===== *)
(** * What the program relies on

    The documented behaviour of the code outside this repository, as one class
    of laws over [Runtime]: the Solana runtime (who may change what), the
    system program, the SPL token program and the wrapper. Every law of
    [RuntimeLaws] speaks of an instruction that succeeded; [TokenProgramServes]
    and [SystemServes] say which ones do. *)

From S2P Require Import Prelude Errors State PoolFacts Runtime SplToken Cpi Guards Init.

(** ** Relations between an account before and after *)

(** A token account keeps everything but its amount. *)
Definition same_token (a b : Account) : Prop :=
  acc_owner a = acc_owner b /\ length (acc_data a) = length (acc_data b) /\
  token_mint a = token_mint b /\ token_owner a = token_owner b /\ token_state a = token_state b.

(** Owner and data are untouched (lamports may move). *)
Definition same_state (a b : Account) : Prop :=
  acc_owner a = acc_owner b /\ acc_data a = acc_data b.

(** Its data, if any, are zeros. *)
Definition blank (a : Account) : Prop := Forall (fun b => b = 0) (acc_data a).

(** "So11111111111111111111111111111111111111112", base58-decoded: the token
    program's mint of wrapped SOL. *)
Definition NATIVE_MINT : Pubkey :=
  [6; 155; 136; 87; 254; 171; 129; 132; 251; 104; 127; 99; 70; 24; 192;
   53; 218; 196; 57; 220; 26; 235; 59; 85; 152; 160; 240; 0; 0; 0; 0; 1].

(** The amount a new token account starts with: nothing, and for wrapped SOL the
    lamports it holds beyond its rent. *)
Definition opens_with {RT : Runtime} (w : World) (mint : Pubkey) (x : Account) (n : Z) : Prop :=
  if key_eqb mint NATIVE_MINT
  then forall r, rent_get w = Ok r ->
         n = acc_lamports x - rent_minimum_balance r (Z.of_nat ACCOUNT_LEN)
  else n = 0.

(** The token instructions the program issues. *)
Definition issued (ix : Instruction) : Prop :=
  byte_at 0 (ix_data ix) ∈
    [IX_INITIALIZE_MINT; IX_INITIALIZE_ACCOUNT; IX_TRANSFER; IX_MINT_TO; IX_BURN].

(** All account data are bytes. *)
Definition world_ok (w : World) : Prop := forall k, bytes_ok (acc_data (get w k)).

#[global] Instance same_token_preorder : PreOrder same_token.
Proof. unfold same_token. split; [done|]. intros a b c ??; naive_solver congruence. Qed.
#[global] Instance same_state_equiv : Equivalence same_state.
Proof. unfold same_state. split; [done| |]; repeat intro; naive_solver congruence. Qed.

Lemma same_state_token a b : same_state a b -> same_token a b.
Proof. intros [Ho Hd]. unfold same_token, token_mint, token_owner, token_state. by rewrite Ho, Hd. Qed.
Lemma same_state_amount a b : same_state a b -> token_amount a = token_amount b.
Proof. intros [_ Hd]. unfold token_amount. by rewrite Hd. Qed.

(** ** The laws *)

Class RuntimeLaws {RT : Runtime} {BC : BuildConfig} (program_id : Pubkey) := {
  (** The ids involved are distinct. *)
  law_id_spl : SplToken.id <> program_id;
  law_id_system : SYSTEM_PROGRAM_ID <> program_id;
  law_id_wrapper : is_percolator program_id = false;

  (** Program addresses are keys, bumps are bytes, clocks are [u64]s. *)
  law_pda : forall seeds, key_ok (fst (find_program_address seeds program_id)) /\
                          u8 (snd (find_program_address seeds program_id));
  law_clock : forall ai w c, clock_from_account_info ai w = Ok c ->
    u64 c.(clock_slot) /\ u64 c.(clock_epoch);

  (** The runtime: account data stay bytes; an account not passed as writable
      is untouched; an account owned by this program is untouched by a call to
      another program (only its owner could write it, and re-entrance is
      refused); an account that changes hands has zeroed data; no call changes the
      rent. *)
  law_bytes : forall mb ix infos seeds w w',
    invoke_signed mb ix infos seeds w = Ok w' -> world_ok w -> world_ok w';
  law_rent : forall mb ix infos seeds w w',
    invoke_signed mb ix infos seeds w = Ok w' -> rent_get w' = rent_get w;
  law_frame : forall mb ix infos seeds w w' k,
    invoke_signed mb ix infos seeds w = Ok w' -> k ∉ writable_keys ix -> get w' k = get w k;
  law_own : forall mb ix infos seeds w w' k,
    invoke_signed mb ix infos seeds w = Ok w' -> ix_program_id ix <> program_id ->
    acc_owner (get w k) = program_id -> same_state (get w k) (get w' k);
  law_new_own : forall mb ix infos seeds w w' k,
    invoke_signed mb ix infos seeds w = Ok w' -> ix_program_id ix <> program_id ->
    acc_owner (get w k) <> program_id -> acc_owner (get w' k) = program_id -> blank (get w' k);

  (** The system program only writes accounts it owns. *)
  law_system_ids : forall a b n s o,
    ix_program_id (system_create_account a b n s o) = SYSTEM_PROGRAM_ID /\
    ix_program_id (system_transfer a b n) = SYSTEM_PROGRAM_ID /\
    ix_program_id (system_allocate a s) = SYSTEM_PROGRAM_ID /\
    ix_program_id (system_assign a o) = SYSTEM_PROGRAM_ID;
  law_system : forall mb ix infos seeds w w' k,
    invoke_signed mb ix infos seeds w = Ok w' -> ix_program_id ix = SYSTEM_PROGRAM_ID ->
    acc_owner (get w k) <> SYSTEM_PROGRAM_ID -> same_state (get w k) (get w' k);

  law_create : forall mb a b n s o infos seeds w w',
    invoke_signed mb (system_create_account a b n s o) infos seeds w = Ok w' ->
    acc_owner (get w' b) = o /\ acc_data (get w' b) = replicate (Z.to_nat s) 0;
  law_allocate : forall mb b s infos seeds w w',
    invoke_signed mb (system_allocate b s) infos seeds w = Ok w' ->
    acc_data (get w' b) = replicate (Z.to_nat s) 0;
  law_assign : forall mb b o infos seeds w w',
    invoke_signed mb (system_assign b o) infos seeds w = Ok w' ->
    acc_owner (get w' b) = o /\ acc_data (get w' b) = acc_data (get w b);

  (** None of the five token instructions reassigns an account, and transfer, mint
      and burn change amounts and supplies only. *)
  law_spl_owner : forall mb ix infos seeds w w' k,
    invoke_signed mb ix infos seeds w = Ok w' -> ix_program_id ix = SplToken.id -> issued ix ->
    acc_owner (get w' k) = acc_owner (get w k);
  law_transfer : forall mb p s d a amt ix infos seeds w w',
    SplToken.transfer p s d a [] amt = Ok ix -> u64 amt ->
    invoke_signed mb ix infos seeds w = Ok w' ->
    length (acc_data (get w s)) = ACCOUNT_LEN /\ length (acc_data (get w d)) = ACCOUNT_LEN /\
    same_token (get w s) (get w' s) /\ same_token (get w d) (get w' d) /\
    (s <> d -> amt <= token_amount (get w s) /\
               token_amount (get w' s) = token_amount (get w s) - amt /\
               token_amount (get w' d) = token_amount (get w d) + amt);
  law_mint_to : forall mb p m d a amt ix infos seeds w w',
    SplToken.mint_to p m d a [] amt = Ok ix -> u64 amt ->
    invoke_signed mb ix infos seeds w = Ok w' ->
    length (acc_data (get w m)) = MINT_LEN /\
    length (acc_data (get w' m)) = MINT_LEN /\
    mint_supply (get w' m) = mint_supply (get w m) + amt /\
    length (acc_data (get w d)) = ACCOUNT_LEN /\ same_token (get w d) (get w' d) /\ token_amount (get w' d) = token_amount (get w d) + amt;
  law_burn : forall mb p s m a amt ix infos seeds w w',
    SplToken.burn p s m a [] amt = Ok ix -> u64 amt ->
    invoke_signed mb ix infos seeds w = Ok w' ->
    length (acc_data (get w m)) = MINT_LEN /\
    length (acc_data (get w' m)) = MINT_LEN /\
    amt <= mint_supply (get w m) /\ mint_supply (get w' m) = mint_supply (get w m) - amt /\
    same_token (get w s) (get w' s) /\ token_amount (get w' s) = token_amount (get w s) - amt;
  law_initialize_mint : forall mb p m auth dec ix infos seeds w w',
    SplToken.initialize_mint p m auth None dec = Ok ix ->
    invoke_signed mb ix infos seeds w = Ok w' ->
    acc_owner (get w' m) = SplToken.id /\
    length (acc_data (get w' m)) = MINT_LEN /\ mint_supply (get w' m) = 0;
  law_initialize_account : forall mb p v m o ix infos seeds w w',
    SplToken.initialize_account p v m o = Ok ix ->
    invoke_signed mb ix infos seeds w = Ok w' ->
    length (acc_data (get w v)) = ACCOUNT_LEN /\ length (acc_data (get w' v)) = ACCOUNT_LEN /\
    acc_owner (get w' v) = SplToken.id /\ token_mint (get w' v) = m /\
    token_owner (get w' v) = o /\ token_state (get w' v) = 1 /\
    opens_with w m (get w' v) (token_amount (get w' v));

  (** The wrapper: a market stays a market, token accounts keep their identity,
      mints are not touched; TopUpInsurance takes exactly [amount] from
      [signer_ata], WithdrawInsuranceAsset pays exactly [amount] to
      [dest_token]. *)
  law_wrapper_owner : forall mb ix infos seeds w w' k,
    invoke_signed mb ix infos seeds w = Ok w' -> is_percolator (ix_program_id ix) = true ->
    acc_owner (get w k) = ix_program_id ix -> acc_owner (get w' k) = ix_program_id ix;
  law_wrapper_token : forall mb ix infos seeds w w' k,
    invoke_signed mb ix infos seeds w = Ok w' -> is_percolator (ix_program_id ix) = true ->
    acc_owner (get w k) = SplToken.id ->
    same_token (get w k) (get w' k) /\
    (length (acc_data (get w k)) = MINT_LEN -> same_state (get w k) (get w' k));
  law_top_up : forall mb p s sl v wv t amt infos seeds w w',
    is_percolator p.(ai_key) = true -> u64 amt ->
    invoke_signed mb (top_up_insurance_ix p s sl v wv t amt) infos seeds w = Ok w' ->
    amt <= token_amount (get w v.(ai_key)) /\
    token_amount (get w' v.(ai_key)) = token_amount (get w v.(ai_key)) - amt;
  law_withdraw_asset : forall mb p s m d wv wa t amt infos seeds w w',
    is_percolator p.(ai_key) = true -> u64 amt ->
    invoke_signed mb (withdraw_insurance_asset_ix p s m d wv wa t amt) infos seeds w = Ok w' ->
    token_amount (get w' d.(ai_key)) = token_amount (get w d.(ai_key)) + amt;
}.

(** ** A token program that serves

    The laws above are about calls that succeeded. These are about calls that do
    succeed. *)

Definition live_token (x : Account) : Prop :=
  acc_owner x = SplToken.id /\ length (acc_data x) = ACCOUNT_LEN /\ token_state x = 1.
Definition live_mint (x : Account) : Prop :=
  acc_owner x = SplToken.id /\ length (acc_data x) = MINT_LEN /\ byte_at 45 (acc_data x) = 1.

(** The key whose signature the mint's issues need. *)
Definition minted_by (x : Account) (k : Pubkey) : Prop :=
  le_val (slice 0 4 (acc_data x)) = 1 /\ slice 4 36 (acc_data x) = k.

(** A zeroed account of the token program. *)
Definition unmade (len : nat) (x : Account) : Prop :=
  acc_owner x = SplToken.id /\ acc_data x = replicate len 0.

(** It holds the rent for its length. *)
Definition exempt {RT : Runtime} (w : World) (k : Pubkey) : Prop :=
  forall r, rent_get w = Ok r ->
    let need := rent_minimum_balance r (Z.of_nat (length (acc_data (get w k)))) in
    0 <= need <= acc_lamports (get w k) /\ acc_lamports (get w k) <= U64_MAX.

(** The token program carries out a burn, a mint and a transfer whose accounts are
    live, whose authority signs, and whose amounts fit, and makes a mint or a token
    account of a zeroed one that holds the rent. An address of the program signs by
    its seeds. *)
Class TokenProgramServes {RT : Runtime} (program_id : Pubkey) : Prop := {
  burn_served : forall mb s m u tp tid lp ix w,
    SplToken.burn tid s.(ai_key) m.(ai_key) u.(ai_key) [] lp = Ok ix -> u64 lp -> world_ok w ->
    Forall (fun ai => ai.(ai_key) ∉ mb) [s; m; u] ->
    s.(ai_is_writable) = true -> m.(ai_is_writable) = true -> u.(ai_is_signer) = true ->
    live_token (get w s.(ai_key)) -> live_mint (get w m.(ai_key)) ->
    token_owner (get w s.(ai_key)) = u.(ai_key) -> token_mint (get w s.(ai_key)) = m.(ai_key) ->
    lp <= token_amount (get w s.(ai_key)) -> lp <= mint_supply (get w m.(ai_key)) ->
    exists w', invoke_signed mb ix [s; m; u; tp] [] w = Ok w';
  mint_to_served : forall mb m d a tp tid amt seeds bump ix w,
    SplToken.mint_to tid m.(ai_key) d.(ai_key) a.(ai_key) [] amt = Ok ix -> u64 amt -> world_ok w ->
    Forall (fun ai => ai.(ai_key) ∉ mb) [m; d; a] ->
    m.(ai_is_writable) = true -> d.(ai_is_writable) = true ->
    find_program_address seeds program_id = (a.(ai_key), bump) ->
    live_mint (get w m.(ai_key)) -> minted_by (get w m.(ai_key)) a.(ai_key) ->
    live_token (get w d.(ai_key)) -> token_mint (get w d.(ai_key)) = m.(ai_key) ->
    mint_supply (get w m.(ai_key)) + amt <= U64_MAX ->
    token_amount (get w d.(ai_key)) + amt <= U64_MAX ->
    exists w', invoke_signed mb ix [m; d; a; tp] [seeds ++ [[bump]]] w = Ok w';
  payment_served : forall mb s d u rest tid amt ix w,
    SplToken.transfer tid s.(ai_key) d.(ai_key) u.(ai_key) [] amt = Ok ix -> u64 amt -> world_ok w ->
    Forall (fun ai => ai.(ai_key) ∉ mb) [s; d; u] ->
    s.(ai_is_writable) = true -> d.(ai_is_writable) = true -> u.(ai_is_signer) = true ->
    s.(ai_key) <> d.(ai_key) ->
    live_token (get w s.(ai_key)) -> live_token (get w d.(ai_key)) ->
    token_owner (get w s.(ai_key)) = u.(ai_key) ->
    token_mint (get w s.(ai_key)) = token_mint (get w d.(ai_key)) ->
    amt <= token_amount (get w s.(ai_key)) ->
    token_amount (get w d.(ai_key)) + amt <= U64_MAX ->
    exists w', invoke_signed mb ix (s :: d :: u :: rest) [] w = Ok w';
  transfer_served : forall mb s d a tp tid amt seeds bump ix w,
    SplToken.transfer tid s.(ai_key) d.(ai_key) a.(ai_key) [] amt = Ok ix -> u64 amt -> world_ok w ->
    Forall (fun ai => ai.(ai_key) ∉ mb) [s; d; a] ->
    s.(ai_is_writable) = true -> d.(ai_is_writable) = true -> s.(ai_key) <> d.(ai_key) ->
    find_program_address seeds program_id = (a.(ai_key), bump) ->
    live_token (get w s.(ai_key)) -> live_token (get w d.(ai_key)) ->
    token_owner (get w s.(ai_key)) = a.(ai_key) ->
    token_mint (get w s.(ai_key)) = token_mint (get w d.(ai_key)) ->
    amt <= token_amount (get w s.(ai_key)) ->
    token_amount (get w d.(ai_key)) + amt <= U64_MAX ->
    exists w', invoke_signed mb ix [s; d; a; tp] [seeds ++ [[bump]]] w = Ok w';
  initialize_mint_served : forall mb m r tid auth dec seeds bump ix w,
    SplToken.initialize_mint tid m.(ai_key) auth None dec = Ok ix -> world_ok w ->
    m.(ai_key) ∉ mb -> r.(ai_key) ∉ mb -> m.(ai_is_writable) = true ->
    r.(ai_key) = RENT_SYSVAR_ID -> key_ok auth -> u8 dec ->
    fst (find_program_address seeds program_id) = auth ->
    snd (find_program_address seeds program_id) = bump ->
    unmade MINT_LEN (get w m.(ai_key)) -> exempt w m.(ai_key) ->
    exists w', invoke_signed mb ix [m; r] [seeds ++ [[bump]]] w = Ok w';
  initialize_account_served : forall mb v m o r tid seeds bump ix w,
    SplToken.initialize_account tid v.(ai_key) m.(ai_key) o.(ai_key) = Ok ix -> world_ok w ->
    Forall (fun ai => ai.(ai_key) ∉ mb) [v; m; o; r] -> v.(ai_is_writable) = true ->
    r.(ai_key) = RENT_SYSVAR_ID -> key_ok m.(ai_key) ->
    find_program_address seeds program_id = (o.(ai_key), bump) -> key_ok o.(ai_key) ->
    unmade ACCOUNT_LEN (get w v.(ai_key)) -> exempt w v.(ai_key) ->
    live_mint (get w m.(ai_key)) ->
    exists w', invoke_signed mb ix [v; m; o; r] [seeds ++ [[bump]]] w = Ok w';
}.

(** An address nobody has allocated: the system program's, without data. *)
Definition unallocated (x : Account) : Prop := acc_owner x = SYSTEM_PROGRAM_ID /\ acc_data x = [].

(** The system program carries out a payment out of a wallet that signs and holds
    it, and makes an account of an unallocated address of the program, which signs
    by its seeds. The sysvars are read from their own accounts, and a call changes
    none of them. *)
Class SystemServes {RT : Runtime} (program_id : Pubkey) : Prop := {
  clock_is_read : forall ai w w', get w' ai.(ai_key) = get w ai.(ai_key) ->
    clock_from_account_info ai w' = clock_from_account_info ai w;
  rent_served : forall w, exists r, rent_get w = Ok r;
  rent_is_read : forall ai w, ai.(ai_key) = RENT_SYSVAR_ID ->
    exists r, rent_from_account_info ai w = Ok r;
  system_writes : forall p t n s o,
    writable_keys (system_create_account p t n s o) = [p; t] /\
    writable_keys (system_transfer p t n) = [p; t] /\
    writable_keys (system_allocate t s) = [t] /\ writable_keys (system_assign t o) = [t];
  create_served : forall mb p t sp n s o seeds bump w,
    sp.(ai_key) = SYSTEM_PROGRAM_ID -> world_ok w -> p.(ai_key) ∉ mb -> t.(ai_key) ∉ mb ->
    p.(ai_is_signer) = true -> p.(ai_is_writable) = true -> t.(ai_is_writable) = true ->
    p.(ai_key) <> t.(ai_key) -> find_program_address seeds program_id = (t.(ai_key), bump) ->
    unallocated (get w p.(ai_key)) -> unallocated (get w t.(ai_key)) ->
    acc_lamports (get w t.(ai_key)) = 0 -> 0 <= n <= acc_lamports (get w p.(ai_key)) ->
    exists w', invoke_signed mb (system_create_account p.(ai_key) t.(ai_key) n (Z.of_nat s) o)
                 [p; t; sp] [seeds ++ [[bump]]] w = Ok w';
  fund_served : forall mb p t sp n w,
    sp.(ai_key) = SYSTEM_PROGRAM_ID -> world_ok w -> p.(ai_key) ∉ mb -> t.(ai_key) ∉ mb ->
    p.(ai_is_signer) = true -> p.(ai_is_writable) = true -> t.(ai_is_writable) = true ->
    p.(ai_key) <> t.(ai_key) ->
    unallocated (get w p.(ai_key)) -> unallocated (get w t.(ai_key)) ->
    0 <= n <= acc_lamports (get w p.(ai_key)) ->
    exists w', invoke_signed mb (system_transfer p.(ai_key) t.(ai_key) n) [p; t; sp] [] w = Ok w' /\
               same_state (get w t.(ai_key)) (get w' t.(ai_key));
  allocate_served : forall mb t sp s seeds bump w,
    sp.(ai_key) = SYSTEM_PROGRAM_ID -> world_ok w -> t.(ai_key) ∉ mb ->
    t.(ai_is_writable) = true -> find_program_address seeds program_id = (t.(ai_key), bump) ->
    unallocated (get w t.(ai_key)) ->
    exists w', invoke_signed mb (system_allocate t.(ai_key) (Z.of_nat s)) [t; sp]
                 [seeds ++ [[bump]]] w = Ok w' /\
               acc_owner (get w' t.(ai_key)) = SYSTEM_PROGRAM_ID;
  assign_served : forall mb t sp o seeds bump w,
    sp.(ai_key) = SYSTEM_PROGRAM_ID -> world_ok w -> t.(ai_key) ∉ mb ->
    t.(ai_is_writable) = true -> find_program_address seeds program_id = (t.(ai_key), bump) ->
    acc_owner (get w t.(ai_key)) = SYSTEM_PROGRAM_ID -> blank (get w t.(ai_key)) ->
    exists w', invoke_signed mb (system_assign t.(ai_key) o) [t; sp] [seeds ++ [[bump]]] w = Ok w';
}.

(** ** Consequences *)

(** An instruction of one of the five builders. *)
Ltac issued_by H := injection H as <-; unfold issued; cbn; set_solver-.

Section Consequences.
Context {RT : Runtime} {BC : BuildConfig} {program_id : Pubkey} {RL : RuntimeLaws program_id}.

Lemma spl_not_system : SplToken.id <> SYSTEM_PROGRAM_ID.
Proof. done. Qed.

Lemma is_percolator_not_own k : is_percolator k = true -> k <> program_id.
Proof. intros Hk ->. by rewrite law_id_wrapper in Hk. Qed.

Lemma is_percolator_ids k : is_percolator k = true -> k <> SplToken.id /\ k <> SYSTEM_PROGRAM_ID.
Proof.
  unfold is_percolator. intros [Hk|[_ Hk]%andb_true_iff]%orb_true_iff;
    apply key_eqb_eq in Hk as ->; split; done.
Qed.

(** Creating a program account touches neither program-owned nor
    token-owned accounts. *)
Lemma create_or_adopt_pda_frame mb t p s o sp seeds w w' k :
  create_or_adopt_pda mb t p s o sp seeds w = Ok w' ->
  acc_owner (get w k) <> SYSTEM_PROGRAM_ID -> same_state (get w k) (get w' k).
Proof.
  intros Hc Hk. unfold create_or_adopt_pda in Hc.
  apply bind_Ok in Hc as (rent & _ & Hc).
  destruct (law_system_ids (ai_key p) (ai_key t) (rent_minimum_balance rent sp) sp o)
    as (Hic & _ & _ & _).
  destruct (ai_lamports w t =? 0); [by eapply law_system|].
  destruct (law_system_ids (ai_key t) (ai_key t) 0 sp o) as (_ & _ & Hia & Hig).
  apply bind_Ok in Hc as (w1 & H1 & Hc). apply bind_Ok in Hc as (w2 & H2 & Hc).
  assert (Hs1 : same_state (get w k) (get w1 k)).
  { destruct (_ <? _); [|by injection H1 as ->].
    eapply law_system; [done| |done]. by apply law_system_ids. }
  assert (Hs2 : same_state (get w1 k) (get w2 k)).
  { eapply law_system; [done|done|]. destruct Hs1 as [<- _]. done. }
  assert (Hs3 : same_state (get w2 k) (get w' k)).
  { eapply law_system; [done|done|]. destruct Hs1 as [E1 _], Hs2 as [<- _]. congruence. }
  by rewrite Hs1, Hs2.
Qed.

(** Whichever way it is made, the account is the program's and zeroed. *)
Lemma create_or_adopt_pda_target mb t p s o sp seeds w w' :
  create_or_adopt_pda mb t p s o sp seeds w = Ok w' ->
  acc_owner (get w' (ai_key t)) = o /\
  acc_data (get w' (ai_key t)) = replicate (Z.to_nat sp) 0.
Proof.
  intros Hc. unfold create_or_adopt_pda in Hc. apply bind_Ok in Hc as (rent & _ & Hc).
  destruct (ai_lamports w t =? 0); [by eapply law_create|].
  apply bind_Ok in Hc as (w1 & _ & Hc). apply bind_Ok in Hc as (w2 & H2 & Hc).
  apply law_allocate in H2. apply law_assign in Hc as [-> ->]. done.
Qed.

Lemma create_or_adopt_pda_bytes mb t p s o sp seeds w w' :
  create_or_adopt_pda mb t p s o sp seeds w = Ok w' -> world_ok w -> world_ok w'.
Proof.
  intros Hc Hw. unfold create_or_adopt_pda in Hc.
  apply bind_Ok in Hc as (rent & _ & Hc). destruct (ai_lamports w t =? 0).
  - by eapply law_bytes.
  - apply bind_Ok in Hc as (w1 & H1 & Hc). apply bind_Ok in Hc as (w2 & H2 & Hc).
    assert (world_ok w1) by (destruct (_ <? _); [by eapply law_bytes|by injection H1 as <-]).
    eapply law_bytes; [done|]. by eapply law_bytes.
Qed.

Lemma create_or_adopt_pda_rent mb t p s o sp seeds w w' :
  create_or_adopt_pda mb t p s o sp seeds w = Ok w' -> rent_get w' = rent_get w.
Proof.
  intros Hc. unfold create_or_adopt_pda in Hc.
  apply bind_Ok in Hc as (rent & _ & Hc). destruct (ai_lamports w t =? 0); [by eapply law_rent|].
  apply bind_Ok in Hc as (w1 & H1 & Hc). apply bind_Ok in Hc as (w2 & H2 & Hc).
  rewrite (law_rent _ _ _ _ _ _ Hc), (law_rent _ _ _ _ _ _ H2).
  destruct (_ <? _); [by eapply law_rent|by injection H1 as <-].
Qed.

Lemma opens_with_rent w w' m x n :
  rent_get w' = rent_get w -> opens_with w' m x n -> opens_with w m x n.
Proof. unfold opens_with. intros ->. done. Qed.
End Consequences.
