(* ===== verification/Backing.v ===== *)
(** * The vault backs the pool

    [bound pk w]: the account [pk] of the store [w] is a live pool record whose
    vault, LP mint and market are the accounts InitPool set up. [backed pk w]
    adds that the vault holds at least the value the pool prices shares
    against. Every instruction of the program preserves it. *)

From S2P Require Import Prelude Errors Math State PoolFacts Instruction Runtime SplToken Cpi Guards.
From S2P Require Import Fees Deposit Withdraw Insurance Admin Proxy Init Processor Ledger.
From S2P Require Import LedgerFacts Laws.

Definition pool_at (pk : Pubkey) (w : World) : StakePool :=
  pool_decode (slice 0 STAKE_POOL_SIZE (acc_data (get w pk))).

Definition vault_auth_of `{Runtime} (program_id pk : Pubkey) : Pubkey :=
  fst (derive_vault_authority program_id pk).

Record bound `{Runtime} `{BuildConfig} (program_id pk : Pubkey) (w : World) : Prop := {
  bd_owner : acc_owner (get w pk) = program_id;
  bd_len : (STAKE_POOL_SIZE <= length (acc_data (get w pk)))%nat;
  bd_check : check_pool (pool_at pk w) = Ok tt;
  bd_wrapper : is_percolator (pool_at pk w).(sp_percolator_program) = true;
  bd_vault_owner : acc_owner (get w (pool_at pk w).(sp_vault)) = SplToken.id;
  bd_vault_len : length (acc_data (get w (pool_at pk w).(sp_vault))) = ACCOUNT_LEN;
  bd_vault_auth : token_owner (get w (pool_at pk w).(sp_vault)) = vault_auth_of program_id pk;
  bd_mint_owner : acc_owner (get w (pool_at pk w).(sp_lp_mint)) = SplToken.id;
  bd_mint_len : length (acc_data (get w (pool_at pk w).(sp_lp_mint))) = MINT_LEN;
  bd_slab : (pool_at pk w).(sp_slab) <> (pool_at pk w).(sp_vault);
}.

(** The vault's balance. *)
Definition vault_amount (pk : Pubkey) (w : World) : Z :=
  token_amount (get w (pool_at pk w).(sp_vault)).

(** The LP mint's supply. *)
Definition mint_amount (pk : Pubkey) (w : World) : Z :=
  mint_supply (get w (pool_at pk w).(sp_lp_mint)).

(** The ledger a store holds for the pool. *)
Definition ledger_of (pk : Pubkey) (w : World) : Ledger :=
  mkLedger (pool_at pk w) (vault_amount pk w) (mint_amount pk w).

Record backed `{Runtime} `{BuildConfig} (program_id pk : Pubkey) (w : World) : Prop := {
  bk_world : world_ok w;
  bk_bound : bound program_id pk w;
  bk_value : raw_value (pool_at pk w) <= vault_amount pk w;
}.

(** No signer of the transaction is the pool's [vault_auth] address: program
    addresses have no private key. *)
Definition signers_ok `{Runtime} (program_id pk : Pubkey) (accounts : list AccountInfo) : Prop :=
  Forall (fun ai => ai.(ai_is_signer) = true -> ai.(ai_key) <> vault_auth_of program_id pk) accounts.

(** Every account key is 32 bytes. *)
Definition keys_ok (accounts : list AccountInfo) : Prop :=
  Forall (fun ai => key_ok ai.(ai_key)) accounts.

(** The account an instruction operates on as its pool. *)
Definition targets (n : nat) (accounts : list AccountInfo) (pk : Pubkey) : Prop :=
  exists ai, accounts !! n = Some ai /\ ai.(ai_key) = pk.

(** ** Reading and storing the record *)

Lemma world_ok_set_data k d w : world_ok w -> bytes_ok d -> world_ok (set_data k d w).
Proof.
  intros Hw Hd k'. destruct (decide (k = k')) as [<-|].
  - rewrite get_set_data_eq. done.
  - rewrite get_set_data_ne by done. apply Hw.
Qed.

Lemma world_ok_store_pool k p w : world_ok w -> wf_pool p -> world_ok (store_pool k p w).
Proof.
  intros. apply world_ok_set_data; [done|].
  apply bytes_ok_splice; [by apply bytes_ok_pool_encode|done].
Qed.

Lemma world_ok_store_deposit k d w : world_ok w -> wf_deposit d -> world_ok (store_deposit k d w).
Proof.
  intros. apply world_ok_set_data; [done|].
  apply bytes_ok_splice; [by apply bytes_ok_deposit_encode|done].
Qed.

Lemma pool_at_store k p w :
  wf_pool p -> (STAKE_POOL_SIZE <= length (acc_data (get w k)))%nat ->
  pool_at k (store_pool k p w) = p.
Proof.
  intros Hp Hl. unfold pool_at, store_pool. rewrite get_set_data_eq. cbn [acc_data].
  pose proof (pool_from_data_splice p _ Hp Hl) as [_ E]%pool_from_data_Ok. done.
Qed.

Lemma wf_pool_at pk w :
  world_ok w -> (STAKE_POOL_SIZE <= length (acc_data (get w pk)))%nat -> wf_pool (pool_at pk w).
Proof.
  intros Hw Hl. apply (pool_from_data_wf (acc_data (get w pk))); [done|].
  by apply pool_from_data_Ok.
Qed.

(** What the record is and what it is bound to: [pool_ident] without the mode
    and the bumps. *)
Definition pool_binding (p : StakePool) :=
  (p.(sp_is_initialized), rv_discriminator (rview p), rv_version (rview p),
   (p.(sp_slab), p.(sp_collateral_mint), p.(sp_lp_mint), p.(sp_vault),
    p.(sp_percolator_program))).

Lemma pool_ident_binding p q : pool_ident p = pool_ident q -> pool_binding p = pool_binding q.
Proof.
  intros E.
  assert (forall x, pool_binding x = let '(i, d, v, _, k) := pool_ident x in (i, d, v, k))
    as Hx by done.
  by rewrite !Hx, E.
Qed.

Lemma check_pool_binding p q : pool_binding p = pool_binding q -> check_pool p = check_pool q.
Proof.
  intros E.
  assert (forall x, check_pool x =
    (let '(i, d, v, _) := pool_binding x in
     ensure i =? 1 or_err stake_err NotInitialized;
     ensure bool_decide (d = STAKE_POOL_DISCRIMINATOR) or_err stake_err InvalidAccount;
     ensure v =? CURRENT_VERSION or_err stake_err InvalidAccount; Ok tt)) as Hx by done.
  by rewrite !Hx, E.
Qed.

Lemma open_pool_Ok mb ai w p :
  open_pool mb ai w = Ok p ->
  p = pool_at ai.(ai_key) w /\ (STAKE_POOL_SIZE <= length (acc_data (get w ai.(ai_key))))%nat /\
  check_pool p = Ok tt.
Proof.
  unfold open_pool. intros (d & [_ ->]%try_borrow_data_Ok & H)%bind_Ok.
  apply bind_Ok in H as (q & [Hl ->]%pool_from_data_Ok & H).
  apply bind_Ok in H as ([] & Hc & [= <-]). done.
Qed.

(** ** Stores that a step leaves usable *)

(** [keeps pk w w']: what the CPIs of a handler may do to the pool's accounts
    before the record is stored. *)
Record keeps (pk : Pubkey) (w w' : World) : Prop := {
  kp_world : world_ok w -> world_ok w';
  kp_pool : same_state (get w pk) (get w' pk);
  kp_vault : same_token (get w (pool_at pk w).(sp_vault)) (get w' (pool_at pk w).(sp_vault));
  kp_mint_owner : acc_owner (get w' (pool_at pk w).(sp_lp_mint))
                  = acc_owner (get w (pool_at pk w).(sp_lp_mint));
  kp_mint_len : length (acc_data (get w' (pool_at pk w).(sp_lp_mint)))
                = length (acc_data (get w (pool_at pk w).(sp_lp_mint)));
}.

Lemma same_state_pool_at pk w w' : same_state (get w pk) (get w' pk) -> pool_at pk w' = pool_at pk w.
Proof. intros [_ Hd]. unfold pool_at. by rewrite Hd. Qed.

Lemma keeps_refl pk w : keeps pk w w.
Proof. split; done. Qed.

Lemma keeps_trans pk w w1 w2 : keeps pk w w1 -> keeps pk w1 w2 -> keeps pk w w2.
Proof.
  intros [A1 A2 A3 A4 A5] [B1 B2 B3 B4 B5].
  pose proof (same_state_pool_at _ _ _ A2) as E. rewrite E in *.
  split; [auto|by rewrite A2|by rewrite A3|congruence|congruence].
Qed.

Section Keeps.
Context {RT : Runtime} {BC : BuildConfig} {program_id : Pubkey} {RL : RuntimeLaws program_id}.
Context (pk : Pubkey).

Lemma keeps_bound w w' : bound program_id pk w -> keeps pk w w' -> bound program_id pk w'.
Proof.
  intros [O L C W VO VL VA MO ML S] [_ Kp (Kv1 & Kv2 & _ & Kv4 & _) Ko Kl].
  pose proof (same_state_pool_at _ _ _ Kp) as E. destruct Kp as [Kp1 Kp2].
  split; rewrite ?E, <- ?Kp1, <- ?Kp2; congruence || done.
Qed.

Lemma bound_vault_mint w :
  bound program_id pk w -> (pool_at pk w).(sp_vault) <> (pool_at pk w).(sp_lp_mint).
Proof. intros [O L C W VO VL VA MO ML S] E. rewrite E, ML in VL. discriminate VL. Qed.

Lemma bound_pool_vault w : bound program_id pk w -> pk <> (pool_at pk w).(sp_vault).
Proof. intros [O L C W VO VL VA MO ML S] E. rewrite <- E, O in VO. by apply law_id_spl. Qed.

Lemma bound_pool_mint w : bound program_id pk w -> pk <> (pool_at pk w).(sp_lp_mint).
Proof. intros [O L C W VO VL VA MO ML S] E. rewrite <- E, O in MO. by apply law_id_spl. Qed.

(** Storing an updated record of the same identity keeps the binding. *)
Lemma bound_store w p :
  bound program_id pk w -> world_ok w -> wf_pool p ->
  pool_binding p = pool_binding (pool_at pk w) -> bound program_id pk (store_pool pk p w).
Proof.
  intros B Hw Hp Hi. pose proof (bound_pool_vault w B) as N1.
  pose proof (bound_pool_mint w B) as N2. destruct B as [O L C W VO VL VA MO ML S].
  pose proof (pool_at_store pk p w Hp L) as E. pose proof (check_pool_binding _ _ Hi) as Ec.
  assert (sp_slab p = sp_slab (pool_at pk w) /\ sp_lp_mint p = sp_lp_mint (pool_at pk w) /\
          sp_vault p = sp_vault (pool_at pk w) /\
          sp_percolator_program p = sp_percolator_program (pool_at pk w)) as (I1 & I2 & I3 & I4)
    by (unfold pool_binding in Hi; split_and!; congruence).
  split; rewrite ?E, ?I1, ?I2, ?I3, ?I4.
  - unfold store_pool. rewrite acc_owner_set_data. done.
  - unfold store_pool. rewrite get_set_data_eq. cbn [acc_data]. rewrite length_splice; [done|].
    rewrite length_pool_encode by done. done.
  - by rewrite Ec.
  - done.
  - unfold store_pool. by rewrite acc_owner_set_data.
  - unfold store_pool. by rewrite get_set_data_ne.
  - unfold store_pool. by rewrite get_set_data_ne.
  - unfold store_pool. by rewrite acc_owner_set_data.
  - unfold store_pool. by rewrite get_set_data_ne.
  - done.
Qed.

(** What a store of the record leaves of the ledger. *)
Lemma ledger_of_store w p :
  bound program_id pk w -> wf_pool p -> pool_binding p = pool_binding (pool_at pk w) ->
  ledger_of pk (store_pool pk p w) = mkLedger p (vault_amount pk w) (mint_amount pk w).
Proof.
  intros B Hp Hi. pose proof (pool_at_store pk p w Hp (bd_len _ _ _ B)) as Ep.
  assert (sp_vault p = sp_vault (pool_at pk w) /\ sp_lp_mint p = sp_lp_mint (pool_at pk w))
    as [Ev Em] by (unfold pool_binding in Hi; split; congruence).
  pose proof (bound_pool_vault _ B). pose proof (bound_pool_mint _ B).
  unfold ledger_of, vault_amount, mint_amount. rewrite Ep, Ev, Em. unfold store_pool.
  by rewrite !get_set_data_ne.
Qed.

(** The step lemma of the invariant: a store over a live pool. *)
Lemma backed_store w p :
  world_ok w -> bound program_id pk w -> wf_pool p ->
  pool_binding p = pool_binding (pool_at pk w) -> raw_value p <= vault_amount pk w ->
  backed program_id pk (store_pool pk p w).
Proof.
  intros Hw B Hp Hi Hv. pose proof (ledger_of_store w p B Hp Hi) as E.
  assert (lg_pool (ledger_of pk (store_pool pk p w)) = p) as Ep by (by rewrite E).
  assert (lg_vault (ledger_of pk (store_pool pk p w)) = vault_amount pk w) as Ev by (by rewrite E).
  cbn in Ep, Ev. split; [by apply world_ok_store_pool|by apply bound_store|].
  by rewrite Ep, Ev.
Qed.

(** [flow w w' dv dm]: CPIs that keep the pool's accounts, move [dv] tokens
    into the vault and mint [dm] LP tokens. *)
Record flow (w w' : World) (dv dm : Z) : Prop := {
  fl_keeps : keeps pk w w';
  fl_vault : vault_amount pk w' = vault_amount pk w + dv;
  fl_mint : mint_amount pk w' = mint_amount pk w + dm;
}.

Lemma flow_pool w w' dv dm : flow w w' dv dm -> pool_at pk w' = pool_at pk w.
Proof. intros F. apply same_state_pool_at, F. Qed.

Lemma flow_refl w : flow w w 0 0.
Proof. split; [apply keeps_refl|lia|lia]. Qed.

Lemma flow_trans w w1 w2 v1 m1 v2 m2 v m :
  flow w w1 v1 m1 -> flow w1 w2 v2 m2 -> v = v1 + v2 -> m = m1 + m2 -> flow w w2 v m.
Proof. intros [K1 V1 M1] [K2 V2 M2] -> ->. split; [by eapply keeps_trans|lia|lia]. Qed.

(** A [flow] from what it leaves in the two accounts. *)
Lemma flow_intro w w' dv dm :
  keeps pk w w' ->
  token_amount (get w' (sp_vault (pool_at pk w))) = vault_amount pk w + dv ->
  mint_supply (get w' (sp_lp_mint (pool_at pk w))) = mint_amount pk w + dm ->
  flow w w' dv dm.
Proof.
  intros K Hv Hm. pose proof (same_state_pool_at _ _ _ (kp_pool _ _ _ K)) as E.
  split; [done|unfold vault_amount at 1; by rewrite E|unfold mint_amount at 1; by rewrite E].
Qed.

(** Storing some other program-owned account leaves the pool's accounts. *)
Lemma flow_store_deposit w k d :
  bound program_id pk w -> k <> pk -> acc_owner (get w k) = program_id -> wf_deposit d ->
  flow w (store_deposit k d w) 0 0.
Proof.
  intros B Nk Ok Hd. destruct B as [O L C W VO VL VA MO ML S].
  assert (k <> sp_vault (pool_at pk w)) by (intros ->; rewrite Ok in VO; by apply law_id_spl).
  assert (k <> sp_lp_mint (pool_at pk w)) by (intros ->; rewrite Ok in MO; by apply law_id_spl).
  apply flow_intro; [|by unfold store_deposit; rewrite get_set_data_ne, Z.add_0_r..].
  split; [intros; by apply world_ok_store_deposit| | | |]; unfold store_deposit;
    by rewrite get_set_data_ne.
Qed.
End Keeps.

(** ** Refinement of the ledger *)

(** The keys that signed. *)
Definition signed (accounts : list AccountInfo) (k : Pubkey) : Prop :=
  exists ai, ai ∈ accounts /\ ai.(ai_key) = k /\ ai.(ai_is_signer) = true.

(** The clock of the step: the one an account of the transaction holds, for the
    handlers that read it before their CPIs. *)
Definition clock_ok `{Runtime} (accounts : list AccountInfo) (i : StakeInstruction) (w : World)
    (clk : Clock) : Prop :=
  match i with
  | ProposeCooldownIncrease _ | CommitCooldownIncrease | AccrueFees | Instruction.Withdraw _ =>
      exists ai, ai ∈ accounts /\ clock_from_account_info ai w = Ok clk
  | _ => True
  end.

(** [refines accounts i w w']: the handler of [i] took the ledger step, with
    the signature it needs, and wrote its result. *)
Record refines `{Runtime} (pk : Pubkey) (accounts : list AccountInfo) (i : StakeInstruction)
    (w w' : World) : Prop := {
  rf_authorized : authorized (signed accounts) i (pool_at pk w);
  rf_step : exists clk j dv dm w1 q,
    wf_clock clk /\ clock_ok accounts i w clk /\ flow pk w w1 dv dm /\
    ledger_step clk j i (ledger_of pk w)
      = Ok (mkLedger q (vault_amount pk w + dv) (mint_amount pk w + dm)) /\
    (w' = store_pool pk q w1 \/ w' = w1 /\ q = pool_at pk w);
}.

(** ** Inversion of the prologues *)

Section Prologues.
Context {RT : Runtime} (program_id : Pubkey).

Lemma require_signer_Ok ai : require_signer ai = Ok tt <-> ai.(ai_is_signer) = true.
Proof. apply unit_ensure. Qed.

Lemma validate_account_owner_Ok ai o w :
  validate_account_owner ai o w = Ok tt <-> acc_owner (get w ai.(ai_key)) = o.
Proof. unfold validate_account_owner. by rewrite unit_ensure, key_eqb_eq. Qed.

Lemma validate_account_writable_Ok ai :
  validate_account_writable ai = Ok tt <-> ai.(ai_is_writable) = true.
Proof. apply unit_ensure. Qed.

Lemma validate_pool_mut_Ok ai w :
  validate_pool_mut program_id ai w = Ok tt ->
  acc_owner (get w ai.(ai_key)) = program_id /\ ai.(ai_is_writable) = true.
Proof.
  unfold validate_pool_mut. intros ([] & ?%validate_account_owner_Ok & H)%bind_Ok.
  by apply bind_Ok in H as ([] & _ & H%validate_account_writable_Ok).
Qed.

Lemma open_pool_as_admin_Ok admin ai w p :
  open_pool_as_admin program_id admin ai w = Ok p ->
  p = pool_at ai.(ai_key) w /\ admin.(ai_is_signer) = true /\
  p.(sp_admin) = admin.(ai_key) /\ ai.(ai_is_writable) = true /\
  acc_owner (get w ai.(ai_key)) = program_id.
Proof.
  unfold open_pool_as_admin. intros ([] & Hs%require_signer_Ok & H)%bind_Ok.
  apply bind_Ok in H as ([] & [Ho Hw]%validate_pool_mut_Ok & H).
  apply bind_Ok in H as (q & (-> & _ & _)%open_pool_Ok & H).
  apply ensure_Ok in H as [Ha%key_eqb_eq [= <-]]. done.
Qed.

Lemma open_pool_with_clock_Ok admin ai clk w c p :
  open_pool_with_clock program_id admin ai clk w = Ok (c, p) ->
  p = pool_at ai.(ai_key) w /\ admin.(ai_is_signer) = true /\
  p.(sp_admin) = admin.(ai_key) /\ ai.(ai_is_writable) = true /\
  acc_owner (get w ai.(ai_key)) = program_id /\ clock_from_account_info clk w = Ok c.
Proof.
  unfold open_pool_with_clock. intros ([] & Hs%require_signer_Ok & H)%bind_Ok.
  apply bind_Ok in H as ([] & [Ho Hw]%validate_pool_mut_Ok & H).
  apply bind_Ok in H as (c' & Hc & H).
  apply bind_Ok in H as (q & (-> & _ & _)%open_pool_Ok & H).
  apply ensure_Ok in H as [Ha%key_eqb_eq [= <- <-]]. done.
Qed.

Lemma open_pool_read_Ok admin ai w p :
  open_pool_read program_id admin ai w = Ok p ->
  p = pool_at ai.(ai_key) w /\ p.(sp_admin) = admin.(ai_key) /\
  acc_owner (get w ai.(ai_key)) = program_id.
Proof.
  unfold open_pool_read. intros ([] & ?%validate_account_owner_Ok & H)%bind_Ok.
  apply bind_Ok in H as ([] & _ & H).
  apply bind_Ok in H as (q & (-> & _ & _)%open_pool_Ok & H).
  apply ensure_Ok in H as [Ha%key_eqb_eq [= <-]]. done.
Qed.

Lemma check_market_Ok p slab perc :
  check_market p slab perc = Ok tt <->
  p.(sp_slab) = slab.(ai_key) /\ p.(sp_percolator_program) = perc.(ai_key).
Proof. unfold check_market. rewrite !ensure_Ok, !key_eqb_eq. naive_solver. Qed.

Lemma vault_auth_seeds_for_Ok pool_pda va seeds :
  vault_auth_seeds_for program_id pool_pda va = Ok seeds ->
  va.(ai_key) = vault_auth_of program_id pool_pda.(ai_key).
Proof.
  unfold vault_auth_seeds_for, vault_auth_of.
  destruct (derive_vault_authority _ _) as [k b]. by intros [->%key_eqb_eq _]%ensure_Ok.
Qed.

Lemma check_token_account_Ok mb ai spl mint e o w :
  check_token_account mb ai spl mint e o w = Ok tt ->
  ai.(ai_key) ∉ mb /\ (ACCOUNT_LEN <= length (acc_data (get w ai.(ai_key))))%nat /\
  (spl = true -> acc_owner (get w ai.(ai_key)) = SplToken.id) /\
  token_mint (get w ai.(ai_key)) = mint /\
  (forall k, o = Some k -> token_owner (get w ai.(ai_key)) = k).
Proof.
  unfold check_token_account. intros [Hs H]%ensure_Ok.
  apply bind_Ok in H as (d & [Hb ->]%try_borrow_data_Ok & H).
  apply ensure_Ok in H as [Hl H]. bool_prop.
  apply bind_Ok in H as (x & ->%index_range_Ok & H). apply ensure_Ok in H as [Hm%key_eqb_eq H].
  unfold ai_data in *. split_and!; [done|lia| |done|].
  - intros ->. by apply orb_true_iff in Hs as [?|?%key_eqb_eq].
  - intros k ->. apply bind_Ok in H as (y & ->%index_range_Ok & H).
    by apply ensure_Ok in H as [?%key_eqb_eq _].
Qed.
End Prologues.
