(* ===== verification/BackingSteps.v ===== *)
(** * The handlers refine the ledger

    CPI by CPI ([flow]), then handler by handler: administration, wrapper
    proxies, insurance flows and accrual. Deposits and withdrawals are in
    [BackingLp]. *)

From S2P Require Import Prelude Errors Math State PoolFacts Instruction Runtime SplToken Cpi Guards.
From S2P Require Import Fees Deposit Withdraw Insurance Admin Proxy Init Processor Ledger.
From S2P Require Import LedgerFacts Laws Backing.

Lemma not_in_2 (k a b : Pubkey) : k <> a -> k <> b -> k ∉ [a; b].
Proof. set_solver. Qed.

Lemma in_1 {A} (a : A) l : a ∈ a :: l.
Proof. set_solver. Qed.
Lemma in_3 {A} (a b c : A) l : c ∈ a :: b :: c :: l.
Proof. set_solver. Qed.
Lemma in_4 {A} (a b c d : A) l : d ∈ a :: b :: c :: d :: l.
Proof. set_solver. Qed.

Section Calls.
Context {RT : Runtime} {BC : BuildConfig} {program_id : Pubkey} {RL : RuntimeLaws program_id}.
Context (pk : Pubkey).

(** A token-program call that keeps the vault's identity and the mint's
    length keeps the pool's accounts. *)
Lemma keeps_spl mb ix infos seeds w w' :
  bound program_id pk w -> ix_program_id ix = SplToken.id -> issued ix ->
  invoke_signed mb ix infos seeds w = Ok w' ->
  same_token (get w (pool_at pk w).(sp_vault)) (get w' (pool_at pk w).(sp_vault)) ->
  length (acc_data (get w' (pool_at pk w).(sp_lp_mint))) = MINT_LEN ->
  keeps pk w w'.
Proof.
  intros B Hp Hi Hc Hv Hm. destruct B as [O L C W VO VL VA MO ML S].
  split; [by eapply law_bytes| |done|exact (law_spl_owner _ _ _ _ _ _ _ Hc Hp Hi)|congruence].
  eapply law_own; [done|rewrite Hp; apply law_id_spl|done].
Qed.

(** A mint is not a token account. *)
Lemma mint_not_token w k :
  bound program_id pk w -> length (acc_data (get w k)) = ACCOUNT_LEN ->
  k <> (pool_at pk w).(sp_lp_mint).
Proof. intros B Hl ->. rewrite (bd_mint_len _ _ _ B) in Hl. discriminate Hl. Qed.

(** A transfer: what it does to the vault depends on the side it is on. *)
Lemma flow_transfer mb p s d a amt ix infos seeds w w' dv :
  bound program_id pk w -> SplToken.transfer p s d a [] amt = Ok ix -> u64 amt -> s <> d ->
  dv = (if decide (s = (pool_at pk w).(sp_vault)) then - amt else
        if decide (d = (pool_at pk w).(sp_vault)) then amt else 0) ->
  invoke_signed mb ix infos seeds w = Ok w' ->
  flow pk w w' dv 0 /\ (s = (pool_at pk w).(sp_vault) -> amt <= vault_amount pk w).
Proof.
  intros B Hi Ha Hne -> Hc.
  destruct (law_transfer _ _ _ _ _ _ _ _ _ _ _ Hi Ha Hc) as (Ls & Ld & Hs & Hd & Hamt).
  destruct (Hamt Hne) as (Hle & Hs' & Hd').
  pose proof (mint_not_token _ _ B Ls) as Ns. pose proof (mint_not_token _ _ B Ld) as Nd.
  assert (F : forall k, k <> s -> k <> d -> get w' k = get w k).
  { intros. apply (law_frame _ _ _ _ _ _ _ Hc). injection Hi as <-. cbn. set_solver. }
  pose proof (F _ (not_eq_sym Ns) (not_eq_sym Nd)) as Fm.
  split; [|intros ->; done]. apply flow_intro; [| |by rewrite Fm, Z.add_0_r].
  - eapply (keeps_spl _ ix); [done|by injection Hi as <-|by issued_by Hi|exact Hc| |by rewrite Fm; apply B].
    destruct (decide (sp_vault (pool_at pk w) = s)) as [->|]; [done|].
    destruct (decide (sp_vault (pool_at pk w) = d)) as [->|]; [done|]. by rewrite F.
  - unfold vault_amount. destruct (decide (s = _)) as [<-|]; [lia|].
    destruct (decide (d = _)) as [<-|]; [done|]. rewrite F by congruence. lia.
Qed.

Lemma flow_mint_to mb p m d a amt ix infos seeds w w' :
  bound program_id pk w -> m = (pool_at pk w).(sp_lp_mint) -> d <> (pool_at pk w).(sp_vault) ->
  SplToken.mint_to p m d a [] amt = Ok ix -> u64 amt ->
  invoke_signed mb ix infos seeds w = Ok w' -> flow pk w w' 0 amt.
Proof.
  intros B -> Nd Hi Ha Hc.
  destruct (law_mint_to _ _ _ _ _ _ _ _ _ _ _ Hi Ha Hc) as (_ & Hm & Hs & _).
  pose proof (bound_vault_mint pk w B) as N.
  assert (Hv : get w' (sp_vault (pool_at pk w)) = get w (sp_vault (pool_at pk w))).
  { apply (law_frame _ _ _ _ _ _ _ Hc). injection Hi as <-. cbn. set_solver. }
  apply flow_intro; [|by rewrite Hv, Z.add_0_r|done].
  eapply (keeps_spl _ ix); [done|by injection Hi as <-|by issued_by Hi|exact Hc|by rewrite Hv|done].
Qed.

Lemma flow_burn mb p s m a amt ix infos seeds w w' :
  bound program_id pk w -> m = (pool_at pk w).(sp_lp_mint) -> s <> (pool_at pk w).(sp_vault) ->
  SplToken.burn p s m a [] amt = Ok ix -> u64 amt ->
  invoke_signed mb ix infos seeds w = Ok w' ->
  flow pk w w' 0 (- amt) /\ amt <= mint_amount pk w.
Proof.
  intros B -> Ns Hi Ha Hc.
  destruct (law_burn _ _ _ _ _ _ _ _ _ _ _ Hi Ha Hc) as (_ & Hm & Hle & Hs & _).
  pose proof (bound_vault_mint pk w B) as N.
  assert (Hv : get w' (sp_vault (pool_at pk w)) = get w (sp_vault (pool_at pk w))).
  { apply (law_frame _ _ _ _ _ _ _ Hc). injection Hi as <-. cbn. set_solver. }
  split; [|done]. apply flow_intro; [|by rewrite Hv, Z.add_0_r|unfold mint_amount; lia].
  eapply (keeps_spl _ ix); [done|by injection Hi as <-|by issued_by Hi|exact Hc|by rewrite Hv|done].
Qed.

(** Any wrapper call. *)
Lemma flow_wrapper mb ix infos seeds w w' dv :
  bound program_id pk w -> invoke_signed mb ix infos seeds w = Ok w' ->
  is_percolator (ix_program_id ix) = true ->
  token_amount (get w' (pool_at pk w).(sp_vault)) = vault_amount pk w + dv ->
  flow pk w w' dv 0.
Proof.
  intros B Hc Hp Hv. destruct B as [O L C W VO VL VA MO ML S].
  destruct (law_wrapper_token _ _ _ _ _ _ _ Hc Hp MO) as [_ Hm].
  destruct (Hm ML) as [Hm1 Hm2].
  apply flow_intro; [|done|unfold mint_amount, mint_supply; by rewrite Hm2, Z.add_0_r].
  split; [by eapply law_bytes| | |congruence|congruence].
  - eapply law_own; [done| |done]. by apply is_percolator_not_own.
  - by eapply law_wrapper_token.
Qed.

(** A wrapper call that may write only the market. *)
Lemma flow_market mb ix infos seeds w w' slab perc :
  bound program_id pk w -> invoke_signed mb ix infos seeds w = Ok w' ->
  (pool_at pk w).(sp_slab) = slab -> (pool_at pk w).(sp_percolator_program) = perc ->
  ix_program_id ix = perc -> writable_keys ix = [slab] -> flow pk w w' 0 0.
Proof.
  intros B Hc <- <- Hp Hw. eapply flow_wrapper; [done|done|rewrite Hp; apply B|].
  unfold vault_amount.
  rewrite (law_frame _ _ _ _ _ _ (sp_vault (pool_at pk w)) Hc); [lia|].
  rewrite Hw. pose proof (bd_slab _ _ _ B). set_solver.
Qed.

Lemma flow_create mb t p s o sp seeds w w' :
  bound program_id pk w -> create_or_adopt_pda mb t p s o sp seeds w = Ok w' ->
  flow pk w w' 0 0.
Proof.
  intros B Hc. 
  destruct B as [O L C W VO VL VA MO ML S].
  assert (Fv : same_state (get w (sp_vault (pool_at pk w))) (get w' (sp_vault (pool_at pk w))))
    by (eapply create_or_adopt_pda_frame; [done|by rewrite VO]).
  assert (Fm : same_state (get w (sp_lp_mint (pool_at pk w))) (get w' (sp_lp_mint (pool_at pk w))))
    by (eapply create_or_adopt_pda_frame; [done|by rewrite MO]).
  assert (Fp : same_state (get w pk) (get w' pk))
    by (eapply create_or_adopt_pda_frame; [done|rewrite O; apply not_eq_sym, law_id_system]).
  destruct Fm as [Fm1 Fm2]. apply flow_intro.
  - split; [by eapply create_or_adopt_pda_bytes|done|by apply same_state_token|done|by rewrite Fm2].
  - rewrite Z.add_0_r. symmetry. by apply same_state_amount.
  - unfold mint_amount, mint_supply. by rewrite Fm2, Z.add_0_r.
Qed.
End Calls.

(** ** From refinement to the invariant *)

Lemma token_amount_u64 w k :
  world_ok w -> length (acc_data (get w k)) = ACCOUNT_LEN -> u64 (token_amount (get w k)).
Proof. intros H Hl. apply u64_slice; [apply H|rewrite Hl; unfold ACCOUNT_LEN; lia|done]. Qed.

Section Backed.
Context {RT : Runtime} {BC : BuildConfig} {program_id : Pubkey} {RL : RuntimeLaws program_id}.
Context (pk : Pubkey) (w : World) (Hbk : backed program_id pk w).

Let Hw : world_ok w := bk_world _ _ _ Hbk.
Let HB : bound program_id pk w := bk_bound _ _ _ Hbk.

Lemma backed_wf : wf_pool (pool_at pk w).
Proof. apply wf_pool_at; [apply Hbk|]. exact (bd_len _ _ _ HB). Qed.

Lemma vault_amount_u64 : u64 (vault_amount pk w).
Proof. apply token_amount_u64; [done|apply HB]. Qed.

(** The stored result of a step is live, backed, and the ledger the step
    computed. *)
Lemma stored_ledger clk j i dv dm w1 q :
  wf_instruction i -> wf_clock clk -> flow pk w w1 dv dm ->
  ledger_step clk j i (ledger_of pk w)
    = Ok (mkLedger q (vault_amount pk w + dv) (mint_amount pk w + dm)) ->
  backed program_id pk (store_pool pk q w1) /\
  ledger_of pk (store_pool pk q w1) = mkLedger q (vault_amount pk w + dv) (mint_amount pk w + dm).
Proof.
  intros Hi Hclk F Hs. pose proof backed_wf as Hwf. pose proof vault_amount_u64 as Hu.
  destruct (ledger_step_ok _ _ (mint_amount pk w) Hwf Hu (bk_value _ _ _ Hbk) clk Hclk j i _ Hi Hs)
    as (Wq & Iq & Vq); cbn [lg_pool lg_vault] in *.
  pose proof (keeps_bound _ _ _ HB (fl_keeps _ _ _ _ _ F)) as B1.
  pose proof (flow_pool _ _ _ _ _ F) as E.
  assert (W1 : world_ok w1) by (by apply F).
  destruct F as [K V M]. rewrite <- V, <- M. rewrite <- V in Vq.
  apply pool_ident_binding in Iq. rewrite <- E in Iq.
  split; [by apply backed_store|by apply ledger_of_store].
Qed.

Lemma refines_backed accounts i w' :
  wf_instruction i -> refines pk accounts i w w' ->
  backed program_id pk w' /\
  exists clk j, wf_clock clk /\ clock_ok accounts i w clk /\
                ledger_step clk j i (ledger_of pk w) = Ok (ledger_of pk w').
Proof.
  intros Hi [_ (clk & j & dv & dm & w1 & q & Hclk & Hco & F & Hs & Hst)].
  destruct Hst as [->|[-> ->]].
  - destruct (stored_ledger _ _ _ _ _ _ _ Hi Hclk F Hs) as [Hb E]. split; [done|].
    exists clk, j. by rewrite E.
  - pose proof (flow_pool _ _ _ _ _ F) as E. pose proof backed_wf as Hwf.
    pose proof vault_amount_u64 as Hu.
    destruct (ledger_step_ok _ _ (mint_amount pk w) Hwf Hu (bk_value _ _ _ Hbk) clk Hclk j i _ Hi Hs)
      as (_ & _ & Vq); cbn [lg_pool lg_vault] in *.
    destruct F as [K V M]. rewrite <- V, <- M in Hs. rewrite <- V in Vq. split.
    + split; [by apply K|by eapply keeps_bound|by rewrite E].
    + exists clk, j. split_and!; [done|done|]. unfold ledger_of at 2. by rewrite E.
Qed.

Lemma wf_clock_law ai w1 c : clock_from_account_info ai w1 = Ok c -> wf_clock c.
Proof. apply law_clock. Qed.

(** ** Ways to refine *)

Definition clock0 : Clock := mkClock 0 0.
Lemma wf_clock0 : wf_clock clock0.
Proof. split; apply u64_0. Qed.

(** A store without CPI. *)
Lemma refines_store accounts i clk q :
  authorized (signed accounts) i (pool_at pk w) -> wf_clock clk -> clock_ok accounts i w clk ->
  ledger_step clk false i (ledger_of pk w) = Ok (mkLedger q (vault_amount pk w) (mint_amount pk w)) ->
  refines pk accounts i w (store_pool pk q w).
Proof.
  intros Ha Hc Hco Hs. split; [done|]. exists clk, false, 0, 0, w, q.
  rewrite !Z.add_0_r. split_and!; [done|done|apply flow_refl|done|by left].
Qed.

(** Calls, then a store. *)
Lemma refines_flow accounts i clk j q dv dm w1 :
  authorized (signed accounts) i (pool_at pk w) -> wf_clock clk -> clock_ok accounts i w clk ->
  flow pk w w1 dv dm ->
  ledger_step clk j i (ledger_of pk w)
    = Ok (mkLedger q (vault_amount pk w + dv) (mint_amount pk w + dm)) ->
  refines pk accounts i w (store_pool pk q w1).
Proof.
  intros Ha Hc Hco F Hs. split; [done|]. exists clk, j, dv, dm, w1, q.
  split_and!; [done|done|done|done|by left].
Qed.

(** Calls only. *)
Lemma refines_call accounts i w1 :
  authorized (signed accounts) i (pool_at pk w) -> clock_ok accounts i w clock0 ->
  flow pk w w1 0 0 ->
  ledger_step clock0 false i (ledger_of pk w) = Ok (ledger_of pk w) ->
  refines pk accounts i w w1.
Proof.
  intros Ha Hco F Hs. split; [done|]. exists clock0, false, 0, 0, w1, (pool_at pk w).
  rewrite !Z.add_0_r. split_and!; [apply wf_clock0|done|done|done|by right].
Qed.

(** A signer of the account list. *)
Lemma signed_at accounts (n : nat) ai :
  accounts !! n = Some ai -> ai_is_signer ai = true -> signed accounts (ai_key ai).
Proof. intros Hn Hs. exists ai. split_and!; [by eapply list_elem_of_lookup_2|done|done]. Qed.
End Backed.

Section Handlers.
Context {RT : Runtime} {BC : BuildConfig} {program_id : Pubkey} {RL : RuntimeLaws program_id}.
Context (pk : Pubkey) (w : World) (Hbk : backed program_id pk w).

Let Hw : world_ok w := bk_world _ _ _ Hbk.
Let HB : bound program_id pk w := bk_bound _ _ _ Hbk.

#[local] Abbreviation p := (pool_at pk w).

Lemma admin_signed admin l :
  ai_is_signer admin = true -> sp_admin p = ai_key admin -> signed (admin :: l) (sp_admin p).
Proof. intros Hs ->. exists admin. split_and!; [apply in_1|done|done]. Qed.

Lemma target_1 (a pool_pda : AccountInfo) l : targets 1 (a :: pool_pda :: l) pk -> ai_key pool_pda = pk.
Proof. by intros (x & [= <-] & ?). Qed.

Lemma open_as_admin admin pool_pda l q :
  targets 1 (admin :: pool_pda :: l) pk ->
  open_pool_as_admin program_id admin pool_pda w = Ok q ->
  q = p /\ ai_key pool_pda = pk /\ signed (admin :: pool_pda :: l) (sp_admin p).
Proof.
  intros Hk%target_1 (-> & Hs & Ha & _)%open_pool_as_admin_Ok. rewrite Hk in *.
  split_and!; [done|done|]. by apply admin_signed.
Qed.

Lemma open_with_clock admin pool_pda clock_ai l clk q :
  targets 1 (admin :: pool_pda :: l) pk ->
  open_pool_with_clock program_id admin pool_pda clock_ai w = Ok (clk, q) ->
  q = p /\ ai_key pool_pda = pk /\ signed (admin :: pool_pda :: l) (sp_admin p) /\
  wf_clock clk /\ clock_from_account_info clock_ai w = Ok clk.
Proof.
  intros Hk%target_1 (-> & Hs & Ha & _ & _ & Hc)%open_pool_with_clock_Ok.
  rewrite Hk in *.
  split_and!; [done|done|by apply admin_signed|by eapply wf_clock_law|done].
Qed.

Lemma on_pool_eq r q :
  r = Ok q -> on_pool (ledger_of pk w) r = Ok (mkLedger q (vault_amount pk w) (mint_amount pk w)).
Proof. by intros ->. Qed.

(** The transaction. *)
Context (accounts : list AccountInfo) (Hkeys : keys_ok accounts)
        (Hsig : signers_ok program_id pk accounts) (Htgt : targets 1 accounts pk).
#[local] Abbreviation refines_ i := (refines pk accounts i w).

(** ** Administration *)

(** A handler of the admin: open, change the record, store. *)
Ltac admin_handler H :=
  let a := fresh "admin" in let b := fresh "pool_pda" in let l := fresh "l" in
  destruct accounts as [|a [|b l]]; try discriminate H;
  let x := fresh "x" in
  apply bind_Ok in H as (x & Hopen & H);
  apply (open_as_admin _ _ _ _ Htgt) in Hopen as (-> & Hpk & Hauth); rewrite Hpk in H.

Lemma update_config_refines c d w' :
  process_update_config program_id accounts c d w = Ok w' -> refines_ (UpdateConfig c d) w'.
Proof.
  intros H. unfold process_update_config in H. admin_handler H.
  apply bind_Ok in H as (q & Hq & [= <-]).
  apply (refines_store _ _ _ _ clock0); [done|apply wf_clock0|done|by apply on_pool_eq].
Qed.

Lemma propose_admin_refines k w' :
  process_propose_admin program_id accounts k w = Ok w' -> refines_ (ProposeAdmin k) w'.
Proof.
  intros H. unfold process_propose_admin in H. admin_handler H. injection H as <-.
  apply (refines_store _ _ _ _ clock0); [done|apply wf_clock0|done|by apply on_pool_eq].
Qed.

Lemma accept_admin_refines w' :
  process_accept_admin program_id accounts w = Ok w' -> refines_ AcceptAdmin w'.
Proof.
  intros H. unfold process_accept_admin in H.
  destruct accounts as [|na [|pool_pda l]]; try discriminate H.
  pose proof (target_1 _ _ _ Htgt) as Hpk.
  apply bind_Ok in H as ([] & Hs%require_signer_Ok & H). apply bind_Ok in H as ([] & _ & H).
  apply bind_Ok in H as (q0 & (-> & _)%open_pool_Ok & H). rewrite Hpk in H.
  apply bind_Ok in H as (q & Hq & [= <-]).
  assert (Hpend : sp_pending_admin p = ai_key na).
  { unfold accept_admin in Hq. apply ensure_Ok in Hq as [_ Hq].
    by apply ensure_Ok in Hq as [?%key_eqb_eq _]. }
  apply (refines_store _ _ _ _ clock0); [|apply wf_clock0|done|].
  - change (signed (na :: pool_pda :: l) (sp_pending_admin p)). rewrite Hpend. exists na. split_and!; [apply in_1|done|done].
  - apply on_pool_eq. change (accept_admin (sp_pending_admin p) p = Ok q). by rewrite Hpend.
Qed.

Ltac clock_handler H :=
  let a := fresh "admin" in let b := fresh "pool_pda" in let l := fresh "l" in
  let c := fresh "clock_ai" in
  destruct accounts as [|a [|b [|c l]]]; try discriminate H;
  let x := fresh "x" in let clk := fresh "clk" in
  apply bind_Ok in H as ([clk x] & Hopen & H);
  apply (open_with_clock _ _ _ _ _ _ Htgt) in Hopen as (-> & Hpk & Hauth & Hclk & Hrd);
  rewrite Hpk in H;
  let q := fresh "q" in apply bind_Ok in H as (q & Hq & [= <-]);
  apply (refines_store _ _ _ _ clk);
    [done|done|exists c; split; [apply in_3|done]|by apply on_pool_eq].

Lemma propose_cooldown_refines c w' :
  process_propose_cooldown_increase program_id accounts c w = Ok w' ->
  refines_ (ProposeCooldownIncrease c) w'.
Proof. intros H. unfold process_propose_cooldown_increase in H. clock_handler H. Qed.

Lemma commit_cooldown_refines w' :
  process_commit_cooldown_increase program_id accounts w = Ok w' ->
  refines_ CommitCooldownIncrease w'.
Proof. intros H. unfold process_commit_cooldown_increase in H. clock_handler H. Qed.

Lemma cancel_cooldown_refines w' :
  process_cancel_cooldown_increase program_id accounts w = Ok w' ->
  refines_ CancelCooldownIncrease w'.
Proof.
  intros H. unfold process_cancel_cooldown_increase in H. admin_handler H.
  apply bind_Ok in H as (q & Hq & [= <-]).
  apply (refines_store _ _ _ _ clock0); [done|apply wf_clock0|done|by apply on_pool_eq].
Qed.

Lemma set_hwm_config_refines e b w' :
  process_admin_set_hwm_config program_id accounts e b w = Ok w' ->
  refines_ (AdminSetHwmConfig e b) w'.
Proof.
  intros H. unfold process_admin_set_hwm_config in H. admin_handler H.
  apply bind_Ok in H as ([] & Hv & [= <-]).
  apply (refines_store _ _ _ _ clock0); [done|apply wf_clock0|done|].
  apply on_pool_eq. unfold set_hwm_config. cbn. rewrite Hv. done.
Qed.

Lemma set_tranche_config_refines m w' :
  process_admin_set_tranche_config program_id accounts m w = Ok w' ->
  refines_ (AdminSetTrancheConfig m) w'.
Proof.
  intros H. unfold process_admin_set_tranche_config in H. admin_handler H.
  apply bind_Ok in H as (q & Hq & [= <-]).
  apply (refines_store _ _ _ _ clock0); [done|apply wf_clock0|done|by apply on_pool_eq].
Qed.

Lemma set_market_resolved_refines w' :
  process_set_market_resolved program_id accounts w = Ok w' -> refines_ SetMarketResolved w'.
Proof.
  intros H. unfold process_set_market_resolved in H. admin_handler H.
  apply bind_Ok in H as (q & Hq & [= <-]).
  apply (refines_store _ _ _ _ clock0); [done|apply wf_clock0|done|by apply on_pool_eq].
Qed.

(** ** Wrapper proxies *)

Lemma open_read_Ok admin pool_pda l q :
  targets 1 (admin :: pool_pda :: l) pk -> ai_is_signer admin = true ->
  open_pool_read program_id admin pool_pda w = Ok q ->
  q = p /\ signed (admin :: pool_pda :: l) (sp_admin p).
Proof.
  intros Hk%target_1 Hs (-> & Ha & _)%open_pool_read_Ok. rewrite Hk in *.
  split; [done|by apply admin_signed].
Qed.

Lemma group_a_Ok admin pool_pda slab perc l b :
  targets 1 (admin :: pool_pda :: l) pk ->
  validate_group_a_proxy program_id admin pool_pda slab perc w = Ok b ->
  signed (admin :: pool_pda :: l) (sp_admin p) /\
  sp_slab p = ai_key slab /\ sp_percolator_program p = ai_key perc.
Proof.
  intros Ht H. unfold validate_group_a_proxy in H.
  apply bind_Ok in H as ([] & Hs%require_signer_Ok & H).
  apply bind_Ok in H as (q & Hq & H). apply (open_read_Ok _ _ _ _ Ht Hs) in Hq as [-> Hauth].
  by apply bind_Ok in H as ([] & Hm%check_market_Ok & _).
Qed.

Lemma group_b_Ok admin pool_pda va slab perc l b :
  targets 1 (admin :: pool_pda :: l) pk ->
  validate_group_b_proxy program_id admin pool_pda va slab perc w = Ok b ->
  signed (admin :: pool_pda :: l) (sp_admin p) /\
  sp_slab p = ai_key slab /\ sp_percolator_program p = ai_key perc.
Proof.
  intros Ht H. unfold validate_group_b_proxy in H. apply bind_Ok in H as (b' & Hb & _).
  by eapply group_a_Ok.
Qed.

(** One call to the market, then nothing. *)
Lemma refines_market acs i mb ix infos seeds w' slab perc :
  invoke_signed mb ix infos seeds w = Ok w' ->
  sp_slab p = slab /\ sp_percolator_program p = perc ->
  ix_program_id ix = perc -> writable_keys ix = [slab] ->
  authorized (signed acs) i p -> clock_ok acs i w clock0 ->
  ledger_step clock0 false i (ledger_of pk w) = Ok (ledger_of pk w) -> refines pk acs i w w'.
Proof.
  intros Hc [Hs Hp] Hix Hwr Ha Hco Hst. apply refines_call; [done|done| |done].
  eapply flow_market; [apply HB|exact Hc|exact Hs|exact Hp|done|done].
Qed.

Lemma fee_split_refines x y z w' :
  process_admin_update_fee_split program_id accounts x y z w = Ok w' ->
  refines_ (AdminUpdateFeeSplit x y z) w'.
Proof.
  intros H. unfold process_admin_update_fee_split in H.
  destruct accounts as [|? [|? [|? [|? l]]]]; try discriminate H.
  apply bind_Ok in H as (b & [Hauth Hm]%(group_a_Ok _ _ _ _ _ _ Htgt) & H).
  by apply (refines_market _ _ _ _ _ _ _ _ _ H Hm).
Qed.

Lemma maintenance_fee_refines x w' :
  process_admin_update_maintenance_fee_per_slot program_id accounts x w = Ok w' ->
  refines_ (AdminUpdateMaintenanceFeePerSlot x) w'.
Proof.
  intros H. unfold process_admin_update_maintenance_fee_per_slot in H.
  destruct accounts as [|? [|? [|? [|? l]]]]; try discriminate H.
  apply bind_Ok in H as (b & [Hauth Hm]%(group_a_Ok _ _ _ _ _ _ Htgt) & H).
  by apply (refines_market _ _ _ _ _ _ _ _ _ H Hm).
Qed.

Lemma backing_fee_refines x y z w' :
  process_admin_update_backing_fee_policy program_id accounts x y z w = Ok w' ->
  refines_ (AdminUpdateBackingFeePolicy x y z) w'.
Proof.
  intros H. unfold process_admin_update_backing_fee_policy in H.
  destruct accounts as [|? [|? [|? [|? [|? l]]]]]; try discriminate H.
  apply bind_Ok in H as (b & [Hauth Hm]%(group_b_Ok _ _ _ _ _ _ _ Htgt) & H).
  by apply (refines_market _ _ _ _ _ _ _ _ _ H Hm).
Qed.

Lemma trade_fee_refines x w' :
  process_admin_update_trade_fee_policy program_id accounts x w = Ok w' ->
  refines_ (AdminUpdateTradeFeePolicy x) w'.
Proof.
  intros H. unfold process_admin_update_trade_fee_policy in H.
  destruct accounts as [|? [|? [|? [|? [|? l]]]]]; try discriminate H.
  apply bind_Ok in H as (b & [Hauth Hm]%(group_b_Ok _ _ _ _ _ _ _ Htgt) & H).
  by apply (refines_market _ _ _ _ _ _ _ _ _ H Hm).
Qed.

Lemma resolve_market_refines w' :
  process_admin_resolve_market program_id accounts w = Ok w' -> refines_ AdminResolveMarket w'.
Proof.
  intros H. unfold process_admin_resolve_market in H.
  destruct accounts as [|? [|? [|? [|? l]]]]; try discriminate H.
  apply bind_Ok in H as ([] & Hs%require_signer_Ok & H). apply bind_Ok in H as (q & Hq & H).
  apply (open_read_Ok _ _ _ _ Htgt Hs) in Hq as [-> Hauth].
  apply bind_Ok in H as ([] & Hm%check_market_Ok & H). apply ensure_Ok in H as [Hr H].
  apply (refines_market _ _ _ _ _ _ _ _ _ H Hm); [done|done|done|done|].
  unfold ledger_step, ledger_of. cbn [lg_pool]. by rewrite Hr.
Qed.

Lemma rotate_guards_Ok admin pool_pda va nt slab perc l seeds :
  targets 1 (admin :: pool_pda :: l) pk ->
  rotate_guards program_id admin pool_pda va nt slab perc w = Ok seeds ->
  signed (admin :: pool_pda :: l) (sp_admin p) /\ asset_admin_burned p = false /\
  sp_slab p = ai_key slab /\ sp_percolator_program p = ai_key perc.
Proof.
  intros Ht H. unfold rotate_guards in H.
  apply bind_Ok in H as ([] & Hs%require_signer_Ok & H). apply bind_Ok in H as ([] & _ & H).
  apply bind_Ok in H as (q & Hq & H). apply (open_read_Ok _ _ _ _ Ht Hs) in Hq as [-> Hauth].
  apply ensure_Ok in H as [Hb%negb_true_iff H].
  by apply bind_Ok in H as ([] & Hm%check_market_Ok & _).
Qed.

Lemma rotate_authority_refines w' :
  process_rotate_insurance_authority program_id accounts w = Ok w' ->
  refines_ RotateInsuranceAuthority w'.
Proof.
  intros H. unfold process_rotate_insurance_authority in H.
  destruct accounts as [|? [|? [|? [|? [|? [|? l]]]]]]; try discriminate H.
  apply bind_Ok in H as (b & (Hauth & Hb & Hm)%(rotate_guards_Ok _ _ _ _ _ _ _ _ Htgt) & H).
  apply (refines_market _ _ _ _ _ _ _ _ _ H Hm); [done|done|done|done|].
  unfold ledger_step, ledger_of. cbn [lg_pool]. by rewrite Hb.
Qed.

Lemma rotate_operator_refines w' :
  process_rotate_insurance_operator program_id accounts w = Ok w' ->
  refines_ RotateInsuranceOperator w'.
Proof.
  intros H. unfold process_rotate_insurance_operator in H.
  destruct accounts as [|? [|? [|? [|? [|? [|? l]]]]]]; try discriminate H.
  apply bind_Ok in H as (b & (Hauth & Hb & Hm)%(rotate_guards_Ok _ _ _ _ _ _ _ _ Htgt) & H).
  apply (refines_market _ _ _ _ _ _ _ _ _ H Hm); [done|done|done|done|].
  unfold ledger_step, ledger_of. cbn [lg_pool]. by rewrite Hb.
Qed.

Lemma bind_authority_refines w' :
  process_bind_insurance_authority program_id accounts w = Ok w' ->
  refines_ BindInsuranceAuthority w'.
Proof.
  intros H. unfold process_bind_insurance_authority in H.
  destruct accounts as [|? [|? [|? [|? [|? l]]]]]; try discriminate H.
  apply bind_Ok in H as ([] & Hs%require_signer_Ok & H). apply bind_Ok in H as (q & Hq & H).
  apply (open_read_Ok _ _ _ _ Htgt Hs) in Hq as [-> Hauth].
  apply bind_Ok in H as ([] & [Hsl Hp]%check_market_Ok & H).
  apply bind_Ok in H as (seeds & _ & H). apply bind_Ok in H as (w1 & H1 & H2).
  apply refines_call; [done|done| |done].
  pose proof (flow_market pk _ _ _ _ _ _ _ _ HB H1 Hsl Hp eq_refl eq_refl) as F1.
  pose proof (keeps_bound _ _ _ HB (fl_keeps _ _ _ _ _ F1)) as B1.
  pose proof (flow_pool _ _ _ _ _ F1) as E1. rewrite <- E1 in Hsl, Hp.
  pose proof (flow_market pk _ _ _ _ _ _ _ _ B1 H2 Hsl Hp eq_refl eq_refl) as F2.
  by eapply flow_trans.
Qed.

Lemma burn_asset_admin_refines w' :
  process_burn_asset_admin program_id accounts w = Ok w' -> refines_ BurnAssetAdmin w'.
Proof.
  intros H. unfold process_burn_asset_admin in H.
  destruct accounts as [|? [|? [|? [|? [|? l]]]]]; try discriminate H.
  pose proof (target_1 _ _ _ Htgt) as Hk.
  apply bind_Ok in H as ([] & Hs%require_signer_Ok & H). apply bind_Ok in H as ([] & _ & H).
  apply bind_Ok in H as (q & Hq & H). apply (open_read_Ok _ _ _ _ Htgt Hs) in Hq as [-> Hauth].
  apply ensure_Ok in H as [Hb H]. apply bind_Ok in H as ([] & [Hsl Hp]%check_market_Ok & H).
  apply bind_Ok in H as (seeds & _ & H). apply bind_Ok in H as (w1 & H1 & H2).
  pose proof (flow_market pk _ _ _ _ _ _ _ _ HB H1 Hsl Hp eq_refl eq_refl) as F.
  unfold mark_burned in H2. apply bind_Ok in H2 as (d & [_ ->]%try_borrow_data_Ok & H2).
  apply bind_Ok in H2 as (bytes & ->%index_range_Ok & [= <-]). unfold ai_data. rewrite Hk.
  change (pool_decode _) with (pool_at pk w1). rewrite (flow_pool _ _ _ _ _ F).
  apply (refines_flow _ _ _ _ clock0 false _ 0 0); [done|apply wf_clock0|done|done|].
  rewrite !Z.add_0_r. apply on_pool_eq. unfold burn_admin. cbn [ledger_of lg_pool]. by rewrite Hb.
Qed.

(** ** Insurance flows *)

Lemma flush_refines amount w' :
  u64 amount -> process_flush_to_insurance program_id accounts amount w = Ok w' ->
  refines_ (FlushToInsurance amount) w'.
Proof.
  intros Ha H. unfold process_flush_to_insurance in H. apply ensure_Ok in H as [Hn H].
  destruct accounts as [|c [|pp [|v [|va [|sl [|wv [|perc [|tp l]]]]]]]]; try discriminate H.
  pose proof (target_1 _ _ _ Htgt) as Hk.
  apply bind_Ok in H as ([] & Hsg%require_signer_Ok & H).
  do 2 apply bind_Ok in H as ([] & _ & H).
  apply bind_Ok in H as (q0 & (-> & _)%open_pool_Ok & H). rewrite Hk in H.
  apply bind_Ok in H as ([] & (Had & Hs & Hv & Hp & Hmode & Hres)%flush_guards_Ok & H).
  apply bind_Ok in H as ([] & _ & H). apply bind_Ok in H as (av & Hav & H).
  apply ensure_Ok in H as [Hle H]. destruct (derive_vault_authority _ _).
  apply ensure_Ok in H as [_ H]. apply bind_Ok in H as (w1 & Hc & H).
  apply bind_Ok in H as (q & Hq & [= <-]).
  assert (Hperc : is_percolator (ai_key perc) = true) by (rewrite <- Hp; apply HB).
  pose proof (law_top_up _ _ _ _ _ _ _ _ _ _ _ _ Hperc Ha Hc) as [Hbal Hamt].
  rewrite <- Hv in Hbal, Hamt. fold (vault_amount pk w) in Hbal, Hamt.
  apply (refines_flow _ _ _ _ clock0 false _ (- amount) 0); [|apply wf_clock0|done| |].
  - by apply admin_signed.
  - apply (flow_wrapper pk _ _ _ _ _ _ _ HB Hc Hperc). lia.
  - unfold ledger_step, ledger_flush, ledger_of. cbn [lg_pool].
    rewrite Hn, Hmode, Hres, Hav. cbn. rewrite Hle.
    replace (amount <=? vault_amount pk w) with true by (symmetry; by apply Z.leb_le).
    rewrite Hq. cbn. by rewrite Z.add_0_r, Z.add_opp_r.
Qed.

Lemma recover_refines amount w' :
  u64 amount -> process_recover_flushed_insurance program_id accounts amount w = Ok w' ->
  refines_ (RecoverFlushedInsurance amount) w'.
Proof.
  intros Ha H. unfold process_recover_flushed_insurance in H.
  destruct accounts as [|c [|pp [|v [|va [|sl [|wv [|wva [|tp [|perc l]]]]]]]]]; try discriminate H.
  pose proof (target_1 _ _ _ Htgt) as Hk.
  do 2 apply bind_Ok in H as ([] & _ & H).
  apply bind_Ok in H as (q0 & (-> & _)%open_pool_Ok & H). rewrite Hk in H.
  apply bind_Ok in H as ([] & Hg & H).
  apply ensure_Ok in H as [Hp%key_eqb_eq H]. apply ensure_Ok in H as [Hv%key_eqb_eq H].
  destruct (derive_vault_authority _ _).
  apply ensure_Ok in H as [_ H]. apply bind_Ok in H as (w1 & Hc & H).
  apply bind_Ok in H as (q & Hq & [= <-]).
  assert (Hperc : is_percolator (ai_key perc) = true) by (rewrite <- Hp; apply HB).
  pose proof (law_withdraw_asset _ _ _ _ _ _ _ _ _ _ _ _ _ Hperc Ha Hc) as Hamt.
  rewrite <- Hv in Hamt. fold (vault_amount pk w) in Hamt.
  apply (refines_flow _ _ _ _ clock0 false _ amount 0); [done|apply wf_clock0|done| |].
  - apply (flow_wrapper pk _ _ _ _ _ _ _ HB Hc Hperc). lia.
  - unfold ledger_step, ledger_recover, ledger_of. cbn [lg_pool]. rewrite Hg. cbn. rewrite Hq.
    cbn. by rewrite Z.add_0_r.
Qed.

(** A user's own token account is not the vault. *)
Lemma user_account_not_vault acs mb ai spl mint e user :
  signers_ok program_id pk acs -> user ∈ acs -> ai_is_signer user = true ->
  check_token_account mb ai spl mint e (Some (ai_key user)) w = Ok tt ->
  ai_key ai <> sp_vault p.
Proof.
  intros Hs Hin Hsg (_ & _ & _ & _ & Ho)%check_token_account_Ok E.
  specialize (Ho _ eq_refl). rewrite E in Ho. rewrite (bd_vault_auth _ _ _ HB) in Ho.
  unfold signers_ok in Hs. rewrite Forall_forall in Hs. symmetry in Ho. revert Ho.
  apply Hs; [|done]. by apply list_elem_of_In.
Qed.

(** A payment into the vault. *)
Lemma flow_in mb pr s v a amt ix infos seeds w1 :
  SplToken.transfer pr s v a [] amt = Ok ix -> u64 amt ->
  s <> sp_vault p -> v = sp_vault p ->
  invoke_signed mb ix infos seeds w = Ok w1 -> flow pk w w1 amt 0.
Proof.
  intros Hi Ha Ns -> Hc.
  edestruct (flow_transfer pk) as [F _]; [exact HB|exact Hi|exact Ha|exact Ns| |exact Hc|exact F].
  rewrite decide_False by done. by rewrite decide_True.
Qed.

Lemma return_refines amount w' :
  u64 amount -> process_return_insurance program_id accounts amount w = Ok w' ->
  refines_ (ReturnInsurance amount) w'.
Proof.
  intros Ha H. unfold process_return_insurance in H. apply ensure_Ok in H as [Hn H].
  destruct accounts as [|admin [|pool_pda [|admin_ata [|vault [|token_program l]]]]];
    try discriminate H. pose proof (target_1 _ _ _ Htgt) as Hk.
  apply bind_Ok in H as ([] & Hsg%require_signer_Ok & H).
  do 3 apply bind_Ok in H as ([] & _ & H).
  apply bind_Ok in H as (q0 & (-> & _)%open_pool_Ok & H). rewrite Hk in H.
  apply ensure_Ok in H as [Had%key_eqb_eq H]. apply ensure_Ok in H as [Hv%key_eqb_eq H].
  apply ensure_Ok in H as [_ H]. apply ensure_Ok in H as [Hout H].
  apply bind_Ok in H as ([] & Hata & H).
  apply bind_Ok in H as (ix & Hix & H). apply bind_Ok in H as (w1 & Hc & H).
  apply bind_Ok in H as (q & Hq & [= <-]).
  apply (user_account_not_vault _ _ _ _ _ _ _ Hsig) in Hata; [|apply in_1|done].
  apply (refines_flow _ _ _ _ clock0 false _ amount 0); [|apply wf_clock0|done| |].
  - by apply admin_signed.
  - exact (flow_in _ _ _ _ _ _ _ _ _ _ Hix Ha Hata (eq_sym Hv) Hc).
  - unfold ledger_step, ledger_return, ledger_of. cbn [lg_pool]. rewrite Hn, Hout, Hq. cbn.
    by rewrite Z.add_0_r.
Qed.

(** ** Accrual *)

Lemma pre_accrue_ledger mb vault q :
  ai_key vault = sp_vault p -> pre_accrue_fee_modes mb p vault w = Ok q ->
  ledger_accrue p (vault_amount pk w) = Ok q.
Proof.
  intros Hk. unfold pre_accrue_fee_modes, ledger_accrue. destruct (_ <=? 1); [|done].
  intros (b & [_ ->]%vault_balance_Ok & H)%bind_Ok. by rewrite Hk in H.
Qed.

Lemma accrue_fees_refines w' :
  process_accrue_fees program_id accounts w = Ok w' -> refines_ AccrueFees w'.
Proof.
  intros H. unfold process_accrue_fees in H.
  destruct accounts as [|caller [|pool_ai [|vault_ai [|clock_ai l]]]]; try discriminate H;
    [apply bind_Ok in H as ([] & _ & H); discriminate H..|].
  pose proof (target_1 _ _ _ Htgt) as Hk.
  do 4 apply bind_Ok in H as ([] & _ & H).
  apply bind_Ok in H as (q0 & (-> & _)%open_pool_Ok & H). rewrite Hk in H. cbn zeta in H.
  destruct (derive_pool_pda _ _). apply ensure_Ok in H as [_ H]. apply ensure_Ok in H as [Hm H].
  apply ensure_Ok in H as [Hv%key_eqb_eq H].
  apply bind_Ok in H as (b & [_ ->]%vault_balance_Ok & H).
  apply bind_Ok in H as (clk & Hrd & H). pose proof (wf_clock_law _ _ _ Hrd) as Hclk.
  apply bind_Ok in H as (q & Hq & [= <-]). rewrite Hv in *. fold (vault_amount pk w) in *.
  rewrite ?Hk. apply (refines_store _ _ _ _ clk);
    [done|done|exists clock_ai; split; [apply in_4|done]|].
  unfold ledger_step, ledger_accrue_fees, ledger_of. rewrite Hm, Hq. done.
Qed.
End Handlers.
