(* ===== verification/BackingLp.v ===== *)
(** * Deposits and withdrawals refine the ledger *)

From S2P Require Import Prelude Errors Math State PoolFacts Instruction Runtime SplToken Cpi Guards.
From S2P Require Import Fees Deposit Withdraw Insurance Admin Proxy Init Processor Ledger.
From S2P Require Import LedgerFacts Laws Backing BackingSteps.

(** The deposit record an account holds. *)
Definition deposit_at (k : Pubkey) (w : World) : StakeDeposit :=
  deposit_decode (slice 0 STAKE_DEPOSIT_SIZE (acc_data (get w k))).

Lemma deposit_at_store k d w :
  wf_deposit d -> (STAKE_DEPOSIT_SIZE <= length (acc_data (get w k)))%nat ->
  deposit_at k (store_deposit k d w) = d.
Proof.
  intros Hd Hl. unfold deposit_at, store_deposit. rewrite get_set_data_eq. cbn [acc_data].
  by pose proof (deposit_from_data_splice d _ Hd Hl) as [_ E]%deposit_from_data_Ok.
Qed.

Section Lp.
Context {RT : Runtime} {BC : BuildConfig} {program_id : Pubkey} {RL : RuntimeLaws program_id}.
Context (pk : Pubkey) (w : World) (Hbk : backed program_id pk w).

Let Hw : world_ok w := bk_world _ _ _ Hbk.
Let HB : bound program_id pk w := bk_bound _ _ _ Hbk.
#[local] Abbreviation p := (pool_at pk w).

(** Accounts of this program survive a call to another one. *)
Definition own_frame (w1 w2 : World) : Prop :=
  forall k, acc_owner (get w1 k) = program_id -> same_state (get w1 k) (get w2 k).

Lemma own_frame_trans w1 w2 w3 : own_frame w1 w2 -> own_frame w2 w3 -> own_frame w1 w3.
Proof.
  intros H1 H2 k Hk. specialize (H1 k Hk). rewrite H1. apply H2. by destruct H1 as [<- _].
Qed.

Lemma own_frame_spl mb ix infos seeds w1 w2 :
  invoke_signed mb ix infos seeds w1 = Ok w2 -> ix_program_id ix = SplToken.id ->
  own_frame w1 w2.
Proof. intros Hc Hi k Hk. eapply law_own; [done|rewrite Hi; apply law_id_spl|done]. Qed.

(** A token account is neither the LP mint nor an account of the program. *)
Lemma token_account_ne mb ai mint e o :
  check_token_account mb ai true mint e o w = Ok tt ->
  ai_key ai <> sp_lp_mint p /\ acc_owner (get w (ai_key ai)) = SplToken.id.
Proof.
  intros (_ & Hl & Ho & _ & _)%check_token_account_Ok. split; [|by apply Ho].
  intros E. rewrite E, (bd_mint_len _ _ _ HB) in Hl. unfold ACCOUNT_LEN, MINT_LEN in Hl. lia.
Qed.

(** ** Withdraw *)

Lemma withdraw_token_guards_Ok a w' :
  withdraw_token_guards program_id a p w = Ok w' ->
  ai_key (wa_lp_mint a) = sp_lp_mint p /\ ai_key (wa_vault a) = sp_vault p /\
  check_token_account (Withdraw.mb_pool a) (wa_user_lp_ata a) false (sp_lp_mint p)
    InvalidMint (Some (ai_key (wa_user a))) w = Ok tt /\
  ai_key (wa_user_ata a) <> ai_key (wa_vault a) /\
  check_token_account (Withdraw.mb_pool a) (wa_user_ata a) true (sp_collateral_mint p)
    InvalidMint None w = Ok tt.
Proof.
  unfold withdraw_token_guards, vault_auth_of. intros [Hm%key_eqb_eq H]%ensure_Ok.
  apply ensure_Ok in H as [Hv%key_eqb_eq H]. apply bind_Ok in H as ([] & _ & H).
  apply bind_Ok in H as ([] & Hlp & H). apply ensure_Ok in H as [Hn H].
  apply negb_true_iff, key_eqb_neq in Hn. by apply bind_Ok in H as ([] & Hu & H).
Qed.

(** The payout, on the pool's side and on the user's. *)
Lemma burn_and_pay_flow a lp q c w1 :
  u64 lp -> u64 c ->
  ai_key (wa_lp_mint a) = sp_lp_mint p -> ai_key (wa_vault a) = sp_vault p ->
  ai_key (wa_user_lp_ata a) <> sp_vault p -> ai_key (wa_user_ata a) <> ai_key (wa_vault a) ->
  ai_key (wa_user_ata a) <> sp_lp_mint p ->
  burn_and_pay program_id a lp q c w = Ok w1 ->
  flow pk w w1 (- c) (- lp) /\ own_frame w w1 /\ lp <= mint_amount pk w /\ c <= vault_amount pk w /\
  (ai_key (wa_user_ata a) <> ai_key (wa_user_lp_ata a) ->
   token_amount (get w1 (ai_key (wa_user_ata a)))
     = token_amount (get w (ai_key (wa_user_ata a))) + c).
Proof.
  intros Hlp Hc Hm Hv Hnl Hnu Hnm H. unfold burn_and_pay in H.
  apply bind_Ok in H as (ix & Hix & H). apply bind_Ok in H as (wb & Hb & H).
  destruct (flow_burn pk _ _ _ _ _ _ _ _ _ _ _ HB Hm Hnl Hix Hlp Hb) as [Fb Hle].
  assert (Ob : own_frame w wb) by (eapply own_frame_spl; [exact Hb|by injection Hix as <-]).
  assert (Ub : ai_key (wa_user_ata a) <> ai_key (wa_user_lp_ata a) ->
               get wb (ai_key (wa_user_ata a)) = get w (ai_key (wa_user_ata a))).
  { intros Hne. apply (law_frame _ _ _ _ _ _ _ Hb).
    assert (writable_keys ix = [ai_key (wa_user_lp_ata a); ai_key (wa_lp_mint a)]) as ->
      by (by injection Hix as <-). rewrite Hm. by apply not_in_2. }
  pose proof (vault_amount_u64 pk w Hbk) as Hvu.
  destruct (derive_vault_authority _ _). apply ensure_Ok in H as [_ H].
  destruct (Z.ltb_spec 0 c).
  2:{ injection H as <-. assert (c = 0) as -> by width_lia.
      split_and!; [done|done|done|apply Hvu|]. intros Hn. rewrite (Ub Hn). lia. }
  apply bind_Ok in H as (ix2 & Hix2 & Ht).
  pose proof (keeps_bound _ _ _ HB (fl_keeps _ _ _ _ _ Fb)) as Bb.
  pose proof (flow_pool _ _ _ _ _ Fb) as Eb. rewrite <- Eb in Hv.
  edestruct (flow_transfer pk) as [Ft Hcle];
    [exact Bb|exact Hix2|exact Hc|exact (not_eq_sym Hnu)|by rewrite decide_True|exact Ht|].
  specialize (Hcle Hv). rewrite (fl_vault _ _ _ _ _ Fb), Z.add_0_r in Hcle.
  assert (Ot : own_frame wb w1) by (eapply own_frame_spl; [exact Ht|by injection Hix2 as <-]).
  destruct (law_transfer _ _ _ _ _ _ _ _ _ _ _ Hix2 Hc Ht) as (_ & _ & _ & _ & Hamt).
  destruct (Hamt (not_eq_sym Hnu)) as (_ & _ & Hd).
  split_and!; [eapply flow_trans; [exact Fb|exact Ft|lia|lia]|by eapply own_frame_trans|done|done|].
  intros Hn. by rewrite Hd, (Ub Hn).
Qed.

Lemma open_record_Ok mb ai w1 d :
  world_ok w1 ->
  (deposit_data ← try_borrow_data mb ai w1; deposit_from_data deposit_data) = Ok d ->
  ai_key ai ∉ mb /\ wf_deposit d /\ d = deposit_at (ai_key ai) w1 /\
  (STAKE_DEPOSIT_SIZE <= length (acc_data (get w1 (ai_key ai))))%nat.
Proof.
  intros Hw1 (data & [Hn ->]%try_borrow_data_Ok & H)%bind_Ok. split; [done|].
  split; [eapply deposit_from_data_wf; [|done]; apply Hw1|].
  by apply deposit_from_data_Ok in H as [? ->].
Qed.

(** An account of the program, long enough for a deposit record. *)
Definition is_record (k : Pubkey) (w1 : World) : Prop :=
  acc_owner (get w1 k) = program_id /\
  (STAKE_DEPOSIT_SIZE <= length (acc_data (get w1 k)))%nat.

Lemma is_record_close q k d w1 :
  k <> pk -> wf_deposit d -> is_record k w1 -> is_record k (store_pool pk q (store_deposit k d w1)).
Proof.
  intros Nk Hd [Ho Hl]. unfold is_record, store_pool, store_deposit.
  rewrite !acc_owner_set_data, get_set_data_ne, get_set_data_eq by done. cbn [acc_data].
  rewrite length_splice by (by rewrite length_deposit_encode). done.
Qed.

(** Everything a successful Withdraw implies. *)
Record withdrawal (accounts : list AccountInfo) (lp : Z) (w' : World) : Prop := {
  wd_refines : refines pk accounts (Instruction.Withdraw lp) w w';
  wd_user : exists a clk d e c,
    withdraw_accounts accounts = Ok a /\ ai_is_signer (wa_user a) = true /\
    ai_key (wa_deposit_pda a)
      = fst (derive_deposit_pda program_id pk (ai_key (wa_user a))) /\
    clock_from_account_info (wa_clock_sysvar a) w = Ok clk /\
    d = deposit_at (ai_key (wa_deposit_pda a)) w /\ e = deposit_at (ai_key (wa_deposit_pda a)) w' /\
    sd_user d = ai_key (wa_user a) /\ sd_pool d = pk /\
    saturating_add U64_MAX (sd_last_deposit_slot d) (sp_cooldown_slots p) <= clock_slot clk /\
    lp <= sd_lp_amount d /\ sd_lp_amount e = sd_lp_amount d - lp /\
    ledger_step clk (is_junior_deposit d) (Instruction.Withdraw lp) (ledger_of pk w)
      = Ok (ledger_of pk w') /\
    vault_amount pk w' = vault_amount pk w - c /\ 0 <= c /\
    (sp_lp_mint p <> sp_collateral_mint p ->
     token_amount (get w' (ai_key (wa_user_ata a)))
       = token_amount (get w (ai_key (wa_user_ata a))) + c);
  wd_account : forall a, withdraw_accounts accounts = Ok a ->
    let k := ai_key (wa_deposit_pda a) in k <> pk /\ is_record k w /\ is_record k w';
}.

Lemma get_close k1 k2 q d w1 k :
  k <> k1 -> k <> k2 -> get (store_pool k1 q (store_deposit k2 d w1)) k = get w1 k.
Proof. intros. unfold store_pool, store_deposit. by rewrite !get_set_data_ne. Qed.

(** The user's record after both stores. *)
Lemma deposit_at_close q k d w1 :
  k <> pk -> wf_deposit d -> (STAKE_DEPOSIT_SIZE <= length (acc_data (get w1 k)))%nat ->
  deposit_at k (store_pool pk q (store_deposit k d w1)) = d.
Proof.
  intros Nk Hd Hl. transitivity (deposit_at k (store_deposit k d w1)).
  - unfold deposit_at, store_pool. by rewrite get_set_data_ne.
  - by apply deposit_at_store.
Qed.

Lemma own_frame_deposit w1 k :
  own_frame w w1 -> acc_owner (get w k) = program_id -> deposit_at k w1 = deposit_at k w.
Proof. intros F Ho. unfold deposit_at. by destruct (F k Ho) as [_ ->]. Qed.

Lemma withdraw_clock_in accounts a :
  withdraw_accounts accounts = Ok a -> wa_clock_sysvar a ∈ accounts.
Proof.
  unfold withdraw_accounts. intros H.
  do 10 (destruct accounts as [|? accounts]; [discriminate H|]). injection H as <-. cbn.
  set_solver.
Qed.

(** A token account is not an account of the program. *)
Lemma spl_not_own w1 k k' :
  acc_owner (get w1 k) = SplToken.id -> acc_owner (get w1 k') = program_id -> k <> k'.
Proof. intros H H' ->. rewrite H in H'. by apply law_id_spl. Qed.

(** The caller's record, from the guards on it to its debit: the one at the
    caller's address, left alone by the payout. *)
Lemma withdraw_settles a lp d w1 d1 d2 dv dm :
  let k := ai_key (wa_deposit_pda a) in
  ai_key (wa_pool_pda a) = pk -> 0 <= lp ->
  withdraw_record_guards program_id a w = Ok tt -> Withdraw.open_record a w = Ok d ->
  flow pk w w1 dv dm -> own_frame w w1 ->
  Withdraw.open_record a w1 = Ok d1 -> debit_record d1 lp = Ok d2 ->
  k = fst (derive_deposit_pda program_id pk (ai_key (wa_user a))) /\ k <> pk /\
  is_record k w /\ d = deposit_at k w /\
  wf_deposit d2 /\ sd_lp_amount d2 = sd_lp_amount d - lp /\
  is_record k w1 /\
  flow pk w (store_deposit k d2 w1) dv dm.
Proof.
  intros k Hk Hlp Hrg Hd F O Hd1 Hd2. subst k.
  apply (open_record_Ok _ _ _ _ Hw) in Hd as (Hnin & Wd & Ed & Ld).
  unfold withdraw_record_guards in Hrg. rewrite Hk in Hrg.
  destruct (derive_deposit_pda _ _ _) as [dk db].
  apply ensure_Ok in Hrg as [Hdk%key_eqb_eq Hrg]. apply ensure_Ok in Hrg as [Ho%key_eqb_eq _].
  unfold ai_owner in Ho.
  assert (Nk : ai_key (wa_deposit_pda a) <> pk).
  { intros E. apply Hnin. unfold Withdraw.mb_pool. rewrite Hk, E. set_solver. }
  assert (Hw1 : world_ok w1) by (by apply F).
  apply (open_record_Ok _ _ _ _ Hw1) in Hd1 as (_ & Wd1 & Ed1 & Ld1).
  rewrite (own_frame_deposit _ _ O Ho), <- Ed in Ed1. subst d1.
  apply debit_record_inv in Hd2 as (Wd2 & _ & Hd2 & _); [|done|done].
  assert (Ho1 : acc_owner (get w1 (ai_key (wa_deposit_pda a))) = program_id)
    by (destruct (O _ Ho) as [<- _]; done).
  pose proof (keeps_bound _ _ _ HB (fl_keeps _ _ _ _ _ F)) as B1.
  pose proof (flow_store_deposit pk w1 _ d2 B1 Nk Ho1 Wd2) as Fs.
  split_and!; try done. eapply flow_trans; [exact F|exact Fs|lia|lia].
Qed.

(** The handler's arithmetic is the ledger's. *)
Lemma withdraw_ledger clk j lp p1 c p2 p3 p4 :
  negb (lp =? 0) = true -> ledger_accrue p (vault_amount pk w) = Ok p1 ->
  withdrawal_value p1 j lp = Ok c ->
  negb ((c =? 0) && negb (is_fully_wiped_junior_exit p1 j c)) = true ->
  enforce_hwm_floor p1 clk c (is_fully_wiped_junior_exit p1 j c) = Ok p2 ->
  lp <= mint_amount pk w -> c <= vault_amount pk w -> debit_totals p2 lp c = Ok p3 ->
  (if tranche_enabled p3 && j then debit_junior p3 lp c else Ok p3) = Ok p4 ->
  ledger_step clk j (Instruction.Withdraw lp) (ledger_of pk w)
    = Ok (mkLedger p4 (vault_amount pk w + - c) (mint_amount pk w + - lp)).
Proof.
  intros Hnz H1 Hc Hz H2 Hls%Z.leb_le Hlv%Z.leb_le H3 H4.
  unfold ledger_step, ledger_withdraw, ledger_of. cbn [lg_pool]. rewrite Hnz, H1. cbn.
  rewrite Hc. cbn. rewrite Hz, H2. cbn. rewrite Hls, Hlv. unfold ledger_debit. cbn.
  rewrite H3. cbn. by rewrite H4.
Qed.

(** What the handler has established when it stores the pool and the record. *)
Lemma withdraw_finish accounts a clk lp d w1 c p4 d2 :
  let k := ai_key (wa_deposit_pda a) in
  withdraw_accounts accounts = Ok a -> ai_is_signer (wa_user a) = true ->
  clock_from_account_info (wa_clock_sysvar a) w = Ok clk -> u64 lp -> u64 c ->
  sd_user d = ai_key (wa_user a) -> sd_pool d = pk ->
  saturating_add U64_MAX (sd_last_deposit_slot d) (sp_cooldown_slots p) <= clock_slot clk ->
  lp <= sd_lp_amount d ->
  token_mint (get w (ai_key (wa_user_lp_ata a))) = sp_lp_mint p ->
  token_mint (get w (ai_key (wa_user_ata a))) = sp_collateral_mint p ->
  acc_owner (get w (ai_key (wa_user_ata a))) = SplToken.id ->
  (ai_key (wa_user_ata a) <> ai_key (wa_user_lp_ata a) ->
   token_amount (get w1 (ai_key (wa_user_ata a)))
     = token_amount (get w (ai_key (wa_user_ata a))) + c) ->
  k = fst (derive_deposit_pda program_id pk (ai_key (wa_user a))) -> k <> pk ->
  is_record k w -> d = deposit_at k w ->
  wf_deposit d2 -> sd_lp_amount d2 = sd_lp_amount d - lp ->
  is_record k w1 ->
  flow pk w (store_deposit k d2 w1) (- c) (- lp) ->
  ledger_step clk (is_junior_deposit d) (Instruction.Withdraw lp) (ledger_of pk w)
    = Ok (mkLedger p4 (vault_amount pk w + - c) (mint_amount pk w + - lp)) ->
  withdrawal accounts lp (store_pool pk p4 (store_deposit k d2 w1)).
Proof.
  intros k Ha Hsg Hclk Hlp Hc Hdu Hdp Hcool Hle Hlpm Hum Huo Hpayee Hdk Nk Ho Ed Wd2 Hd2 Ld1 F Hstep.
  subst k. pose proof (proj1 Ho) as Hown.
  destruct (stored_ledger pk w Hbk _ _ _ _ _ _ _ (Hlp : wf_instruction (Instruction.Withdraw lp))
              (wf_clock_law _ _ _ Hclk) F Hstep) as [_ El].
  split.
  - eapply refines_flow; [done|by eapply wf_clock_law| |exact F|exact Hstep].
    exists (wa_clock_sysvar a). split; [|done]. by apply withdraw_clock_in.
  - exists a, clk, d, d2, c.
    assert (lg_vault (ledger_of pk (store_pool pk p4
              (store_deposit (ai_key (wa_deposit_pda a)) d2 w1))) = vault_amount pk w - c) as Ev
      by (rewrite El; cbn; lia).
    split_and!; try done.
    + rewrite deposit_at_close; [done..|apply Ld1].
    + by rewrite El.
    + apply Hc.
    + intros Hne. rewrite get_close.
      * apply Hpayee. congruence.
      * eapply spl_not_own; [done|apply (bd_owner _ _ _ HB)].
      * by eapply spl_not_own.
  - intros a' Ha'. rewrite Ha in Ha'. injection Ha' as <-. split_and!; [done..|].
    by apply is_record_close.
Qed.

Lemma withdraw_inv accounts lp w' :
  signers_ok program_id pk accounts -> targets 1 accounts pk -> u64 lp ->
  process_withdraw program_id accounts lp w = Ok w' -> withdrawal accounts lp w'.
Proof.
  intros Hsig (ai & Hai & Hk) Hlp H. unfold process_withdraw in H. apply ensure_Ok in H as [Hnz H].
  apply bind_Ok in H as (a & Ha & H). pose proof Ha as (Hin & _ & _ & Hl1)%withdraw_accounts_in.
  rewrite Hai in Hl1. injection Hl1 as ->.
  apply bind_Ok in H as (q & Hp & H). unfold withdraw_open in Hp.
  apply bind_Ok in Hp as ([] & Hsg%require_signer_Ok & Hp).
  do 3 apply bind_Ok in Hp as ([] & _ & Hp). apply open_pool_Ok in Hp as (-> & _).
  rewrite Hk in H. apply bind_Ok in H as ([] & Hg & H).
  apply withdraw_token_guards_Ok in Hg as (Hm & Hv & Hlpata & Hnu & Hua).
  apply bind_Ok in H as ([] & Hrg & H). apply bind_Ok in H as (clk & Hclk & H).
  apply bind_Ok in H as (d & Hd & H).
  apply bind_Ok in H as (j & (_ & _ & Hdu & Hdp & Hcool & Hle & ->)%check_record_Ok & H).
  apply bind_Ok in H as (p1 & Hp1 & H). apply (pre_accrue_ledger pk w) in Hp1; [|done].
  destruct (ledger_accrue_ok _ _ _ (backed_wf _ _ Hbk) (vault_amount_u64 _ _ Hbk)
              (bk_value _ _ _ Hbk) Hp1) as (W1 & _).
  apply bind_Ok in H as (c & Hc & H). pose proof (withdrawal_value_nonneg _ _ _ _ W1 Hlp Hc) as Hcu.
  apply ensure_Ok in H as [Hz H]. apply bind_Ok in H as (p2 & H2 & H).
  apply bind_Ok in H as (w1 & Hpay & H). apply bind_Ok in H as (p3 & H3 & H).
  apply bind_Ok in H as (p4 & H4 & H). apply bind_Ok in H as (d1 & Hd1 & H).
  apply bind_Ok in H as (d2 & Hd2 & [= <-]).
  destruct (token_account_ne _ _ _ _ _ Hua) as [Hnm Huo].
  pose proof Hlpata as (_ & _ & _ & Hlpm & _)%check_token_account_Ok.
  pose proof Hua as (_ & _ & _ & Hum & _)%check_token_account_Ok.
  apply (user_account_not_vault pk w Hbk _ _ _ _ _ _ _ Hsig Hin Hsg) in Hlpata.
  destruct (burn_and_pay_flow _ _ _ _ _ Hlp Hcu Hm Hv Hlpata Hnu Hnm Hpay)
    as (F & O & Hls & Hlv & Hpayee).
  destruct (withdraw_settles _ _ _ _ _ _ _ _ Hk (proj1 Hlp) Hrg Hd F O Hd1 Hd2)
    as (Hdk & Nk & Ho & Ed & Wd2 & Hd2' & Ld1 & F').
  pose proof (withdraw_ledger _ _ _ _ _ _ _ _ Hnz Hp1 Hc Hz H2 Hls Hlv H3 H4) as Hstep.
  rewrite Hk in Hdp. by apply (withdraw_finish accounts a clk lp d w1 c p4 d2).
Qed.

(** ** Deposits *)

Lemma deposit_guards_Ok a amount e :
  deposit_guards program_id a amount p e w = Ok tt ->
  ai_key (da_lp_mint a) = sp_lp_mint p /\ ai_key (da_vault a) = sp_vault p /\
  market_resolved p = false /\ enforce_deposit_cap p amount = Ok tt /\
  check_token_account (Deposit.mb_pool a) (da_user_ata a) true (sp_collateral_mint p)
    e (Some (ai_key (da_user a))) w = Ok tt /\
  check_token_account (Deposit.mb_pool a) (da_user_lp_ata a) true (sp_lp_mint p)
    InvalidMint (Some (ai_key (da_user a))) w = Ok tt.
Proof.
  unfold deposit_guards. intros [Hm%key_eqb_eq H]%ensure_Ok.
  apply ensure_Ok in H as [Hv%key_eqb_eq H]. apply ensure_Ok in H as [Hr%negb_true_iff H].
  destruct (derive_vault_authority _ _). apply ensure_Ok in H as [_ H].
  apply bind_Ok in H as ([] & Hcap & H). apply bind_Ok in H as ([] & _ & H).
  by apply bind_Ok in H as ([] & Hu & Hl).
Qed.

Lemma deposit_open_Ok a q :
  deposit_open program_id a w = Ok q ->
  q = pool_at (ai_key (da_pool_pda a)) w /\ ai_is_signer (da_user a) = true.
Proof.
  unfold deposit_open. intros ([] & Hs%require_signer_Ok & H)%bind_Ok.
  do 3 apply bind_Ok in H as ([] & _ & H). by apply open_pool_Ok in H as (-> & _).
Qed.

(** The payment and the shares, on the pool's side and on the user's. *)
Lemma collect_and_mint_flow a amount m w1 :
  u64 amount -> u64 m ->
  ai_key (da_lp_mint a) = sp_lp_mint p -> ai_key (da_vault a) = sp_vault p ->
  ai_key (da_user_ata a) <> sp_vault p -> ai_key (da_user_lp_ata a) <> sp_vault p ->
  ai_key (da_user_ata a) <> sp_lp_mint p ->
  collect_and_mint program_id a amount m w = Ok w1 ->
  flow pk w w1 amount m /\ own_frame w w1 /\
  (forall k, acc_owner (get w1 k) = acc_owner (get w k)) /\
  (acc_owner (get w (ai_key (da_user_ata a))) = SplToken.id ->
   acc_owner (get w (ai_key (da_user_lp_ata a))) = SplToken.id ->
   forall k, acc_owner (get w k) <> SplToken.id -> get w1 k = get w k) /\
  (ai_key (da_user_ata a) <> ai_key (da_user_lp_ata a) ->
   token_amount (get w1 (ai_key (da_user_ata a)))
     = token_amount (get w (ai_key (da_user_ata a))) - amount /\
   token_amount (get w1 (ai_key (da_user_lp_ata a)))
     = token_amount (get w (ai_key (da_user_lp_ata a))) + m).
Proof.
  intros Hamt Hm Hlp Hv Hn Hnl Hnm H. unfold collect_and_mint in H.
  apply bind_Ok in H as (ix & Hix & H). apply bind_Ok in H as (wt & Ht & H).
  pose proof (flow_in pk w Hbk _ _ _ _ _ _ _ _ _ _ Hix Hamt Hn Hv Ht) as Ft.
  assert (Hp1 : ix_program_id ix = SplToken.id) by (by injection Hix as <-).
  assert (Ot : own_frame w wt) by (by eapply own_frame_spl).
  destruct (law_transfer _ _ _ _ _ _ _ _ _ _ _ Hix Hamt Ht) as (_ & _ & _ & _ & Hu).
  rewrite Hv in Hu. destruct (Hu Hn) as (_ & Hs & _).
  destruct (derive_vault_authority _ _). apply bind_Ok in H as (ix2 & Hix2 & H).
  pose proof (keeps_bound _ _ _ HB (fl_keeps _ _ _ _ _ Ft)) as Bt.
  pose proof (flow_pool _ _ _ _ _ Ft) as Et. rewrite <- Et in Hlp, Hnl.
  pose proof (flow_mint_to pk _ _ _ _ _ _ _ _ _ _ _ Bt Hlp Hnl Hix2 Hm H) as Fm.
  assert (Hp2 : ix_program_id ix2 = SplToken.id) by (by injection Hix2 as <-).
  assert (Om : own_frame wt w1) by (by eapply own_frame_spl).
  destruct (law_mint_to _ _ _ _ _ _ _ _ _ _ _ Hix2 Hm H) as (_ & _ & _ & _ & _ & Hd).
  rewrite Et in Hlp, Hnl.
  assert (W1 : forall k, k <> ai_key (da_user_ata a) -> k <> sp_vault p -> get wt k = get w k).
  { intros k ??. apply (law_frame _ _ _ _ _ _ k Ht).
    assert (writable_keys ix = [ai_key (da_user_ata a); ai_key (da_vault a)]) as ->
      by (by injection Hix as <-). rewrite Hv. by apply not_in_2. }
  assert (W2 : forall k, k <> sp_lp_mint p -> k <> ai_key (da_user_lp_ata a) -> get w1 k = get wt k).
  { intros k ??. apply (law_frame _ _ _ _ _ _ k H).
    assert (writable_keys ix2 = [ai_key (da_lp_mint a); ai_key (da_user_lp_ata a)]) as ->
      by (by injection Hix2 as <-). rewrite Hlp. by apply not_in_2. }
  split_and!; [eapply flow_trans; [exact Ft|exact Fm|lia|lia]|by eapply own_frame_trans| | |].
  - intros k. rewrite (law_spl_owner _ _ _ _ _ _ k H Hp2 ltac:(issued_by Hix2)).
    exact (law_spl_owner _ _ _ _ _ _ k Ht Hp1 ltac:(issued_by Hix)).
  - intros Ou Ol k Hk. rewrite W2, W1; [done|..]; intros ->; apply Hk; [done| | |done]; apply HB.
  - intros Hne. split.
    + by rewrite W2.
    + rewrite Hd, W1; [done|by apply not_eq_sym|done].
Qed.

(** The record's account: unchanged, or fresh and zeroed. *)
Lemma ensure_deposit_account_inv a w1 w2 b :
  bound program_id pk w1 -> ai_key (da_pool_pda a) = pk ->
  ensure_deposit_account program_id a w1 = Ok (w2, b) ->
  flow pk w1 w2 0 0 /\ acc_owner (get w2 (ai_key (da_deposit_pda a))) = program_id /\ u8 b /\
  ai_key (da_deposit_pda a) = fst (derive_deposit_pda program_id pk (ai_key (da_user a))) /\
  sd_lp_amount (deposit_at (ai_key (da_deposit_pda a)) w2)
    = sd_lp_amount (deposit_at (ai_key (da_deposit_pda a)) w1) /\
  (forall k, acc_owner (get w1 k) = SplToken.id -> same_state (get w1 k) (get w2 k)).
Proof.
  intros B1 Hk H. unfold ensure_deposit_account, derive_deposit_pda in *.
  pose proof (law_pda [SEED_STAKE_DEPOSIT; ai_key (da_pool_pda a); ai_key (da_user a)])
    as [_ Hb]. rewrite Hk in Hb, H.
  destruct (find_program_address _ _) as [k bump]. apply ensure_Ok in H as [Hpda%key_eqb_eq H].
  apply bind_Ok in H as (e & [_ He]%data_is_empty_Ok & H). apply ensure_Ok in H as [Ho H].
  destruct e.
  - apply bind_Ok in H as (wc & Hc & [= <- <-]).
    pose proof (flow_create pk _ _ _ _ _ _ _ _ _ B1 Hc) as F.
    pose proof Hc as [Ht Hd]%create_or_adopt_pda_target.
    symmetry in He. apply bool_decide_eq_true in He. unfold ai_data in He.
    split_and!; [done|done|done|done| |].
    + unfold deposit_at. by rewrite Hd, He.
    + intros k' Hk'. eapply create_or_adopt_pda_frame; [done|by rewrite Hk'].
  - injection H as <- <-. cbn in Ho. apply negb_true_iff, negb_false_iff, key_eqb_eq in Ho.
    split_and!; [apply flow_refl|done|done|done|done|done].
Qed.

Lemma ensure_deposit_account_from a w1 w2 b :
  ensure_deposit_account program_id a w1 = Ok (w2, b) ->
  acc_owner (get w1 (ai_key (da_deposit_pda a))) = program_id \/
  acc_data (get w1 (ai_key (da_deposit_pda a))) = [].
Proof.
  unfold ensure_deposit_account. destruct (derive_deposit_pda _ _ _). intros [_ H]%ensure_Ok.
  apply bind_Ok in H as (e & [_ ->]%data_is_empty_Ok & H). apply ensure_Ok in H as [Ho _].
  unfold ai_data, ai_owner in Ho. case_bool_decide; [by right|left].
  by apply negb_true_iff, negb_false_iff, key_eqb_eq in Ho.
Qed.

Lemma credit_record_inv a d b clk lp e :
  wf_deposit d -> u8 b -> u64 clk.(clock_slot) -> u64 lp ->
  key_ok (ai_key (da_pool_pda a)) -> key_ok (ai_key (da_user a)) ->
  credit_record a d b clk lp = Ok e ->
  wf_deposit e /\ e.(sd_lp_amount) = d.(sd_lp_amount) + lp /\ e.(sd_is_initialized) = 1 /\
  e.(sd_pool) = ai_key (da_pool_pda a) /\ e.(sd_user) = ai_key (da_user a) /\
  e.(sd_last_deposit_slot) = clk.(clock_slot) /\ e.(sd_reserved) = d.(sd_reserved).
Proof.
  intros Hd Hb Hs Hlp Hpk Hu H. unfold credit_record in H. cbn zeta in H.
  apply bind_Ok in H as (x & [-> Hle]%ok_or_Ok%checked_add_Some & [= <-]).
  revert Hle. upd_simpl. intros Hle.
  assert (u64 (sd_lp_amount d + lp)) by (wf_destruct; width_lia).
  split_and!; try done. auto 9 with stake.
Qed.

Lemma init_or_check_record_inv d e :
  wf_deposit d -> init_or_check_record d = Ok e ->
  wf_deposit e /\ sd_lp_amount e = sd_lp_amount d /\ is_junior_deposit e = is_junior_deposit d.
Proof.
  intros Hd. unfold init_or_check_record. destruct (negb _).
  - intros [= <-]. split_and!; [auto with stake|done|by apply deposit_reserved_ops].
  - by intros [_ [= <-]]%ensure_Ok.
Qed.

Lemma senior_record_inv d e :
  wf_deposit d -> senior_record d = Ok e ->
  wf_deposit e /\ sd_lp_amount e = sd_lp_amount d /\ is_junior_deposit e = false.
Proof.
  intros Hd (d1 & H1 & [Hj%negb_true_iff [= <-]]%ensure_Ok)%bind_Ok.
  by apply init_or_check_record_inv in H1 as (? & ? & ?).
Qed.

Lemma junior_record_inv d e :
  wf_deposit d -> junior_record d = Ok e ->
  wf_deposit e /\ sd_lp_amount e = sd_lp_amount d /\ is_junior_deposit e = true.
Proof.
  intros Hd (d1 & H1 & [_ [= <-]]%ensure_Ok)%bind_Ok.
  apply init_or_check_record_inv in H1 as (Wd & Hl & _); [|done].
  split_and!; [by apply wf_set_junior_deposit|done|by apply deposit_reserved_ops].
Qed.

(** Everything a successful deposit implies. *)
Record deposition (accounts : list AccountInfo) (i : StakeInstruction) (amount : Z) (j : bool)
    (w' : World) : Prop := {
  dp_refines : refines pk accounts i w w';
  dp_user : exists a clk d e minted,
    deposit_accounts accounts = Ok a /\ ai_is_signer (da_user a) = true /\
    ai_key (da_deposit_pda a)
      = fst (derive_deposit_pda program_id pk (ai_key (da_user a))) /\
    wf_clock clk /\
    d = deposit_at (ai_key (da_deposit_pda a)) w /\ e = deposit_at (ai_key (da_deposit_pda a)) w' /\
    sd_is_initialized e = 1 /\ sd_user e = ai_key (da_user a) /\ sd_pool e = pk /\
    sd_last_deposit_slot e = clock_slot clk /\ is_junior_deposit e = j /\
    sd_lp_amount e
      = sd_lp_amount d + (sp_total_lp_supply (pool_at pk w') - sp_total_lp_supply p) /\
    ledger_step clk false i (ledger_of pk w) = Ok (ledger_of pk w') /\
    vault_amount pk w' = vault_amount pk w + amount /\
    mint_amount pk w' = mint_amount pk w + minted /\
    (sp_lp_mint p <> sp_collateral_mint p ->
     token_amount (get w' (ai_key (da_user_ata a)))
       = token_amount (get w (ai_key (da_user_ata a))) - amount /\
     token_amount (get w' (ai_key (da_user_lp_ata a)))
       = token_amount (get w (ai_key (da_user_lp_ata a))) + minted);
  dp_account : forall a, deposit_accounts accounts = Ok a ->
    let k := ai_key (da_deposit_pda a) in
    k <> pk /\ (acc_owner (get w k) = program_id \/ acc_data (get w k) = []) /\ is_record k w';
  dp_clock : exists a clk w1,
    deposit_accounts accounts = Ok a /\
    clock_from_account_info (da_clock_sysvar a) w1 = Ok clk /\
    (forall k, acc_owner (get w k) <> SplToken.id -> get w1 k = get w k) /\
    sd_last_deposit_slot (deposit_at (ai_key (da_deposit_pda a)) w') = clock_slot clk /\
    ledger_step clk false i (ledger_of pk w) = Ok (ledger_of pk w');
}.

Section Finish.
Context (accounts : list AccountInfo) (Hkeys : keys_ok accounts)
        (Hsig : signers_ok program_id pk accounts) (Htgt : targets 1 accounts pk).

(** The account checks both deposits make. *)
Lemma deposit_prologue a amount e :
  deposit_accounts accounts = Ok a -> ai_is_signer (da_user a) = true ->
  deposit_guards program_id a amount p e w = Ok tt ->
  key_ok pk /\ key_ok (ai_key (da_user a)) /\
  ai_key (da_user_ata a) <> sp_vault p /\ ai_key (da_user_lp_ata a) <> sp_vault p /\
  ai_key (da_user_ata a) <> sp_lp_mint p /\
  acc_owner (get w (ai_key (da_user_ata a))) = SplToken.id /\
  acc_owner (get w (ai_key (da_user_lp_ata a))) = SplToken.id /\
  (sp_lp_mint p <> sp_collateral_mint p -> ai_key (da_user_ata a) <> ai_key (da_user_lp_ata a)).
Proof.
  intros (Hin & Hinp & _ & Hl1)%deposit_accounts_in Hsg (_ & _ & _ & _ & Hu & Hl)%deposit_guards_Ok.
  destruct Htgt as (ai & Hai & Hk). rewrite Hai in Hl1. injection Hl1 as ->.
  unfold keys_ok in Hkeys. rewrite Forall_forall in Hkeys.
  destruct (token_account_ne _ _ _ _ _ Hu) as [Num Ou].
  destruct (token_account_ne _ _ _ _ _ Hl) as [_ Ol].
  pose proof Hu as (_ & _ & _ & Mu & _)%check_token_account_Ok.
  pose proof Hl as (_ & _ & _ & Ml & _)%check_token_account_Ok.
  split_and!; [| | | |done|done|done|congruence].
  - rewrite <- Hk. apply Hkeys. by apply list_elem_of_In.
  - apply Hkeys. by apply list_elem_of_In.
  - by apply (user_account_not_vault pk w Hbk _ _ _ _ _ _ _ Hsig Hin Hsg) in Hu.
  - by apply (user_account_not_vault pk w Hbk _ _ _ _ _ _ _ Hsig Hin Hsg) in Hl.
Qed.

Lemma deposit_target a : deposit_accounts accounts = Ok a -> ai_key (da_pool_pda a) = pk.
Proof.
  intros (_ & _ & _ & Hl1)%deposit_accounts_in. destruct Htgt as (ai & Hai & Hk).
  rewrite Hai in Hl1. by injection Hl1 as <-.
Qed.

(** The caller's record, from its account to the stores: the one at the caller's
    address, credited; no token account moves. *)
Lemma deposit_settles a w1 w2 b d d1 d2 j clk lp p4 amount minted :
  let k := ai_key (da_deposit_pda a) in
  let w' := store_pool pk p4 (store_deposit k d2 w2) in
  ai_key (da_pool_pda a) = pk -> key_ok pk -> key_ok (ai_key (da_user a)) -> wf_clock clk ->
  u64 lp -> flow pk w w1 amount minted ->
  (forall k', acc_owner (get w1 k') = acc_owner (get w k')) ->
  ensure_deposit_account program_id a w1 = Ok (w2, b) -> Deposit.open_record a w2 = Ok d ->
  (wf_deposit d ->
   wf_deposit d1 /\ sd_lp_amount d1 = sd_lp_amount d /\ is_junior_deposit d1 = j) ->
  credit_record a d1 b clk lp = Ok d2 ->
  k = fst (derive_deposit_pda program_id pk (ai_key (da_user a))) /\
  flow pk w (store_deposit k d2 w2) amount minted /\ deposit_at k w' = d2 /\
  sd_is_initialized d2 = 1 /\ sd_user d2 = ai_key (da_user a) /\ sd_pool d2 = pk /\
  sd_last_deposit_slot d2 = clock_slot clk /\ is_junior_deposit d2 = j /\
  sd_lp_amount d2 = sd_lp_amount (deposit_at k w1) + lp /\
  acc_owner (get w k) <> SplToken.id /\ k <> pk /\ is_record k w' /\
  (forall k', acc_owner (get w k') = SplToken.id ->
     token_amount (get w' k') = token_amount (get w1 k')).
Proof.
  intros k w' Hk Kp Ku Hclk Hlp F1 Own Hacc Hd Hd1 Hd2.
  pose proof (keeps_bound _ _ _ HB (fl_keeps _ _ _ _ _ F1)) as B1.
  destruct (ensure_deposit_account_inv a w1 w2 b B1 Hk Hacc) as (F2 & Ho & Hb & Hpda & Hlp2 & Spl2).
  fold k in Ho. assert (F : flow pk w w2 amount minted) by (eapply flow_trans; [exact F1|exact F2|lia|lia]).
  assert (Hw2 : world_ok w2) by (by apply F).
  apply (open_record_Ok _ _ _ _ Hw2) in Hd as (Hnin & Wd & -> & Ld).
  destruct (Hd1 Wd) as (Wd1 & Hl1 & Hj1).
  apply credit_record_inv in Hd2 as (Wd2 & Hl2 & In2 & Pl2 & Us2 & Sl2 & Rs2);
    [|done|done|apply Hclk|done|by rewrite Hk|done].
  assert (Nk : k <> pk).
  { intros E. apply Hnin. unfold Deposit.mb_pool. rewrite Hk. rewrite <- E.
    by apply list_elem_of_here. }
  pose proof (keeps_bound _ _ _ HB (fl_keeps _ _ _ _ _ F)) as B2.
  pose proof (flow_store_deposit pk w2 _ d2 B2 Nk Ho Wd2) as Fs.
  assert (Nspl : acc_owner (get w k) <> SplToken.id).
  { intros E. rewrite <- Own in E. destruct (Spl2 _ E) as [E2 _]. rewrite E, Ho in E2.
    by apply law_id_spl. }
  split_and!; try done.
  - eapply flow_trans; [exact F|exact Fs|lia|lia].
  - by apply deposit_at_close.
  - by rewrite Pl2.
  - unfold is_junior_deposit in *. by rewrite Rs2.
  - by rewrite Hl2, Hl1, Hlp2.
  - by apply is_record_close.
  - intros k' Hk'. unfold w'. rewrite get_close; [|by eapply spl_not_own, HB|by intros ->].
    symmetry. apply same_state_amount, Spl2. by rewrite Own.
Qed.

(** From the priced record on: the CPIs, the user's record, the stores. *)
Lemma deposit_finish i a amount minted lp j clk e p4 w1 w2 b d d1 d2 :
  deposit_accounts accounts = Ok a -> ai_is_signer (da_user a) = true ->
  deposit_guards program_id a amount p e w = Ok tt ->
  authorized (signed accounts) i p -> wf_instruction i ->
  clock_from_account_info (da_clock_sysvar a) w1 = Ok clk -> clock_ok accounts i w clk ->
  u64 amount -> u64 minted -> u64 lp ->
  collect_and_mint program_id a amount minted w = Ok w1 ->
  ledger_step clk false i (ledger_of pk w)
    = Ok (mkLedger p4 (vault_amount pk w + amount) (mint_amount pk w + minted)) ->
  ensure_deposit_account program_id a w1 = Ok (w2, b) -> Deposit.open_record a w2 = Ok d ->
  (wf_deposit d ->
   wf_deposit d1 /\ sd_lp_amount d1 = sd_lp_amount d /\ is_junior_deposit d1 = j) ->
  credit_record a d1 b clk lp = Ok d2 -> sp_total_lp_supply p4 = sp_total_lp_supply p + lp ->
  deposition accounts i amount j (close_accounts a p4 d2 w2).
Proof.
  intros Ha Hsg Hg Hauth Hi Hck Hco Hamt Hmint Hlp Hcm Hstep Hacc Hd Hd1 Hd2 Hsup.
  pose proof (wf_clock_law _ _ _ Hck) as Hclk. pose proof (deposit_target a Ha) as Hk.
  destruct (deposit_prologue a amount e Ha Hsg Hg) as (Kp & Ku & Nv & Nl & Nm & Ou & Ol & Nul).
  destruct (deposit_guards_Ok _ _ _ Hg) as (Hm & Hv & _).
  destruct (collect_and_mint_flow a amount minted w1 Hamt Hmint Hm Hv Nv Nl Nm Hcm)
    as (F1 & O1 & Own1 & Fr1 & Pay).
  destruct (deposit_settles a w1 w2 b d d1 d2 j clk lp p4 amount minted Hk Kp Ku Hclk Hlp F1 Own1
              Hacc Hd Hd1 Hd2) as (Hpda & F & Ed & In & Us & Pl & Sl & Hj & Hl & Nspl & Nk & Rec & Amt).
  destruct (stored_ledger pk w Hbk _ _ _ _ _ _ _ Hi Hclk F Hstep) as [_ El].
  unfold close_accounts. rewrite Hk. split; [by eapply refines_flow| | |].
  3:{ exists a, clk, w1. split_and!; [done|done|by apply Fr1|by rewrite Ed|by rewrite El]. }
  2:{ intros a' Ha'. rewrite Ha in Ha'. injection Ha' as <-. split_and!; [done| |done].
      rewrite <- Fr1 by done. by eapply ensure_deposit_account_from. }
  set (w' := store_pool pk p4 _) in *.
  pose proof (f_equal lg_pool El) as Ep. pose proof (f_equal lg_vault El) as Ev.
  pose proof (f_equal lg_supply El) as Em. cbn [lg_pool lg_vault lg_supply ledger_of] in Ep, Ev, Em.
  exists a, clk, (deposit_at (ai_key (da_deposit_pda a)) w), d2, minted.
  split_and!; try done.
  - rewrite Ep, Hsup, Hl. unfold deposit_at. rewrite Fr1; [lia|done..].
  - by rewrite El.
  - intros Hne. rewrite !Amt by done. by apply Pay, Nul.
Qed.

Lemma deposit_inv amount w' :
  u64 amount -> process_deposit program_id accounts amount w = Ok w' ->
  deposition accounts (Instruction.Deposit amount) amount false w'.
Proof.
  intros Ha H. unfold process_deposit in H. apply ensure_Ok in H as [Hnz H].
  apply bind_Ok in H as (a & Hacs & H). pose proof (deposit_target a Hacs) as Hk.
  apply bind_Ok in H as (q & [-> Hsg]%deposit_open_Ok & H). rewrite Hk in H.
  apply bind_Ok in H as ([] & Hg & H).
  destruct (deposit_guards_Ok _ _ _ Hg) as (_ & Hv & Hres & Hcap & _).
  apply bind_Ok in H as (p1 & Hp1 & H). apply (pre_accrue_ledger pk w) in Hp1; [|done].
  destruct (ledger_accrue_ok _ _ _ (backed_wf _ _ Hbk) (vault_amount_u64 _ _ Hbk)
    (bk_value _ _ _ Hbk) Hp1) as (W1 & _ & _ & S1 & _).
  apply bind_Ok in H as ([] & Hgate & H). apply bind_Ok in H as (lp & Hlp & H).
  destruct (senior_lp_to_mint_u64 _ _ _ W1 Ha Hlp) as [Ulp _].
  apply bind_Ok in H as (m & Hm & H). pose proof (minimum_liquidity_u64 _ _ _ Ulp Hm) as Um.
  apply bind_Ok in H as (w1 & Hc & H). apply bind_Ok in H as (p3 & H3 & H).
  destruct (credit_totals_inv _ _ _ _ W1 Ha Ulp H3) as (W3 & _ & _ & _ & _ & S3 & _).
  apply bind_Ok in H as (clk & Hck & H). pose proof (wf_clock_law _ _ _ Hck) as Hclk.
  apply bind_Ok in H as (p4 & H4 & H).
  pose proof (refresh_mark_inv _ _ _ W3 (proj2 Hclk) H4) as S4%hwm_only_supply.
  apply bind_Ok in H as ([w2 b] & Hacc & H). apply bind_Ok in H as (d & Hd & H).
  apply bind_Ok in H as (d1 & Hd1 & H). apply bind_Ok in H as (d2 & Hd2 & [= <-]).
  eapply (deposit_finish _ a amount m lp _ clk _ p4 w1 w2 b d d1 d2);
    eauto using senior_record_inv; [done|done| |lia].
  unfold ledger_step, ledger_deposit, ledger_deposit_open, ledger_of. cbn [lg_pool].
  rewrite Hnz, Hres. cbn. rewrite Hcap. cbn. rewrite Hp1. cbn. rewrite Hgate. cbn.
  rewrite Hlp. cbn. rewrite Hm. cbn. rewrite H3. cbn. by rewrite H4.
Qed.

Lemma deposit_junior_inv amount w' :
  u64 amount -> process_deposit_junior program_id accounts amount w = Ok w' ->
  deposition accounts (DepositJunior amount) amount true w'.
Proof.
  intros Ha H. unfold process_deposit_junior in H. apply ensure_Ok in H as [Hnz H].
  apply bind_Ok in H as (a & Hacs & H). pose proof (deposit_target a Hacs) as Hk.
  apply bind_Ok in H as (q & [-> Hsg]%deposit_open_Ok & H). rewrite Hk in H.
  apply ensure_Ok in H as [Htr H]. apply bind_Ok in H as ([] & Hg & H).
  destruct (deposit_guards_Ok _ _ _ Hg) as (_ & Hv & Hres & Hcap & _).
  apply bind_Ok in H as (p1 & Hp1 & H). apply (pre_accrue_ledger pk w) in Hp1; [|done].
  destruct (ledger_accrue_ok _ _ _ (backed_wf _ _ Hbk) (vault_amount_u64 _ _ Hbk)
    (bk_value _ _ _ Hbk) Hp1) as (W1 & _ & _ & S1 & _).
  apply bind_Ok in H as ([] & Hgate & H). apply bind_Ok in H as (lp & Hlp & H).
  destruct (junior_lp_to_mint_u64 _ _ _ W1 Ha Hlp) as [Ulp _].
  apply bind_Ok in H as (m & Hm & H). pose proof (minimum_liquidity_u64 _ _ _ Ulp Hm) as Um.
  apply bind_Ok in H as (w1 & Hc & H). apply bind_Ok in H as (p2 & H2 & H).
  destruct (credit_totals_inv _ _ _ _ W1 Ha Ulp H2) as (W2 & _ & _ & _ & _ & S2 & _).
  apply bind_Ok in H as (p3 & H3 & H).
  destruct (credit_junior_inv _ _ _ _ W2 Ha Ulp H3) as (W3 & _ & _ & _ & _ & S3 & _).
  apply bind_Ok in H as (clk & Hck & H). pose proof (wf_clock_law _ _ _ Hck) as Hclk.
  apply bind_Ok in H as (p4 & H4 & H).
  pose proof (refresh_mark_inv _ _ _ W3 (proj2 Hclk) H4) as S4%hwm_only_supply.
  apply bind_Ok in H as ([w2 b] & Hacc & H). apply bind_Ok in H as (d & Hd & H).
  apply bind_Ok in H as (d1 & Hd1 & H). apply bind_Ok in H as (d2 & Hd2 & [= <-]).
  eapply (deposit_finish _ a amount m lp _ clk _ p4 w1 w2 b d d1 d2);
    eauto using junior_record_inv; [done|done| |lia].
  unfold ledger_step, ledger_deposit_junior, ledger_deposit_open, ledger_of. cbn [lg_pool].
  rewrite Htr, Hnz, Hres. cbn. rewrite Hcap. cbn. rewrite Hp1. cbn. rewrite Hgate. cbn.
  rewrite Hlp. cbn. rewrite Hm. cbn. rewrite H2. cbn. rewrite H3. cbn. by rewrite H4.
Qed.
End Finish.
End Lp.

#[global] Arguments withdrawal {RT} program_id pk w accounts lp w'.
#[global] Arguments deposition {RT} program_id pk w accounts i amount j w'.
#[global] Arguments is_record : clear implicits.
