(* ===== verification/BackingInit.v ===== *)
(** * Pool creation establishes the invariant *)

From S2P Require Import Prelude Errors Math State PoolFacts Instruction Runtime SplToken Cpi Guards.
From S2P Require Import Fees Deposit Withdraw Insurance Admin Proxy Init Processor Laws Backing.
From S2P Require Import BackingSteps.

(** The record found in a zeroed account. *)
Definition zero_pool : StakePool := pool_decode (replicate STAKE_POOL_SIZE 0).

Lemma wf_zero_pool : wf_pool zero_pool.
Proof.
  apply wf_pool_decode; [|by rewrite length_replicate].
  apply Forall_replicate. unfold byte_ok. lia.
Qed.

Lemma zero_pool_from_data p :
  pool_from_data (replicate STAKE_POOL_SIZE 0) = Ok p -> p = zero_pool.
Proof. intros [_ ->]%pool_from_data_Ok. done. Qed.

(** The genesis record. *)
Lemma init_record_spec a b vb c cap :
  let p := init_record a b vb c cap zero_pool in
  u8 b -> u8 vb -> u64 c -> u64 cap ->
  key_ok (ai_key (ia_slab a)) -> key_ok (ai_key (ia_admin a)) ->
  key_ok (ai_key (ia_collateral_mint a)) -> key_ok (ai_key (ia_lp_mint a)) ->
  key_ok (ai_key (ia_vault a)) -> key_ok (ai_key (ia_percolator_program a)) ->
  wf_pool p /\ check_pool p = Ok tt /\ raw_value p = 0 /\
  p.(sp_total_lp_supply) = 0 /\ junior_balance p = 0 /\ junior_total_lp p = 0 /\
  market_resolved p = false /\ tranche_enabled p = false /\ hwm_enabled p = false /\
  asset_admin_burned p = false /\ p.(sp_cooldown_proposed_at_slot) = 0.
Proof.
  intros p Hb Hvb Hc Hcap Hs Ha Hcm Hlm Hv Hp.
  assert (wf_pool p).
  { subst p. unfold init_record. cbv zeta. apply wf_set_discriminator.
    auto 30 using wf_zero_pool, u64_0, key_ok_zero with stake. }
  split; [done|]. subst p. unfold init_record. cbv zeta. split_and!; vm_compute; reflexivity.
Qed.

(** The fields InitPool assigns, whatever the account held. *)
Lemma init_record_fields a b vb c cap z :
  let p := init_record a b vb c cap z in
  p.(sp_slab) = ai_key (ia_slab a) /\ p.(sp_admin) = ai_key (ia_admin a) /\
  p.(sp_lp_mint) = ai_key (ia_lp_mint a) /\ p.(sp_vault) = ai_key (ia_vault a) /\
  p.(sp_percolator_program) = ai_key (ia_percolator_program a) /\
  p.(sp_cooldown_slots) = c /\ p.(sp_deposit_cap) = cap /\ p.(sp_pool_mode) = 0 /\
  p.(sp_vault_authority_bump) = vb /\ p.(sp_collateral_mint) = ai_key (ia_collateral_mint a).
Proof. done. Qed.

(** InitTradingPool's extra assignment. *)
Lemma set_pool_mode_frame p m :
  wf_pool p -> u8 m ->
  let q := p <| sp_pool_mode := m |> in
  wf_pool q /\ pool_binding q = pool_binding p /\ raw_value q = raw_value p /\
  q.(sp_slab) = p.(sp_slab) /\ q.(sp_admin) = p.(sp_admin) /\
  q.(sp_lp_mint) = p.(sp_lp_mint) /\ q.(sp_vault) = p.(sp_vault) /\
  q.(sp_cooldown_slots) = p.(sp_cooldown_slots) /\ q.(sp_deposit_cap) = p.(sp_deposit_cap) /\
  q.(sp_vault_authority_bump) = p.(sp_vault_authority_bump) /\
  q.(sp_total_lp_supply) = p.(sp_total_lp_supply) /\ rview q = rview p /\
  q.(sp_pool_mode) = m /\ q.(sp_collateral_mint) = p.(sp_collateral_mint) /\
  q.(sp_percolator_program) = p.(sp_percolator_program).
Proof. intros Hp Hm. split; [by apply wf_sp_pool_mode|]. done. Qed.

Section InitPool.
Context {RT : Runtime} {BC : BuildConfig} {program_id : Pubkey} {RL : RuntimeLaws program_id}.

Lemma init_guards_Ok a c w b vb :
  init_guards program_id a c w = Ok (b, vb) ->
  ai_is_signer (ia_admin a) = true /\
  is_percolator (ai_key (ia_percolator_program a)) = true /\
  c <> 0 /\ c <= MAX_COOLDOWN_SLOTS /\
  derive_pool_pda program_id (ai_key (ia_slab a)) = (ai_key (ia_pool_pda a), b) /\
  derive_vault_authority program_id (ai_key (ia_pool_pda a)) = (ai_key (ia_vault_auth a), vb) /\
  ai_data w (ia_pool_pda a) = [] /\
  ai_key (ia_lp_mint a) <> ai_key (ia_collateral_mint a) /\
  acc_owner (get w (ai_key (ia_slab a))) = ai_key (ia_percolator_program a).
Proof.
  unfold init_guards. intros ([] & Hs%require_signer_Ok & H)%bind_Ok.
  apply ensure_Ok in H as [Hp H]. apply bind_Ok in H as ([] & [Hc0 Hc]%validate_cooldown_slots_Ok & H).
  destruct (derive_pool_pda _ _) as [k b']. apply ensure_Ok in H as [->%key_eqb_eq H].
  apply bind_Ok in H as (e & [_ ->]%data_is_empty_Ok & H).
  apply ensure_Ok in H as [He%bool_decide_eq_true H].
  destruct (derive_vault_authority _ _) as [va vb'] eqn:Eva.
  apply ensure_Ok in H as [->%key_eqb_eq H]. apply ensure_Ok in H as [Hne H].
  apply negb_true_iff, key_eqb_neq in Hne. apply bind_Ok in H as ([] & _ & H).
  apply ensure_Ok in H as [Ho%key_eqb_eq H]. apply ensure_Ok in H as [_ H].
  apply bind_Ok in H as (r & _ & [= <- <-]). done.
Qed.

(** What the five CPIs leave: a zeroed program-owned pool account, an empty
    LP mint and a fresh vault of the [vault_auth] address. *)
Lemma init_create_spec a b vb w w4 :
  is_percolator (ai_key (ia_percolator_program a)) = true ->
  acc_owner (get w (ai_key (ia_slab a))) = ai_key (ia_percolator_program a) ->
  world_ok w -> init_create program_id a b vb w = Ok w4 ->
  let pk := ai_key (ia_pool_pda a) in
  let v := ai_key (ia_vault a) in
  let m := ai_key (ia_lp_mint a) in
  world_ok w4 /\
  acc_owner (get w4 pk) = program_id /\
  acc_data (get w4 pk) = replicate STAKE_POOL_SIZE 0 /\
  acc_owner (get w4 v) = SplToken.id /\ length (acc_data (get w4 v)) = ACCOUNT_LEN /\
  token_owner (get w4 v) = ai_key (ia_vault_auth a) /\
  opens_with w (ai_key (ia_collateral_mint a)) (get w4 v) (token_amount (get w4 v)) /\
  token_mint (get w4 v) = ai_key (ia_collateral_mint a) /\
  acc_owner (get w4 m) = SplToken.id /\ length (acc_data (get w4 m)) = MINT_LEN /\
  mint_supply (get w4 m) = 0 /\
  ai_key (ia_slab a) <> v.
Proof.
  intros Hp Hslab Hw H. cbn zeta. unfold init_create in H.
  pose proof (is_percolator_ids _ Hp) as [Nps Npsys].
  apply bind_Ok in H as (w1 & H1 & H). apply bind_Ok in H as (w2 & H2 & H).
  apply bind_Ok in H as (dec & _ & H). apply bind_Ok in H as (ix3 & Hix3 & H).
  apply bind_Ok in H as (w3 & H3 & H). apply bind_Ok in H as (ix4 & Hix4 & H4).
  assert (P3 : ix_program_id ix3 = SplToken.id) by (by injection Hix3 as <-).
  assert (P4 : ix_program_id ix4 = SplToken.id) by (by injection Hix4 as <-).
  destruct (create_or_adopt_pda_target _ _ _ _ _ _ _ _ _ H1) as [O1 D1].
  rewrite Nat2Z.id in D1.
  pose proof (create_or_adopt_pda_frame _ _ _ _ _ _ _ _ _ (ai_key (ia_slab a)) H1
                ltac:(rewrite Hslab; done)) as [S1 _].
  assert (W1 : world_ok w1) by (by eapply create_or_adopt_pda_bytes).
  assert (W2 : world_ok w2) by (by eapply law_bytes).
  assert (W3 : world_ok w3) by (by eapply law_bytes).
  destruct (law_own _ _ _ _ _ _ (ai_key (ia_pool_pda a)) H2
              (is_percolator_not_own _ Hp) O1) as [O2 D2].
  destruct (law_own _ _ _ _ _ _ (ai_key (ia_pool_pda a)) H3
              ltac:(rewrite P3; apply law_id_spl) ltac:(congruence)) as [O3 D3].
  destruct (law_own _ _ _ _ _ _ (ai_key (ia_pool_pda a)) H4
              ltac:(rewrite P4; apply law_id_spl) ltac:(congruence)) as [O4 D4].
  destruct (law_initialize_mint _ _ _ _ _ _ _ _ _ _ Hix3 H3) as (Om & Lm & Sm).
  destruct (law_initialize_account _ _ _ _ _ _ _ _ _ _ Hix4 H4)
    as (Lv0 & Lv & Ov & Mv & Tv & _ & Av).
  assert (N : ai_key (ia_lp_mint a) <> ai_key (ia_vault a))
    by (intros E; rewrite E, Lv0 in Lm; discriminate Lm).
  assert (F4 : get w4 (ai_key (ia_lp_mint a)) = get w3 (ai_key (ia_lp_mint a))).
  { apply (law_frame _ _ _ _ _ _ _ H4). injection Hix4 as <-. cbn. set_solver. }
  assert (R3 : rent_get w3 = rent_get w).
  { rewrite (law_rent _ _ _ _ _ _ H3), (law_rent _ _ _ _ _ _ H2). by eapply create_or_adopt_pda_rent. }
  rewrite F4.
  split_and!; try done; [by eapply law_bytes|congruence|congruence|by eapply opens_with_rent|].
  intros E. pose proof (law_wrapper_owner _ _ _ _ _ _ _ H2 Hp (eq_trans (eq_sym S1) Hslab)) as S2.
  pose proof (law_spl_owner _ _ _ _ _ _ (ai_key (ia_slab a)) H3 P3 ltac:(issued_by Hix3)) as S3.
  pose proof (law_spl_owner _ _ _ _ _ _ (ai_key (ia_slab a)) H4 P4 ltac:(issued_by Hix4)) as S4.
  rewrite <- E, S4, S3, S2 in Ov. done.
Qed.

Lemma init_accounts_in accounts a :
  init_accounts accounts = Ok a ->
  Forall (fun ai => ai ∈ accounts)
    [ia_admin a; ia_slab a; ia_pool_pda a; ia_lp_mint a; ia_vault a; ia_collateral_mint a;
     ia_percolator_program a] /\
  accounts !! INIT_POOL_POOL_PDA_INDEX = Some (ia_pool_pda a).
Proof.
  unfold init_accounts. intros H.
  do 11 (destruct accounts as [|? accounts]; [discriminate H|]). injection H as <-. cbn.
  split; [|done]. repeat (apply Forall_cons_2; [set_solver|]). apply Forall_nil_2.
Qed.

(** The genesis state of a pool made in [w0]. *)
Record genesis (pk : Pubkey) (a : InitAccounts) (c cap : Z) (w0 w : World) : Prop := {
  gn_backed : backed program_id pk w;
  gn_value : raw_value (pool_at pk w) = 0;
  gn_supply : (pool_at pk w).(sp_total_lp_supply) = 0;
  gn_admin : (pool_at pk w).(sp_admin) = ai_key (ia_admin a);
  gn_signed : ai_is_signer (ia_admin a) = true;
  gn_cooldown : (pool_at pk w).(sp_cooldown_slots) = c /\ 0 < c <= MAX_COOLDOWN_SLOTS;
  gn_cap : (pool_at pk w).(sp_deposit_cap) = cap;
  gn_flags : market_resolved (pool_at pk w) = false /\ tranche_enabled (pool_at pk w) = false /\
             hwm_enabled (pool_at pk w) = false /\ asset_admin_burned (pool_at pk w) = false;
  gn_vault : opens_with w0 (pool_at pk w).(sp_collateral_mint)
               (get w (pool_at pk w).(sp_vault)) (vault_amount pk w);
  gn_mint : mint_supply (get w (pool_at pk w).(sp_lp_mint)) = 0;
  gn_pda : fst (derive_pool_pda program_id (pool_at pk w).(sp_slab)) = pk;
  gn_bump : (pool_at pk w).(sp_vault_authority_bump) = snd (derive_vault_authority program_id pk);
  gn_junior : junior_balance (pool_at pk w) = 0 /\ junior_total_lp (pool_at pk w) = 0;
  gn_accounts : (pool_at pk w).(sp_slab) = ai_key (ia_slab a) /\
    (pool_at pk w).(sp_collateral_mint) = ai_key (ia_collateral_mint a) /\
    (pool_at pk w).(sp_lp_mint) = ai_key (ia_lp_mint a) /\
    (pool_at pk w).(sp_vault) = ai_key (ia_vault a) /\
    (pool_at pk w).(sp_percolator_program) = ai_key (ia_percolator_program a);
}.

(** Storing a spotless record over what the CPIs left. *)
Lemma bound_fresh p pk va w4 :
  world_ok w4 -> acc_owner (get w4 pk) = program_id ->
  (STAKE_POOL_SIZE <= length (acc_data (get w4 pk)))%nat ->
  wf_pool p -> check_pool p = Ok tt -> is_percolator p.(sp_percolator_program) = true ->
  acc_owner (get w4 p.(sp_vault)) = SplToken.id ->
  length (acc_data (get w4 p.(sp_vault))) = ACCOUNT_LEN ->
  token_owner (get w4 p.(sp_vault)) = va -> vault_auth_of program_id pk = va ->
  acc_owner (get w4 p.(sp_lp_mint)) = SplToken.id ->
  length (acc_data (get w4 p.(sp_lp_mint))) = MINT_LEN ->
  p.(sp_slab) <> p.(sp_vault) -> raw_value p <= token_amount (get w4 p.(sp_vault)) ->
  let w5 := store_pool pk p w4 in
  pool_at pk w5 = p /\ backed program_id pk w5 /\
  get w5 p.(sp_vault) = get w4 p.(sp_vault) /\ get w5 p.(sp_lp_mint) = get w4 p.(sp_lp_mint).
Proof.
  intros Hw O Hl Hwf Hck Hp Ov Lv Tv Va Om Lm Ns Hv w5.
  pose proof (pool_at_store pk p w4 Hwf Hl) as E. fold w5 in E.
  assert (Nv : pk <> sp_vault p) by (intros X; rewrite <- X, O in Ov; by apply law_id_spl).
  assert (Nm : pk <> sp_lp_mint p) by (intros X; rewrite <- X, O in Om; by apply law_id_spl).
  assert (Gv : get w5 (sp_vault p) = get w4 (sp_vault p)) by (by apply get_set_data_ne).
  assert (Gm : get w5 (sp_lp_mint p) = get w4 (sp_lp_mint p)) by (by apply get_set_data_ne).
  split_and!; [done| |done|done].
  split; [by apply world_ok_store_pool| |unfold vault_amount; rewrite E, Gv; lia].
  split; rewrite ?E, ?Gv, ?Gm; try done; [| |congruence].
  - unfold w5, store_pool. by rewrite acc_owner_set_data.
  - unfold w5, store_pool. rewrite get_set_data_eq. cbn [acc_data].
    rewrite length_splice; [done|]. by rewrite length_pool_encode.
Qed.

Lemma init_keys_ok accounts a :
  keys_ok accounts -> init_accounts accounts = Ok a ->
  Forall (fun ai => key_ok (ai_key ai))
    [ia_admin a; ia_slab a; ia_pool_pda a; ia_lp_mint a; ia_vault a; ia_collateral_mint a;
     ia_percolator_program a].
Proof.
  intros Hkeys [Hin _]%init_accounts_in. revert Hin. apply Forall_impl. intros x Hx.
  unfold keys_ok in Hkeys. rewrite Forall_forall in Hkeys. apply Hkeys.
  by apply list_elem_of_In.
Qed.

Lemma init_pool_genesis accounts c cap w w' :
  world_ok w -> keys_ok accounts -> u64 c -> u64 cap ->
  process_init_pool program_id accounts c cap w = Ok w' ->
  exists a, init_accounts accounts = Ok a /\ genesis (ai_key (ia_pool_pda a)) a c cap w w' /\
            (pool_at (ai_key (ia_pool_pda a)) w').(sp_pool_mode) = 0.
Proof.
  intros Hw Hkeys Hc Hcap H. unfold process_init_pool in H.
  apply bind_Ok in H as (a & Ha & H). exists a. split; [done|].
  pose proof (init_keys_ok _ _ Hkeys Ha) as Hks.
  repeat (let K := fresh "K" in apply Forall_cons_1 in Hks as [K Hks]). clear Hks.
  apply bind_Ok in H as ([b vb] & Hg & H).
  apply init_guards_Ok in Hg as (Hsg & Hp & Hc0 & Hcm & Hpk & Hva & _ & _ & Hslab).
  apply bind_Ok in H as (w4 & H4 & H).
  destruct (init_create_spec a b vb w w4 Hp Hslab Hw H4)
    as (W4 & O & D & Ov & Lv & Tv & Av & Mv & Om & Lm & Sm & Ns).
  apply bind_Ok in H as (d & [_ ->]%try_borrow_data_Ok & H). unfold ai_data in H.
  rewrite D in H. apply bind_Ok in H as (p & ->%zero_pool_from_data & [= <-]).
  pose proof (law_pda [SEED_STAKE_POOL; ai_key (ia_slab a)]) as [_ Hb].
  pose proof (law_pda [SEED_VAULT_AUTH; ai_key (ia_pool_pda a)]) as [_ Hvb].
  unfold derive_pool_pda in Hpk. unfold derive_vault_authority in Hva.
  rewrite Hpk in Hb. rewrite Hva in Hvb. cbn in Hb, Hvb.
  destruct (init_record_spec a b vb c cap) as
    (Hwf & Hck & Hrv & Hlp & Hjb & Hjl & Hres & Htr & Hhwm & Hbrn & _); try done.
  pose proof (init_record_fields a b vb c cap zero_pool)
    as (Fs & Fa & Fm & Fv & Fp & Fc & Fcap & Fmode & Fb & Fcol). cbn zeta in *.
  set (p := init_record a b vb c cap zero_pool) in *. set (pk := ai_key (ia_pool_pda a)) in *.
  clearbody p. rewrite <- Fv, <- Fm, <- Fs, <- Fp, <- Fa in *.
  destruct (bound_fresh p pk (ai_key (ia_vault_auth a)) w4) as (E & Hbk & Gv & Gm); try done.
  { by rewrite D, length_replicate. }
  { unfold vault_auth_of, derive_vault_authority. by rewrite Hva. }
  { rewrite Hrv. apply token_amount_u64; [done|by rewrite Lv]. }
  split; [|by rewrite E].
  split; unfold vault_amount; rewrite ?E, ?Gv, ?Gm, ?Fcol; try done.
  - split; [done|]. width_lia.
  - unfold derive_pool_pda. by rewrite Hpk.
  - unfold derive_vault_authority. by rewrite Hva.
Qed.

Lemma init_trading_pool_genesis accounts c cap w w' :
  world_ok w -> keys_ok accounts -> u64 c -> u64 cap ->
  process_init_trading_pool program_id accounts c cap w = Ok w' ->
  exists a, init_accounts accounts = Ok a /\ genesis (ai_key (ia_pool_pda a)) a c cap w w' /\
            (pool_at (ai_key (ia_pool_pda a)) w').(sp_pool_mode) = 1.
Proof.
  intros Hw Hkeys Hc Hcap H. unfold process_init_trading_pool in H.
  apply bind_Ok in H as (w1 & H1 & H).
  apply init_pool_genesis in H1 as (a & Ha & G & Hm); [|done..]. exists a. split; [done|].
  apply bind_Ok in H as (ai & Hai%ok_or_Ok & H).
  apply init_accounts_in in Ha as [_ Ha]. rewrite Hai in Ha. injection Ha as ->.
  apply bind_Ok in H as ([] & _ & H). apply bind_Ok in H as (d & [_ ->]%try_borrow_data_Ok & H).
  apply bind_Ok in H as (p & [_ ->]%pool_from_data_Ok & H). apply ensure_Ok in H as [_ [= <-]].
  unfold ai_data. set (pk := ai_key (ia_pool_pda a)) in *. fold (pool_at pk w1).
  destruct G as [Hbk V S A Sg C Cp F Vt M P B J Ac].
  pose proof (backed_wf pk w1 Hbk) as Hwf. pose proof (bk_bound _ _ _ Hbk) as Bd.
  pose proof (bound_pool_vault pk w1 Bd) as Nv. pose proof (bound_pool_mint pk w1 Bd) as Nm.
  destruct (set_pool_mode_frame (pool_at pk w1) 1 Hwf ltac:(width_lia))
    as (Hq & Eb & Er & Es & Ea & Em & Ev & Ec & Ecap & Evb & Elp & Evw & Emode & Ecol & Epp).
  cbn zeta in *. set (q := (pool_at pk w1) <| sp_pool_mode := 1 |>) in *. clearbody q.
  assert (Hbk' : backed program_id pk (store_pool pk q w1)).
  { apply backed_store; [apply Hbk|done|done|done|]. rewrite Er. apply Hbk. }
  pose proof (pool_at_store pk q w1 Hq (bd_len _ _ _ Bd)) as E.
  split; [|by rewrite E].
  split; unfold vault_amount; rewrite ?E; try congruence.
  - autorewrite with pool_getters. rewrite Evw. exact F.
  - rewrite Ev, Ecol. unfold store_pool. by rewrite get_set_data_ne.
  - rewrite Em. unfold store_pool. by rewrite get_set_data_ne.
  - rewrite junior_balance_rv, junior_total_lp_rv, Evw, <- junior_balance_rv, <- junior_total_lp_rv.
    exact J.
Qed.
End InitPool.

#[global] Arguments genesis {RT BC} program_id pk a c cap w0 w.
