(* ===== verification/Safety.v ===== *)
(** * The pool stays backed

    Every instruction the entrypoint accepts keeps the vault at or above the
    value shares are priced against ([backed]); InitPool and InitTradingPool
    start from such a state; so every reachable store has it. *)

From S2P Require Import Prelude Errors Math State PoolFacts Instruction Runtime SplToken Cpi Guards.
From S2P Require Import Fees Deposit Withdraw Insurance Admin Proxy Init Processor Ledger.
From S2P Require Import LedgerFacts LedgerInv Laws Backing BackingSteps BackingLp BackingInit.

(** The position of the pool account in an instruction's account list. *)
Definition pool_index (i : StakeInstruction) : nat :=
  match i with InitPool _ _ | InitTradingPool _ _ => 2 | _ => 1 end%nat.

(** The two instructions that create a pool. *)
Definition is_init (i : StakeInstruction) : bool :=
  match i with InitPool _ _ | InitTradingPool _ _ => true | _ => false end.

(** A transaction the entrypoint accepts, on the pool [pk]: the account list as
    the runtime passes it, the bytes and what they decode to. *)
Record accepts `{Runtime} `{BuildConfig} (program_id pk : Pubkey) (accounts : list AccountInfo)
    (data : list Z) (i : StakeInstruction) (w w' : World) : Prop := {
  ac_keys : keys_ok accounts;
  ac_signers : signers_ok program_id pk accounts;
  ac_data : bytes_ok data;
  ac_decodes : unpack data = Ok i;
  ac_targets : targets (pool_index i) accounts pk;
  ac_runs : process program_id accounts data w = Ok w';
}.

(** What the rest of the chain may do to a pool: pay into the vault, burn LP
    tokens; the pool's record is this program's to write, and the vault and the
    mint answer to [vault_auth] alone. *)
Record environment (pk : Pubkey) (w w' : World) : Prop := {
  en_keeps : keeps pk w w';
  en_vault : vault_amount pk w <= vault_amount pk w';
  en_mint : 0 <= mint_amount pk w' <= mint_amount pk w;
}.

Section Safety.
Context {RT : Runtime} {BC : BuildConfig} {program_id : Pubkey} {RL : RuntimeLaws program_id}.

(** InitPool refuses an account that already holds data, so it never runs on
    a live pool. *)
Lemma init_pool_not_live accounts c cap w w' pk :
  process_init_pool program_id accounts c cap w = Ok w' -> targets 2 accounts pk ->
  ~ bound program_id pk w.
Proof.
  intros H (ai & Hai & <-) B. unfold process_init_pool in H.
  apply bind_Ok in H as (a & Ha & H). apply init_accounts_in in Ha as [_ Ha].
  change INIT_POOL_POOL_PDA_INDEX with 2%nat in Ha. rewrite Hai in Ha. injection Ha as ->. apply bind_Ok in H as ([b vb] & Hg & _).
  apply init_guards_Ok in Hg as (_ & _ & _ & _ & _ & _ & Hd & _). unfold ai_data in Hd.
  pose proof (bd_len _ _ _ B) as Hl. rewrite Hd in Hl. cbn in Hl. unfold STAKE_POOL_SIZE in Hl. lia.
Qed.

Lemma init_trading_pool_not_live accounts c cap w w' pk :
  process_init_trading_pool program_id accounts c cap w = Ok w' -> targets 2 accounts pk ->
  ~ bound program_id pk w.
Proof.
  intros H. unfold process_init_trading_pool in H. apply bind_Ok in H as (w1 & H1 & _).
  by eapply init_pool_not_live.
Qed.

(** Every handler refines the ledger. *)
Lemma dispatch_refines pk accounts i w w' :
  backed program_id pk w -> keys_ok accounts -> signers_ok program_id pk accounts ->
  targets (pool_index i) accounts pk -> wf_instruction i ->
  dispatch program_id accounts i w = Ok w' -> refines pk accounts i w w'.
Proof.
  intros Hbk Hkeys Hsig Htgt Hi H. destruct i; cbn in Htgt, Hi, H; destruct_and?.
  all: try (exfalso; first
    [ exact (init_pool_not_live _ _ _ _ _ _ H Htgt (bk_bound _ _ _ Hbk))
    | exact (init_trading_pool_not_live _ _ _ _ _ _ H Htgt (bk_bound _ _ _ Hbk)) ]).
  - by eapply dp_refines, deposit_inv.
  - by eapply wd_refines, withdraw_inv.
  - by eapply flush_refines.
  - by eapply update_config_refines.
  - by eapply propose_admin_refines.
  - by eapply accept_admin_refines.
  - by eapply propose_cooldown_refines.
  - by eapply commit_cooldown_refines.
  - by eapply cancel_cooldown_refines.
  - by eapply bind_authority_refines.
  - by eapply rotate_authority_refines.
  - by eapply burn_asset_admin_refines.
  - by eapply rotate_operator_refines.
  - by eapply recover_refines.
  - by eapply return_refines.
  - by eapply accrue_fees_refines.
  - by eapply set_hwm_config_refines.
  - by eapply set_tranche_config_refines.
  - by eapply dp_refines, deposit_junior_inv.
  - by eapply set_market_resolved_refines.
  - by eapply resolve_market_refines.
  - by eapply fee_split_refines.
  - by eapply maintenance_fee_refines.
  - by eapply backing_fee_refines.
  - by eapply trade_fee_refines.
Qed.

Lemma process_dispatch accounts data i w w' :
  unpack data = Ok i -> process program_id accounts data w = Ok w' ->
  dispatch program_id accounts i w = Ok w'.
Proof. unfold process. intros -> H. exact H. Qed.

(** One accepted transaction, as a ledger step. *)
Lemma accepts_refines pk accounts data i w w' :
  backed program_id pk w -> accepts program_id pk accounts data i w w' ->
  wf_instruction i /\ refines pk accounts i w w'.
Proof.
  intros Hbk [Hk Hs Hd Hu Ht Hr]. apply (process_dispatch _ _ i) in Hr; [|done].
  pose proof (unpack_inv _ _ Hd Hu) as (Hi & _). split; [done|]. by eapply dispatch_refines.
Qed.

Lemma accepts_step pk accounts data i w w' :
  backed program_id pk w -> accepts program_id pk accounts data i w w' ->
  wf_instruction i /\ authorized (signed accounts) i (pool_at pk w) /\
  backed program_id pk w' /\
  exists clk j, wf_clock clk /\ clock_ok accounts i w clk /\
                ledger_step clk j i (ledger_of pk w) = Ok (ledger_of pk w').
Proof.
  intros Hbk [Hi Hr]%accepts_refines; [|done]. split; [done|]. split; [by apply Hr|].
  by apply (refines_backed pk w Hbk accounts i).
Qed.

Lemma environment_backed pk w w' :
  backed program_id pk w -> environment pk w w' ->
  backed program_id pk w' /\ pool_at pk w' = pool_at pk w.
Proof.
  intros [W B V] [K Hv _]. pose proof (same_state_pool_at _ _ _ (kp_pool _ _ _ K)) as E.
  split; [|done]. split; [by apply K|by eapply keeps_bound|]. rewrite E. lia.
Qed.

Lemma environment_locked pk w w' :
  environment pk w w' -> supply_locked (ledger_of pk w) -> supply_locked (ledger_of pk w').
Proof.
  intros [K _ Hm] [H0 Hl]. unfold supply_locked in *. cbn [ledger_of lg_supply lg_pool] in *.
  rewrite (same_state_pool_at _ _ _ (kp_pool _ _ _ K)). lia.
Qed.

(** ** Reachable stores *)

Inductive reachable (pk : Pubkey) : forall w : World, Prop :=
| reach_init accounts data i w w' :
    world_ok w -> is_init i = true -> accepts program_id pk accounts data i w w' ->
    reachable pk w'
| reach_instruction accounts data i w w' :
    reachable pk w -> accepts program_id pk accounts data i w w' -> reachable pk w'
| reach_environment w w' : reachable pk w -> environment pk w w' -> reachable pk w'.

Record safe (pk : Pubkey) (w : World) : Prop := {
  sf_backed : backed program_id pk w;
  sf_locked : supply_locked (ledger_of pk w);
}.

(** What InitPool and InitTradingPool leave. *)
Lemma init_accepts pk accounts data i w w' :
  world_ok w -> is_init i = true -> accepts program_id pk accounts data i w w' ->
  exists a c cap,
    init_accounts accounts = Ok a /\ ai_key (ia_pool_pda a) = pk /\
    genesis program_id pk a c cap w w' /\
    (i = InitPool c cap /\ (pool_at pk w').(sp_pool_mode) = 0 \/
     i = InitTradingPool c cap /\ (pool_at pk w').(sp_pool_mode) = 1).
Proof.
  intros Hw Hi [Hk Hs Hd Hu Ht Hr]. apply (process_dispatch _ _ i) in Hr; [|done].
  pose proof (unpack_inv _ _ Hd Hu) as (Hwf & _).
  assert (Hpk : forall a, init_accounts accounts = Ok a -> pool_index i = 2%nat ->
                          ai_key (ia_pool_pda a) = pk).
  { intros a [_ Ha]%init_accounts_in E. rewrite E in Ht. destruct Ht as (x & Hx & <-).
    change INIT_POOL_POOL_PDA_INDEX with 2%nat in Ha. rewrite Hx in Ha. by injection Ha as ->. }
  destruct i; try discriminate Hi; cbn [dispatch wf_instruction pool_index] in *; destruct_and?.
  - apply init_pool_genesis in Hr as (a & Ha & G & M); [|done..].
    pose proof (Hpk a Ha eq_refl) as E. rewrite E in G, M. exists a, cooldown_slots, deposit_cap.
    split_and!; [done|done|done|by left].
  - apply init_trading_pool_genesis in Hr as (a & Ha & G & M); [|done..].
    pose proof (Hpk a Ha eq_refl) as E. rewrite E in G, M. exists a, cooldown_slots, deposit_cap.
    split_and!; [done|done|done|by right].
Qed.

Lemma reachable_safe pk w : reachable pk w -> safe pk w.
Proof.
  induction 1 as [accounts data i w w' Hw Hi Ha|accounts data i w w' _ [Hb Hl] Ha
                 |w w' _ [Hb Hl] He].
  - apply init_accepts in Ha as (a & c & cap & _ & _ & G & _); [|done|done].
    split; [apply G|]. split; cbn [ledger_of lg_supply lg_pool]; unfold mint_amount;
      rewrite (gn_mint _ _ _ _ _ _ G); [done|left]. split; [apply G|done].
  - apply accepts_step in Ha as (Hi & _ & Hb' & clk & j & Hclk & _ & Hs); [|done].
    split; [done|]. eapply ledger_step_locked; [..|exact Hs|done]; try done.
    + by eapply backed_wf.
    + by eapply vault_amount_u64.
    + apply Hb.
  - destruct (environment_backed _ _ _ Hb He) as [Hb' _]. split; [done|].
    by eapply environment_locked.
Qed.

(** ** Histories: transactions with their clock *)

(** The clock every account of the transaction reads. *)
Definition transaction_clock (accounts : list AccountInfo) (w : World) (clk : Clock) : Prop :=
  forall ai c, ai ∈ accounts -> clock_from_account_info ai w = Ok c -> c = clk.

Inductive history (pk : Pubkey) (w : World) :
    forall (tr : list (StakeInstruction * Clock)) (w' : World), Prop :=
| hist_nil : history pk w [] w
| hist_instruction tr w1 w2 accounts data i clk :
    history pk w tr w1 -> accepts program_id pk accounts data i w1 w2 ->
    transaction_clock accounts w1 clk -> history pk w (tr ++ [(i, clk)]) w2
| hist_environment tr w1 w2 :
    history pk w tr w1 -> environment pk w1 w2 -> history pk w tr w2.

Lemma history_backed pk w tr w' :
  backed program_id pk w -> history pk w tr w' -> backed program_id pk w'.
Proof.
  intros Hb. induction 1 as [|tr w1 w2 accounts data i clk _ IH Ha _|tr w1 w2 _ IH He]; [done|..].
  - by apply accepts_step in Ha as (_ & _ & ? & _).
  - by destruct (environment_backed _ _ _ IH He).
Qed.

(** The roles after one accepted transaction. *)
Lemma accepts_roles pk accounts data i w w' clk :
  backed program_id pk w -> accepts program_id pk accounts data i w w' ->
  transaction_clock accounts w clk ->
  cooldown_step i clk (pool_at pk w) (pool_at pk w') /\
  admin_step i (pool_at pk w) (pool_at pk w').
Proof.
  intros Hb Ha Ht. apply accepts_step in Ha as (Hi & _ & _ & clk' & j & Hclk & Hco & Hs); [|done].
  apply ledger_step_roles in Hs as [Hc Had];
    [|by eapply backed_wf|by eapply vault_amount_u64|apply Hb|done|done].
  cbn [ledger_of lg_pool] in *. split; [|done].
  enough (clk' = clk \/ (forall c, i <> ProposeCooldownIncrease c) /\ i <> CommitCooldownIncrease)
    as [->|[N1 N2]]; [done| |].
  - destruct Hc as [Hc1 Hc2]. split.
    + destruct Hc1 as [?|[?|(c & E & _)]]; [by left|by right; left|by destruct (N1 c)].
    + destruct Hc2 as [?|(E & _)]; [by left|done].
  - destruct i; try (right; done); left; destruct Hco as (ai & Hin & Hr); by eapply Ht.
Qed.

(** Where a pending proposal came from. *)
Definition proposed_in (tr : list (StakeInstruction * Clock)) (slot : Z) : Prop :=
  exists n c clk, tr !! n = Some (ProposeCooldownIncrease c, clk) /\ clk.(clock_slot) = slot.

Definition timelocked_in (tr : list (StakeInstruction * Clock)) : Prop :=
  exists n m c clk1 clk2,
    (n < m)%nat /\ tr !! n = Some (ProposeCooldownIncrease c, clk1) /\
    tr !! m = Some (CommitCooldownIncrease, clk2) /\
    clk1.(clock_slot) + TIMELOCK_SLOTS <= clk2.(clock_slot).

Lemma proposed_in_app tr x slot : proposed_in tr slot -> proposed_in (tr ++ x) slot.
Proof. intros (n & c & clk & Hn & E). exists n, c, clk. split; [by apply lookup_app_l_Some|done]. Qed.

Lemma timelocked_in_app tr x : timelocked_in tr -> timelocked_in (tr ++ x).
Proof.
  intros (n & m & c & c1 & c2 & Hlt & Hn & Hm & Hle). exists n, m, c, c1, c2.
  split_and!; [done|by apply lookup_app_l_Some|by apply lookup_app_l_Some|done].
Qed.

Lemma history_timelock pk w tr w' :
  backed program_id pk w -> (pool_at pk w).(sp_cooldown_proposed_at_slot) = 0 ->
  history pk w tr w' ->
  ((pool_at pk w').(sp_cooldown_proposed_at_slot) = 0 \/
   proposed_in tr (pool_at pk w').(sp_cooldown_proposed_at_slot)) /\
  ((pool_at pk w').(sp_cooldown_slots) <= (pool_at pk w).(sp_cooldown_slots) \/
   timelocked_in tr).
Proof.
  intros Hb H0 H. pose proof H as H'. revert H'.
  induction H as [|tr w1 w2 accounts data i clk Hh IH Ha Ht|tr w1 w2 Hh IH He]; intros _.
  - split; left; [done|lia].
  - specialize (IH Hh) as [IH1 IH2]. pose proof (history_backed _ _ _ _ Hb Hh) as Hb1.
    destruct (accepts_roles _ _ _ _ _ _ _ Hb1 Ha Ht) as [[C1 C2] _]. split.
    + destruct C1 as [->|[->|(c & -> & ->)]]; [|by left|].
      * destruct IH1 as [?|?]; [by left|right; by apply proposed_in_app].
      * right. exists (length tr), c, clk. split; [by apply list_lookup_middle|done].
    + destruct IH2 as [IH2|?]; [|right; by apply timelocked_in_app].
      destruct C2 as [?|(-> & Hn & Hel & _)]; [left; lia|right].
      destruct IH1 as [?|(n & c & clk1 & Hn1 & Hs)]; [done|].
      exists n, (length tr), c, clk1, clk. split_and!.
      * by apply lookup_lt_Some in Hn1.
      * by apply lookup_app_l_Some.
      * by apply list_lookup_middle.
      * lia.
  - specialize (IH Hh) as [IH1 IH2]. pose proof (history_backed _ _ _ _ Hb Hh) as Hb1.
    by destruct (environment_backed _ _ _ Hb1 He) as [_ ->].
Qed.
End Safety.

#[global] Arguments reachable {RT BC} program_id pk w.
#[global] Arguments safe {RT BC} program_id pk w.
#[global] Arguments history {RT BC} program_id pk w tr w'.
