(* ===== verification/Frame.v ===== *)
(** * What a transaction leaves alone

    [untouched k w w']: an account of this program keeps its owner and its
    bytes; an account that becomes the program's holds zeros. Every handler
    leaves every account untouched except the pool and, for the three handlers
    that keep a user's record, that record. *)

From S2P Require Import Prelude Errors Math State PoolFacts Instruction Runtime SplToken Cpi Guards.
From S2P Require Import Fees Deposit Withdraw Insurance Admin Proxy Init Processor Ledger.
From S2P Require Import LedgerFacts LedgerInv Laws Backing BackingSteps BackingLp BackingInit Safety.

Definition untouched (program_id k : Pubkey) (w w' : World) : Prop :=
  if decide (acc_owner (get w k) = program_id) then same_state (get w k) (get w' k)
  else acc_owner (get w' k) = program_id -> blank (get w' k).

(** The account of the caller's record: the eighth of all three LP handlers. *)
Definition record_index : nat := 7.

Definition keeps_record (i : StakeInstruction) : bool :=
  match i with
  | Instruction.Deposit _ | DepositJunior _ | Instruction.Withdraw _ => true
  | _ => false
  end.

(** The accounts of the program a transaction may write. *)
Definition may_write (accounts : list AccountInfo) (i : StakeInstruction) (pk k : Pubkey) : Prop :=
  k = pk \/ keeps_record i = true /\ targets record_index accounts k.

(** Inverts a successful handler down to its stores and calls. *)
Ltac open_handler H :=
  repeat first
    [ inv_ok_step H
    | lazymatch type of H with
      | match ?l with [] => _ | _ :: _ => _ end = Ok _ => destruct l; [try discriminate H|]
      end ];
  try injection H as <-.

Section Frame.
Context {RT : Runtime} {BC : BuildConfig} {program_id : Pubkey} {RL : RuntimeLaws program_id}.
#[local] Abbreviation frame := (untouched program_id).

#[export] Instance untouched_preorder k : PreOrder (untouched program_id k).
Proof.
  unfold untouched. split.
  - intros w. case_decide; done.
  - intros w1 w2 w3. destruct (decide (acc_owner (get w1 k) = program_id)) as [E1|N1],
      (decide (acc_owner (get w2 k) = program_id)) as [E2|N2]; intros H1 H2.
    + by rewrite H1.
    + destruct H1 as [H1 _]. congruence.
    + intros _. destruct H2 as [_ E]. unfold blank in *. rewrite <- E. by apply H1.
    + done.
Qed.

Lemma frame_call mb ix infos seeds w w' k :
  invoke_signed mb ix infos seeds w = Ok w' -> ix_program_id ix <> program_id -> frame k w w'.
Proof.
  intros Hc Hi. unfold untouched. case_decide; [by eapply law_own|by eapply law_new_own].
Qed.

Lemma frame_spl mb ix infos seeds w w' k :
  invoke_signed mb ix infos seeds w = Ok w' -> ix_program_id ix = SplToken.id -> frame k w w'.
Proof. intros Hc Hi. eapply frame_call; [done|]. rewrite Hi. apply law_id_spl. Qed.

Lemma frame_system mb ix infos seeds w w' k :
  invoke_signed mb ix infos seeds w = Ok w' -> ix_program_id ix = SYSTEM_PROGRAM_ID ->
  frame k w w'.
Proof. intros Hc Hi. eapply frame_call; [done|]. rewrite Hi. apply law_id_system. Qed.

Lemma frame_wrapper mb ix infos seeds w w' k :
  invoke_signed mb ix infos seeds w = Ok w' -> is_percolator (ix_program_id ix) = true ->
  frame k w w'.
Proof. intros Hc Hi. eapply frame_call; [done|]. by apply is_percolator_not_own. Qed.

Lemma frame_set_data k' d w k : k <> k' -> frame k w (set_data k' d w).
Proof.
  intros Hne. unfold untouched. rewrite get_set_data_ne by done. by case_decide.
Qed.

Lemma frame_store_pool pk q w w' k : k <> pk -> frame k w w' -> frame k w (store_pool pk q w').
Proof. intros Hne ->. by apply frame_set_data. Qed.

Lemma frame_store_deposit k' d w w' k :
  k <> k' -> frame k w w' -> frame k w (store_deposit k' d w').
Proof. intros Hne ->. by apply frame_set_data. Qed.

(** Creating an account of the program leaves zeros. *)
Lemma frame_create mb t p s o sp seeds w w' k :
  create_or_adopt_pda mb t p s o sp seeds w = Ok w' -> frame k w w'.
Proof.
  intros Hc. unfold create_or_adopt_pda in Hc. apply bind_Ok in Hc as (rent & _ & Hc).
  destruct (law_system_ids (ai_key p) (ai_key t) (rent_minimum_balance rent sp) sp o)
    as (Hic & _ & _ & _).
  destruct (ai_lamports w t =? 0); [by eapply frame_system|].
  destruct (law_system_ids (ai_key t) (ai_key t) 0 sp o) as (_ & _ & Hia & Hig).
  apply bind_Ok in Hc as (w1 & H1 & Hc). apply bind_Ok in Hc as (w2 & H2 & Hc).
  transitivity w1; [|transitivity w2; by eapply frame_system].
  destruct (_ <? _); [|by injection H1 as ->]. eapply frame_system; [done|]. by apply law_system_ids.
Qed.

(** ** The handlers *)

Section Handlers.
Context (pk k : Pubkey) (Hk : k <> pk).

Lemma init_create_frame a b vb w w' :
  is_percolator (ai_key (ia_percolator_program a)) = true ->
  init_create program_id a b vb w = Ok w' -> frame k w w'.
Proof.
  intros Hp H. unfold init_create in H. apply bind_Ok in H as (w1 & H1 & H).
  apply bind_Ok in H as (w2 & H2 & H). apply bind_Ok in H as (dec & _ & H).
  apply bind_Ok in H as (ix & Hix & H). apply bind_Ok in H as (w3 & H3 & H).
  apply bind_Ok in H as (ix2 & Hix2 & H). injection Hix as <-. injection Hix2 as <-.
  transitivity w1; [by eapply frame_create|]. transitivity w2; [by eapply frame_wrapper|].
  transitivity w3; by eapply frame_spl.
Qed.

Lemma init_pool_frame accounts c cap w w' :
  targets 2 accounts pk -> process_init_pool program_id accounts c cap w = Ok w' -> frame k w w'.
Proof.
  intros (ai & Hai & Ea) H. unfold process_init_pool in H. apply bind_Ok in H as (a & Ha & H).
  apply init_accounts_in in Ha as [_ Ha]. change INIT_POOL_POOL_PDA_INDEX with 2%nat in Ha.
  rewrite Hai in Ha. injection Ha as ->. apply bind_Ok in H as ([b vb] & Hg & H).
  apply init_guards_Ok in Hg as (_ & Hp & _). apply bind_Ok in H as (w1 & Hc & H).
  open_handler H. rewrite Ea. apply frame_store_pool; [done|]. by eapply init_create_frame.
Qed.

Lemma init_trading_pool_frame accounts c cap w w' :
  targets 2 accounts pk -> process_init_trading_pool program_id accounts c cap w = Ok w' ->
  frame k w w'.
Proof.
  intros Ht H. unfold process_init_trading_pool in H. apply bind_Ok in H as (w1 & H1 & H).
  apply (init_pool_frame _ _ _ _ _ Ht) in H1. destruct Ht as (ai & Hai & Ea).
  change INIT_POOL_POOL_PDA_INDEX with 2%nat in H. rewrite Hai in H. open_handler H.
  injection E as <-. rewrite Ea. by apply frame_store_pool.
Qed.

(** ** Handlers on a live pool *)

(** The pool opened for reading. *)
Lemma market_read w admin pool_pda l q slab perc :
  targets 1 (admin :: pool_pda :: l) pk ->
  open_pool_read program_id admin pool_pda w = Ok q -> check_market q slab perc = Ok tt ->
  sp_percolator_program (pool_at pk w) = ai_key perc.
Proof. by intros <-%target_1 (-> & _)%open_pool_read_Ok [_ Hp]%check_market_Ok. Qed.

Section Live.
Context (w : World) (Hbk : backed program_id pk w).
Context (accounts : list AccountInfo) (Htgt : targets 1 accounts pk).

(** A handler that only rewrites the record. *)
Ltac record_only H :=
  open_handler H; rewrite ?(target_1 _ _ _ _ Htgt); by apply frame_store_pool.

(** The instructions that change the record alone. *)
Definition record_instruction (i : StakeInstruction) : bool :=
  match i with
  | UpdateConfig _ _ | ProposeAdmin _ | AcceptAdmin | ProposeCooldownIncrease _
  | CommitCooldownIncrease | CancelCooldownIncrease | AdminSetHwmConfig _ _
  | AdminSetTrancheConfig _ | SetMarketResolved | AccrueFees => true
  | _ => false
  end.

Lemma record_frame i w' :
  record_instruction i = true -> dispatch program_id accounts i w = Ok w' -> frame k w w'.
Proof.
  destruct i; intros Hi H; try discriminate Hi; clear Hi; cbn [dispatch] in H.
  - unfold process_update_config in H. record_only H.
  - unfold process_propose_admin in H. record_only H.
  - unfold process_accept_admin in H. record_only H.
  - unfold process_propose_cooldown_increase in H. record_only H.
  - unfold process_commit_cooldown_increase in H. record_only H.
  - unfold process_cancel_cooldown_increase in H. record_only H.
  - unfold process_accrue_fees in H.
    destruct accounts as [|? [|? [|? [|? l]]]]; try discriminate H;
      [apply bind_Ok in H as ([] & _ & H); discriminate H..|]. cbn zeta in H. record_only H.
  - unfold process_admin_set_hwm_config in H. record_only H.
  - unfold process_admin_set_tranche_config in H. record_only H.
  - unfold process_set_market_resolved in H. record_only H.
Qed.

(** A call to the pool's wrapper. *)
Lemma market_frame mb ix infos seeds w1 w' perc :
  invoke_signed mb ix infos seeds w1 = Ok w' ->
  sp_percolator_program (pool_at pk w) = perc -> ix_program_id ix = perc -> frame k w1 w'.
Proof.
  intros Hc Hp Hi. eapply frame_wrapper; [done|]. rewrite Hi, <- Hp. apply Hbk.
Qed.

(** The instructions that forward one message to the wrapper. *)
Definition proxy_instruction (i : StakeInstruction) : bool :=
  match i with
  | AdminUpdateFeeSplit _ _ _ | AdminUpdateMaintenanceFeePerSlot _
  | AdminUpdateBackingFeePolicy _ _ _ | AdminUpdateTradeFeePolicy _
  | RotateInsuranceAuthority | RotateInsuranceOperator => true
  | _ => false
  end.

Lemma proxy_frame i w' :
  proxy_instruction i = true ->
  dispatch program_id accounts i w = Ok w' -> frame k w w'.
Proof.
  destruct i; intros Hi H; try discriminate Hi; clear Hi; cbn [dispatch] in H.
  - unfold process_rotate_insurance_authority in H.
    destruct accounts as [|? [|? [|? [|? [|? [|? l]]]]]]; try discriminate H.
    apply bind_Ok in H as (b & (_ & _ & _ & Hp)%(rotate_guards_Ok _ _ _ _ _ _ _ _ _ _ Htgt) & H).
    by apply (market_frame _ _ _ _ _ _ _ H Hp).
  - unfold process_rotate_insurance_operator in H.
    destruct accounts as [|? [|? [|? [|? [|? [|? l]]]]]]; try discriminate H.
    apply bind_Ok in H as (b & (_ & _ & _ & Hp)%(rotate_guards_Ok _ _ _ _ _ _ _ _ _ _ Htgt) & H).
    by apply (market_frame _ _ _ _ _ _ _ H Hp).
  - unfold process_admin_update_fee_split in H.
    destruct accounts as [|? [|? [|? [|? l]]]]; try discriminate H.
    apply bind_Ok in H as (b & (_ & _ & Hp)%(group_a_Ok _ _ _ _ _ _ _ _ Htgt) & H).
    by apply (market_frame _ _ _ _ _ _ _ H Hp).
  - unfold process_admin_update_maintenance_fee_per_slot in H.
    destruct accounts as [|? [|? [|? [|? l]]]]; try discriminate H.
    apply bind_Ok in H as (b & (_ & _ & Hp)%(group_a_Ok _ _ _ _ _ _ _ _ Htgt) & H).
    by apply (market_frame _ _ _ _ _ _ _ H Hp).
  - unfold process_admin_update_backing_fee_policy in H.
    destruct accounts as [|? [|? [|? [|? [|? l]]]]]; try discriminate H.
    apply bind_Ok in H as (b & (_ & _ & Hp)%(group_b_Ok _ _ _ _ _ _ _ _ _ Htgt) & H).
    by apply (market_frame _ _ _ _ _ _ _ H Hp).
  - unfold process_admin_update_trade_fee_policy in H.
    destruct accounts as [|? [|? [|? [|? [|? l]]]]]; try discriminate H.
    apply bind_Ok in H as (b & (_ & _ & Hp)%(group_b_Ok _ _ _ _ _ _ _ _ _ Htgt) & H).
    by apply (market_frame _ _ _ _ _ _ _ H Hp).
Qed.

Lemma bind_authority_frame w' :
  process_bind_insurance_authority program_id accounts w = Ok w' -> frame k w w'.
Proof.
  intros H. unfold process_bind_insurance_authority in H.
  destruct accounts as [|? [|? [|? [|? [|? l]]]]]; try discriminate H.
  apply bind_Ok in H as ([] & _ & H). apply bind_Ok in H as (q & Hq & H).
  apply bind_Ok in H as ([] & Hm & H). pose proof (market_read _ _ _ _ _ _ _ Htgt Hq Hm) as Hp.
  apply bind_Ok in H as (seeds & _ & H). apply bind_Ok in H as (w1 & H1 & H2).
  transitivity w1; by eapply market_frame.
Qed.

Lemma resolve_market_frame w' :
  process_admin_resolve_market program_id accounts w = Ok w' -> frame k w w'.
Proof.
  intros H. unfold process_admin_resolve_market in H.
  destruct accounts as [|? [|? [|? [|? l]]]]; try discriminate H.
  apply bind_Ok in H as ([] & _ & H). apply bind_Ok in H as (q & Hq & H).
  apply bind_Ok in H as ([] & Hm & H). apply ensure_Ok in H as [_ H].
  by apply (market_frame _ _ _ _ _ _ _ H (market_read _ _ _ _ _ _ _ Htgt Hq Hm)).
Qed.

Lemma burn_asset_admin_frame w' :
  process_burn_asset_admin program_id accounts w = Ok w' -> frame k w w'.
Proof.
  intros H. unfold process_burn_asset_admin in H.
  destruct accounts as [|? [|? [|? [|? [|? l]]]]]; try discriminate H.
  do 2 apply bind_Ok in H as ([] & _ & H). apply bind_Ok in H as (q & Hq & H).
  apply ensure_Ok in H as [_ H]. apply bind_Ok in H as ([] & Hm & H).
  pose proof (market_read _ _ _ _ _ _ _ Htgt Hq Hm) as Hp.
  apply bind_Ok in H as (seeds & _ & H). apply bind_Ok in H as (w1 & H1 & H2).
  unfold mark_burned in H2. open_handler H2. rewrite (target_1 _ _ _ _ Htgt).
  apply frame_store_pool; [done|by eapply market_frame].
Qed.

Lemma flush_frame amount w' :
  process_flush_to_insurance program_id accounts amount w = Ok w' -> frame k w w'.
Proof.
  intros H. unfold process_flush_to_insurance in H. apply ensure_Ok in H as [_ H].
  destruct accounts as [|? [|pp [|? [|? [|? [|? [|perc [|? l]]]]]]]]; try discriminate H.
  pose proof (target_1 _ _ _ _ Htgt) as Ek.
  do 3 apply bind_Ok in H as ([] & _ & H).
  apply bind_Ok in H as (q0 & (-> & _)%open_pool_Ok & H). rewrite Ek in H.
  apply bind_Ok in H as ([] & (_ & _ & _ & Hp & _)%flush_guards_Ok & H).
  apply bind_Ok in H as ([] & _ & H). apply bind_Ok in H as (av & _ & H). apply ensure_Ok in H as [_ H].
  destruct (derive_vault_authority _ _). apply ensure_Ok in H as [_ H].
  apply bind_Ok in H as (w1 & Hc & H). apply bind_Ok in H as (q & _ & [= <-]).
  apply frame_store_pool; [done|by eapply market_frame].
Qed.

Lemma recover_frame amount w' :
  process_recover_flushed_insurance program_id accounts amount w = Ok w' -> frame k w w'.
Proof.
  intros H. unfold process_recover_flushed_insurance in H.
  destruct accounts as [|? [|pp [|? [|? [|? [|? [|? [|? [|perc l]]]]]]]]]; try discriminate H.
  pose proof (target_1 _ _ _ _ Htgt) as Ek.
  do 2 apply bind_Ok in H as ([] & _ & H).
  apply bind_Ok in H as (q0 & (-> & _)%open_pool_Ok & H). rewrite Ek in H.
  apply bind_Ok in H as ([] & _ & H).
  apply ensure_Ok in H as [Hp%key_eqb_eq H]. apply ensure_Ok in H as [_ H].
  destruct (derive_vault_authority _ _). apply ensure_Ok in H as [_ H].
  apply bind_Ok in H as (w1 & Hc & H). apply bind_Ok in H as (q & _ & [= <-]).
  apply frame_store_pool; [done|by eapply market_frame].
Qed.

Lemma return_frame amount w' :
  process_return_insurance program_id accounts amount w = Ok w' -> frame k w w'.
Proof.
  intros H. unfold process_return_insurance in H. apply ensure_Ok in H as [_ H].
  destruct accounts as [|? [|pp [|? [|? [|? l]]]]]; try discriminate H.
  pose proof (target_1 _ _ _ _ Htgt) as Ek. do 4 apply bind_Ok in H as ([] & _ & H).
  apply bind_Ok in H as (q0 & _ & H). do 4 apply ensure_Ok in H as [_ H].
  apply bind_Ok in H as ([] & _ & H). apply bind_Ok in H as (ix & Hix & H).
  apply bind_Ok in H as (w1 & Hc & H). apply bind_Ok in H as (q & _ & [= <-]).
  rewrite Ek. injection Hix as <-. apply frame_store_pool; [done|by eapply frame_spl].
Qed.
End Live.
End Handlers.

(** ** The handlers that keep a user's record *)

(** A deposit, as calls and stores: collect and mint, find or create the
    record, credit it, store both records. *)
Record deposit_trace (pk : Pubkey) (accounts : list AccountInfo) (j : bool) (w w' : World)
    (a : DepositAccounts) (d d1 d2 : StakeDeposit) (w1 w2 : World) : Prop := {
  dt_accounts : deposit_accounts accounts = Ok a;
  dt_pool : ai_key (da_pool_pda a) = pk;
  dt_calls : exists amount minted, collect_and_mint program_id a amount minted w = Ok w1;
  dt_ensure : exists b, ensure_deposit_account program_id a w1 = Ok (w2, b);
  dt_open : Deposit.open_record a w2 = Ok d;
  dt_tranche : (if j then junior_record d else senior_record d) = Ok d1;
  dt_credit : exists b clk lp, credit_record a d1 b clk lp = Ok d2;
  dt_close : exists q, w' = store_pool pk q (store_deposit (ai_key (da_deposit_pda a)) d2 w2);
}.

(** A withdrawal, as calls and stores: burn and pay, debit the record. *)
Record withdraw_trace (pk : Pubkey) (accounts : list AccountInfo) (lp : Z) (w w' : World)
    (a : WithdrawAccounts) (d d1 d2 : StakeDeposit) (w1 : World) : Prop := {
  wt_accounts : withdraw_accounts accounts = Ok a;
  wt_pool : ai_key (wa_pool_pda a) = pk;
  wt_guards : withdraw_record_guards program_id a w = Ok tt;
  wt_read : Withdraw.open_record a w = Ok d;
  wt_check : exists p clk, check_record a lp p d clk = Ok (is_junior_deposit d);
  wt_calls : exists p c, burn_and_pay program_id a lp p c w = Ok w1;
  wt_open : Withdraw.open_record a w1 = Ok d1;
  wt_debit : debit_record d1 lp = Ok d2;
  wt_close : exists q, w' = store_pool pk q (store_deposit (ai_key (wa_deposit_pda a)) d2 w1);
}.

Lemma deposit_traced pk accounts amount w w' :
  targets 1 accounts pk -> process_deposit program_id accounts amount w = Ok w' ->
  exists a d d1 d2 w1 w2, deposit_trace pk accounts false w w' a d d1 d2 w1 w2.
Proof.
  intros Ht H. unfold process_deposit in H. apply ensure_Ok in H as [_ H].
  apply bind_Ok in H as (a & Ha & H). pose proof (deposit_target pk accounts Ht a Ha) as Hk.
  apply bind_Ok in H as (p0 & _ & H). apply bind_Ok in H as ([] & _ & H).
  apply bind_Ok in H as (p1 & _ & H). apply bind_Ok in H as ([] & _ & H).
  apply bind_Ok in H as (lp & _ & H). apply bind_Ok in H as (m & _ & H).
  apply bind_Ok in H as (w1 & Hc & H). apply bind_Ok in H as (p2 & _ & H).
  apply bind_Ok in H as (clk & _ & H). apply bind_Ok in H as (q & _ & H).
  apply bind_Ok in H as ([w2 b] & He & H). apply bind_Ok in H as (d & Hd & H).
  apply bind_Ok in H as (d1 & Hd1 & H). apply bind_Ok in H as (d2 & Hd2 & [= <-]).
  exists a, d, d1, d2, w1, w2. split; eauto. unfold close_accounts. rewrite Hk. eauto.
Qed.

Lemma deposit_junior_traced pk accounts amount w w' :
  targets 1 accounts pk -> process_deposit_junior program_id accounts amount w = Ok w' ->
  exists a d d1 d2 w1 w2, deposit_trace pk accounts true w w' a d d1 d2 w1 w2.
Proof.
  intros Ht H. unfold process_deposit_junior in H. apply ensure_Ok in H as [_ H].
  apply bind_Ok in H as (a & Ha & H). pose proof (deposit_target pk accounts Ht a Ha) as Hk.
  apply bind_Ok in H as (p0 & _ & H). apply ensure_Ok in H as [_ H].
  apply bind_Ok in H as ([] & _ & H).
  apply bind_Ok in H as (p1 & _ & H). apply bind_Ok in H as ([] & _ & H).
  apply bind_Ok in H as (lp & _ & H). apply bind_Ok in H as (m & _ & H).
  apply bind_Ok in H as (w1 & Hc & H). apply bind_Ok in H as (p2 & _ & H).
  apply bind_Ok in H as (p3 & _ & H). apply bind_Ok in H as (clk & _ & H).
  apply bind_Ok in H as (q & _ & H).
  apply bind_Ok in H as ([w2 b] & He & H). apply bind_Ok in H as (d & Hd & H).
  apply bind_Ok in H as (d1 & Hd1 & H). apply bind_Ok in H as (d2 & Hd2 & [= <-]).
  exists a, d, d1, d2, w1, w2. split; eauto. unfold close_accounts. rewrite Hk. eauto.
Qed.

Lemma withdraw_traced pk accounts lp w w' :
  targets 1 accounts pk -> process_withdraw program_id accounts lp w = Ok w' ->
  exists a d d1 d2 w1, withdraw_trace pk accounts lp w w' a d d1 d2 w1.
Proof.
  intros (ai & Hai & Hk) H. unfold process_withdraw in H. apply ensure_Ok in H as [_ H].
  apply bind_Ok in H as (a & Ha & H). pose proof Ha as (_ & _ & _ & Hl1)%withdraw_accounts_in.
  rewrite Hai in Hl1. injection Hl1 as ->.
  apply bind_Ok in H as (p0 & _ & H). apply bind_Ok in H as ([] & _ & H).
  apply bind_Ok in H as ([] & Hg & H). apply bind_Ok in H as (clk & _ & H).
  apply bind_Ok in H as (d & Hd & H). apply bind_Ok in H as (j & Hc & H).
  assert (j = is_junior_deposit d) as -> by (by apply check_record_Ok in Hc as (_ & _ & _ & _ & _ & _ & ->)).
  apply bind_Ok in H as (p1 & _ & H). apply bind_Ok in H as (c & _ & H).
  apply ensure_Ok in H as [_ H]. apply bind_Ok in H as (p2 & _ & H).
  apply bind_Ok in H as (w1 & Hb & H). apply bind_Ok in H as (p3 & _ & H).
  apply bind_Ok in H as (q & _ & H). apply bind_Ok in H as (d1 & Hd1 & H).
  apply bind_Ok in H as (d2 & Hd2 & [= <-]).
  exists a, d, d1, d2, w1. split; eauto. rewrite Hk. eauto.
Qed.

(** The two payments of a deposit, and its account. *)
Lemma collect_and_mint_frame a amount m w w' k :
  collect_and_mint program_id a amount m w = Ok w' -> frame k w w'.
Proof.
  unfold collect_and_mint. intros (ix & Hix & H)%bind_Ok. apply bind_Ok in H as (w1 & H1 & H).
  destruct (derive_vault_authority _ _). apply bind_Ok in H as (ix2 & Hix2 & H2).
  injection Hix as <-. injection Hix2 as <-. transitivity w1; by eapply frame_spl.
Qed.

Lemma ensure_deposit_account_frame a w w' b k :
  ensure_deposit_account program_id a w = Ok (w', b) -> frame k w w'.
Proof.
  unfold ensure_deposit_account. destruct (derive_deposit_pda _ _ _).
  intros [_ H]%ensure_Ok. apply bind_Ok in H as (e & _ & H). apply ensure_Ok in H as [_ H].
  destruct e; [|by injection H as <- _].
  apply bind_Ok in H as (w1 & H1 & [= <- _]). by eapply frame_create.
Qed.

Lemma burn_and_pay_frame a lp q c w w' k :
  burn_and_pay program_id a lp q c w = Ok w' -> frame k w w'.
Proof.
  unfold burn_and_pay. intros (ix & Hix & H)%bind_Ok. apply bind_Ok in H as (w1 & H1 & H).
  injection Hix as <-. transitivity w1; [by eapply frame_spl|].
  destruct (derive_vault_authority _ _). apply ensure_Ok in H as [_ H].
  destruct (0 <? c); [|by injection H as <-].
  apply bind_Ok in H as (ix2 & Hix2 & H2). injection Hix2 as <-. by eapply frame_spl.
Qed.

Lemma deposit_frame pk accounts j w w' a d d1 d2 w1 w2 k :
  deposit_trace pk accounts j w w' a d d1 d2 w1 w2 -> k <> pk ->
  k <> ai_key (da_deposit_pda a) -> frame k w w'.
Proof.
  intros [_ _ (x & m & Hc) (b & He) _ _ _ (q & ->)] Hk Hn.
  apply frame_store_pool; [done|]. apply frame_store_deposit; [done|].
  transitivity w1; [by eapply collect_and_mint_frame|by eapply ensure_deposit_account_frame].
Qed.

Lemma withdraw_frame pk accounts lp w w' a d d1 d2 w1 k :
  withdraw_trace pk accounts lp w w' a d d1 d2 w1 -> k <> pk ->
  k <> ai_key (wa_deposit_pda a) -> frame k w w'.
Proof.
  intros [_ _ _ _ _ (p & c & Hc) _ _ (q & ->)] Hk Hn.
  apply frame_store_pool; [done|]. apply frame_store_deposit; [done|].
  by eapply burn_and_pay_frame.
Qed.

Lemma deposit_accounts_record accounts a :
  deposit_accounts accounts = Ok a -> targets record_index accounts (ai_key (da_deposit_pda a)).
Proof.
  unfold deposit_accounts. intros H.
  do 11 (destruct accounts as [|? accounts]; [discriminate H|]). injection H as <-. by eexists.
Qed.

Lemma withdraw_accounts_record accounts a :
  withdraw_accounts accounts = Ok a -> targets record_index accounts (ai_key (wa_deposit_pda a)).
Proof.
  unfold withdraw_accounts. intros H.
  do 10 (destruct accounts as [|? accounts]; [discriminate H|]). injection H as <-. by eexists.
Qed.

(** ** Every instruction *)

Lemma dispatch_frame pk accounts i w w' k :
  (is_init i = true \/ backed program_id pk w) -> targets (pool_index i) accounts pk ->
  dispatch program_id accounts i w = Ok w' -> ~ may_write accounts i pk k -> frame k w w'.
Proof.
  intros Hb Ht H Hn. assert (Hk : k <> pk) by (intros ->; apply Hn; by left).
  assert (Hd : keeps_record i = true -> forall k', targets record_index accounts k' -> k <> k')
    by (intros Hi k' Hr ->; apply Hn; by right). clear Hn.
  destruct (is_init i) eqn:Hi.
  { destruct i; try discriminate Hi; cbn [dispatch pool_index] in *;
      [by eapply init_pool_frame|by eapply init_trading_pool_frame]. }
  destruct Hb as [Hb|Hb]; [discriminate Hb|].
  assert (Ht1 : targets 1 accounts pk) by (by destruct i). clear Ht.
  destruct (record_instruction i) eqn:Hr; [by eapply record_frame|].
  destruct (proxy_instruction i) eqn:Hx; [by eapply proxy_frame|].
  destruct i; try discriminate Hi; try discriminate Hr; try discriminate Hx; clear Hi Hr Hx;
    cbn [dispatch keeps_record] in *.
  - apply (deposit_traced _ _ _ _ _ Ht1) in H as (a & d & d1 & d2 & w1 & w2 & T).
    eapply deposit_frame; [done..|]. apply Hd; [done|]. by apply deposit_accounts_record, T.
  - apply (withdraw_traced _ _ _ _ _ Ht1) in H as (a & d & d1 & d2 & w1 & T).
    eapply withdraw_frame; [done..|]. apply Hd; [done|]. by apply withdraw_accounts_record, T.
  - by eapply flush_frame.
  - by eapply bind_authority_frame.
  - by eapply burn_asset_admin_frame.
  - by eapply recover_frame.
  - by eapply return_frame.
  - apply (deposit_junior_traced _ _ _ _ _ Ht1) in H as (a & d & d1 & d2 & w1 & w2 & T).
    eapply deposit_frame; [done..|]. apply Hd; [done|]. by apply deposit_accounts_record, T.
  - by eapply resolve_market_frame.
Qed.

Lemma accepts_frame pk accounts data i w w' k :
  (is_init i = true \/ backed program_id pk w) -> accepts program_id pk accounts data i w w' ->
  ~ may_write accounts i pk k -> frame k w w'.
Proof.
  intros Hb [_ _ _ Hu Ht Hr]. apply (process_dispatch _ _ _ _ _ Hu) in Hr.
  by apply (dispatch_frame pk accounts i).
Qed.
End Frame.

#[global] Arguments deposit_trace {RT} program_id pk accounts j w w' a d d1 d2 w1 w2.
#[global] Arguments withdraw_trace {RT} program_id pk accounts lp w w' a d d1 d2 w1.
