(* ===== verification/Register.v ===== *)
(** * The register of deposit records

    The shares a pool has sold, as the program keeps them: one record per user,
    each in an account of its own. [register pk w] is the finite map of the
    records of the store [w] that hold shares of the pool [pk], with their
    tranche; [shares] adds them up. *)

From S2P Require Import Prelude Errors Math State PoolFacts Instruction Runtime SplToken Cpi Guards.
From S2P Require Import Fees Deposit Withdraw Insurance Admin Proxy Init Processor Ledger.
From S2P Require Import LedgerFacts LedgerInv Laws Backing BackingSteps BackingLp BackingInit Safety.
From S2P Require Import Frame.

(** A holding: junior or not, and how many shares. *)
Abbreviation Holding := (bool * Z)%type.

(** An account of the program that a Withdraw of [pk] would open and find shares
    in; the pool's own account, which the handler holds, is not one. *)
Definition is_holding (program_id pk k : Pubkey) (a : Account) : Prop :=
  let d := deposit_decode (slice 0 STAKE_DEPOSIT_SIZE (acc_data a)) in
  k <> pk /\ acc_owner a = program_id /\ (STAKE_DEPOSIT_SIZE <= length (acc_data a))%nat /\
  sd_pool d = pk /\ sd_lp_amount d <> 0.

#[global] Instance is_holding_dec program_id pk k a : Decision (is_holding program_id pk k a).
Proof. unfold is_holding. apply _. Defined.

Definition holding (program_id pk k : Pubkey) (a : Account) : option Holding :=
  let d := deposit_decode (slice 0 STAKE_DEPOSIT_SIZE (acc_data a)) in
  if decide (is_holding program_id pk k a) then Some (is_junior_deposit d, sd_lp_amount d)
  else None.

(** A holding depends on the owner and the bytes only. *)
Lemma holding_state program_id pk k a b :
  same_state a b -> holding program_id pk k a = holding program_id pk k b.
Proof.
  intros [Eo Ed]. unfold holding. rewrite Ed.
  assert (is_holding program_id pk k a <-> is_holding program_id pk k b)
    by (unfold is_holding; by rewrite Eo, Ed).
  repeat case_decide; tauto.
Qed.

Definition register (program_id pk : Pubkey) (w : World) : gmap Pubkey Holding :=
  map_imap (holding program_id pk) w.

(** All shares on record, and those of one tranche. *)
Definition all_shares (h : Holding) : Z := snd h.
Definition tranche_shares (j : bool) (h : Holding) : Z :=
  if Bool.eqb (fst h) j then snd h else 0.

Definition shares (program_id pk : Pubkey) (w : World) : Z :=
  map_sum all_shares (register program_id pk w).
Definition shares_in (j : bool) (program_id pk : Pubkey) (w : World) : Z :=
  map_sum (tranche_shares j) (register program_id pk w).

Lemma shares_split program_id pk w :
  shares program_id pk w = shares_in false program_id pk w + shares_in true program_id pk w.
Proof.
  unfold shares, shares_in. rewrite <- map_sum_add. apply map_sum_ext.
  intros k [[] s] _; cbn; lia.
Qed.

Section Register.
Context {RT : Runtime} {BC : BuildConfig} {program_id : Pubkey} {RL : RuntimeLaws program_id}.
Context (pk : Pubkey).

Lemma register_lookup w k : register program_id pk w !! k = holding program_id pk k (get w k).
Proof.
  unfold register. rewrite map_lookup_imap. unfold get. destruct (w !! k); cbn; [done|].
  unfold holding. rewrite decide_False; [done|]. intros (_ & Ho & _). by apply law_id_system in Ho.
Qed.

Lemma register_Some w k j s :
  register program_id pk w !! k = Some (j, s) <->
  k <> pk /\ acc_owner (get w k) = program_id /\
  (STAKE_DEPOSIT_SIZE <= length (acc_data (get w k)))%nat /\
  sd_pool (deposit_at k w) = pk /\ s <> 0 /\
  is_junior_deposit (deposit_at k w) = j /\ sd_lp_amount (deposit_at k w) = s.
Proof.
  rewrite register_lookup. unfold holding, deposit_at, is_holding. case_decide as Hd.
  - split.
    + intros [= <- <-]. destruct Hd as (? & ? & ? & ? & ?). done.
    + intros (_ & _ & _ & _ & _ & -> & ->). done.
  - split; [discriminate|]. intros (? & ? & ? & ? & Hs & _ & E). destruct Hd. by rewrite E.
Qed.

(** What a zeroed account decodes to. *)
Lemma le_val_zeros l : Forall (fun b => b = 0) l -> le_val l = 0.
Proof. induction 1 as [|b l -> _ IH]; [done|]. unfold le_val in *. cbn. lia. Qed.

Lemma slice_zeros a b l : Forall (fun b => b = 0) l -> Forall (fun b => b = 0) (slice a b l).
Proof. intros H. unfold slice. by apply Forall_take, Forall_drop. Qed.

Lemma blank_shares k w : blank (get w k) -> sd_lp_amount (deposit_at k w) = 0.
Proof. intros H. cbn [deposit_at deposit_decode sd_lp_amount]. by apply le_val_zeros, slice_zeros, slice_zeros. Qed.

(** An untouched account keeps its holding. *)
Lemma frame_register w w' k :
  untouched program_id k w w' -> register program_id pk w' !! k = register program_id pk w !! k.
Proof.
  unfold untouched. intros H. rewrite !register_lookup. case_decide as Ho.
  - symmetry. by apply holding_state.
  - unfold holding at 2. rewrite decide_False by (by intros (_ & ? & _)).
    unfold holding. rewrite decide_False; [done|]. intros (_ & Ho' & _ & _ & Hs).
    apply Hs, (blank_shares k w'), H, Ho'.
Qed.

Lemma pool_not_registered w : register program_id pk w !! pk = None.
Proof. rewrite register_lookup. unfold holding. by rewrite decide_False; [|intros [? _]]. Qed.

Lemma frame_register_all w w' :
  (forall k, k <> pk -> untouched program_id k w w') ->
  register program_id pk w' = register program_id pk w.
Proof.
  intros H. apply map_eq. intros k. destruct (decide (k = pk)) as [->|Hk].
  - by rewrite !pool_not_registered.
  - by apply frame_register, H.
Qed.

(** Only one record moved. *)
Lemma shares_update f w w' k :
  (forall k', k' <> pk -> k' <> k -> untouched program_id k' w w') ->
  map_sum f (register program_id pk w')
    = map_sum f (register program_id pk w) - from_option f 0 (register program_id pk w !! k)
      + from_option f 0 (register program_id pk w' !! k).
Proof.
  intros H. apply map_sum_update. intros i Hi. destruct (decide (i = pk)) as [->|Hk].
  - by rewrite !pool_not_registered.
  - by apply frame_register, H.
Qed.

Lemma shares_nonneg w k h : world_ok w -> register program_id pk w !! k = Some h -> 0 <= all_shares h.
Proof.
  intros Hw. destruct h as [j s]. intros (_ & _ & Hl & _ & _ & _ & <-)%register_Some.
  cbn [all_shares snd]. assert (wf_deposit (deposit_at k w)) as Hd.
  { apply wf_deposit_decode; [apply bytes_ok_slice, Hw|]. rewrite length_slice; unfold STAKE_DEPOSIT_SIZE in *; lia. }
  destruct Hd. by wf_destruct; width_lia.
Qed.
End Register.

(** ** What a ledger step does to the share totals *)

Section Shares.
Context (p : StakePool) (vault supply : Z) (Hp : wf_pool p) (Hb : u64 vault)
        (Hv : raw_value p <= vault) (clk : Clock) (Hclk : wf_clock clk).
#[local] Abbreviation l := (mkLedger p vault supply).

(** The two totals of a record: all shares, junior shares. *)
Definition totals (p : StakePool) : Z * Z := (sp_total_lp_supply p, junior_total_lp p).

Lemma ledger_step_totals j i l' :
  wf_instruction i -> keeps_record i = false -> ledger_step clk j i l = Ok l' ->
  totals (lg_pool l') = totals p.
Proof.
  intros Hi Hk H. unfold totals. destruct (is_money i) eqn:Hm.
  2:{ destruct (ledger_step_books p vault supply Hp clk Hclk j i l' Hi Hm H)
        as ((-> & _ & _ & _ & -> & _)%books_eq & _). done. }
  destruct i; try discriminate Hm; try discriminate Hk; cbn [wf_instruction] in Hi.
  - by destruct (insurance_parts p vault supply Hp clk j _ _ l' Hi (or_introl eq_refl) H)
      as (-> & _ & _ & -> & _).
  - by destruct (insurance_parts p vault supply Hp clk j _ _ l' Hi (or_intror (or_intror eq_refl)) H)
      as (-> & _ & _ & -> & _).
  - by destruct (insurance_parts p vault supply Hp clk j _ _ l' Hi (or_intror (or_introl eq_refl)) H)
      as (-> & _ & _ & -> & _).
  - cbn [ledger_step] in H. unfold ledger_accrue_fees in H. apply ensure_Ok in H as [_ H].
    apply bind_Ok in H as (q & Hq & [= <-]).
    apply accrue_frame in Hq as (_ & _ & _ & S & J & _); [|done..]. cbn [lg_pool].
    change ((sp_total_lp_supply q, junior_total_lp q) = (sp_total_lp_supply p, junior_total_lp p)).
    by rewrite S, J.
Qed.

(** A deposit adds its shares, to the junior total if it is junior. *)
Lemma deposit_totals (j : bool) amount l' :
  u64 amount ->
  ledger_step clk false (if j then DepositJunior amount else Instruction.Deposit amount) l = Ok l' ->
  exists lp, 0 < lp /\ sp_total_lp_supply (lg_pool l') = sp_total_lp_supply p + lp /\
    junior_total_lp (lg_pool l') = junior_total_lp p + (if j then lp else 0) /\
    (j = true -> tranche_enabled p = true).
Proof.
  intros Ha H. destruct j; cbn [ledger_step] in H.
  - apply deposit_junior_parts in H as
      (_ & _ & _ & T & p1 & lp & m & p2 & p3 & p4 & A & _ & _ & U & N & _ & C & W2 & J & O & ->);
      [|done..]. destruct A as (_ & W1 & _ & S1 & J1 & _).
    apply credit_totals_inv in C as (_ & _ & _ & _ & J2 & S2 & _); [|done..].
    apply credit_junior_inv in J as (_ & _ & _ & _ & J3 & S3 & _); [|done..].
    apply hwm_only_books in O as (_ & S4 & _ & _ & _ & J4 & _).
    exists lp. cbn [lg_pool]. split_and!; [width_lia|lia|lia|done].
  - apply deposit_parts in H as
      (_ & _ & _ & p1 & lp & m & p3 & p4 & A & _ & _ & U & N & _ & C & O & ->); [|done..].
    destruct A as (_ & W1 & _ & S1 & J1 & _).
    apply credit_totals_inv in C as (_ & _ & _ & _ & J2 & S2 & _); [|done..].
    apply hwm_only_books in O as (_ & S4 & _ & _ & _ & J4 & _).
    exists lp. cbn [lg_pool]. split_and!; [width_lia|lia|lia|done].
Qed.

(** A withdrawal takes its shares off, off the junior total too if they are. *)
Lemma withdraw_totals j lp l' :
  u64 lp -> ledger_step clk j (Instruction.Withdraw lp) l = Ok l' ->
  0 < lp /\ sp_total_lp_supply (lg_pool l') = sp_total_lp_supply p - lp /\
  junior_total_lp (lg_pool l') = junior_total_lp p - (if tranche_enabled p && j then lp else 0).
Proof.
  intros Hlp H. cbn [ledger_step] in H.
  apply withdraw_parts in H as (Hn & _ & p1 & c & p2 & p4 & A & _ & Uc & _ & _ & _ & O & D & ->); [|done..].
  destruct A as (_ & W1 & _ & S1 & J1 & _ & T1 & _).
  apply hwm_only_books in O as (W2 & S2 & _ & _ & _ & J2 & _ & T2).
  unfold ledger_debit in D. apply bind_Ok in D as (p3 & H3 & H4).
  apply debit_totals_inv in H3 as (W3 & _ & _ & _ & J3 & _ & S3 & T3 & _); [|done..].
  cbn [lg_pool]. rewrite T3, T2, T1 in H4. split; [width_lia|].
  destruct (tranche_enabled p && j).
  - apply debit_junior_inv in H4 as (_ & _ & _ & S4 & _ & J4 & _); [|done|width_lia|width_lia].
    split; lia.
  - injection H4 as <-. split; lia.
Qed.
End Shares.
