(* ===== verification/Records.v ===== *)
(** * The records add up

    [kept pk w]: the deposit records of the store account for every share of the
    pool, tranche by tranche, and each is the live record of its owner at its
    owner's address. Every accepted transaction keeps it. *)

From S2P Require Import Prelude Errors Math State PoolFacts Instruction Runtime SplToken Cpi Guards.
From S2P Require Import Fees Deposit Withdraw Insurance Admin Proxy Init Processor Ledger.
From S2P Require Import LedgerFacts LedgerInv Laws Backing BackingSteps BackingLp BackingInit Safety.
From S2P Require Import Frame Register.

(** The address of a user's record. *)
Definition record_of `{Runtime} (program_id pk user : Pubkey) : Pubkey :=
  fst (derive_deposit_pda program_id pk user).

(** A record with shares is live and belongs to the user whose address it is
    at. *)
Definition live_record `{Runtime} (program_id pk k : Pubkey) (w : World) : Prop :=
  sd_is_initialized (deposit_at k w) = 1 /\
  k = record_of program_id pk (sd_user (deposit_at k w)).

(** What an account at a record's address may hold: no shares, or a live record
    of the pool. *)
Definition clean_record (program_id pk k : Pubkey) (w : World) : Prop :=
  acc_owner (get w k) = program_id ->
  sd_lp_amount (deposit_at k w) = 0 \/
  sd_pool (deposit_at k w) = pk /\ sd_is_initialized (deposit_at k w) = 1.

Record kept `{Runtime} `{BuildConfig} (program_id pk : Pubkey) (w : World) : Prop := {
  kt_backed : backed program_id pk w;
  kt_total : (pool_at pk w).(sp_total_lp_supply) = shares program_id pk w;
  kt_junior : junior_total_lp (pool_at pk w) = shares_in true program_id pk w;
  kt_off : tranche_enabled (pool_at pk w) = false -> junior_total_lp (pool_at pk w) = 0;
  kt_live : forall k h, register program_id pk w !! k = Some h -> live_record program_id pk k w;
  kt_clean : forall user, record_of program_id pk user <> pk ->
    clean_record program_id pk (record_of program_id pk user) w;
}.

(** What the rest of the chain does to the records: nothing. Only the program
    writes them, and its transactions on other pools write other records. *)
Record leaves_records `{Runtime} (program_id pk : Pubkey) (w w' : World) : Prop := {
  lr_register : register program_id pk w' = register program_id pk w;
  lr_addresses : forall user, untouched program_id (record_of program_id pk user) w w';
}.

(** Reachable stores with their records: the pool is created with no record of
    it on the chain. *)
Inductive recorded `{Runtime} `{BuildConfig} (program_id pk : Pubkey) : forall w : World, Prop :=
| rec_init accounts data i w w' :
    world_ok w -> is_init i = true -> accepts program_id pk accounts data i w w' ->
    register program_id pk w = ∅ ->
    (forall user, record_of program_id pk user <> pk ->
       clean_record program_id pk (record_of program_id pk user) w) ->
    recorded program_id pk w'
| rec_instruction accounts data i w w' :
    recorded program_id pk w -> accepts program_id pk accounts data i w w' ->
    recorded program_id pk w'
| rec_environment w w' :
    recorded program_id pk w -> environment pk w w' -> leaves_records program_id pk w w' ->
    recorded program_id pk w'.

Section Records.
Context {RT : Runtime} {BC : BuildConfig} {program_id : Pubkey} {RL : RuntimeLaws program_id}.
Context (pk : Pubkey).
#[local] Abbreviation register_ := (register program_id pk).
#[local] Abbreviation record_ := (record_of program_id pk).

Lemma recorded_reachable w : recorded program_id pk w -> reachable program_id pk w.
Proof.
  induction 1; [by eapply reach_init|by eapply reach_instruction|by eapply reach_environment].
Qed.

(** ** Untouched records *)

Lemma untouched_record k w w' :
  untouched program_id k w w' -> acc_owner (get w k) = program_id ->
  deposit_at k w' = deposit_at k w.
Proof.
  unfold untouched. intros H Ho. rewrite decide_True in H by done. destruct H as [_ E].
  unfold deposit_at. by rewrite E.
Qed.

Lemma untouched_clean k w w' :
  untouched program_id k w w' -> clean_record program_id pk k w -> clean_record program_id pk k w'.
Proof.
  intros H Hc Ho'. destruct (decide (acc_owner (get w k) = program_id)) as [Ho|Ho].
  - rewrite (untouched_record _ _ _ H Ho). by apply Hc.
  - left. unfold untouched in H. rewrite decide_False in H by done. by apply blank_shares, H.
Qed.

Lemma untouched_live k w w' h :
  untouched program_id k w w' -> register_ w !! k = Some h ->
  live_record program_id pk k w -> live_record program_id pk k w'.
Proof.
  destruct h. intros H (_ & Ho & _)%register_Some L. unfold live_record.
  by rewrite (untouched_record _ _ _ H Ho).
Qed.

(** Nothing but the pool is written, and its share totals stand. *)
Lemma kept_quiet w w' :
  kept program_id pk w -> backed program_id pk w' ->
  totals (pool_at pk w') = totals (pool_at pk w) ->
  (tranche_enabled (pool_at pk w) = true -> tranche_enabled (pool_at pk w') = true) ->
  register_ w' = register_ w ->
  (forall user, record_ user <> pk -> untouched program_id (record_ user) w w') ->
  kept program_id pk w'.
Proof.
  intros [B T J O L C] B' Et Htr Er Hu.
  assert (ET : sp_total_lp_supply (pool_at pk w') = sp_total_lp_supply (pool_at pk w))
    by exact (f_equal fst Et).
  assert (EJ : junior_total_lp (pool_at pk w') = junior_total_lp (pool_at pk w))
    by exact (f_equal snd Et).
  split; unfold shares, shares_in in *; rewrite ?Er, ?ET, ?EJ; try done.
  - intros Hoff. apply O. destruct (tranche_enabled (pool_at pk w)); [|done].
    by rewrite Htr in Hoff.
  - intros k h Hk. pose proof (L k h Hk) as Hl.
    eapply untouched_live; [|done|done]. destruct Hl as [_ E].
    rewrite E. apply Hu. rewrite <- E. destruct h. by apply register_Some in Hk as (? & _).
  - intros user Hne. eapply untouched_clean; [by apply Hu|by apply C].
Qed.

(** One record is written, at its owner's address: the holding there becomes
    the new record's. *)
Lemma kept_record w w' k lp j :
  kept program_id pk w -> backed program_id pk w' -> k <> pk ->
  (forall k', k' <> pk -> k' <> k -> untouched program_id k' w w') ->
  from_option all_shares 0 (register_ w' !! k)
    = from_option all_shares 0 (register_ w !! k) + lp ->
  from_option (tranche_shares true) 0 (register_ w' !! k)
    = from_option (tranche_shares true) 0 (register_ w !! k) + j ->
  sp_total_lp_supply (pool_at pk w') = sp_total_lp_supply (pool_at pk w) + lp ->
  junior_total_lp (pool_at pk w') = junior_total_lp (pool_at pk w) + j ->
  (tranche_enabled (pool_at pk w') = false -> tranche_enabled (pool_at pk w) = false /\ j = 0) ->
  (forall h, register_ w' !! k = Some h -> live_record program_id pk k w') ->
  clean_record program_id pk k w' ->
  kept program_id pk w'.
Proof.
  intros [B T J O L C] B' Nk Hu Ea Et Ep Ej Hoff Hl Hc.
  split; [done|..]; unfold shares, shares_in in *.
  - rewrite (shares_update pk all_shares w w' k Hu). lia.
  - rewrite (shares_update pk (tranche_shares true) w w' k Hu). lia.
  - intros [H1 ->]%Hoff. rewrite Ej, (O H1). lia.
  - intros k' h Hk'. destruct (decide (k' = k)) as [->|Hn]; [by eapply Hl|].
    destruct (decide (k' = pk)) as [->|Hp]; [by rewrite pool_not_registered in Hk'|].
    pose proof (Hu k' Hp Hn) as U. rewrite (frame_register pk _ _ _ U) in Hk'.
    eapply untouched_live; [done|done|by eapply L].
  - intros user Hne. destruct (decide (record_ user = k)) as [->|Hn]; [done|].
    eapply untouched_clean; [by apply Hu|by apply C].
Qed.

(** ** Deposits *)

(** A live record keeps its tranche. *)
Lemma deposit_same_tranche accounts j w w' a d d1 d2 w1 w2 :
  let k := ai_key (da_deposit_pda a) in
  deposit_trace program_id pk accounts j w w' a d d1 d2 w1 w2 ->
  acc_owner (get w k) = program_id -> sd_is_initialized (deposit_at k w) = 1 ->
  is_junior_deposit (deposit_at k w) = j.
Proof.
  intros k [_ _ (x & m & Hc) (b & He) Hd Hj _ _] Ho Hi.
  assert (U : untouched program_id k w w2)
    by (transitivity w1; [by eapply collect_and_mint_frame|by eapply ensure_deposit_account_frame]).
  apply bind_Ok in Hd as (data & [_ ->]%try_borrow_data_Ok & [_ Ed]%deposit_from_data_Ok).
  change (d = deposit_at k w2) in Ed. rewrite (untouched_record _ _ _ U Ho) in Ed.
  subst d. destruct j.
  - unfold junior_record in Hj. apply bind_Ok in Hj as (e & H1 & [H2 _]%ensure_Ok).
    unfold init_or_check_record in H1. rewrite Hi in H1. cbn in H1.
    apply ensure_Ok in H1 as [_ [= <-]]. rewrite Hi in H2.
    by destruct (is_junior_deposit _).
  - unfold senior_record in Hj. apply bind_Ok in Hj as (e & H1 & [H2 _]%ensure_Ok).
    unfold init_or_check_record in H1. rewrite Hi in H1. cbn in H1.
    apply ensure_Ok in H1 as [_ [= <-]]. by apply negb_true_iff.
Qed.

(** The holding of a clean record is what the record says. *)
Lemma clean_holding k w :
  kept program_id pk w -> clean_record program_id pk k w -> k <> pk ->
  acc_owner (get w k) = program_id \/ acc_data (get w k) = [] ->
  (acc_owner (get w k) = program_id -> acc_data (get w k) = [] \/
   (STAKE_DEPOSIT_SIZE <= length (acc_data (get w k)))%nat) ->
  register_ w !! k = None /\ sd_lp_amount (deposit_at k w) = 0 \/
  register_ w !! k = Some (is_junior_deposit (deposit_at k w), sd_lp_amount (deposit_at k w)) /\
  acc_owner (get w k) = program_id /\ sd_is_initialized (deposit_at k w) = 1.
Proof.
  intros K Hc Nk Ho Hlen.
  assert (Hempty : acc_data (get w k) = [] -> sd_lp_amount (deposit_at k w) = 0)
    by (intros E; apply blank_shares; unfold blank; rewrite E; constructor).
  destruct (register_ w !! k) as [[j s]|] eqn:E.
  - right. pose proof (kt_live _ _ _ K k _ E) as [Hi _].
    apply register_Some in E as (_ & ? & _ & _ & _ & -> & ->). done.
  - left. split; [done|]. destruct Ho as [Ho|Ho]; [|by apply Hempty].
    destruct (Hlen Ho) as [?|Hl]; [by apply Hempty|].
    destruct (Hc Ho) as [?|[Hp _]]; [done|].
    destruct (decide (sd_lp_amount (deposit_at k w) = 0)) as [?|Hn]; [done|].
    enough (register_ w !! k = Some (is_junior_deposit (deposit_at k w), sd_lp_amount (deposit_at k w)))
      by congruence. apply register_Some. done.
Qed.

Lemma deposit_length accounts j w w' a d d1 d2 w1 w2 :
  let k := ai_key (da_deposit_pda a) in
  deposit_trace program_id pk accounts j w w' a d d1 d2 w1 w2 ->
  acc_owner (get w k) = program_id -> (STAKE_DEPOSIT_SIZE <= length (acc_data (get w k)))%nat.
Proof.
  intros k [_ _ (x & m & Hc) (b & He) Hd _ _ _] Ho.
  assert (U : untouched program_id k w w2)
    by (transitivity w1; [by eapply collect_and_mint_frame|by eapply ensure_deposit_account_frame]).
  apply bind_Ok in Hd as (data & [_ ->]%try_borrow_data_Ok & [Hl _]%deposit_from_data_Ok).
  unfold untouched in U. rewrite decide_True in U by done. destruct U as [_ ->]. exact Hl.
Qed.

(** A deposit credits the record of its signer. *)
Lemma deposition_kept accounts (j : bool) amount w w' a d d1 d2 w1 w2 :
  let i := if j then DepositJunior amount else Instruction.Deposit amount in
  kept program_id pk w -> u64 amount -> deposition program_id pk w accounts i amount j w' ->
  deposit_trace program_id pk accounts j w w' a d d1 d2 w1 w2 -> backed program_id pk w' ->
  kept program_id pk w'.
Proof.
  intros i K Ha [_ (a' & clk & e0 & e & m & Hac & _ & Hpda & Hclk & -> & -> & Hi & Hu & Hp & _ & Hj
                    & Hl & Hst & _) Hacc] T B'.
  pose proof (dt_accounts _ _ _ _ _ _ _ _ _ _ _ T) as Ea. rewrite Hac in Ea. injection Ea as ->.
  specialize (Hacc a Hac). cbn zeta in Hacc. set (k := ai_key (da_deposit_pda a)) in *.
  destruct Hacc as (Nk & Hown & Ho' & Hl').
  pose proof (kt_backed _ _ _ K) as B.
  assert (Hsk : sticky (pool_at pk w) (pool_at pk w')).
  { apply (ledger_step_sticky _ (vault_amount pk w) (mint_amount pk w) clk false i _ (backed_wf pk w B)
      (vault_amount_u64 pk w B) (bk_value _ _ _ B) Hclk) in Hst; [exact Hst|by destruct j]. }
  apply deposit_totals in Hst as (lp & Hlp & ES & EJ & Htr);
    [|by eapply backed_wf|by eapply vault_amount_u64|apply B|done|done].
  cbn [ledger_of lg_pool] in ES, EJ, Htr. rewrite ES in Hl.
  assert (Hc : clean_record program_id pk k w)
    by (pose proof (kt_clean _ _ _ K (ai_key (da_user a))) as H; unfold record_of in H;
        rewrite <- Hpda in H; by apply H).
  pose proof (clean_holding k w K Hc Nk Hown) as Hold.
  assert (Hpos : 0 <= sd_lp_amount (deposit_at k w)).
  { destruct Hold as [[_ ->]|[E _]]; [intros Ho; right; by eapply deposit_length|done|].
    apply (shares_nonneg pk w k _ (bk_world _ _ _ B)) in E. exact E. }
  assert (Hnew : register_ w' !! k = Some (j, sd_lp_amount (deposit_at k w) + lp))
    by (apply register_Some; split_and!; first [done|lia]).
  apply (kept_record w w' k lp (if j then lp else 0)); try done.
  - intros k' N1 N2. by eapply deposit_frame.
  - rewrite Hnew. destruct Hold as [[-> E]|[-> _]]; [intros Ho; right; by eapply deposit_length|..];
      cbn [from_option all_shares snd]; lia.
  - rewrite Hnew. destruct Hold as [[-> E]|(-> & Ho & Hin)];
      [intros Ho; right; by eapply deposit_length|..];
      [|pose proof (deposit_same_tranche _ _ _ _ _ _ _ _ _ _ T Ho Hin) as Ej; fold k in Ej; rewrite Ej];
      destruct j; cbn [from_option tranche_shares fst snd Bool.eqb]; lia.
  - intros Hoff. assert (tranche_enabled (pool_at pk w) = false) as Et.
    { destruct (tranche_enabled (pool_at pk w)) eqn:E; [|done]. apply (proj1 Hsk) in E. congruence. }
    split; [done|]. destruct j; [|done]. rewrite Et in Htr. by specialize (Htr eq_refl).
  - intros h _. by split; [|rewrite Hu].
  - intros _. by right.
Qed.

(** ** Withdrawals *)

(** The record a withdrawal opens, and what it leaves of it. *)
Lemma withdraw_record_after accounts lp w w' a d d1 d2 w1 :
  let k := ai_key (wa_deposit_pda a) in
  backed program_id pk w -> 0 <= lp -> k <> pk -> is_record program_id k w ->
  withdraw_trace program_id pk accounts lp w w' a d d1 d2 w1 ->
  debit_record (deposit_at k w) lp = Ok (deposit_at k w') /\ wf_deposit (deposit_at k w) /\
  sd_is_initialized (deposit_at k w) = 1 /\ sd_user (deposit_at k w) = ai_key (wa_user a) /\
  sd_pool (deposit_at k w) = pk.
Proof.
  intros k B Hlp Nk [Ho Hl] [_ Hpk _ Hr (p & clk & Hc) (q & c & Hb) Hd1 Hd2 (q' & ->)].
  assert (W : wf_deposit (deposit_at k w)).
  { apply wf_deposit_decode; [apply bytes_ok_slice, B|]. rewrite length_slice; unfold STAKE_DEPOSIT_SIZE in *; lia. }
  apply bind_Ok in Hr as (data & [_ ->]%try_borrow_data_Ok & [_ Ed]%deposit_from_data_Ok).
  change (d = deposit_at k w) in Ed.
  assert (U : untouched program_id k w w1) by by eapply burn_and_pay_frame.
  apply bind_Ok in Hd1 as (data & [_ ->]%try_borrow_data_Ok & [Hl1 Ed1]%deposit_from_data_Ok).
  change (d1 = deposit_at k w1) in Ed1. rewrite (untouched_record _ _ _ U Ho) in Ed1. subst d d1.
  apply check_record_Ok in Hc as (_ & Hi & Hu & Hp & _). rewrite Hpk in Hp.
  destruct (debit_record_inv _ _ _ W Hlp Hd2) as (W2 & _).
  rewrite deposit_at_close by done. done.
Qed.

(** The part of a record's shares a withdrawal leaves. *)
Lemma debit_holding k w w' lp :
  wf_deposit (deposit_at k w) -> 0 <= lp -> k <> pk -> is_record program_id k w' ->
  sd_pool (deposit_at k w) = pk -> debit_record (deposit_at k w) lp = Ok (deposit_at k w') ->
  register_ w' !! k =
    (if decide (sd_lp_amount (deposit_at k w) = lp) then None
     else Some (is_junior_deposit (deposit_at k w), sd_lp_amount (deposit_at k w) - lp)).
Proof.
  intros W Hlp Nk [Ho' Hl'] Hp Hd. apply debit_record_inv in Hd as (W' & Hle & El & _ & Ep & Hlt & _); [|done..].
  case_decide as Hdec.
  - destruct (register_ w' !! k) as [[j s]|] eqn:E; [|done].
    apply register_Some in E as (_ & _ & _ & _ & Hs & _ & Es). lia.
  - apply register_Some. split_and!; try done; [congruence|lia|].
    rewrite Hlt by lia. done.
Qed.

(** Junior shares exist only where tranches are enabled. *)
Lemma junior_enabled k w j s :
  kept program_id pk w -> register_ w !! k = Some (j, s) -> 0 < s ->
  tranche_enabled (pool_at pk w) && j = j.
Proof.
  intros K Hk Hs. destruct (tranche_enabled (pool_at pk w)) eqn:E; [done|].
  destruct j; [exfalso|done]. pose proof (kt_off _ _ _ K E) as H0.
  rewrite (kt_junior _ _ _ K) in H0.
  enough (tranche_shares true (true, s) <= shares_in true program_id pk w) as Hle
    by (change (s <= shares_in true program_id pk w) in Hle; lia).
  apply (map_sum_term _ _ k); [|done]. intros k' [[] x] Hk'; cbn; [|done].
  apply (shares_nonneg pk w k' _ (bk_world _ _ _ (kt_backed _ _ _ K)) Hk').
Qed.

Lemma withdrawal_kept accounts lp w w' a d d1 d2 w1 :
  kept program_id pk w -> u64 lp -> withdrawal program_id pk w accounts lp w' ->
  withdraw_trace program_id pk accounts lp w w' a d d1 d2 w1 -> backed program_id pk w' ->
  kept program_id pk w'.
Proof.
  intros K Hlp [_ (a' & clk & e0 & e & c & Hac & _ & Hpda & Hclk & -> & -> & _ & _ & _ & Hle & Hl
                    & Hst & _) Hacc] T B'.
  pose proof (wt_accounts _ _ _ _ _ _ _ _ _ _ T) as Ea. rewrite Hac in Ea. injection Ea as ->.
  specialize (Hacc a Hac). cbn zeta in Hacc. set (k := ai_key (wa_deposit_pda a)) in *.
  destruct Hacc as (Nk & Hr & Hr'). pose proof (kt_backed _ _ _ K) as B.
  destruct (withdraw_record_after _ _ _ _ _ _ _ _ _ B (proj1 Hlp) Nk Hr T) as (Hd & W & Hi & Hu & Hp).
  fold k in Hd, W, Hi, Hu, Hp.
  apply law_clock in Hclk. pose proof Hst as Hsk.
  apply (ledger_step_sticky _ (vault_amount pk w) (mint_amount pk w) clk _ (Instruction.Withdraw lp) _
    (backed_wf pk w B) (vault_amount_u64 pk w B) (bk_value _ _ _ B) Hclk) in Hsk; [|done].
  apply withdraw_totals in Hst as (Hpos & ES & EJ);
    [|by eapply backed_wf|by eapply vault_amount_u64|apply B|done|done].
  cbn [ledger_of lg_pool] in ES, EJ, Hsk.
  pose proof (debit_holding k w w' lp W (proj1 Hlp) Nk Hr' Hp Hd) as Hnew.
  assert (Hold : register_ w !! k = Some (is_junior_deposit (deposit_at k w), sd_lp_amount (deposit_at k w)))
    by (destruct Hr; apply register_Some; split_and!; first [done|lia]).
  set (j := is_junior_deposit (deposit_at k w)) in *. set (s := sd_lp_amount (deposit_at k w)) in *.
  pose proof (junior_enabled k w j s K Hold ltac:(lia)) as Ejt.
  rewrite Ejt in EJ.
  apply (kept_record w w' k (- lp) (if j then - lp else 0)); try done.
  - intros k' N1 N2. by eapply withdraw_frame.
  - rewrite Hnew, Hold. case_decide; cbn [from_option all_shares snd]; lia.
  - rewrite Hnew, Hold. case_decide; destruct j; cbn [from_option tranche_shares fst snd Bool.eqb]; lia.
  - destruct j; lia.
  - intros Hoff. assert (tranche_enabled (pool_at pk w) = false) as Et.
    { destruct (tranche_enabled (pool_at pk w)) eqn:E; [|done]. apply (proj1 Hsk) in E. congruence. }
    split; [done|]. rewrite Et in Ejt. by destruct j.
  - intros h Hh. rewrite Hnew in Hh. case_decide as Hdec; [done|]. 
    apply debit_record_inv in Hd as (_ & _ & _ & Eu & _ & Hlt & _); [|done|apply Hlp].
    split; [by rewrite Hlt by (fold s; lia)|]. rewrite Eu, Hu. exact Hpda.
  - intros _. apply debit_record_inv in Hd as (_ & _ & El & _ & Ep & Hlt & _); [|done|apply Hlp].
    destruct (decide (s = lp)); [left; fold s in El; lia|right].
    split; [congruence|]. by rewrite Hlt by (fold s; lia).
Qed.

(** ** Every accepted transaction *)

Lemma accepts_kept accounts data i w w' :
  kept program_id pk w -> accepts program_id pk accounts data i w w' -> kept program_id pk w'.
Proof.
  intros K Ha. pose proof (kt_backed _ _ _ K) as B.
  pose proof (accepts_step _ _ _ _ _ _ B Ha) as (Hi & _ & B' & clk & j & Hclk & _ & Hst).
  pose proof Ha as [Hkeys Hs _ Hu Ht Hr]. apply (process_dispatch _ _ _ _ _ Hu) in Hr.
  destruct (keeps_record i) eqn:Hk.
  - destruct i; try discriminate Hk; cbn [dispatch pool_index wf_instruction] in *.
    + pose proof (deposit_traced _ _ _ _ _ Ht Hr) as (a & d & d1 & d2 & w1 & w2 & T).
      apply (deposition_kept accounts false amount w w' a d d1 d2 w1 w2 K Hi); [|done..].
      by apply deposit_inv.
    + pose proof (withdraw_traced _ _ _ _ _ Ht Hr) as (a & d & d1 & d2 & w1 & T).
      apply (withdrawal_kept accounts lp_amount w w' a d d1 d2 w1 K Hi); [|done..].
      by apply withdraw_inv.
    + pose proof (deposit_junior_traced _ _ _ _ _ Ht Hr) as (a & d & d1 & d2 & w1 & w2 & T).
      apply (deposition_kept accounts true amount w w' a d d1 d2 w1 w2 K Hi); [|done..].
      by apply deposit_junior_inv.
  - assert (U : forall k, k <> pk -> untouched program_id k w w').
    { intros k Nk. apply (accepts_frame _ _ _ _ _ _ _ (or_intror B) Ha).
      intros [?|[E _]]; [done|by rewrite Hk in E]. }
    pose proof (ledger_step_sticky _ _ _ _ _ _ _ (backed_wf _ _ B) (vault_amount_u64 _ _ B)
      (bk_value _ _ _ B) Hclk Hi Hst) as (Hsk & _).
    apply (kept_quiet w w' K B'); [|exact Hsk|by apply frame_register_all|auto].
    exact (ledger_step_totals _ (vault_amount pk w) (mint_amount pk w) (backed_wf _ _ B)
      (vault_amount_u64 _ _ B) clk Hclk j i (ledger_of pk w') Hi Hk Hst).
Qed.

Lemma init_kept accounts data i w w' :
  world_ok w -> is_init i = true -> accepts program_id pk accounts data i w w' ->
  register_ w = ∅ ->
  (forall user, record_ user <> pk -> clean_record program_id pk (record_ user) w) ->
  kept program_id pk w'.
Proof.
  intros Hw Hi Ha He Hc.
  assert (U : forall k, k <> pk -> untouched program_id k w w').
  { intros k Nk. apply (accepts_frame _ _ _ _ _ _ _ (or_introl Hi) Ha).
    intros [?|[E _]]; [done|by destruct i]. }
  assert (Er : register_ w' = ∅) by (by rewrite (frame_register_all pk _ _ U)).
  apply init_accepts in Ha as (a & c & cap & _ & _ & G & _); [|done|done].
  split; unfold shares, shares_in; rewrite ?Er, ?map_sum_empty; try apply G; [intros _; apply G|..].
  - intros k h Hk. by rewrite lookup_empty in Hk.
  - intros user Hn. eapply untouched_clean; [by apply U|by apply Hc].
Qed.

Lemma environment_kept w w' :
  kept program_id pk w -> environment pk w w' -> leaves_records program_id pk w w' ->
  kept program_id pk w'.
Proof.
  intros K He [Er Hu]. destruct (environment_backed pk w w' (kt_backed _ _ _ K) He) as [B' Ep].
  apply (kept_quiet w w' K B'); rewrite ?Ep; auto.
Qed.

Lemma recorded_kept w : recorded program_id pk w -> kept program_id pk w.
Proof.
  induction 1; [by eapply init_kept|by eapply accepts_kept|by eapply environment_kept].
Qed.
End Records.
