(* ===== verification/Sim.v ===== *)
(** * A concrete runtime

    An executable instance of [Runtime]: a system program, the SPL token
    program's instructions the pool uses, a wrapper that moves tokens, a clock
    account and program addresses. It satisfies [RuntimeLaws], so the laws are
    consistent, and the handlers run on it. *)

From S2P Require Import Prelude Errors State PoolFacts Runtime SplToken Cpi Guards Init Laws.

#[local] Abbreviation Write := (Pubkey * Account)%type.

Definition check (b : bool) : option unit := if b then Some tt else None.

Lemma check_Some b u : check b = Some u <-> b = true.
Proof. destruct b, u; cbn; naive_solver. Qed.

(** ** Program addresses *)

Definition hash_bytes (acc : Z) (l : list Z) : Z :=
  fold_left (fun acc b => Z.land (acc * 257 + b + 1) U64_MAX) l acc.

Definition program_address (seeds : list (list Z)) (program_id : Pubkey) : Pubkey * Z :=
  (le_bytes 8 (hash_bytes (fold_left hash_bytes seeds 0) program_id) ++ replicate 24 255, 255).

(** ** The system program *)

Definition ix_create (from to : Pubkey) (lamports space : Z) (owner : Pubkey) : Instruction :=
  {| ix_program_id := SYSTEM_PROGRAM_ID; ix_accounts := [meta_new from true; meta_new to true];
     ix_data := 0 :: lamports :: space :: owner |}.
Definition ix_system_transfer (from to : Pubkey) (lamports : Z) : Instruction :=
  {| ix_program_id := SYSTEM_PROGRAM_ID; ix_accounts := [meta_new from true; meta_new to false];
     ix_data := [2; lamports] |}.
Definition ix_allocate (t : Pubkey) (space : Z) : Instruction :=
  {| ix_program_id := SYSTEM_PROGRAM_ID; ix_accounts := [meta_new t true]; ix_data := [8; space] |}.
Definition ix_assign (t : Pubkey) (owner : Pubkey) : Instruction :=
  {| ix_program_id := SYSTEM_PROGRAM_ID; ix_accounts := [meta_new t true]; ix_data := 1 :: owner |}.

Definition add_lamports (a : Account) (n : Z) : Account :=
  mkAccount (acc_owner a) (acc_lamports a + n) (acc_data a).

(** The source of a payment: a system account that holds the amount. *)
Definition pays (w : World) (from to : Pubkey) (lamports : Z) : bool :=
  negb (key_eqb from to) && key_eqb (acc_owner (get w from)) SYSTEM_PROGRAM_ID &&
  (lamports <=? acc_lamports (get w from)).

Definition exec_system (ix : Instruction) (w : World) : option (list Write) :=
  match am_pubkey <$> ix.(ix_accounts), ix.(ix_data) with
  | [from; to], 0 :: lamports :: space :: owner =>
      _ ← check (pays w from to lamports && (acc_lamports (get w to) =? 0) &&
                 bool_decide (acc_data (get w to) = []));
      Some [(from, add_lamports (get w from) (- lamports));
            (to, mkAccount owner lamports (replicate (Z.to_nat space) 0))]
  | [from; to], [2; lamports] =>
      _ ← check (pays w from to lamports);
      Some [(from, add_lamports (get w from) (- lamports)); (to, add_lamports (get w to) lamports)]
  | [t], [8; space] =>
      _ ← check (bool_decide (acc_data (get w t) = []));
      Some [(t, mkAccount (acc_owner (get w t)) (acc_lamports (get w t))
                  (replicate (Z.to_nat space) 0))]
  | [t], 1 :: owner =>
      Some [(t, mkAccount owner (acc_lamports (get w t)) (acc_data (get w t)))]
  | _, _ => None
  end.

(** ** The token program *)

Definition sim_rent (space : Z) : Z := 10 * space + 100.

Definition set_amount (a : Account) (v : Z) : Account :=
  mkAccount (acc_owner a) (acc_lamports a) (splice 64 (le_bytes 8 v) (acc_data a)).
Definition set_supply (a : Account) (v : Z) : Account :=
  mkAccount (acc_owner a) (acc_lamports a) (splice 36 (le_bytes 8 v) (acc_data a)).

Definition is_token (w : World) (k : Pubkey) : bool :=
  bool_decide (length (acc_data (get w k)) = ACCOUNT_LEN) && (token_state (get w k) =? 1).
Definition is_mint (w : World) (k : Pubkey) : bool :=
  bool_decide (length (acc_data (get w k)) = MINT_LEN) && (byte_at 45 (acc_data (get w k)) =? 1).
Definition mint_authority (a : Account) : Pubkey := slice 4 36 (acc_data a).

(** Taking from and adding to a balance. *)
Definition debit (w : World) (k : Pubkey) (amount : Z) : option Write :=
  _ ← check (is_token w k && (amount <=? token_amount (get w k)) &&
             (token_amount (get w k) <=? U64_MAX));
  Some (k, set_amount (get w k) (token_amount (get w k) - amount)).
Definition credit (w : World) (k : Pubkey) (amount : Z) : option Write :=
  _ ← check (is_token w k && (0 <=? token_amount (get w k)) &&
             (token_amount (get w k) + amount <=? U64_MAX));
  Some (k, set_amount (get w k) (token_amount (get w k) + amount)).

Definition move (w : World) (source dest authority : Pubkey) (amount : Z) : option (list Write) :=
  _ ← check (key_eqb (token_owner (get w source)) authority &&
             key_eqb (token_mint (get w source)) (token_mint (get w dest)) &&
             negb (key_eqb source dest) && (0 <=? amount));
  s ← debit w source amount;
  d ← credit w dest amount;
  Some [s; d].

Definition new_mint (authority : Pubkey) (decimals : Z) : list Z :=
  [1; 0; 0; 0] ++ authority ++ le_bytes 8 0 ++ [decimals; 1] ++ replicate 36 0.
Definition new_token (mint owner : Pubkey) : list Z :=
  mint ++ owner ++ le_bytes 8 0 ++ replicate 36 0 ++ [1] ++ replicate 56 0.

Definition with_data (a : Account) (d : list Z) : Account :=
  mkAccount (acc_owner a) (acc_lamports a) d.

Definition exec_token (ix : Instruction) (w : World) : option (list Write) :=
  let amount := le_val (slice 1 9 ix.(ix_data)) in
  match am_pubkey <$> ix.(ix_accounts), ix.(ix_data) with
  | [m; _], 0 :: decimals :: _ =>
      let d := new_mint (slice 2 34 ix.(ix_data)) decimals in
      _ ← check (bool_decide (length (acc_data (get w m)) = MINT_LEN) &&
                 (byte_at 45 (acc_data (get w m)) =? 0) &&
                 bool_decide (length (slice 2 34 ix.(ix_data)) = 32%nat));
      Some [(m, with_data (get w m) d)]
  | [v; m; o; _], [1] =>
      let n := if key_eqb m NATIVE_MINT
               then acc_lamports (get w v) - sim_rent (Z.of_nat ACCOUNT_LEN) else 0 in
      _ ← check (bool_decide (length (acc_data (get w v)) = ACCOUNT_LEN) &&
                 (token_state (get w v) =? 0) && (0 <=? n) && (n <=? U64_MAX) &&
                 bool_decide (length m = 32%nat) && bool_decide (length o = 32%nat));
      Some [(v, set_amount (with_data (get w v) (new_token m o)) n)]
  | [s; d; a], 3 :: _ =>
      if key_eqb s d then
        _ ← check (is_token w s && key_eqb (token_owner (get w s)) a &&
                   (amount <=? token_amount (get w s)));
        Some []
      else move w s d a amount
  | [m; d; a], 7 :: _ =>
      _ ← check (is_mint w m && key_eqb (mint_authority (get w m)) a &&
                 key_eqb (token_mint (get w d)) m && (0 <=? mint_supply (get w m)) &&
                 (mint_supply (get w m) + amount <=? U64_MAX));
      c ← credit w d amount;
      Some [(m, set_supply (get w m) (mint_supply (get w m) + amount)); c]
  | [s; m; a], 8 :: _ =>
      _ ← check (is_mint w m && key_eqb (token_owner (get w s)) a &&
                 key_eqb (token_mint (get w s)) m && (amount <=? mint_supply (get w m)) &&
                 (mint_supply (get w m) <=? U64_MAX));
      c ← debit w s amount;
      Some [c; (m, set_supply (get w m) (mint_supply (get w m) - amount))]
  | _, _ => None
  end.

(** ** The wrapper: insurance top-ups and withdrawals move tokens *)

Definition exec_wrapper (ix : Instruction) (w : World) : option (list Write) :=
  let tag := byte_at 0 ix.(ix_data) in
  match am_pubkey <$> ix.(ix_accounts) with
  | [signer; _; v; wv; _] =>
      if tag =? TAG_TOP_UP_INSURANCE
      then move w v wv signer (le_val (slice 1 17 ix.(ix_data))) else Some []
  | [_; _; dest; wv; wva; _] =>
      if tag =? TAG_WITHDRAW_INSURANCE_ASSET
      then move w wv dest wva (le_val (slice 3 19 ix.(ix_data))) else Some []
  | _ => Some []
  end.

(** ** The instance *)

Section Instance_.
Context `{BuildConfig}.

Definition execute (ix : Instruction) (w : World) : option (list Write) :=
  if key_eqb ix.(ix_program_id) SYSTEM_PROGRAM_ID then exec_system ix w
  else if key_eqb ix.(ix_program_id) SplToken.id then exec_token ix w
  else if is_percolator ix.(ix_program_id) then exec_wrapper ix w
  else None.

(** The privileges of a call: the account was passed, with at least the
    flags the instruction asks for (or a program address the seeds sign
    for), and is not mutably borrowed by the caller. *)
Definition meta_ok (program_id : Pubkey) (mb : list Pubkey) (infos : list AccountInfo)
    (seeds : list (list (list Z))) (m : AccountMeta) : bool :=
  let signs (k : Pubkey) :=
    existsb (fun s => key_eqb (fst (program_address (removelast s) program_id)) k) seeds in
  if bool_decide (m.(am_pubkey) ∈ mb) then false
  else existsb (fun ai =>
         if key_eqb ai.(ai_key) m.(am_pubkey) then
           (if m.(am_is_writable) then ai.(ai_is_writable) else true) &&
           (if m.(am_is_signer) then if ai.(ai_is_signer) then true else signs ai.(ai_key)
            else true)
         else false) infos.

(** What the runtime lets a program write. *)
Definition write_ok (ix : Instruction) (w : World) (x : Write) : bool :=
  let '(k, a) := x in
  bool_decide (k ∈ writable_keys ix) &&
  bool_decide (Forall (fun b => 0 <= b < 256) (acc_data a)) &&
  (key_eqb (acc_owner a) (acc_owner (get w k)) || forallb (Z.eqb 0) (acc_data a)) &&
  (if key_eqb ix.(ix_program_id) SYSTEM_PROGRAM_ID then
     key_eqb (acc_owner (get w k)) SYSTEM_PROGRAM_ID ||
     (key_eqb (acc_owner a) (acc_owner (get w k)) &&
      key_eqb (acc_data a) (acc_data (get w k)))
   else key_eqb (acc_owner (get w k)) SplToken.id && key_eqb (acc_owner a) SplToken.id).

Definition apply_writes (ws : list Write) (w : World) : World :=
  fold_left (fun w '(k, a) => <[k := a]> w) ws w.

Definition sim_invoke (program_id : Pubkey) (mb : list Pubkey) (ix : Instruction)
    (infos : list AccountInfo) (seeds : list (list (list Z))) (w : World)
    : ProgramResult World :=
  ensure forallb (meta_ok program_id mb infos seeds) ix.(ix_accounts)
    or_err MissingRequiredSignature;
  ws ← ok_or (execute ix w) InvalidArgument;
  ensure forallb (write_ok ix w) ws or_err InvalidArgument;
  Ok (apply_writes ws w).

Definition CLOCK_ID : Pubkey := replicate 32 201.
Definition RENT_ID : Pubkey := replicate 32 202.

Definition sim_clock (ai : AccountInfo) (w : World) : ProgramResult Clock :=
  ensure key_eqb ai.(ai_key) CLOCK_ID or_err InvalidArgument;
  let d := ai_data w ai in
  Ok (mkClock (wrap U64_MAX (le_val (slice 0 8 d))) (wrap U64_MAX (le_val (slice 16 24 d)))).

Definition sim_runtime (program_id : Pubkey) : Runtime := {|
  find_program_address := program_address;
  invoke_signed := sim_invoke program_id;
  clock_from_account_info := sim_clock;
  Rent := unit;
  rent_from_account_info ai _ :=
    (ensure key_eqb ai.(ai_key) RENT_ID or_err InvalidArgument; Ok tt);
  rent_get _ := Ok tt;
  rent_minimum_balance _ space := sim_rent space;
  RENT_SYSVAR_ID := RENT_ID;
  system_create_account := ix_create;
  system_transfer := ix_system_transfer;
  system_allocate := ix_allocate;
  system_assign := ix_assign;
|}.
End Instance_.
