(* ===== verification/SimLaws.v ===== *)
(** * The concrete runtime satisfies the laws *)

From S2P Require Import Prelude Errors State PoolFacts Runtime SplToken Cpi Guards Init Laws Sim.

(** ** Writes *)

Lemma get_insert_eq (k : Pubkey) (a : Account) (w : World) : get (<[k := a]> w) k = a.
Proof. unfold get. by rewrite lookup_insert_eq. Qed.
Lemma get_insert_ne (k k' : Pubkey) (a : Account) (w : World) : k <> k' -> get (<[k := a]> w) k' = get w k'.
Proof. intros. unfold get. by rewrite lookup_insert_ne. Qed.

(** After the writes, an account is untouched or the last one written. *)
Lemma get_apply_writes ws w k :
  get (apply_writes ws w) k = get w k \/ exists a, (k, a) ∈ ws /\ get (apply_writes ws w) k = a.
Proof.
  revert w. induction ws as [|[k1 a1] ws IH]; intros w; [by left|].
  change (apply_writes ((k1, a1) :: ws) w) with (apply_writes ws (<[k1 := a1]> w)).
  destruct (IH (<[k1 := a1]> w)) as [E|(a & Hin & E)].
  - destruct (decide (k1 = k)) as [->|Hn].
    + right. exists a1. split; [set_solver|]. by rewrite E, get_insert_eq.
    + left. by rewrite E, get_insert_ne.
  - right. exists a. split; [set_solver|done].
Qed.

Section Calls.
Context `{BuildConfig} {program_id : Pubkey}.
Implicit Types (w : World) (ix : Instruction).

Lemma sim_invoke_Ok mb ix infos seeds w w' :
  sim_invoke program_id mb ix infos seeds w = Ok w' ->
  exists ws, execute ix w = Some ws /\ Forall (fun x => write_ok ix w x = true) ws /\
             w' = apply_writes ws w.
Proof.
  unfold sim_invoke. intros [_ H1]%ensure_Ok. apply bind_Ok in H1 as (ws & Hws%ok_or_Ok & H1).
  apply ensure_Ok in H1 as [Hok [= <-]]. exists ws. split_and!; [done| |done].
  by apply Forall_forall, forallb_forall.
Qed.

(** Case analysis of a written account. *)
Lemma sim_invoke_cases mb ix infos seeds w w' k :
  sim_invoke program_id mb ix infos seeds w = Ok w' ->
  get w' k = get w k \/ write_ok ix w (k, get w' k) = true.
Proof.
  intros (ws & _ & Hok & ->)%sim_invoke_Ok.
  destruct (get_apply_writes ws w k) as [?|(a & Hin & ->)]; [by left|right].
  rewrite Forall_forall in Hok. by apply Hok, list_elem_of_In.
Qed.

Lemma write_ok_inv ix w k a :
  write_ok ix w (k, a) = true ->
  k ∈ writable_keys ix /\ bytes_ok (acc_data a) /\
  (ix_program_id ix = SYSTEM_PROGRAM_ID ->
     acc_owner (get w k) = SYSTEM_PROGRAM_ID \/ same_state (get w k) a) /\
  (ix_program_id ix <> SYSTEM_PROGRAM_ID ->
     acc_owner (get w k) = SplToken.id /\ acc_owner a = SplToken.id) /\
  (acc_owner a = acc_owner (get w k) \/ blank a).
Proof.
  unfold write_ok. intros [[[H1 H2]%andb_true_iff H4]%andb_true_iff H3]%andb_true_iff.
  apply bool_decide_eq_true in H1, H2. split_and!; [done|done| | |].
  - intros E%key_eqb_eq. rewrite E in H3.
    apply orb_true_iff in H3 as [?%key_eqb_eq|[?%key_eqb_eq ?%key_eqb_eq]%andb_true_iff];
      [by left|by right].
  - intros Hn%key_eqb_neq. rewrite Hn in H3. apply andb_true_iff in H3.
    by rewrite !key_eqb_eq in H3.
  - apply orb_true_iff in H4 as [?%key_eqb_eq|Hz]; [by left|right].
    unfold blank. rewrite Forall_forall. rewrite forallb_forall in Hz.
    intros b Hb%Hz. by apply Z.eqb_eq in Hb.
Qed.

Lemma execute_spl ix w : ix_program_id ix = SplToken.id -> execute ix w = exec_token ix w.
Proof. intros E. unfold execute. rewrite E. reflexivity. Qed.
Lemma execute_system ix w :
  ix_program_id ix = SYSTEM_PROGRAM_ID -> execute ix w = exec_system ix w.
Proof. intros E. unfold execute. rewrite E. reflexivity. Qed.
Lemma execute_wrapper ix w :
  is_percolator (ix_program_id ix) = true -> execute ix w = exec_wrapper ix w.
Proof.
  intros E. unfold execute.
  assert (key_eqb (ix_program_id ix) SplToken.id = false /\
          key_eqb (ix_program_id ix) SYSTEM_PROGRAM_ID = false) as [-> ->]; [|by rewrite E].
  rewrite !key_eqb_neq. unfold is_percolator in E.
  apply orb_true_iff in E as [->%key_eqb_eq|[_ ->%key_eqb_eq]%andb_true_iff]; done.
Qed.
End Calls.

(** ** Token balances *)

Section Tokens.
Implicit Types (w : World) (a : Account).

Lemma amount_data_val tag v : u64 v -> le_val (slice 1 9 (amount_data tag v)) = v.
Proof.
  intros Hv. unfold amount_data. rewrite slice_splice_same.
  - rewrite le_val_le_bytes_small; [done|width_lia].
  - by rewrite length_le_bytes.
  - rewrite length_splice by (cbn; lia). cbn. lia.
Qed.

Lemma set_amount_spec a v :
  length (acc_data a) = ACCOUNT_LEN -> u64 v ->
  same_token a (set_amount a v) /\ token_amount (set_amount a v) = v.
Proof.
  intros Hl Hv. unfold ACCOUNT_LEN in *.
  assert (length (splice 64 (le_bytes 8 v) (acc_data a)) = length (acc_data a)) as E
    by (rewrite length_splice; [done|rewrite length_le_bytes; lia]).
  unfold same_token, token_mint, token_owner, token_state, token_amount, set_amount; cbn [acc_owner acc_data].
  split_and!; [done|done|..].
  - rewrite slice_splice_ne; [done|rewrite length_le_bytes; lia..].
  - rewrite slice_splice_ne; [done|rewrite length_le_bytes; lia..].
  - unfold byte_at. rewrite !nth_lookup, splice_lookup_ne; [done|rewrite ?length_le_bytes; lia..].
  - rewrite slice_splice_same; [|by rewrite length_le_bytes|lia]. apply le_val_le_bytes_small; width_lia.
Qed.

Lemma set_supply_spec a v :
  length (acc_data a) = MINT_LEN -> u64 v ->
  length (acc_data (set_supply a v)) = MINT_LEN /\ mint_supply (set_supply a v) = v.
Proof.
  intros Hl Hv. unfold MINT_LEN in *. unfold mint_supply, set_supply; cbn [acc_data].
  split; [rewrite length_splice; [done|rewrite length_le_bytes; lia]|].
  rewrite slice_splice_same; [|by rewrite length_le_bytes|lia]. apply le_val_le_bytes_small; width_lia.
Qed.

Lemma mint_supply_set_supply_owner a v : acc_owner (set_supply a v) = acc_owner a.
Proof. done. Qed.

Lemma is_token_len w k : is_token w k = true -> length (acc_data (get w k)) = ACCOUNT_LEN.
Proof. unfold is_token. by intros [?%bool_decide_eq_true _]%andb_true_iff. Qed.
Lemma is_mint_len w k : is_mint w k = true -> length (acc_data (get w k)) = MINT_LEN.
Proof. unfold is_mint. by intros [?%bool_decide_eq_true _]%andb_true_iff. Qed.
End Tokens.

Lemma slice_app_mid a b l1 l2 l3 :
  length l1 = a -> b = (a + length l2)%nat -> slice a b (l1 ++ l2 ++ l3) = l2.
Proof.
  intros <- ->. unfold slice. rewrite drop_app_length, Nat.add_comm, Nat.add_sub.
  by rewrite take_app_length.
Qed.

Lemma get_apply_write (k : Pubkey) (a : Account) (w : World) : get (apply_writes [(k, a)] w) k = a.
Proof. apply get_insert_eq. Qed.

(** Splits the guard of an execution step. *)
Ltac inv_check H :=
  let u := fresh "u" in let Hc := fresh "Hc" in
  apply bind_Some in H as (u & Hc & H); apply check_Some in Hc;
  repeat match goal with
  | K : _ && _ = true |- _ => apply andb_true_iff in K as [? K]
  end;
  repeat match goal with
  | K : key_eqb _ _ = true |- _ => apply key_eqb_eq in K
  | K : negb (key_eqb _ _) = true |- _ => apply negb_true_iff, key_eqb_neq in K
  | K : is_token _ _ = true |- _ => apply is_token_len in K
  | K : is_mint _ _ = true |- _ => apply is_mint_len in K
  | K : bool_decide _ = true |- _ => apply bool_decide_eq_true in K
  | K : (_ <=? _) = true |- _ => apply Z.leb_le in K
  | K : (_ =? _) = true |- _ => apply Z.eqb_eq in K
  end.

Section Movement.
Implicit Types (w : World) (k s d a : Pubkey).

Lemma debit_Some w k amt x :
  debit w k amt = Some x -> 0 <= amt ->
  exists a : Account, x = (k, a) /\ length (acc_data (get w k)) = ACCOUNT_LEN /\ same_token (get w k) a /\
            amt <= token_amount (get w k) /\ token_amount a = token_amount (get w k) - amt.
Proof.
  unfold debit. intros H Ha. inv_check H. injection H as <-.
  edestruct (set_amount_spec (get w k)) as [Hs Hv]; [done| |eexists; split_and!; eauto].
  width_lia.
Qed.

Lemma credit_Some w k amt x :
  credit w k amt = Some x -> 0 <= amt ->
  exists a : Account, x = (k, a) /\ length (acc_data (get w k)) = ACCOUNT_LEN /\ same_token (get w k) a /\
            token_amount a = token_amount (get w k) + amt.
Proof.
  unfold credit. intros H Ha. inv_check H. injection H as <-.
  edestruct (set_amount_spec (get w k)) as [Hs Hv]; [done| |eexists; split_and!; eauto].
  width_lia.
Qed.

Lemma move_Some w s d a amt ws :
  move w s d a amt = Some ws ->
  let w' := apply_writes ws w in
  s <> d /\ amt <= token_amount (get w s) /\
  token_amount (get w' s) = token_amount (get w s) - amt /\
  token_amount (get w' d) = token_amount (get w d) + amt /\
  length (acc_data (get w s)) = ACCOUNT_LEN /\ length (acc_data (get w d)) = ACCOUNT_LEN /\
  (forall k, same_token (get w k) (get w' k)) /\
  (forall k, k <> s -> k <> d -> get w' k = get w k).
Proof.
  unfold move. intros H. inv_check H.
  apply bind_Some in H as (x & Hx & H). apply bind_Some in H as (y & Hy & [= <-]).
  apply debit_Some in Hx as (a1 & -> & L1 & S1 & Le & V1); [|done].
  apply credit_Some in Hy as (a2 & -> & L2 & S2 & V2); [|done].
  cbn. assert (Es : get (<[d := a2]> (<[s := a1]> w)) s = a1)
    by (rewrite get_insert_ne by done; apply get_insert_eq).
  rewrite Es, get_insert_eq. split_and!; try done.
  - intros k. destruct (decide (k = d)) as [->|]; [by rewrite get_insert_eq|].
    destruct (decide (k = s)) as [->|]; [by rewrite Es|]. by rewrite !get_insert_ne.
  - intros k ??. by rewrite !get_insert_ne.
Qed.
End Movement.

Section TokenLaws.
Context `{BuildConfig} {program_id : Pubkey}.
Implicit Types (w : World) (s d m a : Pubkey).
#[local] Abbreviation invoke_ := (sim_invoke program_id).

Lemma sim_transfer mb p s d a amt ix infos seeds w w' :
  SplToken.transfer p s d a [] amt = Ok ix -> u64 amt ->
  invoke_ mb ix infos seeds w = Ok w' ->
  length (acc_data (get w s)) = ACCOUNT_LEN /\ length (acc_data (get w d)) = ACCOUNT_LEN /\
  same_token (get w s) (get w' s) /\ same_token (get w d) (get w' d) /\
  (s <> d -> amt <= token_amount (get w s) /\
             token_amount (get w' s) = token_amount (get w s) - amt /\
             token_amount (get w' d) = token_amount (get w d) + amt).
Proof.
  intros [= <-] Ha (ws & Hx & _ & ->)%sim_invoke_Ok. rewrite execute_spl in Hx by done.
  cbn [exec_token ix_accounts ix_data fmap list_fmap meta_new meta_new_readonly am_pubkey] in Hx.
  rewrite amount_data_val in Hx by done.
  change (amount_data IX_TRANSFER amt) with (3 :: le_bytes 8 amt) in Hx. cbn -[check] in Hx.
  destruct (key_eqb s d) eqn:E.
  - apply key_eqb_eq in E as <-. inv_check Hx. injection Hx as <-. done.
  - apply move_Some in Hx as (? & ? & ? & ? & ? & ? & St & _). naive_solver.
Qed.

Lemma sim_mint_to mb p m d a amt ix infos seeds w w' :
  SplToken.mint_to p m d a [] amt = Ok ix -> u64 amt ->
  invoke_ mb ix infos seeds w = Ok w' ->
  length (acc_data (get w m)) = MINT_LEN /\
  length (acc_data (get w' m)) = MINT_LEN /\
  mint_supply (get w' m) = mint_supply (get w m) + amt /\
  length (acc_data (get w d)) = ACCOUNT_LEN /\ same_token (get w d) (get w' d) /\ token_amount (get w' d) = token_amount (get w d) + amt.
Proof.
  intros [= <-] Ha (ws & Hx & _ & ->)%sim_invoke_Ok. rewrite execute_spl in Hx by done.
  cbn [exec_token ix_accounts ix_data fmap list_fmap meta_new meta_new_readonly am_pubkey] in Hx.
  rewrite amount_data_val in Hx by done.
  change (amount_data IX_MINT_TO amt) with (7 :: le_bytes 8 amt) in Hx. cbn -[check] in Hx.
  inv_check Hx. apply bind_Some in Hx as (x & Hx' & [= <-]).
  apply credit_Some in Hx' as (b & -> & Lb & Sb & Vb); [|width_lia].
  assert (m <> d) by (intros ->; unfold ACCOUNT_LEN, MINT_LEN in *; congruence).
  edestruct (set_supply_spec (get w m)) as [Lm Vm]; [done| |].
  2: { cbn. rewrite get_insert_ne, !get_insert_eq by done. split_and!; eauto. }
  width_lia.
Qed.

Lemma sim_burn mb p s m a amt ix infos seeds w w' :
  SplToken.burn p s m a [] amt = Ok ix -> u64 amt ->
  invoke_ mb ix infos seeds w = Ok w' ->
  length (acc_data (get w m)) = MINT_LEN /\
  length (acc_data (get w' m)) = MINT_LEN /\
  amt <= mint_supply (get w m) /\ mint_supply (get w' m) = mint_supply (get w m) - amt /\
  same_token (get w s) (get w' s) /\ token_amount (get w' s) = token_amount (get w s) - amt.
Proof.
  intros [= <-] Ha (ws & Hx & _ & ->)%sim_invoke_Ok. rewrite execute_spl in Hx by done.
  cbn [exec_token ix_accounts ix_data fmap list_fmap meta_new meta_new_readonly am_pubkey] in Hx.
  rewrite amount_data_val in Hx by done.
  change (amount_data IX_BURN amt) with (8 :: le_bytes 8 amt) in Hx. cbn -[check] in Hx.
  inv_check Hx. apply bind_Some in Hx as (x & Hx' & [= <-]).
  apply debit_Some in Hx' as (b & -> & Lb & Sb & Le & Vb); [|width_lia].
  assert (s <> m) by (intros ->; unfold ACCOUNT_LEN, MINT_LEN in *; congruence).
  edestruct (set_supply_spec (get w m)) as [Lm Vm]; [done| |].
  2: { cbn. rewrite (get_insert_ne m s), !get_insert_eq by done. split_and!; eauto. }
  width_lia.
Qed.

Lemma sim_initialize_mint `{Runtime} mb p m auth dec ix infos seeds w w' :
  SplToken.initialize_mint p m auth None dec = Ok ix ->
  invoke_ mb ix infos seeds w = Ok w' ->
  acc_owner (get w' m) = SplToken.id /\
  length (acc_data (get w' m)) = MINT_LEN /\ mint_supply (get w' m) = 0.
Proof.
  intros [= <-] (ws & Hx & Hok & ->)%sim_invoke_Ok. rewrite execute_spl in Hx by done.
  set (data := splice 2 auth _) in *.
  assert (exists rest, data = 0 :: dec :: rest) as [rest E] by (eexists; reflexivity).
  unfold exec_token in Hx. cbn -[slice check new_mint] in Hx. rewrite E in Hx. inv_check Hx. injection Hx as <-.
  apply Forall_cons_1 in Hok as [(_ & _ & _ & Hown & _)%write_ok_inv _].
  destruct Hown as [_ Ho]; [done|]. rewrite get_apply_write. split; [done|].
  set (auth' := slice 2 34 (0 :: dec :: rest)) in *. clearbody auth'. unfold with_data, new_mint. cbn [acc_data].
  split; [rewrite !length_app, length_replicate, length_le_bytes; cbn; unfold MINT_LEN; lia|].
  unfold mint_supply. cbn [acc_data]. rewrite app_assoc, slice_app_mid; [reflexivity|..];
    rewrite ?length_app, ?length_le_bytes; cbn; lia.
Qed.
End TokenLaws.

Section MoreLaws.
Context `{BuildConfig} {program_id : Pubkey}.
Implicit Types (w : World).
#[local] Abbreviation invoke_ := (sim_invoke program_id).

Lemma new_token_fields (m o : Pubkey) l :
  length m = 32%nat -> length o = 32%nat ->
  let a := mkAccount SplToken.id l (new_token m o) in
  length (acc_data a) = ACCOUNT_LEN /\ token_mint a = m /\ token_owner a = o /\
  token_state a = 1 /\ token_amount a = 0.
Proof.
  intros Hm Ho. cbn zeta. unfold token_mint, token_owner, token_state, token_amount, new_token.
  cbn [acc_data].
  assert (Hp : length (m ++ o) = 64%nat) by (rewrite length_app; lia).
  split_and!.
  - rewrite !length_app, !length_replicate, length_le_bytes, Hm, Ho. done.
  - by apply (slice_app_mid 0 32 []).
  - apply slice_app_mid; lia.
  - unfold byte_at. rewrite nth_lookup. rewrite !app_assoc.
    rewrite lookup_app_l by (rewrite !length_app, !length_replicate, length_le_bytes, Hm, Ho; cbn; lia).
    rewrite lookup_app_r by (rewrite !length_app, !length_replicate, length_le_bytes, Hm, Ho; cbn; lia).
    rewrite !length_app, !length_replicate, length_le_bytes, Hm, Ho. reflexivity.
  - rewrite app_assoc, slice_app_mid; [reflexivity|done|by rewrite length_le_bytes].
Qed.

Lemma sim_initialize_account mb p v m o ix infos seeds w w' :
  SplToken.initialize_account (H := sim_runtime program_id) p v m o = Ok ix ->
  invoke_ mb ix infos seeds w = Ok w' ->
  length (acc_data (get w v)) = ACCOUNT_LEN /\ length (acc_data (get w' v)) = ACCOUNT_LEN /\
  acc_owner (get w' v) = SplToken.id /\ token_mint (get w' v) = m /\
  token_owner (get w' v) = o /\ token_state (get w' v) = 1 /\
  opens_with (RT := sim_runtime program_id) w m (get w' v) (token_amount (get w' v)).
Proof.
  intros [= <-] (ws & Hx & Hok & ->)%sim_invoke_Ok. rewrite execute_spl in Hx by done.
  cbn -[slice check new_token set_amount sim_rent NATIVE_MINT] in Hx. cbv zeta in Hx.
  set (n := if key_eqb m NATIVE_MINT then _ else 0) in Hx.
  inv_check Hx. injection Hx as <-.
  apply Forall_cons_1 in Hok as [(_ & _ & _ & Hown & _)%write_ok_inv _].
  destruct Hown as [_ Ho]; [done|]. rewrite get_apply_write. unfold with_data in *.
  cbn [set_amount acc_owner] in Ho. rewrite Ho.
  destruct (new_token_fields m o (acc_lamports (get w v))) as (L & M & O & S & _); [done..|].
  set (a := mkAccount _ _ _) in *.
  destruct (set_amount_spec a n L) as [(Eo & El & Em & Eow & Es) En]; [split; lia|].
  rewrite <- Eo, <- El, <- Em, <- Eow, <- Es, En. split_and!; try done.
  unfold opens_with. subst n. destruct (key_eqb m NATIVE_MINT); [by intros [] _|done].
Qed.

Lemma sim_create mb a b n s o infos seeds w w' :
  invoke_ mb (ix_create a b n s o) infos seeds w = Ok w' ->
  acc_owner (get w' b) = o /\ acc_data (get w' b) = replicate (Z.to_nat s) 0.
Proof.
  intros (ws & Hx & _ & ->)%sim_invoke_Ok. rewrite execute_system in Hx by done.
  cbn -[check] in Hx. inv_check Hx. injection Hx as <-. cbn. by rewrite get_insert_eq.
Qed.

Lemma sim_allocate mb b s infos seeds w w' :
  invoke_ mb (ix_allocate b s) infos seeds w = Ok w' ->
  acc_data (get w' b) = replicate (Z.to_nat s) 0.
Proof.
  intros (ws & Hx & _ & ->)%sim_invoke_Ok. rewrite execute_system in Hx by done.
  cbn -[check] in Hx. inv_check Hx. injection Hx as <-. cbn. by rewrite get_insert_eq.
Qed.

Lemma sim_assign mb b o infos seeds w w' :
  invoke_ mb (ix_assign b o) infos seeds w = Ok w' ->
  acc_owner (get w' b) = o /\ acc_data (get w' b) = acc_data (get w b).
Proof.
  intros (ws & Hx & _ & ->)%sim_invoke_Ok. rewrite execute_system in Hx by done.
  cbn -[check] in Hx. injection Hx as <-. cbn. by rewrite get_insert_eq.
Qed.

Lemma exec_wrapper_cases ix w ws :
  exec_wrapper ix w = Some ws -> ws = [] \/ exists s d a x, move w s d a x = Some ws.
Proof.
  unfold exec_wrapper. intros Hx.
  repeat match type of Hx with
  | context [match ?l with [] => _ | _ :: _ => _ end] => destruct l
  | context [if ?b then _ else _] => destruct b
  end; simplify_eq; eauto 7.
Qed.

Lemma sim_wrapper mb ix infos seeds w w' k :
  invoke_ mb ix infos seeds w = Ok w' -> is_percolator (ix_program_id ix) = true ->
  same_token (get w k) (get w' k) /\
  (length (acc_data (get w k)) = MINT_LEN -> same_state (get w k) (get w' k)).
Proof.
  intros (ws & Hx & _ & ->)%sim_invoke_Ok Hp. rewrite execute_wrapper in Hx by done.
  apply exec_wrapper_cases in Hx as [->|(s & d & a & x & Hm)]; [done|].
  apply move_Some in Hm as (_ & _ & _ & _ & Ls & Ld & Hst & Hne).
  split; [apply Hst|]. intros Hl.
  rewrite Hne; [done|intros ->; unfold MINT_LEN, ACCOUNT_LEN in *; congruence..].
Qed.

Lemma u128_slice (pre : list Z) amt :
  u64 amt -> le_val (slice (length pre) (length pre + 16) (pre ++ le_bytes 16 amt)) = amt.
Proof.
  intros Ha. rewrite <- (app_nil_r (le_bytes 16 amt)), slice_app_mid;
    [|done|by rewrite length_le_bytes].
  apply le_val_le_bytes_small. width_lia.
Qed.

Lemma sim_top_up mb p s sl v wv t amt infos seeds w w' :
  is_percolator p.(ai_key) = true -> u64 amt ->
  invoke_ mb (top_up_insurance_ix p s sl v wv t amt) infos seeds w = Ok w' ->
  amt <= token_amount (get w v.(ai_key)) /\
  token_amount (get w' v.(ai_key)) = token_amount (get w v.(ai_key)) - amt.
Proof.
  intros Hp Ha (ws & Hx & _ & ->)%sim_invoke_Ok. rewrite execute_wrapper in Hx by done.
  pose proof (u128_slice [TAG_TOP_UP_INSURANCE] amt Ha) as E. cbn -[le_val slice] in E.
  cbn -[le_val slice move] in Hx. rewrite E in Hx. apply move_Some in Hx. naive_solver.
Qed.

Lemma sim_withdraw_asset mb p s m d wv wa t amt infos seeds w w' :
  is_percolator p.(ai_key) = true -> u64 amt ->
  invoke_ mb (withdraw_insurance_asset_ix p s m d wv wa t amt) infos seeds w = Ok w' ->
  token_amount (get w' d.(ai_key)) = token_amount (get w d.(ai_key)) + amt.
Proof.
  intros Hp Ha (ws & Hx & _ & ->)%sim_invoke_Ok. rewrite execute_wrapper in Hx by done.
  pose proof (u128_slice [TAG_WITHDRAW_INSURANCE_ASSET; 0; 0] amt Ha) as E.
  change (le_val (slice 3 19 (TAG_WITHDRAW_INSURANCE_ASSET ::
    le_bytes 2 ASSET_INDEX_ZERO ++ le_bytes 16 amt)) = amt) in E.
  cbn -[le_val slice move] in Hx. rewrite E in Hx.
  apply move_Some in Hx. naive_solver.
Qed.

Lemma sim_spl_owner mb ix infos seeds w w' k :
  invoke_ mb ix infos seeds w = Ok w' -> ix_program_id ix = SplToken.id ->
  acc_owner (get w' k) = acc_owner (get w k).
Proof.
  intros Hc E. destruct (sim_invoke_cases _ _ _ _ _ _ k Hc) as [->|Hok]; [done|].
  apply write_ok_inv in Hok as (_ & _ & _ & Hown & _). rewrite E in Hown.
  destruct Hown as [-> ->]; done.
Qed.

Lemma sim_bytes mb ix infos seeds w w' :
  invoke_ mb ix infos seeds w = Ok w' -> world_ok w -> world_ok w'.
Proof.
  intros Hc Hw k. destruct (sim_invoke_cases _ _ _ _ _ _ k Hc) as [->|Hok]; [apply Hw|].
  by apply write_ok_inv in Hok as (_ & ? & _).
Qed.

Lemma sim_frame mb ix infos seeds w w' k :
  invoke_ mb ix infos seeds w = Ok w' -> k ∉ writable_keys ix -> get w' k = get w k.
Proof.
  intros Hc Hk. destruct (sim_invoke_cases _ _ _ _ _ _ k Hc) as [->|Hok]; [done|].
  by apply write_ok_inv in Hok as (? & _).
Qed.

(** Accounts a call may not write: owned by neither the system program nor
    the token program, or by another program than the system program's. *)
Lemma sim_foreign mb ix infos seeds w w' k :
  invoke_ mb ix infos seeds w = Ok w' ->
  acc_owner (get w k) <> SYSTEM_PROGRAM_ID ->
  (ix_program_id ix = SYSTEM_PROGRAM_ID \/ acc_owner (get w k) <> SplToken.id) ->
  same_state (get w k) (get w' k).
Proof.
  intros Hc Ho Hs. destruct (sim_invoke_cases _ _ _ _ _ _ k Hc) as [->|Hok]; [done|].
  apply write_ok_inv in Hok as (_ & _ & Hsys & Hoth & _).
  destruct (decide (ix_program_id ix = SYSTEM_PROGRAM_ID)) as [E|E].
  - destruct (Hsys E); done.
  - destruct (Hoth E). by destruct Hs.
Qed.
End MoreLaws.

Lemma sim_laws `{BuildConfig} (program_id : Pubkey)
  (Hspl : SplToken.id <> program_id) (Hsys : SYSTEM_PROGRAM_ID <> program_id)
  (Hwr : is_percolator program_id = false) : @RuntimeLaws (sim_runtime program_id) _ program_id.
Proof.
  split; cbn [sim_runtime find_program_address invoke_signed clock_from_account_info
    system_create_account system_transfer system_allocate system_assign];
    eauto using sim_bytes, sim_frame, sim_create, sim_allocate, sim_assign, sim_spl_owner,
      sim_transfer, sim_mint_to, sim_burn, sim_initialize_mint, sim_initialize_account,
      sim_top_up, sim_withdraw_asset.
  - intros seeds. split; [|unfold program_address; cbn; width_lia].
    unfold program_address. cbn -[le_bytes replicate].
    split; [by rewrite length_app, length_le_bytes|].
    apply Forall_app; split; [apply le_bytes_ok|]. apply Forall_replicate. done.
  - intros ai w c [_ [= <-]]%ensure_Ok. cbn.
    split; apply wrap_bounds; unfold U64_MAX; lia.
  - intros mb ix infos seeds w w' k Hc _ Ho. eapply sim_foreign; [done|congruence|right; congruence].
  - intros mb ix infos seeds w w' k Hc _ Hn Ho.
    destruct (sim_invoke_cases _ _ _ _ _ _ k Hc) as [E|Hok]; [by rewrite E in Ho|].
    apply write_ok_inv in Hok as (_ & _ & _ & _ & [E|?]); [by rewrite <- E in Hn|done].
  - intros. eapply sim_foreign; eauto.
  - intros mb ix infos seeds w w' k Hc Hp Ho.
    destruct (sim_invoke_cases _ _ _ _ _ _ k Hc) as [->|Hok]; [done|].
    apply write_ok_inv in Hok as (_ & _ & _ & Hown & _). rewrite <- Ho.
    destruct Hown as [-> ->]; [|done]. intros E. rewrite E in Hp. revert Hp. unfold is_percolator.
    by intros [Hk%key_eqb_eq|[_ Hk%key_eqb_eq]%andb_true_iff]%orb_true_iff.
  - intros mb ix infos seeds w w' k Hc Hp _. by eapply sim_wrapper.
Qed.

(** ** The program's id and the build of the scenarios *)

Definition SIM_ID : Pubkey := replicate 32 7.
Definition sim_build : BuildConfig := {| feature_devnet := false |}.
Definition sim : Runtime := @sim_runtime sim_build SIM_ID.

Lemma sim_laws_hold : @RuntimeLaws sim sim_build SIM_ID.
Proof. by apply (@sim_laws sim_build). Qed.
