(* ===== verification/SimServes.v ===== *)
(** * The concrete runtime serves

    The token program of Sim.v carries out every burn, mint and transfer
    [TokenProgramServes] asks of it, its system program every payment and account
    creation of [SystemServes]. *)

From S2P Require Import Prelude Errors State PoolFacts Runtime SplToken Cpi Guards Init Laws Sim SimLaws.

(** ** What a call passes *)

Section Passes.
Context `{BuildConfig} {program_id : Pubkey}.
Implicit Types (w : World) (ix : Instruction) (ai : AccountInfo).

(** The account was passed with the flags the instruction asks for, or the seeds
    sign for it. *)
Lemma meta_ok_passed mb infos seeds ai signer writable :
  ai ∈ infos -> ai.(ai_key) ∉ mb -> (writable = true -> ai.(ai_is_writable) = true) ->
  (signer = true -> ai.(ai_is_signer) = true \/
     exists s b, s ++ [b] ∈ seeds /\ fst (program_address s program_id) = ai.(ai_key)) ->
  meta_ok program_id mb infos seeds (mkMeta ai.(ai_key) signer writable) = true.
Proof.
  intros Hin Hmb Hw Hs. unfold meta_ok. cbn [am_pubkey am_is_writable am_is_signer].
  rewrite bool_decide_eq_false_2 by done. apply existsb_exists. exists ai.
  split; [by apply list_elem_of_In|]. rewrite (proj2 (key_eqb_eq _ _) eq_refl).
  apply andb_true_iff. split; [destruct writable; auto|].
  destruct signer; [|done]. destruct (Hs eq_refl) as [->|(s & b & Hsb & He)]; [done|].
  destruct (ai_is_signer ai); [done|]. apply existsb_exists. exists (s ++ [b]).
  split; [by apply list_elem_of_In|]. rewrite removelast_last. by apply key_eqb_eq.
Qed.

(** A changed token or mint account is a write the token program may make. *)
Lemma write_ok_spl ix w k a :
  ix.(ix_program_id) = SplToken.id -> k ∈ writable_keys ix -> bytes_ok (acc_data a) ->
  acc_owner (get w k) = SplToken.id -> acc_owner a = SplToken.id ->
  write_ok ix w (k, a) = true.
Proof.
  intros Hp Hk Hb Ho Ha. unfold write_ok. rewrite Hp, Ho, Ha.
  rewrite !bool_decide_eq_true_2 by done. reflexivity.
Qed.

Lemma sim_invoke_serves mb ix infos seeds w ws :
  forallb (meta_ok program_id mb infos seeds) ix.(ix_accounts) = true ->
  execute ix w = Some ws -> forallb (write_ok ix w) ws = true ->
  sim_invoke program_id mb ix infos seeds w = Ok (apply_writes ws w).
Proof. intros Hm Hx Hw. unfold sim_invoke. rewrite Hm, Hx. cbn. by rewrite Hw. Qed.
(** The account whose address the seeds give signs. *)
Lemma seeds_sign (a : AccountInfo) (seeds : list (list Z)) bump :
  program_address seeds program_id = (a.(ai_key), bump) ->
  a.(ai_is_signer) = true \/
  exists s b, s ++ [b] ∈ [seeds ++ [[bump]]] /\ fst (program_address s program_id) = a.(ai_key).
Proof. intros Hpda. right. exists seeds, [bump]. split; [set_solver|by rewrite Hpda]. Qed.

End Passes.

(** The privileges a call asks of an account: passed, not borrowed, writable, and
    signed for. *)
Ltac passed :=
  lazymatch goal with
  | |- _ ∈ _ => set_solver-
  | |- _ ∉ _ => done
  | |- true = true -> _ \/ _ => intros _; first [by left|by eapply seeds_sign]
  | |- _ => done
  end.


(** ** Balances *)

Section Balances.
Implicit Types (w : World) (s d m a : Pubkey).

Lemma live_is_token w k : live_token (get w k) -> is_token w k = true.
Proof.
  intros (_ & Hl & Hs). unfold is_token. rewrite Hs. by rewrite bool_decide_eq_true_2.
Qed.

Lemma live_is_mint w k : live_mint (get w k) -> is_mint w k = true.
Proof.
  intros (_ & Hl & Hs). unfold is_mint. rewrite Hs. by rewrite bool_decide_eq_true_2.
Qed.

Lemma amount_fits w k : world_ok w -> live_token (get w k) -> u64 (token_amount (get w k)).
Proof.
  intros Hw (_ & Hl & _). apply u64_slice; [apply Hw|rewrite Hl; unfold ACCOUNT_LEN; lia|done].
Qed.

Lemma supply_fits w k : world_ok w -> live_mint (get w k) -> u64 (mint_supply (get w k)).
Proof.
  intros Hw (_ & Hl & _). apply u64_slice; [apply Hw|rewrite Hl; unfold MINT_LEN; lia|done].
Qed.

Lemma debit_serves w k amt :
  world_ok w -> live_token (get w k) -> amt <= token_amount (get w k) ->
  debit w k amt = Some (k, set_amount (get w k) (token_amount (get w k) - amt)).
Proof.
  intros Hw Hl Ha. pose proof (amount_fits w k Hw Hl) as [_ Hu]. unfold debit.
  rewrite (live_is_token _ _ Hl), (proj2 (Z.leb_le _ _) Ha), (proj2 (Z.leb_le _ _) Hu). done.
Qed.

Lemma credit_serves w k amt :
  world_ok w -> live_token (get w k) -> token_amount (get w k) + amt <= U64_MAX ->
  credit w k amt = Some (k, set_amount (get w k) (token_amount (get w k) + amt)).
Proof.
  intros Hw Hl Ha. pose proof (amount_fits w k Hw Hl) as [Hu _]. unfold credit.
  rewrite (live_is_token _ _ Hl), (proj2 (Z.leb_le _ _) Ha), (proj2 (Z.leb_le _ _) Hu). done.
Qed.

Lemma set_amount_bytes (x : Account) v : bytes_ok (acc_data x) -> bytes_ok (acc_data (set_amount x v)).
Proof. intros Hx. apply bytes_ok_splice; [apply le_bytes_ok|done]. Qed.
End Balances.

(** ** The two calls *)

Section Serves.
Context `{BuildConfig} {program_id : Pubkey}.

Lemma sim_burn_served mb (s m u tp : AccountInfo) tid lp ix w :
  SplToken.burn tid s.(ai_key) m.(ai_key) u.(ai_key) [] lp = Ok ix -> u64 lp -> world_ok w ->
  Forall (fun ai => ai.(ai_key) ∉ mb) [s; m; u] ->
  s.(ai_is_writable) = true -> m.(ai_is_writable) = true -> u.(ai_is_signer) = true ->
  live_token (get w s.(ai_key)) -> live_mint (get w m.(ai_key)) ->
  token_owner (get w s.(ai_key)) = u.(ai_key) -> token_mint (get w s.(ai_key)) = m.(ai_key) ->
  lp <= token_amount (get w s.(ai_key)) -> lp <= mint_supply (get w m.(ai_key)) ->
  exists w', sim_invoke program_id mb ix [s; m; u; tp] [] w = Ok w'.
Proof.
  intros [= <-] Hlp Hw Hmb Ws Wm Su Ls Lm Os Ms Ha Hs.
  rewrite !Forall_cons_iff in Hmb. destruct Hmb as (Ns & Nm & Nu & _).
  eexists. eapply sim_invoke_serves.
  - cbn [ix_accounts forallb]. unfold meta_new, meta_new_readonly.
    rewrite !meta_ok_passed; passed.
  - rewrite execute_spl by done.
    cbn [exec_token ix_accounts ix_data fmap list_fmap meta_new meta_new_readonly am_pubkey].
    rewrite amount_data_val by done.
    change (amount_data IX_BURN lp) with (8 :: le_bytes 8 lp). cbn -[check].
    pose proof (supply_fits w _ Hw Lm) as [_ Hu].
    rewrite (live_is_mint _ _ Lm), Os, Ms, !(proj2 (key_eqb_eq _ _) eq_refl).
    rewrite (proj2 (Z.leb_le _ _) Hs), (proj2 (Z.leb_le _ _) Hu). cbn [andb check].
    rewrite debit_serves by done. reflexivity.
  - cbn [forallb]. rewrite !write_ok_spl; try done; try (cbn; set_solver); try apply Ls; try apply Lm.
    + apply bytes_ok_splice; [apply le_bytes_ok|apply Hw].
    + by apply set_amount_bytes.
Qed.

(** A transfer between two live accounts of one mint. *)
Lemma sim_move_serves w (s d a : Pubkey) amt :
  u64 amt -> world_ok w -> s <> d -> live_token (get w s) -> live_token (get w d) ->
  token_owner (get w s) = a -> token_mint (get w s) = token_mint (get w d) ->
  amt <= token_amount (get w s) -> token_amount (get w d) + amt <= U64_MAX ->
  execute {| ix_program_id := SplToken.id;
             ix_accounts := [meta_new s false; meta_new d false; meta_new_readonly a true];
             ix_data := SplToken.amount_data IX_TRANSFER amt |} w
    = Some [(s, set_amount (get w s) (token_amount (get w s) - amt));
            (d, set_amount (get w d) (token_amount (get w d) + amt))].
Proof.
  intros Hamt Hw Hne Ls Ld Os Ms Ha Hd. rewrite execute_spl by done.
  cbn [exec_token ix_accounts ix_data fmap list_fmap meta_new meta_new_readonly am_pubkey].
  rewrite amount_data_val by done.
  change (amount_data IX_TRANSFER amt) with (3 :: le_bytes 8 amt). cbn -[check move].
  rewrite (proj2 (key_eqb_neq _ _) Hne). unfold move.
  rewrite Os, Ms, !(proj2 (key_eqb_eq _ _) eq_refl), (proj2 (key_eqb_neq _ _) Hne).
  rewrite (proj2 (Z.leb_le _ _) (proj1 Hamt)). cbn [andb negb check].
  by rewrite debit_serves, credit_serves.
Qed.

Lemma two_amounts_ok w (s d a : Pubkey) data v1 v2 :
  world_ok w -> live_token (get w s) -> live_token (get w d) ->
  let ix := {| ix_program_id := SplToken.id;
               ix_accounts := [meta_new s false; meta_new d false; meta_new_readonly a true];
               ix_data := data |} in
  write_ok ix w (s, set_amount (get w s) v1) &&
  (write_ok ix w (d, set_amount (get w d) v2) && true) = true.
Proof.
  intros Hw Ls Ld ix. rewrite !write_ok_spl; try done; try (cbn; set_solver); try apply Ls; try apply Ld.
  - by apply set_amount_bytes.
  - by apply set_amount_bytes.
Qed.

Lemma sim_transfer_served mb (s d a tp : AccountInfo) tid amt seeds bump ix w :
  SplToken.transfer tid s.(ai_key) d.(ai_key) a.(ai_key) [] amt = Ok ix -> u64 amt -> world_ok w ->
  Forall (fun ai => ai.(ai_key) ∉ mb) [s; d; a] ->
  s.(ai_is_writable) = true -> d.(ai_is_writable) = true -> s.(ai_key) <> d.(ai_key) ->
  program_address seeds program_id = (a.(ai_key), bump) ->
  live_token (get w s.(ai_key)) -> live_token (get w d.(ai_key)) ->
  token_owner (get w s.(ai_key)) = a.(ai_key) ->
  token_mint (get w s.(ai_key)) = token_mint (get w d.(ai_key)) ->
  amt <= token_amount (get w s.(ai_key)) ->
  token_amount (get w d.(ai_key)) + amt <= U64_MAX ->
  exists w', sim_invoke program_id mb ix [s; d; a; tp] [seeds ++ [[bump]]] w = Ok w'.
Proof.
  intros [= <-] Hamt Hw Hmb Ws Wd Hne Hpda Ls Ld Os Ms Ha Hd.
  rewrite !Forall_cons_iff in Hmb. destruct Hmb as (Ns & Nd & Na & _).
  eexists. eapply sim_invoke_serves.
  - cbn [ix_accounts forallb]. unfold meta_new, meta_new_readonly.
    rewrite !meta_ok_passed; passed.
  - rewrite sim_move_serves by done. reflexivity.
  - cbn [forallb]. by apply two_amounts_ok.
Qed.

Lemma sim_payment_served mb (s d u : AccountInfo) rest tid amt ix w :
  SplToken.transfer tid s.(ai_key) d.(ai_key) u.(ai_key) [] amt = Ok ix -> u64 amt -> world_ok w ->
  Forall (fun ai => ai.(ai_key) ∉ mb) [s; d; u] ->
  s.(ai_is_writable) = true -> d.(ai_is_writable) = true -> u.(ai_is_signer) = true ->
  s.(ai_key) <> d.(ai_key) ->
  live_token (get w s.(ai_key)) -> live_token (get w d.(ai_key)) ->
  token_owner (get w s.(ai_key)) = u.(ai_key) ->
  token_mint (get w s.(ai_key)) = token_mint (get w d.(ai_key)) ->
  amt <= token_amount (get w s.(ai_key)) ->
  token_amount (get w d.(ai_key)) + amt <= U64_MAX ->
  exists w', sim_invoke program_id mb ix (s :: d :: u :: rest) [] w = Ok w'.
Proof.
  intros [= <-] Hamt Hw Hmb Ws Wd Su Hne Ls Ld Os Ms Ha Hd.
  rewrite !Forall_cons_iff in Hmb. destruct Hmb as (Ns & Nd & Nu & _).
  eexists. eapply sim_invoke_serves.
  - cbn [ix_accounts forallb]. unfold meta_new, meta_new_readonly.
    rewrite !meta_ok_passed; passed.
  - rewrite sim_move_serves by done. reflexivity.
  - cbn [forallb]. by apply two_amounts_ok.
Qed.

Lemma sim_mint_to_served mb (m d a tp : AccountInfo) tid amt seeds bump ix w :
  SplToken.mint_to tid m.(ai_key) d.(ai_key) a.(ai_key) [] amt = Ok ix -> u64 amt -> world_ok w ->
  Forall (fun ai => ai.(ai_key) ∉ mb) [m; d; a] ->
  m.(ai_is_writable) = true -> d.(ai_is_writable) = true ->
  program_address seeds program_id = (a.(ai_key), bump) ->
  live_mint (get w m.(ai_key)) -> minted_by (get w m.(ai_key)) a.(ai_key) ->
  live_token (get w d.(ai_key)) -> token_mint (get w d.(ai_key)) = m.(ai_key) ->
  mint_supply (get w m.(ai_key)) + amt <= U64_MAX ->
  token_amount (get w d.(ai_key)) + amt <= U64_MAX ->
  exists w', sim_invoke program_id mb ix [m; d; a; tp] [seeds ++ [[bump]]] w = Ok w'.
Proof.
  intros [= <-] Hamt Hw Hmb Wm Wd Hpda Lm [_ Am] Ld Md Hs Hd.
  rewrite !Forall_cons_iff in Hmb. destruct Hmb as (Nm & Nd & Na & _).
  eexists. eapply sim_invoke_serves.
  - cbn [ix_accounts forallb]. unfold meta_new, meta_new_readonly.
    rewrite !meta_ok_passed; passed.
  - rewrite execute_spl by done.
    cbn [exec_token ix_accounts ix_data fmap list_fmap meta_new meta_new_readonly am_pubkey].
    rewrite amount_data_val by done.
    change (amount_data IX_MINT_TO amt) with (7 :: le_bytes 8 amt). cbn -[check].
    pose proof (supply_fits w _ Hw Lm) as [Hu _]. unfold mint_authority.
    rewrite (live_is_mint _ _ Lm), Am, Md, !(proj2 (key_eqb_eq _ _) eq_refl).
    rewrite (proj2 (Z.leb_le _ _) Hs), (proj2 (Z.leb_le _ _) Hu). cbn [andb check].
    rewrite credit_serves by done. reflexivity.
  - cbn [forallb]. rewrite !write_ok_spl; try done; try (cbn; set_solver); try apply Ld; try apply Lm.
    + by apply set_amount_bytes.
    + apply bytes_ok_splice; [apply le_bytes_ok|apply Hw].
Qed.

Lemma sim_initialize_mint_served mb (m r : AccountInfo) tid auth dec seeds bump ix w :
  SplToken.initialize_mint (H := sim_runtime program_id) tid m.(ai_key) auth None dec = Ok ix ->
  world_ok w -> m.(ai_key) ∉ mb -> r.(ai_key) ∉ mb -> m.(ai_is_writable) = true ->
  r.(ai_key) = RENT_ID -> key_ok auth -> u8 dec ->
  unmade MINT_LEN (get w m.(ai_key)) ->
  exists w', sim_invoke program_id mb ix [m; r] [seeds ++ [[bump]]] w = Ok w'.
Proof.
  intros [= <-] Hw Nm Nr Wm Hr [La Ba] Hd [Om Dm].
  set (d := splice 2 auth _).
  assert (E : d = 0 :: dec :: auth ++ [0]).
  { do 32 (destruct auth as [|? auth]; [discriminate La|]). by destruct auth. }
  assert (Es : slice 2 34 d = auth).
  { rewrite E. unfold slice. cbn. by apply take_app_length'. }
  eexists. eapply sim_invoke_serves.
  - cbn [ix_accounts forallb]. unfold meta_new, meta_new_readonly.
    change (@RENT_SYSVAR_ID (sim_runtime program_id)) with RENT_ID. rewrite <- Hr.
    rewrite !meta_ok_passed; passed.
  - rewrite execute_spl by done.
    cbn [exec_token ix_accounts ix_data fmap list_fmap meta_new meta_new_readonly am_pubkey].
    rewrite Es, E, Dm. cbn -[check new_mint]. rewrite !bool_decide_eq_true_2 by done. reflexivity.
  - cbn [forallb]. rewrite write_ok_spl; try done; [cbn; set_solver|].
    cbn [with_data acc_data]. unfold new_mint, bytes_ok in *. rewrite !Forall_app.
    split_and!; try done; try apply le_bytes_ok; try (apply Forall_replicate; unfold byte_ok; lia).
    all: repeat constructor; width_lia.
Qed.

Lemma sim_initialize_account_served mb (v m o r : AccountInfo) tid seeds bump ix w :
  SplToken.initialize_account (H := sim_runtime program_id) tid v.(ai_key) m.(ai_key) o.(ai_key)
    = Ok ix -> world_ok w ->
  Forall (fun ai => ai.(ai_key) ∉ mb) [v; m; o; r] -> v.(ai_is_writable) = true ->
  r.(ai_key) = RENT_ID -> key_ok m.(ai_key) -> key_ok o.(ai_key) ->
  unmade ACCOUNT_LEN (get w v.(ai_key)) -> exempt (RT := sim_runtime program_id) w v.(ai_key) ->
  exists w', sim_invoke program_id mb ix [v; m; o; r] [seeds ++ [[bump]]] w = Ok w'.
Proof.
  intros [= <-] Hw Hmb Wv Hr [Lm Bm] [Lo Bo] [Ov Dv] Hx.
  rewrite !Forall_cons_iff in Hmb. destruct Hmb as (Nv & Nm & No & Nr & _).
  eexists. eapply sim_invoke_serves.
  - cbn [ix_accounts forallb]. unfold meta_new, meta_new_readonly.
    change (@RENT_SYSVAR_ID (sim_runtime program_id)) with RENT_ID. rewrite <- Hr.
    rewrite !meta_ok_passed; passed.
  - rewrite execute_spl by done.
    cbn [exec_token ix_accounts ix_data fmap list_fmap meta_new meta_new_readonly am_pubkey].
    specialize (Hx tt eq_refl). cbv zeta in Hx. rewrite Dv, length_replicate in Hx.
    cbn [rent_minimum_balance sim_runtime] in Hx. cbv zeta.
    set (n := if key_eqb _ NATIVE_MINT then _ else 0).
    assert (Hn : 0 <= n <= U64_MAX) by (subst n; destruct (key_eqb _ NATIVE_MINT); width_lia).
    rewrite (proj2 (Z.leb_le _ _) (proj1 Hn)), (proj2 (Z.leb_le _ _) (proj2 Hn)).
    unfold token_state. rewrite Dv, !bool_decide_eq_true_2 by done. reflexivity.
  - cbn [forallb]. rewrite write_ok_spl; try done; [cbn; set_solver|]. apply set_amount_bytes.
    cbn [with_data acc_data]. unfold new_token, bytes_ok in *. rewrite !Forall_app.
    split_and!; try done; try apply le_bytes_ok; try (apply Forall_replicate; unfold byte_ok; lia).
    apply Forall_singleton. unfold byte_ok. lia.
Qed.

Lemma sim_serves : TokenProgramServes (RT := sim_runtime program_id) program_id.
Proof.
  split; [exact sim_burn_served|exact sim_mint_to_served|exact sim_payment_served|
          exact sim_transfer_served| |]; intros.
  - by eapply sim_initialize_mint_served.
  - by eapply sim_initialize_account_served.
Qed.
End Serves.

(** ** The system program *)

Section System.
Context `{BuildConfig} {program_id : Pubkey}.
Implicit Types (w : World) (p t sp : AccountInfo).

Lemma pays_served w (p t : Pubkey) n :
  p <> t -> unallocated (get w p) -> n <= acc_lamports (get w p) -> pays w p t n = true.
Proof.
  intros Hne [Ho _] Hn. unfold pays. rewrite Ho, (proj2 (key_eqb_neq _ _) Hne), (proj2 (Z.leb_le _ _) Hn).
  by rewrite (proj2 (key_eqb_eq _ _) eq_refl).
Qed.

(** What the system program may write over an account of its own. *)
Lemma write_ok_system ix w k (a : Account) :
  ix.(ix_program_id) = SYSTEM_PROGRAM_ID -> k ∈ writable_keys ix -> bytes_ok (acc_data a) ->
  acc_owner (get w k) = SYSTEM_PROGRAM_ID ->
  (acc_owner a = SYSTEM_PROGRAM_ID \/ blank a) -> write_ok ix w (k, a) = true.
Proof.
  intros Hp Hk Hb Ho Ha. unfold write_ok. rewrite Hp, Ho, !bool_decide_eq_true_2 by done.
  rewrite !(proj2 (key_eqb_eq SYSTEM_PROGRAM_ID _) eq_refl). cbn [andb orb]. rewrite !andb_true_r.
  apply orb_true_iff. destruct Ha as [->|Ha]; [left; by apply key_eqb_eq|right].
  apply forallb_forall. intros b Hin. unfold blank in Ha. rewrite Forall_forall in Ha.
  apply Z.eqb_eq. symmetry. by apply Ha.
Qed.

Lemma zeros_ok n : bytes_ok (replicate n 0) /\ Forall (fun b => b = 0) (replicate n 0).
Proof. split; apply Forall_replicate; [unfold byte_ok; lia|done]. Qed.

(** Each write of a call of the system program, over an unallocated account. *)
Ltac system_writes Hw :=
  rewrite ?write_ok_system; try done; try (cbn; set_solver);
  repeat lazymatch goal with
  | H : unallocated _ |- _ => destruct H
  end;
  first [done | by apply zeros_ok | by left | by right | right; by apply zeros_ok | cbn; apply Hw].

Lemma sim_create_served mb p t sp n s o seeds bump w :
  sp.(ai_key) = SYSTEM_PROGRAM_ID -> world_ok w -> p.(ai_key) ∉ mb -> t.(ai_key) ∉ mb ->
  p.(ai_is_signer) = true -> p.(ai_is_writable) = true -> t.(ai_is_writable) = true ->
  p.(ai_key) <> t.(ai_key) -> program_address seeds program_id = (t.(ai_key), bump) ->
  unallocated (get w p.(ai_key)) -> unallocated (get w t.(ai_key)) ->
  acc_lamports (get w t.(ai_key)) = 0 -> 0 <= n <= acc_lamports (get w p.(ai_key)) ->
  exists w', sim_invoke program_id mb (ix_create p.(ai_key) t.(ai_key) n (Z.of_nat s) o)
               [p; t; sp] [seeds ++ [[bump]]] w = Ok w'.
Proof.
  intros _ Hw Np Nt Sp Wp Wt Hne Hpda Up [Ot Dt] Lt [_ Hn].
  eexists. eapply sim_invoke_serves.
  - cbn [ix_create ix_accounts forallb]. unfold meta_new.
    rewrite !meta_ok_passed; passed.
  - rewrite execute_system by done.
    cbn [exec_system ix_create ix_accounts ix_data fmap list_fmap meta_new am_pubkey].
    rewrite pays_served, Lt, Dt, bool_decide_eq_true_2 by done. reflexivity.
  - cbn [forallb]. by system_writes Hw.
Qed.

Lemma sim_fund_served mb p t sp n w :
  sp.(ai_key) = SYSTEM_PROGRAM_ID -> world_ok w -> p.(ai_key) ∉ mb -> t.(ai_key) ∉ mb ->
  p.(ai_is_signer) = true -> p.(ai_is_writable) = true -> t.(ai_is_writable) = true ->
  p.(ai_key) <> t.(ai_key) ->
  unallocated (get w p.(ai_key)) -> unallocated (get w t.(ai_key)) ->
  0 <= n <= acc_lamports (get w p.(ai_key)) ->
  exists w', sim_invoke program_id mb (ix_system_transfer p.(ai_key) t.(ai_key) n) [p; t; sp] [] w
               = Ok w' /\ same_state (get w t.(ai_key)) (get w' t.(ai_key)).
Proof.
  intros _ Hw Np Nt Sp Wp Wt Hne Up Ut [_ Hn].
  eexists. split; [eapply sim_invoke_serves|].
  - cbn [ix_system_transfer ix_accounts forallb]. unfold meta_new.
    rewrite !meta_ok_passed; passed.
  - rewrite execute_system by done.
    cbn [exec_system ix_system_transfer ix_accounts ix_data fmap list_fmap meta_new am_pubkey].
    rewrite pays_served by done. reflexivity.
  - cbn [forallb]. by system_writes Hw.
  - cbn. by rewrite get_insert_eq.
Qed.

Lemma sim_allocate_served mb t sp s seeds bump w :
  sp.(ai_key) = SYSTEM_PROGRAM_ID -> world_ok w -> t.(ai_key) ∉ mb ->
  t.(ai_is_writable) = true -> program_address seeds program_id = (t.(ai_key), bump) ->
  unallocated (get w t.(ai_key)) ->
  exists w', sim_invoke program_id mb (ix_allocate t.(ai_key) (Z.of_nat s)) [t; sp]
               [seeds ++ [[bump]]] w = Ok w' /\ acc_owner (get w' t.(ai_key)) = SYSTEM_PROGRAM_ID.
Proof.
  intros _ Hw Nt Wt Hpda [Ot Dt]. eexists. split; [eapply sim_invoke_serves|].
  - cbn [ix_allocate ix_accounts forallb]. unfold meta_new.
    rewrite !meta_ok_passed; passed.
  - rewrite execute_system by done.
    cbn [exec_system ix_allocate ix_accounts ix_data fmap list_fmap meta_new am_pubkey].
    rewrite Dt, bool_decide_eq_true_2 by done. reflexivity.
  - cbn [forallb]. by system_writes Hw.
  - cbn. by rewrite get_insert_eq.
Qed.

Lemma sim_assign_served mb t sp o seeds bump w :
  sp.(ai_key) = SYSTEM_PROGRAM_ID -> world_ok w -> t.(ai_key) ∉ mb ->
  t.(ai_is_writable) = true -> program_address seeds program_id = (t.(ai_key), bump) ->
  acc_owner (get w t.(ai_key)) = SYSTEM_PROGRAM_ID -> blank (get w t.(ai_key)) ->
  exists w', sim_invoke program_id mb (ix_assign t.(ai_key) o) [t; sp] [seeds ++ [[bump]]] w = Ok w'.
Proof.
  intros _ Hw Nt Wt Hpda Ot Bt. eexists. eapply sim_invoke_serves.
  - cbn [ix_assign ix_accounts forallb]. unfold meta_new.
    rewrite !meta_ok_passed; passed.
  - by rewrite execute_system.
  - cbn [forallb]. by system_writes Hw.
Qed.

Lemma sim_system_serves : SystemServes (RT := sim_runtime program_id) program_id.
Proof.
  split; [|by exists tt| |done|exact sim_create_served|exact sim_fund_served
          |exact sim_allocate_served|exact sim_assign_served].
  - intros ai w w' E. cbn. unfold sim_clock, ai_data. by rewrite E.
  - intros ai w E. exists tt. cbn. unfold RENT_SYSVAR_ID in E. cbn in E. rewrite E.
    by rewrite (proj2 (key_eqb_eq _ _) eq_refl).
Qed.
End System.
