(* ===== verification/Scenario.v ===== *)
(** * A market on the concrete runtime

    One market with an admin, two depositors, a collateral mint, a wrapper
    vault and the pool's accounts; [play] runs a list of instructions through
    the entrypoint. The witnesses evaluate it. *)

From S2P Require Import Prelude Errors Math State PoolFacts Instruction Runtime SplToken Cpi Guards.
From S2P Require Import Fees Deposit Withdraw Insurance Admin Proxy Init Processor Laws Backing.
From S2P Require Import BackingSteps BackingLp BackingInit Safety Sim SimLaws.

#[local] Existing Instance sim.
#[local] Existing Instance sim_build.
#[local] Existing Instance sim_laws_hold.

(** ** Keys *)

Definition k_admin : Pubkey := replicate 32 1.
Definition k_slab : Pubkey := replicate 32 2.
Definition k_lp_mint : Pubkey := replicate 32 3.
Definition k_vault : Pubkey := replicate 32 4.
Definition k_collateral : Pubkey := replicate 32 5.
Definition k_wrapper_vault : Pubkey := replicate 32 8.
Definition k_wrapper_auth : Pubkey := replicate 32 9.
Definition k_admin_ata : Pubkey := replicate 32 10.
Definition k_alice : Pubkey := replicate 32 11.
Definition k_alice_ata : Pubkey := replicate 32 12.
Definition k_alice_lp : Pubkey := replicate 32 13.
Definition k_bob : Pubkey := replicate 32 14.
Definition k_bob_ata : Pubkey := replicate 32 15.
Definition k_bob_lp : Pubkey := replicate 32 16.
Definition k_pool : Pubkey := Eval vm_compute in fst (derive_pool_pda SIM_ID k_slab).
Definition k_vault_auth : Pubkey := Eval vm_compute in vault_auth_of SIM_ID k_pool.
Definition k_alice_deposit : Pubkey := Eval vm_compute in fst (derive_deposit_pda SIM_ID k_pool k_alice).
Definition k_bob_deposit : Pubkey := Eval vm_compute in fst (derive_deposit_pda SIM_ID k_pool k_bob).

(** ** The store before the pool exists *)

Definition wallet : Account := mkAccount SYSTEM_PROGRAM_ID 1000000 [].
Definition spl (d : list Z) : Account := mkAccount SplToken.id 1000 d.
Definition funded (mint owner : Pubkey) (amount : Z) : Account :=
  set_amount (spl (new_token mint owner)) amount.
Definition clock_account (slot epoch : Z) : Account :=
  mkAccount SYSTEM_PROGRAM_ID 1 (le_bytes 8 slot ++ le_bytes 8 0 ++ le_bytes 8 epoch).

Definition genesis_world : World := list_to_map [
  (k_admin, wallet); (k_alice, wallet); (k_bob, wallet);
  (k_slab, mkAccount PERCOLATOR_MAINNET 1000 [1]);
  (k_lp_mint, spl (replicate 82 0)); (k_vault, spl (replicate 165 0));
  (k_collateral, spl (new_mint k_admin 6));
  (k_wrapper_vault, funded k_collateral k_wrapper_auth 0);
  (k_admin_ata, funded k_collateral k_admin 1000000);
  (k_alice_ata, funded k_collateral k_alice 1000000);
  (k_bob_ata, funded k_collateral k_bob 1000000);
  (k_alice_lp, spl (new_token k_lp_mint k_alice));
  (k_bob_lp, spl (new_token k_lp_mint k_bob));
  (CLOCK_ID, clock_account 100 1)].

(** ** Account lists *)

Definition signer (k : Pubkey) : AccountInfo := mkAccountInfo k true true.
Definition rw (k : Pubkey) : AccountInfo := mkAccountInfo k false true.
Definition ro (k : Pubkey) : AccountInfo := mkAccountInfo k false false.

Definition acc_init : list AccountInfo :=
  [signer k_admin; rw k_slab; rw k_pool; rw k_lp_mint; rw k_vault; ro k_vault_auth;
   ro k_collateral; ro PERCOLATOR_MAINNET; ro SplToken.id; ro SYSTEM_PROGRAM_ID; ro RENT_ID].
Definition acc_deposit (user ata lp dep : Pubkey) : list AccountInfo :=
  [signer user; rw k_pool; rw ata; rw k_vault; rw k_lp_mint; rw lp; ro k_vault_auth; rw dep;
   ro SplToken.id; ro CLOCK_ID; ro SYSTEM_PROGRAM_ID].
Definition acc_withdraw (user ata lp dep : Pubkey) : list AccountInfo :=
  [signer user; rw k_pool; rw lp; rw k_lp_mint; rw k_vault; rw ata; ro k_vault_auth; rw dep;
   ro SplToken.id; ro CLOCK_ID].
Definition acc_alice_deposit := acc_deposit k_alice k_alice_ata k_alice_lp k_alice_deposit.
Definition acc_bob_deposit := acc_deposit k_bob k_bob_ata k_bob_lp k_bob_deposit.
Definition acc_alice_withdraw := acc_withdraw k_alice k_alice_ata k_alice_lp k_alice_deposit.
Definition acc_bob_withdraw := acc_withdraw k_bob k_bob_ata k_bob_lp k_bob_deposit.
Definition acc_flush : list AccountInfo :=
  [signer k_admin; rw k_pool; rw k_vault; ro k_vault_auth; rw k_slab; rw k_wrapper_vault;
   ro PERCOLATOR_MAINNET; ro SplToken.id].
Definition acc_return : list AccountInfo :=
  [signer k_admin; rw k_pool; rw k_admin_ata; rw k_vault; ro SplToken.id].
Definition acc_recover : list AccountInfo :=
  [signer k_bob; rw k_pool; rw k_vault; ro k_vault_auth; rw k_slab; rw k_wrapper_vault;
   ro k_wrapper_auth; ro SplToken.id; ro PERCOLATOR_MAINNET].
Definition acc_admin : list AccountInfo := [signer k_admin; rw k_pool; ro CLOCK_ID].
Definition acc_accrue : list AccountInfo := [signer k_bob; rw k_pool; rw k_vault; ro CLOCK_ID].
Definition acc_proxy : list AccountInfo :=
  [signer k_admin; rw k_pool; rw k_slab; ro PERCOLATOR_MAINNET].
Definition acc_bind : list AccountInfo :=
  [signer k_admin; rw k_pool; ro k_vault_auth; rw k_slab; ro PERCOLATOR_MAINNET].

(** ** Running *)

Definition exec (accounts : list AccountInfo) (i : StakeInstruction) (w : World)
    : ProgramResult World :=
  process SIM_ID accounts (pack i) w.

Fixpoint play (l : list (list AccountInfo * StakeInstruction)) (w : World)
    : ProgramResult World :=
  match l with
  | [] => Ok w
  | (accounts, i) :: l => w ← exec accounts i w; play l w
  end.

(** The store after a run ([genesis_world] if it failed). *)
Definition after (l : list (list AccountInfo * StakeInstruction)) (w : World) : World :=
  match play l w with Ok w => w | Err _ => genesis_world end.

(** The clock moves on. *)
Definition tick (slot epoch : Z) (w : World) : World := <[CLOCK_ID := clock_account slot epoch]> w.

(** Someone sends tokens to the vault. *)
Definition donate (amount : Z) (w : World) : World :=
  <[k_vault := set_amount (get w k_vault) (token_amount (get w k_vault) + amount)]> w.

Definition balance (w : World) (k : Pubkey) : Z := token_amount (get w k).
Definition k_carol : Pubkey := replicate 32 17.
Definition acc_carol : list AccountInfo := [signer k_carol; rw k_pool].
