(* ===== verification/Run.v ===== *)
(** * Runs of the market

    The concrete market of [Scenario] run through the entrypoint: [next] is one
    event, [run] a list of them, and [accepted_at] turns one computation over a
    whole run into the facts [accepts] and [environment] ask for. The
    witnesses of the properties use them. *)

From S2P Require Import Prelude Errors Math State PoolFacts Instruction Runtime SplToken Cpi Guards.
From S2P Require Import Fees Deposit Withdraw Insurance Admin Proxy Init Processor Ledger.
From S2P Require Import LedgerFacts LedgerInv Laws Backing BackingSteps BackingLp BackingInit.
From S2P Require Import Safety Sim SimLaws Scenario.

#[local] Existing Instance sim.
#[local] Existing Instance sim_build.
#[local] Existing Instance sim_laws_hold.

(** What happens on the chain: a transaction of this program, the clock
    moving on, tokens sent to the vault. *)
Inductive Event : Type :=
| Tx (accounts : list AccountInfo) (i : StakeInstruction)
| Time (slot epoch : Z)
| Gift (amount : Z).

(** The store after an event; a refused transaction leaves it as it was. *)
Definition next (e : Event) (w : World) : World :=
  match e with
  | Tx accounts i => match exec accounts i w with Ok w' => w' | Err _ => w end
  | Time slot epoch => tick slot epoch w
  | Gift amount => donate amount w
  end.

Definition run (l : list Event) : World := fold_left (fun w e => next e w) l genesis_world.

(** ** Deciding [accepts] *)

#[global] Instance byte_ok_dec b : Decision (byte_ok b).
Proof. unfold byte_ok. apply _. Defined.
#[global] Instance key_ok_dec k : Decision (key_ok k).
Proof. unfold key_ok, bytes_ok. apply _. Defined.
#[global] Instance keys_ok_dec accounts : Decision (keys_ok accounts).
Proof. unfold keys_ok. apply _. Defined.
#[global] Instance signers_ok_dec accounts : Decision (signers_ok SIM_ID k_pool accounts).
Proof. unfold signers_ok. apply _. Defined.
#[global] Instance bytes_ok_dec l : Decision (bytes_ok l).
Proof. unfold bytes_ok. apply _. Defined.

(** The facts [accepts] asks for, as a boolean. *)
Definition acceptedb (accounts : list AccountInfo) (i : StakeInstruction) (w : World) : bool :=
  bool_decide (keys_ok accounts) && bool_decide (signers_ok SIM_ID k_pool accounts) &&
  bool_decide (bytes_ok (pack i)) &&
  match unpack (pack i) with Ok j => bool_decide (j = i) | Err _ => false end &&
  match accounts !! pool_index i with Some ai => key_eqb ai.(ai_key) k_pool | None => false end &&
  is_ok (exec accounts i w).

Lemma acceptedb_accepts accounts i w :
  acceptedb accounts i w = true ->
  accepts SIM_ID k_pool accounts (pack i) i w (next (Tx accounts i) w).
Proof.
  unfold acceptedb. rewrite !andb_true_iff, !bool_decide_eq_true.
  intros (((((Hk & Hs) & Hb) & Hu) & Ht) & Hr). split; [done..| | |].
  - destruct (unpack (pack i)) as [j|e]; [|done]. by apply bool_decide_eq_true in Hu as ->.
  - destruct (accounts !! pool_index i) as [ai|] eqn:E; [|done].
    exists ai. split; [done|by apply key_eqb_eq].
  - cbn [next]. unfold exec in *.
    destruct (process SIM_ID accounts (pack i) w); [done|discriminate].
Qed.

(** ** Time and gifts are the environment's *)

(** The pool's vault and mint are where [genesis_world] put them, the mint's
    supply a number. *)
Definition placed (w : World) : bool :=
  bool_decide (sp_vault (pool_at k_pool w) = k_vault) &&
  bool_decide (sp_lp_mint (pool_at k_pool w) = k_lp_mint) &&
  (0 <=? mint_supply (get w k_lp_mint)).

Definition eventb (e : Event) (w : World) : bool :=
  match e with
  | Tx accounts i => acceptedb accounts i w
  | Time slot epoch => placed w
  | Gift amount =>
      placed w && (0 <=? amount) && (0 <=? balance w k_vault) &&
      (balance w k_vault + amount <=? U64_MAX) &&
      bool_decide (length (acc_data (get w k_vault)) = ACCOUNT_LEN)
  end.

Lemma world_ok_insert k a w : world_ok w -> bytes_ok (acc_data a) -> world_ok (<[k := a]> w).
Proof.
  intros Hw Ha k'. destruct (decide (k = k')) as [<-|].
  - by rewrite get_insert_eq.
  - by rewrite get_insert_ne.
Qed.

(** Writing an account that is neither the pool nor its mint. *)
Lemma insert_environment k a w :
  placed w = true -> k <> k_pool -> k <> k_lp_mint -> (world_ok w -> bytes_ok (acc_data a)) ->
  (k <> k_vault \/ same_token (get w k) a /\ token_amount (get w k) <= token_amount a) ->
  environment k_pool w (<[k := a]> w).
Proof.
  unfold placed. rewrite !andb_true_iff, !bool_decide_eq_true, Z.leb_le.
  intros [[Ev Em] H0] Np Nm Ha Hv.
  assert (Ep : same_state (get w k_pool) (get (<[k := a]> w) k_pool)) by by rewrite get_insert_ne.
  pose proof (same_state_pool_at _ _ _ Ep) as E.
  unfold vault_amount, mint_amount.
  split; [split|..]; unfold vault_amount, mint_amount; rewrite ?E, ?Ev, ?Em.
  - intros Hw. apply world_ok_insert; auto.
  - done.
  - destruct (decide (k = k_vault)) as [->|]; [|by rewrite get_insert_ne].
    rewrite get_insert_eq. destruct Hv as [?|[? _]]; done.
  - by rewrite get_insert_ne.
  - by rewrite get_insert_ne.
  - destruct (decide (k = k_vault)) as [->|]; [|by rewrite get_insert_ne].
    rewrite get_insert_eq. destruct Hv as [?|[_ ?]]; done.
  - rewrite get_insert_ne by done. lia.
Qed.

Lemma clock_account_bytes s e : bytes_ok (acc_data (clock_account s e)).
Proof. cbn [clock_account acc_data]. unfold bytes_ok. rewrite !Forall_app. split_and!; apply le_bytes_ok. Qed.

(** One event, as the safety development sees it. *)
Lemma eventb_step e w :
  eventb e w = true ->
  match e with
  | Tx accounts i => accepts SIM_ID k_pool accounts (pack i) i w (next e w)
  | Time _ _ | Gift _ => environment k_pool w (next e w)
  end.
Proof.
  destruct e as [accounts i|s e|amount]; cbn [eventb].
  - apply acceptedb_accepts.
  - intros Hp. apply insert_environment; [done|by vm_compute|by vm_compute| |].
    + intros _. apply clock_account_bytes.
    + left. by vm_compute.
  - rewrite !andb_true_iff, bool_decide_eq_true, !Z.leb_le. unfold balance.
    intros [[[[Hp Ha] Hb] Hu] Hl].
    destruct (set_amount_spec (get w k_vault) (token_amount (get w k_vault) + amount))
      as [Hs Ht]; [done|width_lia|].
    apply insert_environment; [done|by vm_compute|by vm_compute| |].
    + intros Hw. cbn [set_amount acc_data]. apply bytes_ok_splice; [apply le_bytes_ok|apply Hw].
    + right. split; [done|]. rewrite Ht. lia.
Qed.

(** ** Runs *)

Fixpoint eventsb (l : list Event) (w : World) : bool :=
  match l with
  | [] => true
  | e :: l => eventb e w && eventsb l (next e w)
  end.

Definition replay (l : list Event) (w : World) : World := fold_left (fun w e => next e w) l w.

Lemma eventsb_reachable l w :
  eventsb l w = true -> reachable SIM_ID k_pool w -> reachable SIM_ID k_pool (replay l w).
Proof.
  revert w. induction l as [|e l IH]; intros w; cbn [eventsb replay fold_left]; [done|].
  rewrite andb_true_iff. intros [He Hl] Hw. apply IH; [done|].
  apply eventb_step in He. destruct e.
  - by eapply reach_instruction.
  - by eapply reach_environment.
  - by eapply reach_environment.
Qed.

Lemma genesis_world_ok : world_ok genesis_world.
Proof.
  assert (H : map_Forall (fun _ a => bytes_ok (acc_data a)) genesis_world).
  { apply (bool_decide_unpack _). by vm_compute. }
  intros k. unfold get. destruct (genesis_world !! k) as [a|] eqn:E; cbn [default].
  - by apply (H k).
  - apply Forall_nil_2.
Qed.

Lemma run_reachable accounts i l :
  is_init i = true -> eventsb (Tx accounts i :: l) genesis_world = true ->
  reachable SIM_ID k_pool (run (Tx accounts i :: l)).
Proof.
  cbn [eventsb eventb]. rewrite andb_true_iff. intros Hi [Ha Hl].
  change (run _) with (replay l (next (Tx accounts i) genesis_world)).
  apply eventsb_reachable; [done|].
  eapply reach_init; [apply genesis_world_ok|done|]. by apply acceptedb_accepts.
Qed.

(** The event at position [n] of a run was accepted. *)
Lemma run_accepts n l accounts i :
  eventsb l genesis_world = true -> l !! n = Some (Tx accounts i) ->
  accepts SIM_ID k_pool accounts (pack i) i (run (take n l)) (run (take (S n) l)).
Proof.
  intros H Hn. rewrite (take_S_r _ _ _ Hn). unfold run. rewrite fold_left_app. cbn [fold_left].
  revert H Hn. generalize genesis_world. revert n.
  induction l as [|e l IH]; intros [|n] w; [done|done|..]; cbn [eventsb take fold_left];
    rewrite andb_true_iff; intros [He Hl] Hn; cbn in Hn.
  - injection Hn as ->. by apply acceptedb_accepts.
  - by apply IH.
Qed.

(** The clock of a store, as every account of a transaction reads it. *)
Definition clock_of (w : World) : Clock :=
  let d := acc_data (get w CLOCK_ID) in
  mkClock (wrap U64_MAX (le_val (slice 0 8 d))) (wrap U64_MAX (le_val (slice 16 24 d))).

Lemma clock_of_transaction accounts w : transaction_clock accounts w (clock_of w).
Proof.
  intros ai c _ H. cbn in H. unfold sim_clock in H.
  apply ensure_Ok in H as [E%key_eqb_eq [= <-]]. unfold clock_of, ai_data. by rewrite E.
Qed.

(** The labels of a run: its transactions with their clock. *)
Fixpoint labels (l : list Event) (w : World) : list (StakeInstruction * Clock) :=
  match l with
  | [] => []
  | Tx accounts i :: l => (i, clock_of w) :: labels l (next (Tx accounts i) w)
  | e :: l => labels l (next e w)
  end.

Lemma eventsb_history l w0 tr w :
  eventsb l w = true -> history SIM_ID k_pool w0 tr w ->
  history SIM_ID k_pool w0 (tr ++ labels l w) (replay l w).
Proof.
  revert tr w. induction l as [|e l IH]; intros tr w; cbn [eventsb labels replay fold_left].
  { intros _. by rewrite app_nil_r. }
  rewrite andb_true_iff. intros [He Hl] Hw. apply eventb_step in He. destruct e as [accounts i|s e|amount].
  - rewrite cons_middle, app_assoc. apply IH; [done|].
    eapply hist_instruction; [done|done|]. apply clock_of_transaction.
  - apply IH; [done|]. by eapply hist_environment.
  - apply IH; [done|]. by eapply hist_environment.
Qed.

Lemma eventsb_take n l w : eventsb l w = true -> eventsb (take n l) w = true.
Proof.
  revert l w. induction n as [|n IH]; intros [|e l] w; [done..|]. cbn [take eventsb].
  rewrite !andb_true_iff. intros [He Hl]. split; [done|by apply IH].
Qed.

(** ** Two markets *)

(** An insurance pool without tranches: deposits, a flush that comes back half
    by ReturnInsurance and half from the wrapper, fees, a withdrawal, a
    time-locked cooldown increase, a hand-over of the admin role, the high-water
    mark, new limits and the end of the market. *)
Definition market : list Event := [
  Tx acc_init (InitPool 100 1000000);
  Tx acc_alice_deposit (Instruction.Deposit 500000);
  Tx acc_bob_deposit (Instruction.Deposit 50000);
  Tx acc_flush (FlushToInsurance 100000);
  Tx acc_return (ReturnInsurance 40000);
  Tx acc_recover (RecoverFlushedInsurance 60000);
  Gift 5500;
  Tx acc_accrue AccrueFees;
  Time 1000 2;
  Tx acc_bob_withdraw (Instruction.Withdraw 20000);
  Tx acc_admin (ProposeCooldownIncrease 200);
  Time 500000 3;
  Tx acc_admin CommitCooldownIncrease;
  Tx acc_admin (ProposeAdmin k_carol);
  Tx acc_carol AcceptAdmin;
  Tx acc_carol (AdminSetHwmConfig true 5000);
  Tx acc_carol (UpdateConfig (Some 50) (Some 2000000));
  Tx acc_recover (RecoverFlushedInsurance 40000);
  Tx acc_carol SetMarketResolved;
  Tx acc_alice_withdraw (Instruction.Withdraw 100000)].

(** A pool with a senior (alice) and a junior (bob) tranche that earns a fee and
    then takes a loss. *)
Definition tranches : list Event := [
  Tx acc_init (InitPool 100 0);
  Tx acc_admin (AdminSetTrancheConfig 20000);
  Tx acc_alice_deposit (Instruction.Deposit 100000);
  Tx acc_bob_deposit (DepositJunior 50000);
  Gift 3000;
  Tx acc_accrue AccrueFees;
  Tx acc_flush (FlushToInsurance 80000);
  Time 1000 2;
  Tx acc_bob_withdraw (Instruction.Withdraw 10000);
  Tx acc_bob_withdraw (Instruction.Withdraw 40000)].

Lemma market_runs : eventsb market genesis_world = true.
Proof. by vm_compute. Qed.
Lemma tranches_runs : eventsb tranches genesis_world = true.
Proof. by vm_compute. Qed.

(** Every store of the two runs, from the first transaction on, is reachable. *)
Lemma market_reachable n : reachable SIM_ID k_pool (run (take (S n) market)).
Proof.
  pose proof (eventsb_take (S n) _ _ market_runs) as H. by apply (run_reachable acc_init).
Qed.
Lemma tranches_reachable n : reachable SIM_ID k_pool (run (take (S n) tranches)).
Proof.
  pose proof (eventsb_take (S n) _ _ tranches_runs) as H. by apply (run_reachable acc_init).
Qed.
Lemma market_backed n : backed SIM_ID k_pool (run (take (S n) market)).
Proof. apply reachable_safe, market_reachable. Qed.
Lemma tranches_backed n : backed SIM_ID k_pool (run (take (S n) tranches)).
Proof. apply reachable_safe, tranches_reachable. Qed.

(** The transaction at position [n] of each run. *)
Lemma market_accepts n accounts i :
  market !! n = Some (Tx accounts i) ->
  accepts SIM_ID k_pool accounts (pack i) i (run (take n market)) (run (take (S n) market)).
Proof. apply run_accepts, market_runs. Qed.
Lemma tranches_accepts n accounts i :
  tranches !! n = Some (Tx accounts i) ->
  accepts SIM_ID k_pool accounts (pack i) i (run (take n tranches)) (run (take (S n) tranches)).
Proof. apply run_accepts, tranches_runs. Qed.

Lemma eventsb_drop n l w : eventsb l w = true -> eventsb (drop n l) (replay (take n l) w) = true.
Proof.
  revert l w. induction n as [|n IH]; intros [|e l] w; [done..|].
  cbn [take drop eventsb replay fold_left]. rewrite andb_true_iff. intros [_ Hl]. by apply IH.
Qed.

(** The [k] events of the market that follow its first [n]. *)
Lemma market_history n k :
  let w := run (take n market) in let l := take k (drop n market) in
  history SIM_ID k_pool w (labels l w) (replay l w).
Proof.
  cbn zeta. apply (eventsb_history _ _ []); [|apply hist_nil].
  apply eventsb_take, eventsb_drop, market_runs.
Qed.
