(* ===== verification/Contract.v ===== *)
(** * The contract of the program

    The properties of whole transactions: a pool that can be reached is solvent
    and locked, every accepted transaction is a step of the ledger, and what a
    pool's creation, a deposit and a withdrawal do to the store. They hold on
    every runtime that satisfies [RuntimeLaws]; the witnesses apply them on the
    concrete one of [Sim]. *)

From S2P Require Import Prelude Errors Math State PoolFacts Instruction Runtime SplToken Cpi Guards.
From S2P Require Import Fees Deposit Withdraw Insurance Admin Proxy Init Processor Ledger.
From S2P Require Import LedgerFacts LedgerInv Laws Backing BackingSteps BackingLp BackingInit.
From S2P Require Import Safety Sim SimLaws Scenario Run.

Lemma pool_quote p lp v c :
  total_pool_value p = Some v -> pool_calc_collateral_for_withdraw p lp = Some c ->
  calc_collateral_for_withdraw (sp_total_lp_supply p) v lp = Some c.
Proof. unfold pool_calc_collateral_for_withdraw. by intros ->. Qed.

(** What [backed] says in numbers. *)
Lemma backed_redeemable `{RL : RuntimeLaws} pk w lp v c :
  backed program_id pk w ->
  (sp_total_lp_supply (pool_at pk w) = 0 /\ mint_amount pk w = 0 \/
   mint_amount pk w + MINIMUM_LIQUIDITY <= sp_total_lp_supply (pool_at pk w)) ->
  0 <= lp <= mint_amount pk w ->
  total_pool_value (pool_at pk w) = Some v ->
  pool_calc_collateral_for_withdraw (pool_at pk w) lp = Some c -> c <= vault_amount pk w.
Proof.
  intros Hb Hl Hlp Hv Hc. pose proof (backed_wf _ _ Hb) as Hp.
  destruct (wf_totals _ Hp) as (_ & Hs & _).
  apply (pool_quote _ _ _ _ Hv) in Hc.
  apply raw_value_u64_bounds in Hv as [Hv <-]. pose proof (bk_value _ _ _ Hb).
  assert (Hle : lp <= sp_total_lp_supply (pool_at pk w)).
  { destruct Hl as [[-> Hz]|Hl]; [lia|]. unfold MINIMUM_LIQUIDITY in Hl. lia. }
  assert (Hlp64 : u64 lp) by width_lia.
  pose proof (withdraw_le_value _ _ _ _ Hs Hv Hlp64 Hle Hc). lia.
Qed.

(** ** The books of a ledger step, in equations *)

Section Books.
Context (p : StakePool) (vault supply : Z) (Hp : wf_pool p) (Hb : u64 vault)
        (Hv : raw_value p <= vault) (clk : Clock) (Hclk : wf_clock clk).
#[local] Abbreviation l := (mkLedger p vault supply).

Lemma withdraw_books j lp l' :
  u64 lp -> ledger_withdraw clk j lp l = Ok l' ->
  0 < lp /\ exists p1 c,
    ledger_accrue p vault = Ok p1 /\ withdrawal_value p1 j lp = Ok c /\
    lg_vault l' = vault - c /\ lg_supply l' = supply - lp /\
    sp_total_lp_supply (lg_pool l') = sp_total_lp_supply p - lp /\
    raw_value (lg_pool l') = raw_value p1 - c.
Proof.
  intros Hlp H. destruct (withdraw_parts p vault supply Hp Hb Hv clk Hclk j lp l' Hlp H)
    as (Hnz & _ & p1 & c & p2 & p4 & Hac & Hc & Hcu & _ & _ & _ & Hh & Hd & ->).
  split; [width_lia|]. exists p1, c. destruct Hac as (Ha & W1 & _ & S1 & _).
  pose proof (hwm_only_books _ _ Hh) as (W2 & S2 & V2 & _).
  apply ledger_debit_inv in Hd as (_ & _ & V4 & _ & S4); [|done..].
  cbn [lg_vault lg_supply lg_pool]. split_and!; [done|done|done|done|lia|lia].
Qed.

(** Both deposits: the share count [lp] and what is minted of it. *)
Definition priced (p1 : StakePool) (amount : Z) (j : bool) : ProgramResult Z :=
  if j then junior_lp_to_mint p1 amount else senior_lp_to_mint p1 amount.

Lemma deposit_books (j : bool) amount l' :
  u64 amount ->
  ledger_step clk false (if j then DepositJunior amount else Instruction.Deposit amount) l = Ok l' ->
  0 < amount /\ market_resolved p = false /\ enforce_deposit_cap p amount = Ok tt /\
  (j = true -> tranche_enabled p = true) /\
  exists p1 lp m,
    ledger_accrue p vault = Ok p1 /\ priced p1 amount j = Ok lp /\ 0 < lp /\
    apply_minimum_liquidity_lock (sp_total_lp_supply p) lp = Ok m /\
    (if j then junior_loss_gate p1 else senior_snipe_gate p1) = Ok tt /\
    lg_vault l' = vault + amount /\ lg_supply l' = supply + m /\
    sp_total_lp_supply (lg_pool l') = sp_total_lp_supply p + lp /\
    raw_value (lg_pool l') = raw_value p1 + amount.
Proof.
  intros Ha H. destruct j; cbn [ledger_step priced] in *.
  - destruct (deposit_junior_parts p vault supply Hp Hb Hv clk Hclk amount l' Ha H)
      as (Hnz & Hr & Hcap & Ht & p1 & lp & m & p2 & p3 & p4 & Hac & Hg & Hl & Hlu & Hl0 & Hm & H2
            & W2 & H3 & Hh & ->).
    destruct Hac as (Hac & W1 & _ & S1 & _). rewrite S1 in Hm.
    apply credit_totals_inv in H2 as (_ & _ & V2 & _ & _ & S2 & _); [|done..].
    apply credit_junior_inv in H3 as (W3 & _ & V3 & _ & _ & S3 & _); [|done..].
    pose proof (hwm_only_books _ _ Hh) as (W4 & S4 & V4 & _). cbn [lg_vault lg_supply lg_pool].
    split_and!; [width_lia|done..|]. exists p1, lp, m. split_and!; first [done|width_lia].
  - destruct (deposit_parts p vault supply Hp Hb Hv clk Hclk amount l' Ha H)
      as (Hnz & Hr & Hcap & p1 & lp & m & p3 & p4 & Hac & Hg & Hl & Hlu & Hl0 & Hm & H2 & Hh & ->).
    destruct Hac as (Hac & W1 & _ & S1 & _). rewrite S1 in Hm.
    apply credit_totals_inv in H2 as (_ & _ & V2 & _ & _ & S2 & _); [|done..].
    pose proof (hwm_only_books _ _ Hh) as (W4 & S4 & V4 & _). cbn [lg_vault lg_supply lg_pool].
    split_and!; [width_lia|done..|]. exists p1, lp, m. split_and!; first [done|width_lia].
Qed.
End Books.

Section Contract.
Context {RT : Runtime} {BC : BuildConfig} {program_id : Pubkey} {RL : RuntimeLaws program_id}.

(** C1: every store that InitPool, accepted transactions and the rest of the
    chain can reach is safe: the record is well formed, the vault holds at least
    the value the shares are priced against, the LP mint's supply is either zero
    with no shares on record or at least MINIMUM_LIQUIDITY below them, and any
    amount of LP tokens in circulation is quoted at most what the vault holds. *)
Theorem reachable_pool_is_solvent pk w :
  reachable program_id pk w ->
  let p := pool_at pk w in
  wf_pool p /\ raw_value p <= vault_amount pk w /\ 0 <= mint_amount pk w /\
  (p.(sp_total_lp_supply) = 0 /\ mint_amount pk w = 0 \/
   mint_amount pk w + MINIMUM_LIQUIDITY <= p.(sp_total_lp_supply)) /\
  (forall lp v c, 0 <= lp <= mint_amount pk w -> total_pool_value p = Some v ->
     pool_calc_collateral_for_withdraw p lp = Some c -> c <= vault_amount pk w).
Proof.
  intros [Hb [H0 Hl]]%reachable_safe p. split_and!; [by eapply backed_wf|apply Hb|done|done|].
  intros lp v c Hlp Hv Hc. by apply (backed_redeemable pk w lp v c).
Qed.

(** C2: refinement. A transaction accepted on a backed pool carries the
    admin's (or the pending admin's) signature if its instruction needs one, takes the pool's record, the vault's
    balance and the LP supply through exactly the step the ledger specification
    [ledger_step] gives for its instruction, at a clock the transaction reads,
    and leaves the pool backed. *)
Theorem accepted_transaction_refines_ledger pk accounts data i w w' :
  backed program_id pk w -> accepts program_id pk accounts data i w w' ->
  wf_instruction i /\ authorized (signed accounts) i (pool_at pk w) /\
  backed program_id pk w' /\
  exists clk j, wf_clock clk /\ clock_ok accounts i w clk /\
                ledger_step clk j i (ledger_of pk w) = Ok (ledger_of pk w').
Proof. apply accepts_step. Qed.

(** C5: an accepted Withdraw was signed by the owner of the deposit record at
    the caller's address, whose cooldown has elapsed and whose balance covers the
    amount; it pays exactly what [withdrawal_value] quotes after fee accrual, out
    of the vault and into the caller's token account, burns the LP tokens from
    the mint's supply and the totals, and takes them off the record. *)
Theorem withdraw_pays_the_quote pk accounts data lp w w' :
  backed program_id pk w ->
  accepts program_id pk accounts data (Instruction.Withdraw lp) w w' ->
  let p := pool_at pk w in
  exists a clk p1 c, let d := deposit_at (ai_key (wa_deposit_pda a)) w in
    let e := deposit_at (ai_key (wa_deposit_pda a)) w' in
    withdraw_accounts accounts = Ok a /\ ai_is_signer (wa_user a) = true /\
    ai_key (wa_deposit_pda a) = fst (derive_deposit_pda program_id pk (ai_key (wa_user a))) /\
    sd_user d = ai_key (wa_user a) /\ sd_pool d = pk /\
    clock_from_account_info (wa_clock_sysvar a) w = Ok clk /\
    saturating_add U64_MAX (sd_last_deposit_slot d) (sp_cooldown_slots p) <= clock_slot clk /\
    0 < lp <= sd_lp_amount d /\ sd_lp_amount e = sd_lp_amount d - lp /\
    ledger_accrue p (vault_amount pk w) = Ok p1 /\
    withdrawal_value p1 (is_junior_deposit d) lp = Ok c /\
    vault_amount pk w' = vault_amount pk w - c /\
    mint_amount pk w' = mint_amount pk w - lp /\
    sp_total_lp_supply (pool_at pk w') = sp_total_lp_supply p - lp /\
    raw_value (pool_at pk w') = raw_value p1 - c /\
    (sp_lp_mint p <> sp_collateral_mint p ->
     token_amount (get w' (ai_key (wa_user_ata a)))
       = token_amount (get w (ai_key (wa_user_ata a))) + c).
Proof.
  intros Hb [Hk Hs Hd Hu Ht Hr] p. apply (process_dispatch _ _ _ _ _ Hu) in Hr.
  pose proof (unpack_inv _ _ Hd Hu) as (Hlp & _). cbn [wf_instruction dispatch] in Hlp, Hr.
  destruct (withdraw_inv pk w Hb accounts lp w' Hs Ht Hlp Hr)
    as [_ (a & clk & d & e & c & Ha & Hsg & Hpda & Hc & -> & -> & Hdu & Hdp & Hcd & Hle & Hsub & Hst
          & Hv & H0 & Hata) _].
  cbn [ledger_step ledger_of] in Hst. pose proof (law_clock _ _ _ Hc) as Hclk.
  apply withdraw_books in Hst as (H0' & p1 & c' & Hac & Hc' & E1 & E2 & E3 & E4);
    [|by eapply backed_wf|by eapply vault_amount_u64|apply Hb|done|done].
  cbn [ledger_of lg_vault lg_supply lg_pool] in *. assert (c' = c) as -> by lia.
  exists a, clk, p1, c. cbn zeta. split_and!; done.
Qed.

(** What both deposits do; [j] is the tranche. *)
Definition deposit_effect (pk : Pubkey) (accounts : list AccountInfo) (amount : Z) (j : bool)
    (w w' : World) : Prop :=
  let p := pool_at pk w in
  0 < amount /\ market_resolved p = false /\ enforce_deposit_cap p amount = Ok tt /\
  exists a clk w1 p1 lp m, let d := deposit_at (ai_key (da_deposit_pda a)) w in
    let e := deposit_at (ai_key (da_deposit_pda a)) w' in
    deposit_accounts accounts = Ok a /\ ai_is_signer (da_user a) = true /\
    clock_from_account_info (da_clock_sysvar a) w1 = Ok clk /\
    (forall k, acc_owner (get w k) <> SplToken.id -> get w1 k = get w k) /\
    ai_key (da_deposit_pda a) = fst (derive_deposit_pda program_id pk (ai_key (da_user a))) /\
    sd_is_initialized e = 1 /\ sd_user e = ai_key (da_user a) /\ sd_pool e = pk /\
    sd_last_deposit_slot e = clock_slot clk /\ is_junior_deposit e = j /\
    sd_lp_amount e = sd_lp_amount d + lp /\
    ledger_accrue p (vault_amount pk w) = Ok p1 /\ priced p1 amount j = Ok lp /\ 0 < lp /\
    apply_minimum_liquidity_lock (sp_total_lp_supply p) lp = Ok m /\
    (if j then junior_loss_gate p1 else senior_snipe_gate p1) = Ok tt /\
    vault_amount pk w' = vault_amount pk w + amount /\
    mint_amount pk w' = mint_amount pk w + m /\
    sp_total_lp_supply (pool_at pk w') = sp_total_lp_supply p + lp /\
    raw_value (pool_at pk w') = raw_value p1 + amount /\
    (sp_lp_mint p <> sp_collateral_mint p ->
     token_amount (get w' (ai_key (da_user_ata a)))
       = token_amount (get w (ai_key (da_user_ata a))) - amount /\
     token_amount (get w' (ai_key (da_user_lp_ata a)))
       = token_amount (get w (ai_key (da_user_lp_ata a))) + m).

Lemma deposition_effect pk accounts amount (j : bool) w w' :
  backed program_id pk w -> u64 amount ->
  deposition program_id pk w accounts
    (if j then DepositJunior amount else Instruction.Deposit amount) amount j w' ->
  deposit_effect pk accounts amount j w w' /\ (j = true -> tranche_enabled (pool_at pk w) = true).
Proof.
  intros Hb Ha [_ (a & clk & d & e & m & Hac & Hsg & Hpda & Hclk & -> & -> & Hi & Hu & Hp & Hsl & Hj
                      & Hl & Hst & Hv & Hm & Hata) _ (a' & clk' & w1 & Hac' & Hck & Fr & Hsl' & _)].
  rewrite Hac in Hac'. injection Hac' as <-. apply deposit_books in Hst
    as (H0 & Hr & Hcap & Ht & p1 & lp & m' & Hacc & Hpr & Hlp & Hlk & Hg & E1 & E2 & E3 & E4);
    [|by eapply backed_wf|by eapply vault_amount_u64|apply Hb|done|done].
  cbn [ledger_of lg_vault lg_supply lg_pool] in *. assert (m' = m) as -> by lia.
  split; [|done]. split_and!; [done..|]. exists a, clk', w1, p1, lp, m. cbn zeta.
  split_and!; try done. rewrite Hl. lia.
Qed.

Lemma deposit_mints_the_quote pk accounts data amount w w' :
  backed program_id pk w ->
  accepts program_id pk accounts data (Instruction.Deposit amount) w w' ->
  deposit_effect pk accounts amount false w w'.
Proof.
  intros Hb [Hk Hs Hd Hu Ht Hr]. apply (process_dispatch _ _ _ _ _ Hu) in Hr.
  pose proof (unpack_inv _ _ Hd Hu) as (Ha & _). cbn [wf_instruction dispatch] in Ha, Hr.
  apply (deposition_effect pk accounts amount false w w' Hb Ha). by apply deposit_inv.
Qed.

Lemma deposit_junior_mints_the_quote pk accounts data amount w w' :
  backed program_id pk w ->
  accepts program_id pk accounts data (DepositJunior amount) w w' ->
  deposit_effect pk accounts amount true w w' /\ tranche_enabled (pool_at pk w) = true.
Proof.
  intros Hb [Hk Hs Hd Hu Ht Hr]. apply (process_dispatch _ _ _ _ _ Hu) in Hr.
  pose proof (unpack_inv _ _ Hd Hu) as (Ha & _). cbn [wf_instruction dispatch] in Ha, Hr.
  destruct (deposition_effect pk accounts amount true w w' Hb Ha) as [He Ht']; [|auto].
  by apply deposit_junior_inv.
Qed.

(** C6: an accepted Deposit was signed by the caller, on a pool that is not
    resolved and within its cap; it takes exactly [amount] from the caller's
    token account into the vault, prices it after fee accrual, mints the shares
    to the caller (less the dead shares when they are the first), and records
    them at the caller's address in the senior tranche, with a cooldown that starts
    at the slot of the clock it read. The same for DepositJunior, on a pool with
    tranches enabled and no outstanding flush loss: the shares are priced on the
    junior tranche and the record is marked junior. *)
Theorem deposits_mint_the_quote pk accounts data amount w w' :
  backed program_id pk w ->
  (accepts program_id pk accounts data (Instruction.Deposit amount) w w' ->
   deposit_effect pk accounts amount false w w') /\
  (accepts program_id pk accounts data (DepositJunior amount) w w' ->
   deposit_effect pk accounts amount true w w' /\ tranche_enabled (pool_at pk w) = true).
Proof.
  intros Hb. split; [by apply deposit_mints_the_quote|by apply deposit_junior_mints_the_quote].
Qed.

(** C7: InitPool and InitTradingPool, accepted, leave an empty pool of the mode
    their name says: backed, no value, no shares, no LP tokens, a vault that holds
    nothing (or, when the collateral is wrapped SOL, the lamports the account has
    beyond its rent), the signer of the first account as admin, the cooldown and
    cap asked for (the cooldown within its bounds), no flag raised, at the market's
    pool address; and they are never accepted on a pool that exists. *)
Theorem init_creates_an_empty_pool pk accounts data i w w' :
  world_ok w -> is_init i = true -> accepts program_id pk accounts data i w w' ->
  ~ bound program_id pk w /\
  exists a c cap,
    init_accounts accounts = Ok a /\ ai_key (ia_pool_pda a) = pk /\
    genesis program_id pk a c cap w w' /\
    (i = InitPool c cap /\ (pool_at pk w').(sp_pool_mode) = 0 \/
     i = InitTradingPool c cap /\ (pool_at pk w').(sp_pool_mode) = 1).
Proof.
  intros Hw Hi Ha. split; [|by eapply init_accepts].
  destruct Ha as [_ _ _ Hu Ht Hr]. apply (process_dispatch _ _ _ _ _ Hu) in Hr.
  destruct i; try discriminate Hi; cbn [dispatch pool_index] in *.
  - by eapply init_pool_not_live.
  - by eapply init_trading_pool_not_live.
Qed.
End Contract.

(** ** The contract at work *)

#[local] Existing Instance sim.
#[local] Existing Instance sim_build.
#[local] Existing Instance sim_laws_hold.

(** The pool after two deposits, a flush, its return and a donation. *)
Lemma reachable_pool_is_solvent_witness :
  let w := run (take 7 market) in
  reachable SIM_ID k_pool w /\ raw_value (pool_at k_pool w) = 550000 /\
  vault_amount k_pool w = 555500 /\ raw_value (pool_at k_pool w) <= vault_amount k_pool w.
Proof.
  cbn zeta. split_and!; [exact (market_reachable 6)|by vm_compute|by vm_compute|].
  exact (proj1 (proj2 (reachable_pool_is_solvent k_pool _ (market_reachable 6)))).
Defined.

(** The flush of 100000 tokens is the ledger's flush. *)
Lemma accepted_transaction_refines_ledger_witness :
  exists clk j, ledger_step clk j (FlushToInsurance 100000) (ledger_of k_pool (run (take 3 market)))
                = Ok (ledger_of k_pool (run (take 4 market))).
Proof.
  destruct (accepted_transaction_refines_ledger k_pool _ _ _ _ _
              (market_backed 2) (market_accepts 3 _ _ eq_refl))
    as (_ & _ & _ & clk & j & _ & _ & H). by exists clk, j.
Defined.

(** Bob's 20000 shares out of 550000 pay 20199 tokens after the donation. *)
Lemma withdraw_pays_the_quote_witness :
  let w := run (take 9 market) in let w' := run (take 10 market) in
  exists c, vault_amount k_pool w' = vault_amount k_pool w - c /\
            balance w' k_bob_ata = balance w k_bob_ata + c /\
            vault_amount k_pool w - vault_amount k_pool w' = 20199.
Proof.
  cbn zeta.
  destruct (withdraw_pays_the_quote k_pool _ _ _ _ _ (market_backed 8) (market_accepts 9 _ _ eq_refl))
    as (a & clk & p1 & c & Ha & _ & _ & _ & _ & _ & _ & _ & _ & _ & _ & Hv & _ & _ & _ & Hata).
  injection Ha as <-. exists c. split_and!; [done| |by vm_compute].
  apply Hata. by vm_compute.
Defined.

(** Alice's first deposit mints 499000 of its 500000 shares; on the other market
    Bob joins the junior tranche. *)
Lemma deposits_mint_the_quote_witness :
  deposit_effect (program_id := SIM_ID) k_pool acc_alice_deposit 500000 false
    (run (take 1 market)) (run (take 2 market)) /\
  balance (run (take 2 market)) k_alice_lp = 499000 /\
  deposit_effect (program_id := SIM_ID) k_pool acc_bob_deposit 50000 true
    (run (take 3 tranches)) (run (take 4 tranches)) /\
  junior_total_lp (pool_at k_pool (run (take 4 tranches))) = 50000.
Proof.
  split; [|split; [by vm_compute|split; [|by vm_compute]]].
  - apply (deposits_mint_the_quote k_pool _ (pack (Instruction.Deposit 500000)));
      [exact (market_backed 0)|exact (market_accepts 1 _ _ eq_refl)].
  - apply (deposits_mint_the_quote k_pool _ (pack (DepositJunior 50000)));
      [exact (tranches_backed 2)|exact (tranches_accepts 3 _ _ eq_refl)].
Defined.

Lemma init_creates_an_empty_pool_witness :
  ~ bound SIM_ID k_pool genesis_world /\
  raw_value (pool_at k_pool (run (take 1 market))) = 0 /\
  sp_admin (pool_at k_pool (run (take 1 market))) = k_admin.
Proof.
  destruct (init_creates_an_empty_pool k_pool _ _ (InitPool 100 1000000) _ _ genesis_world_ok eq_refl
              (market_accepts 0 _ _ eq_refl)) as (Hn & a & c & cap & Ha & _ & G & _).
  injection Ha as <-. split_and!; [done|apply G|apply G].
Defined.
