(* ===== verification/Governance.v ===== *)
(** * Who may change what, and when

    Properties of accepted transactions about the pool's configuration: the
    signatures it takes, the two-step admin hand-over, the time lock on cooldown
    increases, the flags that are final and the gate on resolution. *)

From S2P Require Import Prelude Errors Math State PoolFacts Instruction Runtime SplToken Cpi Guards.
From S2P Require Import Fees Deposit Withdraw Insurance Admin Proxy Init Processor Ledger.
From S2P Require Import LedgerFacts LedgerInv Laws Backing BackingSteps BackingLp BackingInit.
From S2P Require Import Safety Sim SimLaws Scenario Run.

(** The instructions a resolved market refuses. *)
Definition adds_exposure (i : StakeInstruction) : bool :=
  match i with
  | Instruction.Deposit _ | DepositJunior _ | FlushToInsurance _ => true
  | _ => false
  end.

(** The instructions a pool whose asset admin is burned refuses. *)
Definition needs_asset_admin (i : StakeInstruction) : bool :=
  match i with
  | BurnAssetAdmin | RotateInsuranceAuthority | RotateInsuranceOperator => true
  | _ => false
  end.

Lemma ledger_step_resolved p vault supply clk j i l' :
  ledger_step clk j i (mkLedger p vault supply) = Ok l' -> market_resolved p = true ->
  adds_exposure i = false.
Proof.
  intros H Hr. destruct i; try done; exfalso; cbn [ledger_step] in H.
  - unfold ledger_deposit, ledger_deposit_open in H. rewrite Hr in H. cbn [negb] in H.
    destruct (amount =? 0); discriminate H.
  - unfold ledger_flush in H. rewrite Hr in H. cbn [negb] in H.
    destruct (amount =? 0); [discriminate H|]. destruct (sp_pool_mode p =? 0); discriminate H.
  - unfold ledger_deposit_junior, ledger_deposit_open in H. rewrite Hr in H. cbn [negb] in H.
    destruct (tranche_enabled p); [|discriminate H]. destruct (amount =? 0); discriminate H.
Qed.

Lemma ledger_step_burned p vault supply clk j i l' :
  ledger_step clk j i (mkLedger p vault supply) = Ok l' -> asset_admin_burned p = true ->
  needs_asset_admin i = false.
Proof.
  intros H Hb. destruct i; try done; exfalso; cbn [ledger_step lg_pool] in H;
    unfold burn_admin, on_pool in H; rewrite Hb in H; discriminate H.
Qed.

(** Both resolution steps pass the recovery gate and leave the books. *)
Lemma ledger_step_resolves p vault supply clk j i l' :
  wf_pool p -> wf_clock clk -> i = SetMarketResolved \/ i = AdminResolveMarket ->
  ledger_step clk j i (mkLedger p vault supply) = Ok l' ->
  p.(sp_total_flushed) <= realized_junior_loss p + p.(sp_total_recovered_from_wrapper) /\
  (i = SetMarketResolved -> market_resolved p = false /\ market_resolved (lg_pool l') = true) /\
  books (lg_pool l') = books p /\ lg_vault l' = vault.
Proof.
  intros Hp Hc Hi Hs.
  assert (Hb : books (lg_pool l') = books p /\ lg_vault l' = vault).
  { apply (ledger_step_books p vault supply Hp clk Hc j i l') in Hs as (? & ? & _);
      [done|by destruct Hi as [-> | ->]..]. }
  destruct Hi as [-> | ->]; cbn [ledger_step lg_pool] in Hs.
  - apply on_pool_Ok in Hs as (q & Hq & ->). cbn [lg_pool lg_vault] in *.
    apply ensure_Ok in Hq as [Hnr%negb_true_iff Hq].
    apply ensure_Ok in Hq as [Hf%wrapper_fully_recovered_true [= <-]]; [|done].
    split_and!; [done|intros _; split; [done|]|apply Hb|apply Hb]. pool_simpl. done.
  - apply ensure_Ok in Hs as [Hf%wrapper_fully_recovered_true _]; [|done].
    split_and!; [done|done|apply Hb|apply Hb].
Qed.

Section Governance.
Context {RT : Runtime} {BC : BuildConfig} {program_id : Pubkey} {RL : RuntimeLaws program_id}.

(** The ledger step of an accepted transaction, with its side conditions. *)
Lemma accepted_ledger pk accounts data i w w' :
  backed program_id pk w -> accepts program_id pk accounts data i w w' ->
  wf_pool (pool_at pk w) /\ u64 (vault_amount pk w) /\
  raw_value (pool_at pk w) <= vault_amount pk w /\ wf_instruction i /\
  authorized (signed accounts) i (pool_at pk w) /\
  exists clk j, wf_clock clk /\
    ledger_step clk j i (mkLedger (pool_at pk w) (vault_amount pk w) (mint_amount pk w))
      = Ok (ledger_of pk w').
Proof.
  intros Hb Ha. apply accepts_step in Ha as (Hi & Hau & _ & clk & j & Hclk & _ & Hs); [|done].
  split_and!; [by eapply backed_wf|by eapply vault_amount_u64|apply Hb|done|done|].
  by exists clk, j.
Qed.

Lemma accepted_sticky pk accounts data i w w' :
  backed program_id pk w -> accepts program_id pk accounts data i w w' ->
  sticky (pool_at pk w) (pool_at pk w').
Proof.
  intros Hb Ha. destruct (accepted_ledger _ _ _ _ _ _ Hb Ha) as (Hp & Hv & Hr & Hi & _ & clk & j & Hc & Hs).
  exact (ledger_step_sticky _ _ _ _ _ _ _ Hp Hv Hr Hc Hi Hs).
Qed.

(** C12: the configuration of a pool (admin and pending admin, cooldown and its
    proposal, deposit cap, the resolved, burned and tranche flags, the fee
    multiplier, the high-water mark's settings) changes only in a transaction the
    pool's admin signed, or in an AcceptAdmin the pending admin signed. *)
Theorem config_needs_the_admin pk accounts data i w w' :
  backed program_id pk w -> accepts program_id pk accounts data i w w' ->
  config (pool_at pk w') <> config (pool_at pk w) ->
  signed accounts (sp_admin (pool_at pk w)) \/
  i = AcceptAdmin /\ signed accounts (sp_pending_admin (pool_at pk w)).
Proof.
  intros Hb Ha Hne.
  destruct (accepted_ledger _ _ _ _ _ _ Hb Ha) as (Hp & Hv & Hr & Hi & Hau & clk & j & Hc & Hs).
  destruct (is_money i) eqn:Hm.
  - destruct Hne. exact (ledger_step_config _ _ _ Hp Hv Hr _ Hc _ _ _ Hi Hm Hs).
  - destruct i; try discriminate Hm; cbn [authorized] in Hau; first [by left|by right].
Qed.

(** C15: a pool's admin changes only through AcceptAdmin, to the pending admin,
    who signed and is not the zero key; the pending admin changes only through a
    ProposeAdmin that names it, signed by the admin, or is cleared by
    AcceptAdmin. *)
Theorem admin_changes_in_two_steps pk accounts data i w w' :
  backed program_id pk w -> accepts program_id pk accounts data i w w' ->
  let p := pool_at pk w in let p' := pool_at pk w' in
  (p'.(sp_admin) <> p.(sp_admin) ->
   i = AcceptAdmin /\ p'.(sp_admin) = p.(sp_pending_admin) /\
   p.(sp_pending_admin) <> ZERO_KEY /\ signed accounts p.(sp_pending_admin)) /\
  (p'.(sp_pending_admin) <> p.(sp_pending_admin) ->
   i = ProposeAdmin p'.(sp_pending_admin) /\ signed accounts p.(sp_admin) \/
   i = AcceptAdmin /\ p'.(sp_pending_admin) = ZERO_KEY).
Proof.
  intros Hb Ha p p'.
  destruct (accepted_ledger _ _ _ _ _ _ Hb Ha) as (Hp & Hv & Hr & Hi & Hau & clk & j & Hc & Hs).
  apply ledger_step_roles in Hs as [_ [H1 H2]]; [|done..]. cbn [ledger_of lg_pool] in *. split.
  - intros Hne. destruct H1 as [?|(-> & E & Hz)]; [done|]. by cbn in Hau.
  - intros Hne. destruct H2 as [?|[E|[-> E]]]; [done|left|by right].
    split; [done|]. rewrite E in Hau. exact Hau.
Qed.

(** C16: the time lock. Over any history of accepted transactions and outside
    events that starts with no proposal pending, the cooldown ends no longer than
    it was unless the history holds a ProposeCooldownIncrease and, at least
    TIMELOCK_SLOTS later, a CommitCooldownIncrease. *)
Theorem cooldown_increase_is_timelocked pk w tr w' :
  backed program_id pk w -> (pool_at pk w).(sp_cooldown_proposed_at_slot) = 0 ->
  history program_id pk w tr w' ->
  (pool_at pk w').(sp_cooldown_slots) <= (pool_at pk w).(sp_cooldown_slots) \/
  timelocked_in tr.
Proof. intros Hb H0 Hh. by apply (history_timelock pk w tr w'). Qed.

(** C17: a resolved market stays resolved and takes no deposit and no flush ever
    after; a burned asset admin stays burned, with no rotation or second burn ever
    after; tranches once enabled stay enabled. *)
Theorem final_flags_are_final pk w tr w' :
  backed program_id pk w -> history program_id pk w tr w' ->
  sticky (pool_at pk w) (pool_at pk w') /\
  (market_resolved (pool_at pk w) = true -> Forall (fun t => adds_exposure t.1 = false) tr) /\
  (asset_admin_burned (pool_at pk w) = true -> Forall (fun t => needs_asset_admin t.1 = false) tr).
Proof.
  intros Hb H. induction H as [|tr w1 w2 accounts data i clk Hh IH Ha _|tr w1 w2 Hh IH He].
  - split; [by apply sticky_eq|]. split; intros _; apply Forall_nil_2.
  - destruct IH as (IS & IR & IB). pose proof (history_backed _ _ _ _ Hb Hh) as Hb1.
    destruct (accepted_ledger _ _ _ _ _ _ Hb1 Ha) as (_ & _ & _ & _ & _ & c & j & _ & Hs).
    destruct IS as (I1 & I2 & I3) eqn:EI; clear EI. split.
    + eapply sticky_trans; [exact (conj I1 (conj I2 I3))|]. by eapply accepted_sticky.
    + split; intros Hf; apply Forall_app; (split; [auto|]); apply Forall_singleton; cbn.
      * eapply ledger_step_resolved; [exact Hs|auto].
      * eapply ledger_step_burned; [exact Hs|auto].
  - pose proof (history_backed _ _ _ _ Hb Hh) as Hb1.
    destruct (environment_backed _ _ _ Hb1 He) as [_ ->]. exact IH.
Qed.

(** C18: SetMarketResolved is accepted only from the admin, once, and only when
    everything flushed has come back through the wrapper or been written off by
    an exited junior tranche; AdminResolveMarket passes the same gate. Nothing in
    the books moves. *)
Theorem resolution_waits_for_recovery pk accounts data i w w' :
  backed program_id pk w -> accepts program_id pk accounts data i w w' ->
  i = SetMarketResolved \/ i = AdminResolveMarket ->
  let p := pool_at pk w in let p' := pool_at pk w' in
  signed accounts p.(sp_admin) /\
  p.(sp_total_flushed) <= realized_junior_loss p + p.(sp_total_recovered_from_wrapper) /\
  (i = SetMarketResolved -> market_resolved p = false /\ market_resolved p' = true) /\
  books p' = books p /\ vault_amount pk w' = vault_amount pk w.
Proof.
  intros Hb Ha Hi p p'.
  destruct (accepted_ledger _ _ _ _ _ _ Hb Ha) as (Hp & Hv & Hr & Hwi & Hau & clk & j & Hc & Hs).
  destruct (ledger_step_resolves _ _ _ _ _ _ _ Hp Hc Hi Hs) as (Hf & Hm & Eb & Ev).
  split_and!; [by destruct Hi as [-> | ->]|done..].
Qed.
End Governance.

(** ** On the market *)

#[local] Existing Instance sim.
#[local] Existing Instance sim_build.
#[local] Existing Instance sim_laws_hold.

(** Carol's UpdateConfig, as admin. *)
Lemma config_needs_the_admin_witness :
  let p := pool_at k_pool (run (take 16 market)) in
  sp_cooldown_slots p = 200 /\ sp_cooldown_slots (pool_at k_pool (run (take 17 market))) = 50 /\
  (signed acc_carol (sp_admin p) \/
   UpdateConfig (Some 50) (Some 2000000) = AcceptAdmin /\ signed acc_carol (sp_pending_admin p)).
Proof.
  cbn zeta. split_and!; [by vm_compute|by vm_compute|].
  apply (config_needs_the_admin k_pool _ _ _ _ _ (market_backed 15) (market_accepts 16 _ _ eq_refl)).
  apply (bool_decide_eq_false_1 _). by vm_compute.
Defined.

(** Carol takes over. *)
Lemma admin_changes_in_two_steps_witness :
  let p := pool_at k_pool (run (take 14 market)) in
  sp_admin p = k_admin /\ sp_pending_admin p = k_carol /\
  sp_admin (pool_at k_pool (run (take 15 market))) = k_carol /\
  signed acc_carol (sp_pending_admin p).
Proof.
  cbn zeta. split_and!; [by vm_compute..|].
  destruct (admin_changes_in_two_steps k_pool _ _ _ _ _ (market_backed 13)
              (market_accepts 14 _ _ eq_refl)) as [H _].
  apply H, (bool_decide_eq_false_1 _). by vm_compute.
Defined.

(** The increase from 100 to 200 slots. *)
Lemma cooldown_increase_is_timelocked_witness :
  let w := run (take 1 market) in let l := take 12 (drop 1 market) in
  sp_cooldown_slots (pool_at k_pool w) = 100 /\
  sp_cooldown_slots (pool_at k_pool (replay l w)) = 200 /\ timelocked_in (labels l w).
Proof.
  cbn zeta.
  assert (H0 : sp_cooldown_proposed_at_slot (pool_at k_pool (run (take 1 market))) = 0) by by vm_compute.
  set (w' := replay _ _).
  assert (E1 : sp_cooldown_slots (pool_at k_pool (run (take 1 market))) = 100) by by vm_compute.
  assert (E2 : sp_cooldown_slots (pool_at k_pool w') = 200) by by vm_compute.
  split_and!; [done..|].
  destruct (cooldown_increase_is_timelocked k_pool _ _ w' (market_backed 0) H0 (market_history 1 12))
    as [H|H]; [lia|exact H].
Defined.

(** From SetMarketResolved on: alice can still withdraw. *)
Lemma final_flags_are_final_witness :
  let w := run (take 19 market) in let l := take 1 (drop 19 market) in
  market_resolved (pool_at k_pool w) = true /\
  labels l w = [(Instruction.Withdraw 100000, mkClock 500000 3)] /\
  Forall (fun t => adds_exposure t.1 = false) (labels l w).
Proof.
  cbn zeta. split_and!; [by vm_compute|by vm_compute|].
  destruct (final_flags_are_final k_pool _ _ _ (market_backed 18) (market_history 19 1)) as (_ & H & _).
  apply H. by vm_compute.
Defined.

Lemma resolution_waits_for_recovery_witness :
  let p := pool_at k_pool (run (take 18 market)) in
  sp_total_flushed p = 100000 /\ sp_total_recovered_from_wrapper p = 100000 /\
  sp_total_flushed p <= realized_junior_loss p + sp_total_recovered_from_wrapper p /\
  market_resolved (pool_at k_pool (run (take 19 market))) = true.
Proof.
  cbn zeta.
  destruct (resolution_waits_for_recovery k_pool _ _ _ _ _ (market_backed 17)
              (market_accepts 18 _ _ eq_refl) (or_introl eq_refl)) as (_ & Hf & Hm & _).
  split_and!; [by vm_compute|by vm_compute|exact Hf|by apply Hm].
Defined.
