(* ===== verification/Config.v ===== *)
(** * Configuration instructions are decided by the record alone

    Nine instructions make no CPI: on a live pool, called with the right
    signature, they do what their ledger step says and nothing else, and they
    fail exactly when it fails, with its error. This is the converse of the
    refinement in Backing.v, which speaks of accepted transactions only. *)

From S2P Require Import Prelude Errors Math State PoolFacts Instruction Runtime SplToken Cpi Guards.
From S2P Require Import Fees Deposit Withdraw Insurance Admin Proxy Init Processor Ledger.
From S2P Require Import LedgerFacts LedgerInv Laws Backing BackingSteps BackingLp BackingInit.
From S2P Require Import Safety Sim SimLaws Scenario Run.

(** The instructions of the admin handlers of Admin.v. *)
Definition configures (i : StakeInstruction) : bool :=
  match i with
  | UpdateConfig _ _ | ProposeAdmin _ | AcceptAdmin | ProposeCooldownIncrease _
  | CommitCooldownIncrease | CancelCooldownIncrease | AdminSetHwmConfig _ _
  | AdminSetTrancheConfig _ | SetMarketResolved => true
  | _ => false
  end.

(** Who must sign, and the accounts the handler takes. *)
Definition config_signer (i : StakeInstruction) (p : StakePool) : Pubkey :=
  match i with AcceptAdmin => p.(sp_pending_admin) | _ => p.(sp_admin) end.

Definition config_accounts (i : StakeInstruction) (signer pool clock : AccountInfo)
    : list AccountInfo :=
  match i with
  | ProposeCooldownIncrease _ | CommitCooldownIncrease => [signer; pool; clock]
  | _ => [signer; pool]
  end.

(** A result of the ledger as a result of the handler. *)
Definition stored (pk : Pubkey) (w : World) (r : ProgramResult Ledger) : ProgramResult World :=
  l ← r; Ok (store_pool pk (lg_pool l) w).

(** ** The rules

    Each instruction's refusals, in order, and the record it leaves, written out
    independently of Admin.v: numbers and byte positions are literals (78840000
    slots is the longest cooldown, 432000 the time lock, 9000 basis points the
    highest floor). *)

Lemma wf_pending p : wf_pool p -> u64 p.(sp_pending_cooldown_slots).
Proof. intros Hp. wf_destruct. done. Qed.

Section Rules.
Context (clk : Clock).

(** The error of the first refusal that applies. *)
Fixpoint verdict (refusals : list (bool * ProgramError)) : option ProgramError :=
  match refusals with
  | [] => None
  | (applies, e) :: rest => if applies then Some e else verdict rest
  end.

(** Who may call: a signature, the pool writable, and the admin's key; for
    AcceptAdmin a proposal, and the proposed key. *)
Definition caller_refusals (i : StakeInstruction) (signer pool : AccountInfo) (p : StakePool)
    : list (bool * ProgramError) :=
  [(negb signer.(ai_is_signer), MissingRequiredSignature);
   (negb pool.(ai_is_writable), stake_err InvalidAccount)] ++
  match i with
  | AcceptAdmin =>
      [(key_eqb p.(sp_pending_admin) (replicate 32 0), stake_err NoPendingAdmin);
       (negb (key_eqb p.(sp_pending_admin) signer.(ai_key)), stake_err Unauthorized)]
  | _ => [(negb (key_eqb p.(sp_admin) signer.(ai_key)), stake_err Unauthorized)]
  end.

Definition cooldown_refusals (c : Z) : list (bool * ProgramError) :=
  [(c <=? 0, InvalidArgument); (78840000 <? c, InvalidArgument)].

(** A cooldown may be lowered at once and raised only by a proposal that has aged. *)
Definition config_refusals (i : StakeInstruction) (p : StakePool) : list (bool * ProgramError) :=
  match i with
  | UpdateConfig (Some c) _ =>
      cooldown_refusals c ++
      [(p.(sp_cooldown_slots) <? c, stake_err CooldownIncreaseRequiresTimelock)]
  | ProposeCooldownIncrease c =>
      cooldown_refusals c ++
      [(c <=? p.(sp_cooldown_slots), stake_err CooldownIncreaseRequiresTimelock)]
  | CommitCooldownIncrease =>
      [(p.(sp_cooldown_proposed_at_slot) =? 0, stake_err NoPendingCooldownProposal);
       (18446744073709551615 <? p.(sp_cooldown_proposed_at_slot) + 432000, stake_err Overflow);
       (clock_slot clk <? p.(sp_cooldown_proposed_at_slot) + 432000,
        stake_err TimelockNotElapsed)] ++
      cooldown_refusals p.(sp_pending_cooldown_slots)
  | CancelCooldownIncrease =>
      [(p.(sp_cooldown_proposed_at_slot) =? 0, stake_err NoPendingCooldownProposal)]
  | AdminSetHwmConfig true bps => [(bps <=? 0, InvalidArgument); (9000 <? bps, InvalidArgument)]
  | AdminSetTrancheConfig m =>
      [(m <? 10000, InvalidArgument); (50000 <? m, InvalidArgument);
       ((0 <? junior_total_lp p) && negb (junior_fee_mult_bps p =? m), stake_err Unauthorized)]
  | SetMarketResolved =>
      [(market_resolved p, stake_err MarketResolved);
       (realized_junior_loss p + p.(sp_total_recovered_from_wrapper) <? p.(sp_total_flushed),
        stake_err InsuranceLossOutstanding)]
  | _ => []
  end.

(** The fields each call assigns; the flags are bytes of [_reserved]. *)
Definition config_change (i : StakeInstruction) (p : StakePool) : StakePool :=
  match i with
  | UpdateConfig c d =>
      p <| sp_cooldown_slots := default p.(sp_cooldown_slots) c |>
        <| sp_deposit_cap := default p.(sp_deposit_cap) d |>
  | ProposeAdmin k => p <| sp_pending_admin := k |>
  | AcceptAdmin =>
      p <| sp_admin := p.(sp_pending_admin) |> <| sp_pending_admin := replicate 32 0 |>
  | ProposeCooldownIncrease c =>
      p <| sp_pending_cooldown_slots := c |> <| sp_cooldown_proposed_at_slot := clock_slot clk |>
  | CommitCooldownIncrease =>
      p <| sp_cooldown_slots := p.(sp_pending_cooldown_slots) |>
        <| sp_pending_cooldown_slots := 0 |> <| sp_cooldown_proposed_at_slot := 0 |>
  | CancelCooldownIncrease =>
      p <| sp_pending_cooldown_slots := 0 |> <| sp_cooldown_proposed_at_slot := 0 |>
  | AdminSetHwmConfig true bps =>
      p <| sp_reserved := splice 10 (1 :: le_bytes 2 bps) p.(sp_reserved) |>
  | AdminSetHwmConfig false _ => p <| sp_reserved := splice 10 [0] p.(sp_reserved) |>
  | AdminSetTrancheConfig m =>
      p <| sp_reserved := splice 49 (le_bytes 2 m) (splice 32 [1] p.(sp_reserved)) |>
  | SetMarketResolved => p <| sp_reserved := splice 9 [1] p.(sp_reserved) |>
  | _ => p
  end.

(** What a call does under the rules. *)
Definition ruled (refusals : list (bool * ProgramError)) (q : StakePool)
    : ProgramResult StakePool :=
  match verdict refusals with Some e => Err e | None => Ok q end.

Lemma ruled_app l l' q :
  ruled (l ++ l') q = match verdict l with Some e => Err e | None => ruled l' q end.
Proof. induction l as [|[[] e] l IH]; [done..|exact IH]. Qed.

Lemma ruled_cons b e l q : ruled ((b, e) :: l) q = if b then Err e else ruled l q.
Proof. unfold ruled. cbn. by destruct b. Qed.

(** ** Each transition follows its rules *)

Context (p : StakePool) (Hp : wf_pool p).
#[local] Abbreviation follows i r := (r = ruled (config_refusals i p) (config_change i p)).

(** Both sides, condition by condition. *)
Ltac by_cases :=
  unfold cooldown_refusals; cbn [app]; rewrite ?ruled_cons;
  repeat lazymatch goal with
  | |- context [?x <=? ?y] => destruct (Z.leb_spec x y)
  | |- context [?x <? ?y] => destruct (Z.ltb_spec x y)
  | |- context [?x =? ?y] => destruct (Z.eqb_spec x y)
  end; cbn [andb orb negb mbind result_bind]; try reflexivity; try lia.

Lemma cooldown_rules c l q :
  u64 c -> ruled (cooldown_refusals c ++ l) q = (_ ← validate_cooldown_slots c; ruled l q).
Proof. intros Hc. unfold validate_cooldown_slots, MAX_COOLDOWN_SLOTS. by_cases; width_lia. Qed.

Lemma update_config_rules c d :
  (forall v, c = Some v -> u64 v) -> follows (UpdateConfig c d) (update_config c d p).
Proof.
  intros Hc. unfold update_config. cbn [config_refusals config_change]. destruct c as [c|].
  - rewrite cooldown_rules by auto. destruct (validate_cooldown_slots c); [|done].
    rewrite !bind_of_Ok, ruled_cons. destruct (_ <? _); [done|]. by destruct d, p.
  - by destruct d, p.
Qed.

Lemma propose_cooldown_rules c :
  u64 c -> follows (ProposeCooldownIncrease c) (propose_cooldown_increase c clk p).
Proof.
  intros Hc. unfold propose_cooldown_increase. cbn [config_refusals].
  rewrite cooldown_rules by done. destruct (validate_cooldown_slots c); [|done].
  rewrite !bind_of_Ok, ruled_cons. by destruct (_ <=? _).
Qed.

Lemma commit_cooldown_rules : follows CommitCooldownIncrease (commit_cooldown_increase clk p).
Proof.
  pose proof (wf_pending p Hp) as Hpend.
  unfold commit_cooldown_increase, timelock_window_elapsed, checked_add.
  change TIMELOCK_SLOTS with 432000. change U64_MAX with 18446744073709551615.
  cbn [config_refusals app]. unfold cooldown_proposed_at_slot, pending_cooldown_slots.
  rewrite !ruled_cons. destruct (_ =? 0); [done|]. cbn [negb].
  destruct (Z.leb_spec (sp_cooldown_proposed_at_slot p + 432000) 18446744073709551615),
    (Z.ltb_spec 18446744073709551615 (sp_cooldown_proposed_at_slot p + 432000));
    [lia| |done|lia]. cbn [ok_or]. rewrite !bind_of_Ok.
  destruct (Z.leb_spec (sp_cooldown_proposed_at_slot p + 432000) (clock_slot clk)),
    (Z.ltb_spec (clock_slot clk) (sp_cooldown_proposed_at_slot p + 432000)); [lia| |done|lia].
  pose proof (cooldown_rules (sp_pending_cooldown_slots p) []) as E. rewrite app_nil_r in E.
  rewrite E by done. by destruct (validate_cooldown_slots _).
Qed.

Lemma cancel_cooldown_rules : follows CancelCooldownIncrease (cancel_cooldown_increase p).
Proof.
  unfold cancel_cooldown_increase, cooldown_proposed_at_slot. cbn [config_refusals].
  rewrite ruled_cons. by destruct (_ =? 0).
Qed.

Lemma hwm_rules e b : u16 b -> follows (AdminSetHwmConfig e b) (set_hwm_config e b p).
Proof.
  intros Hb. pose proof (wf_length_reserved p Hp) as Hl.
  unfold set_hwm_config, validate_hwm_floor_bps, MAX_HWM_FLOOR_BPS. destruct e; [|done].
  cbn [config_refusals config_change]. rewrite !ruled_cons.
  assert (E : apply_hwm_config true b p
              = p <| sp_reserved := splice 10 (1 :: le_bytes 2 b) p.(sp_reserved) |>).
  { change (1 :: le_bytes 2 b) with ([1] ++ [byte_at 0 (le_bytes 2 b)] ++ [byte_at 1 (le_bytes 2 b)]).
    rewrite <- !splice_splice by (rewrite ?length_splice; cbn; lia). done. }
  rewrite E.
  destruct (Z.eqb_spec b 0), (Z.leb_spec b 0), (Z.ltb_spec 9000 b); try done; width_lia.
Qed.

Lemma tranche_rules m : follows (AdminSetTrancheConfig m) (set_tranche_config m p).
Proof.
  pose proof (wf_length_reserved p Hp) as Hl.
  unfold set_tranche_config. cbn [config_refusals config_change]. rewrite !ruled_cons.
  destruct (Z.leb_spec 10000 m), (Z.ltb_spec m 10000), (Z.leb_spec m 50000), (Z.ltb_spec 50000 m);
    try done; try lia. cbn [andb]. by destruct (_ && _).
Qed.

Lemma resolve_rules : follows SetMarketResolved (resolve_pool p).
Proof.
  unfold resolve_pool. cbn [config_refusals config_change]. rewrite !ruled_cons.
  destruct (market_resolved p); [done|]. cbn [negb].
  pose proof (wrapper_fully_recovered_true p Hp) as Hr.
  destruct (wrapper_fully_recovered p),
    (Z.ltb_spec (realized_junior_loss p + sp_total_recovered_from_wrapper p) (sp_total_flushed p));
    try done; naive_solver lia.
Qed.
End Rules.

Section Config.
Context {RT : Runtime} {BC : BuildConfig} {program_id : Pubkey}.
Context (pk : Pubkey) (w : World) (HB : bound program_id pk w).
Context (signer pool : AccountInfo) (Hpool : pool.(ai_key) = pk).

(** ** The prologues succeed on a live pool *)

Lemma pool_data_live :
  try_borrow_data [] pool w = Ok (acc_data (get w pk)) /\
  pool_from_data (acc_data (get w pk)) = Ok (pool_at pk w) /\
  data_is_empty [] pool w = Ok false.
Proof using HB Hpool.
  pose proof (bd_len _ _ _ HB) as Hl. split_and!.
  - apply try_borrow_data_Ok. unfold ai_data. rewrite Hpool. split; [apply not_elem_of_nil|done].
  - by apply pool_from_data_Ok.
  - apply data_is_empty_Ok. split; [apply not_elem_of_nil|]. symmetry.
    apply bool_decide_eq_false_2. unfold ai_data. rewrite Hpool. intros E. rewrite E in Hl.
    unfold STAKE_POOL_SIZE in Hl. cbn in Hl. lia.
Qed.

Lemma open_pool_live : open_pool [] pool w = Ok (pool_at pk w).
Proof using HB Hpool.
  destruct pool_data_live as (E1 & E2 & _). unfold open_pool. rewrite E1. cbn. rewrite E2. cbn.
  by rewrite (bd_check _ _ _ HB).
Qed.

Lemma validate_pool_mut_eq : validate_pool_mut program_id pool w = validate_account_writable pool.
Proof using HB Hpool.
  destruct pool_data_live as (_ & _ & E). pose proof (bd_owner _ _ _ HB) as Ho.
  unfold validate_pool_mut, validate_account_owner, validate_account_not_empty, ai_owner.
  rewrite Hpool, (proj2 (key_eqb_eq _ _) Ho). cbn. by rewrite E.
Qed.

(** ... and refuse a caller by the rules. *)
#[local] Abbreviation refused i := (verdict (caller_refusals i signer pool (pool_at pk w))).
#[local] Abbreviation or_refused i k := (match refused i with Some e => Err e | None => k end).

Lemma open_as_admin_eq i :
  i <> AcceptAdmin ->
  open_pool_as_admin program_id signer pool w = or_refused i (Ok (pool_at pk w)).
Proof using HB Hpool.
  intros Hi. unfold open_pool_as_admin, require_signer. rewrite validate_pool_mut_eq, open_pool_live.
  unfold validate_account_writable, caller_refusals.
  destruct (ai_is_signer signer), (ai_is_writable pool); try done.
  destruct i; try done; cbn; by destruct (key_eqb _ _).
Qed.

Lemma open_with_clock_eq i clock clk :
  i <> AcceptAdmin -> clock_from_account_info clock w = Ok clk ->
  open_pool_with_clock program_id signer pool clock w = or_refused i (Ok (clk, pool_at pk w)).
Proof using HB Hpool.
  intros Hi Hc. unfold open_pool_with_clock, require_signer.
  rewrite validate_pool_mut_eq, Hc, open_pool_live.
  unfold validate_account_writable, caller_refusals.
  destruct (ai_is_signer signer), (ai_is_writable pool); try done.
  destruct i; try done; cbn; by destruct (key_eqb _ _).
Qed.

Lemma accept_admin_eq :
  process_accept_admin program_id [signer; pool] w
  = (q ← or_refused AcceptAdmin (Ok (config_change clock0 AcceptAdmin (pool_at pk w)));
     Ok (store_pool pk q w)).
Proof using HB Hpool.
  unfold process_accept_admin, require_signer, accept_admin.
  rewrite validate_pool_mut_eq, open_pool_live, Hpool.
  unfold validate_account_writable, caller_refusals.
  destruct (ai_is_signer signer), (ai_is_writable pool); try done. cbn [app verdict negb mbind result_bind].
  change (replicate 32 0) with ZERO_KEY.
  destruct (key_eqb _ ZERO_KEY); [done|]. by destruct (key_eqb _ (ai_key signer)).
Qed.

(** C13: configuration follows the rules. On a live pool, whoever calls one of the
    nine configuration instructions, with a clock that can be read, gets exactly
    what the table [config_refusals], [config_change] says: the
    error of the first refusal that applies (no signature, pool not writable, the
    wrong key; then, per instruction, a cooldown out of range, raised without a
    proposal or committed before the proposal is 432000 slots old, a floor or a fee
    multiple out of range, a multiple changed under the junior holders, a market
    already resolved or resolved before the flushed insurance is back), and with no
    refusal the record with exactly the named fields changed, and no other
    account. *)
Theorem configuration_follows_the_rules data i clock rest clk :
  world_ok w -> bytes_ok data -> unpack data = Ok i -> configures i = true ->
  clock_from_account_info clock w = Ok clk ->
  process program_id (config_accounts i signer pool clock ++ rest) data w
  = match verdict (caller_refusals i signer pool (pool_at pk w)
                   ++ config_refusals clk i (pool_at pk w)) with
    | Some e => Err e
    | None => Ok (store_pool pk (config_change clk i (pool_at pk w)) w)
    end.
Proof using HB Hpool.
  intros Hw Hd Hu Hi Hc. destruct (unpack_inv _ _ Hd Hu) as [Hwf _].
  pose proof (wf_pool_at pk w Hw (bd_len _ _ _ HB)) as Hp.
  unfold process. rewrite Hu, bind_of_Ok.
  transitivity (q ← ruled (caller_refusals i signer pool (pool_at pk w)
                           ++ config_refusals clk i (pool_at pk w))
                      (config_change clk i (pool_at pk w)); Ok (store_pool pk q w)).
  2:{ unfold ruled. by destruct (verdict _). }
  rewrite ruled_app.
  destruct i; try discriminate Hi; cbn [dispatch config_accounts app wf_instruction] in *.
  - unfold process_update_config. rewrite (open_as_admin_eq (UpdateConfig new_cooldown_slots new_deposit_cap)) by done.
    destruct (verdict _); [done|]. rewrite bind_of_Ok, (update_config_rules clk), Hpool; [done|done|apply Hwf].
  - unfold process_propose_admin. rewrite (open_as_admin_eq (ProposeAdmin new_admin)) by done.
    destruct (verdict _); [done|]. by rewrite bind_of_Ok, Hpool.
  - exact accept_admin_eq.
  - unfold process_propose_cooldown_increase. rewrite (open_with_clock_eq (ProposeCooldownIncrease new_cooldown_slots) clock clk) by done.
    destruct (verdict _); [done|]. by rewrite bind_of_Ok, propose_cooldown_rules, Hpool.
  - unfold process_commit_cooldown_increase. rewrite (open_with_clock_eq (CommitCooldownIncrease) clock clk) by done.
    destruct (verdict _); [done|]. by rewrite bind_of_Ok, commit_cooldown_rules, Hpool.
  - unfold process_cancel_cooldown_increase. rewrite (open_as_admin_eq (CancelCooldownIncrease)) by done.
    destruct (verdict _); [done|]. by rewrite bind_of_Ok, (cancel_cooldown_rules clk), Hpool.
  - unfold process_admin_set_hwm_config. rewrite (open_as_admin_eq (AdminSetHwmConfig enabled hwm_floor_bps)) by done.
    destruct (verdict _); [done|]. rewrite bind_of_Ok, <- (hwm_rules clk) by done.
    unfold set_hwm_config. rewrite Hpool. destruct enabled; [|reflexivity].
    by destruct (validate_hwm_floor_bps _) as [[]|]; reflexivity.
  - unfold process_admin_set_tranche_config. rewrite (open_as_admin_eq (AdminSetTrancheConfig junior_fee_mult_bps)) by done.
    destruct (verdict _); [done|]. by rewrite bind_of_Ok, (tranche_rules clk), Hpool.
  - unfold process_set_market_resolved. rewrite (open_as_admin_eq (SetMarketResolved)) by done.
    destruct (verdict _); [done|]. by rewrite bind_of_Ok, (resolve_rules clk), Hpool.
Qed.

(** ** With the signature the ledger asks for *)

Context (Hsig : signer.(ai_is_signer) = true) (Hmut : pool.(ai_is_writable) = true).

Lemma validate_pool_mut_live : validate_pool_mut program_id pool w = Ok tt.
Proof using HB Hpool Hmut.
  rewrite validate_pool_mut_eq. unfold validate_account_writable. by rewrite Hmut.
Qed.

Lemma open_as_admin_live :
  signer.(ai_key) = (pool_at pk w).(sp_admin) ->
  open_pool_as_admin program_id signer pool w = Ok (pool_at pk w).
Proof using HB Hsig Hpool Hmut.
  intros Hk. unfold open_pool_as_admin, require_signer. rewrite Hsig, validate_pool_mut_live. cbn.
  rewrite open_pool_live. cbn. by rewrite Hk, (proj2 (key_eqb_eq _ _) eq_refl).
Qed.

Lemma open_with_clock_live clock clk :
  signer.(ai_key) = (pool_at pk w).(sp_admin) -> clock_from_account_info clock w = Ok clk ->
  open_pool_with_clock program_id signer pool clock w = Ok (clk, pool_at pk w).
Proof using HB Hsig Hpool Hmut.
  intros Hk Hc. unfold open_pool_with_clock, require_signer.
  rewrite Hsig, validate_pool_mut_live, Hc. cbn.
  rewrite open_pool_live. cbn. by rewrite Hk, (proj2 (key_eqb_eq _ _) eq_refl).
Qed.

(** Given the signature the ledger asks for, what the ledger says, refusals
    included. *)
Lemma configuration_is_the_ledger_step i clock rest clk j :
  configures i = true -> signer.(ai_key) = config_signer i (pool_at pk w) ->
  clock_from_account_info clock w = Ok clk ->
  dispatch program_id (config_accounts i signer pool clock ++ rest) i w
    = stored pk w (ledger_step clk j i (ledger_of pk w)).
Proof using HB Hsig Hpool Hmut.
  intros Hi Hk Hc. unfold stored.
  destruct i; try discriminate Hi; cbn [config_signer] in Hk;
    cbn [dispatch config_accounts app ledger_step ledger_of lg_pool].
  - unfold process_update_config, on_pool. rewrite open_as_admin_live by done. cbn.
    rewrite Hpool. by destruct (update_config _ _ _).
  - unfold process_propose_admin, on_pool. rewrite open_as_admin_live by done. cbn.
    by rewrite Hpool.
  - unfold process_accept_admin, on_pool, require_signer.
    rewrite Hsig, validate_pool_mut_live. cbn. rewrite open_pool_live. cbn.
    rewrite Hpool, Hk. by destruct (accept_admin _ _).
  - unfold process_propose_cooldown_increase, on_pool. rewrite (open_with_clock_live _ clk) by done.
    cbn. rewrite Hpool. by destruct (propose_cooldown_increase _ _ _).
  - unfold process_commit_cooldown_increase, on_pool. rewrite (open_with_clock_live _ clk) by done.
    cbn. rewrite Hpool. by destruct (commit_cooldown_increase _ _).
  - unfold process_cancel_cooldown_increase, on_pool. rewrite open_as_admin_live by done. cbn.
    rewrite Hpool. by destruct (cancel_cooldown_increase _).
  - unfold process_admin_set_hwm_config, on_pool, set_hwm_config. rewrite open_as_admin_live by done.
    cbn. rewrite Hpool. destruct enabled; [|done]. by destruct (validate_hwm_floor_bps _).
  - unfold process_admin_set_tranche_config, on_pool. rewrite open_as_admin_live by done. cbn.
    rewrite Hpool. by destruct (set_tranche_config _ _).
  - unfold process_set_market_resolved, on_pool. rewrite open_as_admin_live by done. cbn.
    rewrite Hpool. by destruct (resolve_pool _).
Qed.
End Config.

#[local] Existing Instance sim.
#[local] Existing Instance sim_build.
#[local] Existing Instance sim_laws_hold.

(** Calls on the market after its first deposit. *)
Lemma configuration_follows_the_rules_witness :
  let w := run (take 2 market) in
  let call ai i :=
    process SIM_ID (config_accounts i ai (rw k_pool) (ro CLOCK_ID) ++ []) (pack i) w in
  is_ok (call (signer k_admin) (UpdateConfig (Some 50) None)) = true /\
  call (signer k_admin) (UpdateConfig (Some 60000) None)
    = Err (stake_err CooldownIncreaseRequiresTimelock) /\
  call (signer k_admin) CommitCooldownIncrease = Err (stake_err NoPendingCooldownProposal) /\
  call (signer k_admin) (AdminSetTrancheConfig 9999) = Err InvalidArgument /\
  call (signer k_bob) SetMarketResolved = Err (stake_err Unauthorized) /\
  call (ro k_admin) SetMarketResolved = Err MissingRequiredSignature.
Proof.
  cbv zeta. set (w := run (take 2 market)).
  destruct (clock_from_account_info (ro CLOCK_ID) w) as [clk|] eqn:Hc; [|by vm_compute in Hc].
  assert (Ec : clk = mkClock 100 1) by (vm_compute in Hc; congruence).
  assert (H : forall ai i, bytes_ok (pack i) -> unpack (pack i) = Ok i -> configures i = true ->
    process SIM_ID (config_accounts i ai (rw k_pool) (ro CLOCK_ID) ++ []) (pack i) w
    = match verdict (caller_refusals i ai (rw k_pool) (pool_at k_pool w)
                     ++ config_refusals clk i (pool_at k_pool w)) with
      | Some e => Err e
      | None => Ok (store_pool k_pool (config_change clk i (pool_at k_pool w)) w)
      end).
  { intros ai i Hb Hu Hi.
    exact (configuration_follows_the_rules k_pool w (bk_bound _ _ _ (market_backed 1)) ai (rw k_pool)
             eq_refl (pack i) i (ro CLOCK_ID) [] clk (bk_world _ _ _ (market_backed 1)) Hb Hu Hi Hc). }
  rewrite Ec in H.
  split_and!; (rewrite H; [by vm_compute| |reflexivity|reflexivity]);
    apply (bool_decide_unpack _); by vm_compute.
Defined.
