(* ===== verification/Panic.v ===== *)
(** * The program does not panic (src/processor.rs)

    A handler panics where it borrows an account's data without [try_] while
    holding it mutably, or where an index or a range is outside the bytes or the
    accounts it was given: a record ([data[..STAKE_POOL_SIZE]]), a token account
    ([data[32..64]]), the instruction data ([rest[8..16]]). In the model each of
    those places is [index_range], [index_at] or a borrow, and returns
    [Err Panicked]. Here: none of them is reached, since a length check precedes
    each. The program calls no [unwrap]. Not places of this model: the constant
    ranges of fixed-size arrays (_reserved), which cannot fail; the arithmetic
    without [checked_], which wraps in a release build and is exact by Math.v;
    and the divisions of math.rs, each behind a test of its divisor. [Calm] is the
    property of a computation, a class whose tactic [calm] follows a handler's own
    structure down to those places and finds the length check of each. *)

From S2P Require Import Prelude Errors Math State PoolFacts Instruction Runtime SplToken Cpi Guards.
From S2P Require Import Fees Deposit Withdraw Insurance Admin Proxy Init Processor Ledger.
From S2P Require Import LedgerFacts Laws Backing BackingInit Sim SimLaws Scenario Run.

(** What the handlers rely on of the code outside the repository: its calls
    return a [Result] and do not panic themselves. *)
Class CallsReturn {RT : Runtime} : Prop := {
  invoke_returns : forall mb ix infos seeds w, invoke_signed mb ix infos seeds w <> Err Panicked;
  clock_returns : forall ai w, clock_from_account_info ai w <> Err Panicked;
  rent_account_returns : forall ai w, rent_from_account_info ai w <> Err Panicked;
  rent_returns : forall w, rent_get w <> Err Panicked;
}.

Class Calm {A} (m : ProgramResult A) : Prop := calm_not : m <> Err Panicked.

(** ** Structure *)

Section Structure.
Context {A B : Type}.

#[global] Instance calm_ok (a : A) : Calm (Ok a : ProgramResult A).
Proof. done. Qed.

Lemma calm_err e : e <> Panicked -> Calm (Err e : ProgramResult A).
Proof. intros H [= E]. done. Qed.

Lemma calm_bind (m : ProgramResult A) (f : A -> ProgramResult B) :
  Calm m -> (forall a, m = Ok a -> Calm (f a)) -> Calm (m ≫= f).
Proof. intros Hm Hf. destruct m as [a|e]; [by apply Hf|]. intros [= ->]. by apply Hm. Qed.

Lemma calm_if (b : bool) (m n : ProgramResult A) :
  (b = true -> Calm m) -> (b = false -> Calm n) -> Calm (if b then m else n).
Proof. destruct b; auto. Qed.

Lemma calm_ok_or (o : option A) e : e <> Panicked -> Calm (ok_or o e).
Proof. intros H. destruct o; [done|by apply calm_err]. Qed.
End Structure.

Lemma calm_data_len mb ai w : ai.(ai_key) ∉ mb -> Calm (data_len mb ai w).
Proof. intros H. unfold data_len. by rewrite bool_decide_eq_false_2 by done. Qed.

(** Behind the length check before it, an index is in range. *)
Lemma calm_index_range a b d : (a <= b <= length d)%nat -> Calm (index_range a b d).
Proof. intros [Ha Hb]. by rewrite index_range_in. Qed.
Lemma calm_index_at i d : (i < length d)%nat -> Calm (index_at i d).
Proof. intros Hi. by rewrite index_at_in. Qed.

(** ** Automation *)

Ltac in_range :=
  unfold STAKE_POOL_SIZE, STAKE_DEPOSIT_SIZE, ACCOUNT_LEN, MINT_LEN in *; bool_prop; lia.

(** Follows the structure of a handler; leaves the goals about borrows. *)
Ltac calm_step :=
  lazymatch goal with
  | |- Calm (Ok _) => apply calm_ok
  | |- Calm (mret _) => apply calm_ok
  | |- Calm (Err _) => apply calm_err; done
  | |- Calm (mbind _ _) => apply calm_bind; [|intros ? ?]
  | |- Calm (if _ then _ else _) => apply calm_if; intros ?
  | |- Calm (ok_or _ _) => apply calm_ok_or; done
  | |- Calm (let '(_, _) := ?x in _) => destruct x eqn:?
  | |- Calm (match ?x with _ => _ end) => destruct x
  | |- Calm (invoke_signed _ _ _ _ _) => apply invoke_returns
  | |- Calm (invoke _ _ _ _) => apply invoke_returns
  | |- Calm (clock_from_account_info _ _) => apply clock_returns
  | |- Calm (rent_from_account_info _ _) => apply rent_account_returns
  | |- Calm (rent_get _) => apply rent_returns
  | |- Calm (data_len [] _ _) => apply calm_data_len, not_elem_of_nil
  | |- Calm (data_len _ _ _) => apply calm_data_len
  | |- Calm (index_range _ _ _) => apply calm_index_range; in_range
  | |- Calm (index_at _ _) => apply calm_index_at; in_range
  | |- Calm (mark_burned _ _) => fail
  | |- Calm ?m => let h := head_of m in unfold h
  end
with head_of m := lazymatch m with ?f _ => head_of f | _ => m end.

Ltac calm := repeat (calm_step; cbv beta zeta).

(** ** The places that could panic *)

Section Sites.
Context {RT : Runtime} {BC : BuildConfig} {program_id : Pubkey} {RL : RuntimeLaws program_id}.

(** The record of a burned pool is measured before the wrapper's call, which
    cannot write it: its only writable account is the market's. *)
Lemma mark_burned_calm admin pool perc va slab w w' p :
  open_pool_read program_id admin pool w = Ok p -> pool.(ai_key) <> slab.(ai_key) ->
  cpi_burn_asset_admin [] perc admin va slab w = Ok w' -> Calm (mark_burned pool w').
Proof.
  intros Ho Hne Hc. unfold open_pool_read in Ho.
  apply bind_Ok in Ho as ([] & _ & Ho). apply bind_Ok in Ho as ([] & _ & Ho).
  apply bind_Ok in Ho as (q & (_ & Hl & _)%open_pool_Ok & _).
  unfold cpi_burn_asset_admin, invoke in Hc.
  apply (law_frame _ _ _ _ _ _ pool.(ai_key)) in Hc; [|cbn; set_solver].
  unfold mark_burned. apply calm_bind; [unfold try_borrow_data; calm|]. intros d [_ ->]%try_borrow_data_Ok.
  unfold ai_data. rewrite Hc. by rewrite index_range_in by lia.
Qed.

Context (accounts : list AccountInfo).

(** The deposit record's address, of each user and pool among the accounts. *)
Definition records_apart : Prop :=
  forall user pool, user ∈ accounts -> pool ∈ accounts ->
    fst (derive_deposit_pda program_id pool.(ai_key) user.(ai_key)) <> pool.(ai_key).

Context (Hapart : records_apart).

(** The record is borrowed while the pool is held: they are two accounts. *)
Lemma record_not_pool user pool record k bump :
  user ∈ accounts -> pool ∈ accounts ->
  derive_deposit_pda program_id pool.(ai_key) user.(ai_key) = (k, bump) ->
  key_eqb record k = true -> record ∉ [pool.(ai_key)].
Proof using Hapart.
  intros Hu Hp E Hk%key_eqb_eq [->|[]%not_elem_of_nil]%elem_of_cons.
  apply (Hapart user pool Hu Hp). by rewrite E, Hk.
Qed.
Lemma deposit_record_not_pool a k bump :
  deposit_accounts accounts = Ok a ->
  derive_deposit_pda program_id (da_pool_pda a).(ai_key) (da_user a).(ai_key) = (k, bump) ->
  key_eqb (da_deposit_pda a).(ai_key) k = true -> (da_deposit_pda a).(ai_key) ∉ Deposit.mb_pool a.
Proof using Hapart.
  intros (Hu & Hp & _)%deposit_accounts_in. by apply record_not_pool.
Qed.
End Sites.

(** ** The theorem *)

Section Program.
Context {RT : Runtime} {BC : BuildConfig} {program_id : Pubkey} {RL : RuntimeLaws program_id}.
Context {CR : CallsReturn}.

Lemma unpack_calm data : Calm (unpack data).
Proof. calm. Qed.

(** C14: the program does not panic. On any accounts and any instruction data,
    [process] returns: borrowing account data already borrowed, and indexing or
    slicing account data, instruction data or the account list out of range, are
    all unreachable, given that the calls into the runtime return themselves, that
    no deposit-record address of the accounts passed is the pool's own, and, for
    BurnAssetAdmin, that the market passed is not the pool. *)
Theorem process_never_panics accounts data w :
  records_apart (program_id := program_id) accounts ->
  (unpack data = Ok BurnAssetAdmin -> forall pool slab,
     accounts !! 1%nat = Some pool -> accounts !! 3%nat = Some slab ->
     pool.(ai_key) <> slab.(ai_key)) ->
  process program_id accounts data w <> Err Panicked.
Proof.
  intros Hapart Hslab. apply calm_bind; [apply unpack_calm|]. intros i Hi.
  destruct i; cbn [dispatch]; calm.
  - by eapply deposit_record_not_pool.
  - match goal with Ha : withdraw_accounts _ = Ok _ |- _ =>
      apply withdraw_accounts_in in Ha as (Hu & Hp & _) end.
    by eapply (record_not_pool accounts Hapart _ _ _ _ _ Hu Hp).
  - eapply mark_burned_calm; [eassumption|by apply Hslab|eassumption].
  - match goal with Ha : process_init_pool _ _ _ _ _ = Ok _ |- _ =>
      apply bind_Ok in Ha as (b & [_ Hidx]%init_accounts_in & _) end.
    by rewrite Hidx.
  - by eapply deposit_record_not_pool.
Qed.
End Program.

(** ** On the market *)

#[local] Existing Instance sim.
#[local] Existing Instance sim_build.
#[local] Existing Instance sim_laws_hold.

Lemma sim_calls_return : CallsReturn.
Proof.
  split; intros *; cbn.
  - change (Calm (sim_invoke SIM_ID mb ix infos seeds w)). unfold sim_invoke.
    apply calm_if; intros ?; [|by apply calm_err].
    apply calm_bind; [by apply calm_ok_or|]. intros ws _.
    apply calm_if; intros ?; [done|by apply calm_err].
  - change (Calm (sim_clock ai w)). unfold sim_clock.
    apply calm_if; intros ?; [done|by apply calm_err].
  - by destruct (key_eqb _ _).
  - done.
Qed.

(** A deposit that names the pool's own account as its vault, so that the vault
    would be read while the pool is held: refused, not aborted. *)
Definition acc_aliased : list AccountInfo :=
  <[3%nat := rw k_pool]> acc_bob_deposit.

Lemma process_never_panics_witness :
  let data := pack (Instruction.Deposit 50000) in
  process SIM_ID acc_aliased data (run (take 2 market)) <> Err Panicked /\
  process SIM_ID acc_aliased data (run (take 2 market)) = Err (stake_err InvalidPda) /\
  is_ok (process SIM_ID acc_bob_deposit data (run (take 2 market))) = true.
Proof.
  cbv zeta. pose proof sim_calls_return as HC. split_and!.
  - apply (process_never_panics (program_id := SIM_ID)).
    + assert (forallb (fun u => forallb (fun p => negb (key_eqb
                (fst (derive_deposit_pda SIM_ID (ai_key p) (ai_key u))) (ai_key p)))
                acc_aliased) acc_aliased = true) as Hb by (by vm_compute).
      intros u p Hu Hp E. rewrite forallb_forall in Hb.
      specialize (Hb u (proj1 (list_elem_of_In _ _) Hu)). rewrite forallb_forall in Hb.
      specialize (Hb p (proj1 (list_elem_of_In _ _) Hp)).
      apply negb_true_iff, key_eqb_neq in Hb. by apply Hb.
    + intros E. discriminate E.
  - by vm_compute.
  - by vm_compute.
Defined.
