(* ===== verification/Treasury.v ===== *)
(** * Where the value goes

    Properties of accepted transactions about the pool's books: the insurance
    cycle (flush, return, recover), the share price, the tranche invariant, a
    deposit taken straight back out, and withdrawals in a row against one. *)

From S2P Require Import Prelude Errors Math State PoolFacts Instruction Runtime SplToken Cpi Guards.
From S2P Require Import Fees Deposit Withdraw Insurance Admin Proxy Init Processor Ledger.
From S2P Require Import LedgerFacts LedgerInv Laws Backing BackingSteps BackingLp BackingInit.
From S2P Require Import Safety Sim SimLaws Scenario Run Governance.

(** ** The insurance cycle, on the ledger *)

Section Cycle.
Context (p : StakePool) (vault supply : Z) (Hp : wf_pool p) (Hb : u64 vault)
        (Hv : raw_value p <= vault) (clk : Clock) (Hclk : wf_clock clk).
#[local] Abbreviation l := (mkLedger p vault supply).

Lemma flush_gate amount l' :
  ledger_flush amount l = Ok l' ->
  amount <> 0 /\ sp_pool_mode p = 0 /\ market_resolved p = false /\
  exists v, total_pool_value p = Some v /\ amount <= v.
Proof.
  unfold ledger_flush. intros H. apply ensure_Ok in H as [Hn H]. apply ensure_Ok in H as [Hm H].
  apply ensure_Ok in H as [Hr H]. apply bind_Ok in H as (v & Hv'%ok_or_Ok & H).
  apply ensure_Ok in H as [Ha _]. bool_prop. split_and!; try done. exists v. split; [done|lia].
Qed.

Lemma return_gate amount l' :
  wf_pool p -> ledger_return amount l = Ok l' ->
  amount <> 0 /\ amount <= net_loss p.
Proof.
  unfold ledger_return. intros _ H. apply ensure_Ok in H as [Hn H]. apply ensure_Ok in H as [Ha _].
  bool_prop. split; [done|]. unfold net_loss. lia.
Qed.

Lemma recover_gate amount l' :
  u64 amount -> ledger_recover amount l = Ok l' ->
  amount <> 0 /\ sp_pool_mode p = 0 /\ amount <= wrapper_recoverable p /\
  wrapper_recoverable (lg_pool l') = wrapper_recoverable p - amount.
Proof.
  intros Ha H. apply bind_Ok in H as ([] & (Hm & Hn & _ & Hle)%recover_guards_Ok & H).
  apply bind_Ok in H as (q & (_ & _ & _ & ->)%recover_totals_inv & [= <-]); [|done|done].
  split_and!; try done. cbn [lg_pool]. rewrite !wrapper_recoverable_eq in *. pool_simpl. width_lia.
Qed.
End Cycle.

(** ** A deposit taken straight back out *)

Lemma quote_withdraw p j lp c :
  tranche_enabled p = false -> withdrawal_value p j lp = Ok c ->
  calc_collateral_for_withdraw (sp_total_lp_supply p) (raw_value p) lp = Some c /\ u64 (raw_value p).
Proof.
  intros Ht. unfold withdrawal_value, pool_calc_collateral_for_withdraw. rewrite Ht. cbn [andb].
  intros H%ok_or_Ok. destruct (total_pool_value p) as [v|] eqn:E; [|discriminate H].
  by apply total_pool_value_Some in E as [-> ?].
Qed.

Lemma quote_deposit p amount lp :
  tranche_enabled p = false -> senior_lp_to_mint p amount = Ok lp ->
  calc_lp_for_deposit (sp_total_lp_supply p) (raw_value p) amount = Some lp /\ u64 (raw_value p).
Proof.
  intros Ht. unfold senior_lp_to_mint, pool_calc_lp_for_deposit. rewrite Ht.
  intros (x & H%ok_or_Ok & [_ [= <-]]%ensure_Ok)%bind_Ok.
  destruct (total_pool_value p) as [v|] eqn:E; [|discriminate H].
  by apply total_pool_value_Some in E as [-> ?].
Qed.

(** Accrual moves the value to the balance, in the modes that have it. *)
Lemma ledger_accrue_value p vault q :
  wf_pool p -> u64 vault -> raw_value p <= vault -> ledger_accrue p vault = Ok q ->
  0 < sp_total_lp_supply p \/ raw_value p = vault ->
  raw_value q = if sp_pool_mode p <=? 1 then vault else raw_value p.
Proof.
  intros Hp Hb Hv H Hs. unfold ledger_accrue in H. destruct (sp_pool_mode p <=? 1).
  - apply accrue_frame in H as (_ & _ & _ & _ & _ & _ & _ & ->); [|done..].
    destruct (Z.ltb_spec 0 (sp_total_lp_supply p)); lia.
  - by injection H as <-.
Qed.

Lemma deposit_withdraw_ledger p vault supply supply' clk1 clk2 j amount l1 l2 :
  wf_pool p -> u64 vault -> raw_value p <= vault -> wf_clock clk1 -> wf_clock clk2 ->
  u64 amount -> tranche_enabled p = false -> u64 (lg_vault l1) ->
  0 < sp_total_lp_supply p \/ raw_value p = vault ->
  ledger_deposit clk1 amount (mkLedger p vault supply) = Ok l1 ->
  ledger_withdraw clk2 j (sp_total_lp_supply (lg_pool l1) - sp_total_lp_supply p)
    (mkLedger (lg_pool l1) (lg_vault l1) supply') = Ok l2 ->
  vault <= lg_vault l2 /\
  (lg_vault l2 - vault - 1) * (sp_total_lp_supply (lg_pool l1) + 1) <= vault.
Proof.
  intros Hp Hb Hv Hc1 Hc2 Ha Ht Hb1 Hs Hd Hw.
  destruct (ledger_deposit_ok _ _ _ Hp Hb Hv _ Hc1 _ _ Ha Hd) as (W4 & I4 & V4).
  destruct (deposit_parts _ _ _ Hp Hb Hv _ Hc1 _ _ Ha Hd)
    as (Hn & _ & _ & p1 & lp & m & p3 & p4 & Hac & _ & Hlp & Hlu & Hl0 & _ & H3 & Hh & ->).
  cbn [lg_pool lg_vault] in *. destruct Hac as (Hacc & W1 & V1 & S1 & _ & _ & T1 & _).
  apply credit_totals_inv in H3 as (W3 & _ & V3 & _ & _ & S3 & T3 & _); [|done..].
  destruct (hwm_only_books _ _ Hh) as (_ & S5 & V5 & _ & _ & _ & _ & T5).
  assert (M4 : sp_pool_mode p4 = sp_pool_mode p) by (unfold pool_ident in I4; congruence).
  rewrite S5, S3, S1, Z.add_simpl_l in Hw.
  destruct (withdraw_parts p4 _ _ W4 Hb1 V4 _ Hc2 _ _ _ Hlu Hw)
    as (_ & _ & q1 & c & q2 & q4 & Hac & Hc & Hcu & _ & _ & _ & _ & _ & ->).
  cbn [lg_vault]. destruct Hac as (Hacc2 & Q1 & V6 & S6 & _ & _ & T6 & _).
  apply quote_deposit in Hlp as [Hlp U1]; [|congruence].
  apply quote_withdraw in Hc as [Hc U2]; [|congruence].
  destruct (wf_totals _ W1) as (_ & Us & _). destruct (wf_totals _ W3) as (_ & Us3 & _).
  rewrite S3 in Us3.
  apply ledger_accrue_value in Hacc; [|done..].
  apply ledger_accrue_value in Hacc2; [|done..|left; width_lia]. rewrite M4 in Hacc2.
  assert (Eq : raw_value q1 = raw_value p1 + amount)
    by (revert Hacc Hacc2; destruct (sp_pool_mode p <=? 1); lia).
  rewrite S6, S5, S3, Eq in Hc. rewrite Eq in U2.
  destruct (deposit_then_withdraw _ _ _ _ _ Us U1 Ha Us3 U2 Hlp Hc) as [Hca Hlost].
  split; [lia|]. replace (vault + amount - c - vault - 1) with (amount - c - 1) by ring.
  rewrite S5, S3. lia.
Qed.

(** ** Withdrawals one after another *)

(** A withdrawal on a pool without tranches: the price, and what it leaves. *)
Lemma plain_withdraw p vault supply clk j lp l' :
  wf_pool p -> u64 vault -> raw_value p <= vault -> wf_clock clk -> u64 lp ->
  tranche_enabled p = false -> ledger_withdraw clk j lp (mkLedger p vault supply) = Ok l' ->
  let v := if sp_pool_mode p <=? 1 then vault else raw_value p in
  let c := lp * (v + 1) / (sp_total_lp_supply p + 1) in
  0 < lp <= sp_total_lp_supply p /\ 0 <= v /\ lg_vault l' = vault - c /\
  sp_total_lp_supply (lg_pool l') = sp_total_lp_supply p - lp /\
  raw_value (lg_pool l') = v - c /\ sp_pool_mode (lg_pool l') = sp_pool_mode p /\
  tranche_enabled (lg_pool l') = false.
Proof.
  intros Hp Hb Hv Hc Hlp Ht Hw.
  destruct (withdraw_parts p vault supply Hp Hb Hv _ Hc _ _ _ Hlp Hw)
    as (Hn & _ & p1 & c & p2 & p4 & Hac & Hq & Hcu & _ & _ & _ & Ho & Hd & ->).
  destruct Hac as (Hacc & W1 & V1 & S1 & _ & _ & T1 & _).
  destruct (hwm_only_books _ _ Ho) as (W2 & S2 & V2 & _ & _ & _ & _ & T2).
  unfold ledger_debit in Hd. apply bind_Ok in Hd as (p3 & Hd & H4).
  apply debit_totals_inv in Hd as (W4 & I4 & V4 & _ & _ & Hle & S4 & T4 & _); [|done..].
  rewrite T4, T2, T1, Ht in H4. injection H4 as <-.
  apply quote_withdraw in Hq as [Hq U1]; [|congruence].
  destruct (wf_totals _ W1) as (_ & Us & _).
  apply calc_collateral_for_withdraw_Some in Hq as (Hs & -> & _); [|done..].
  destruct (ledger_accrue_ok _ _ _ Hp Hb Hv Hacc) as (_ & I1 & _).
  apply ledger_accrue_value in Hacc; [|done..|left; lia].
  cbn [lg_pool lg_vault]. cbn zeta. rewrite <- Hacc, <- S1.
  assert (I2 : pool_ident p2 = pool_ident p1) by apply Ho.
  assert (M : sp_pool_mode p3 = sp_pool_mode p) by (unfold pool_ident in *; congruence).
  split_and!; first [congruence | width_lia].
Qed.

(** The prices of two withdrawals in a row, against each alone and against one
    of their sum: rounding is all that separates them. *)
Lemma withdraw_in_a_row v s a b :
  0 <= v -> 0 < a -> 0 < b -> a + b <= s ->
  let c1 := a * (v + 1) / (s + 1) in
  let c2 := b * (v - c1 + 1) / (s - a + 1) in
  b * (v + 1) / (s + 1) <= c2 <= b * (v + 1) / (s + 1) + 1 /\
  c1 + c2 <= (a + b) * (v + 1) / (s + 1) <= c1 + c2 + 1.
Proof.
  intros Hv Ha Hb Hs c1 c2.
  pose proof (Z.div_mod (a * (v + 1)) (s + 1) ltac:(lia)) as E1.
  pose proof (Z.mod_pos_bound (a * (v + 1)) (s + 1) ltac:(lia)) as B1.
  pose proof (Z.div_mod (b * (v - c1 + 1)) (s - a + 1) ltac:(lia)) as E2.
  pose proof (Z.mod_pos_bound (b * (v - c1 + 1)) (s - a + 1) ltac:(lia)) as B2.
  fold c1 in E1. fold c2 in E2.
  set (r1 := (a * (v + 1)) mod (s + 1)) in *. set (r2 := (b * (v - c1 + 1)) mod (s - a + 1)) in *.
  clearbody c1 c2 r1 r2.
  (* the price the first leaves, over the common denominator *)
  assert (K : (s + 1) * (c2 * (s - a + 1) + r2) = b * ((v + 1) * (s - a + 1) + r1)) by nia.
  set (m := s - a + 1) in *. assert (Hm : b < m) by lia. assert (Em : s + 1 = m + a) by lia.
  set (y := b * (v + 1)). assert (Y : (s + 1) * (c2 * m + r2) = y * m + b * r1) by (subst y; nia).
  set (n := s + 1) in *.
  assert (L : y < (c2 + 1) * n) by nia.
  assert (U : (c2 - 1) * n <= y) by nia.
  split; split.
  - enough (y / n < c2 + 1) by lia. apply Z.div_lt_upper_bound; lia.
  - enough (c2 - 1 <= y / n) by lia. apply Z.div_le_lower_bound; lia.
  - apply Z.div_le_lower_bound; [lia|]. subst y. nia.
  - enough ((a + b) * (v + 1) / n < c1 + c2 + 2) by lia. apply Z.div_lt_upper_bound; [lia|].
    subst y. nia.
Qed.

Section Treasury.
Context {RT : Runtime} {BC : BuildConfig} {program_id : Pubkey} {RL : RuntimeLaws program_id}.

(** C19: an accepted FlushToInsurance was signed by the admin of an unresolved
    insurance pool, for at most the pool's value; it takes exactly the amount out
    of the vault and out of the value, and leaves the shares and the junior
    tranche's books alone. *)
Theorem flush_moves_exactly_the_amount pk accounts data amount w w' :
  backed program_id pk w -> accepts program_id pk accounts data (FlushToInsurance amount) w w' ->
  let p := pool_at pk w in let p' := pool_at pk w' in
  signed accounts p.(sp_admin) /\ p.(sp_pool_mode) = 0 /\ market_resolved p = false /\
  0 < amount <= raw_value p /\
  vault_amount pk w' = vault_amount pk w - amount /\ raw_value p' = raw_value p - amount /\
  p'.(sp_total_flushed) = p.(sp_total_flushed) + amount /\
  p'.(sp_total_returned) = p.(sp_total_returned) /\
  p'.(sp_total_lp_supply) = p.(sp_total_lp_supply) /\ mint_amount pk w' = mint_amount pk w /\
  junior_balance p' = junior_balance p /\ junior_total_lp p' = junior_total_lp p.
Proof.
  intros Hb Ha p p'.
  destruct (accepted_ledger _ _ _ _ _ _ Hb Ha) as (Hp & Hv & Hr & Hi & Hau & clk & j & Hc & Hs).
  cbn [wf_instruction authorized] in Hi, Hau.
  destruct (insurance_parts _ _ _ Hp clk j _ amount _ Hi (or_introl eq_refl) Hs)
    as (S & M & B & L & _ & _ & _ & D & F & _).
  destruct (F eq_refl) as (_ & V & Fl & Re).
  apply flush_gate in Hs as (Hn & Hm & Hres & v & [-> _]%total_pool_value_Some & Hle).
  cbn [ledger_of lg_pool lg_vault lg_supply] in *. fold p p' in S, M, B, L, D, V, Fl, Re, Hle, Hr.
  split_and!; first [done|width_lia].
Qed.

(** C20: the way back. ReturnInsurance, signed by the admin, pays tokens in, for at
    most what is still out; RecoverFlushedInsurance, which anyone may send, draws
    at most [wrapper_recoverable] from the wrapper and lowers it by exactly the
    amount. Either adds the amount to the vault and to the value and leaves the
    shares and the junior tranche's books alone. *)
Theorem insurance_comes_back_in_full pk accounts data i amount w w' :
  backed program_id pk w -> accepts program_id pk accounts data i w w' ->
  i = ReturnInsurance amount \/ i = RecoverFlushedInsurance amount ->
  let p := pool_at pk w in let p' := pool_at pk w' in
  0 < amount /\
  vault_amount pk w' = vault_amount pk w + amount /\ raw_value p' = raw_value p + amount /\
  p'.(sp_total_returned) = p.(sp_total_returned) + amount /\
  p'.(sp_total_flushed) = p.(sp_total_flushed) /\
  p'.(sp_total_lp_supply) = p.(sp_total_lp_supply) /\ mint_amount pk w' = mint_amount pk w /\
  junior_balance p' = junior_balance p /\ junior_total_lp p' = junior_total_lp p /\
  (i = ReturnInsurance amount ->
     signed accounts p.(sp_admin) /\ p'.(sp_total_returned) <= p.(sp_total_flushed)) /\
  (i = RecoverFlushedInsurance amount ->
     p.(sp_pool_mode) = 0 /\ amount <= wrapper_recoverable p /\
     wrapper_recoverable p' = wrapper_recoverable p - amount).
Proof.
  intros Hb Ha Ho p p'.
  destruct (accepted_ledger _ _ _ _ _ _ Hb Ha) as (Hp & Hv & Hr & Hi & Hau & clk & j & Hc & Hs).
  assert (Hamt : u64 amount) by (by destruct Ho as [-> | ->]).
  destruct (insurance_parts _ _ _ Hp clk j _ amount _ Hamt (or_intror Ho) Hs)
    as (S & M & B & L & _ & _ & _ & D & _ & Bk & Rt).
  destruct Bk as (V & Fl & Re); [by destruct Ho as [-> | ->]|].
  cbn [ledger_of lg_pool lg_vault lg_supply] in *. fold p p' in S, M, B, L, D, V, Fl, Re, Rt.
  assert (Hpos : 0 < amount).
  { destruct Ho as [-> | ->]; cbn [ledger_step] in Hs.
    - apply return_gate in Hs as [? _]; [width_lia|done].
    - apply recover_gate in Hs as (? & _); [width_lia|done..]. }
  split_and!; try done; try lia.
  - intros ->. split; [done|by apply Rt].
  - intros ->. apply recover_gate in Hs as (_ & ? & ? & ?); done.
Qed.

(** C21: on a pool without tranches no accepted transaction but a flush lowers
    the share price (value plus the virtual asset over shares plus the virtual
    share, compared by cross-multiplication): deposits, withdrawals, accruals and
    recoveries round in the pool's favour. *)
Theorem share_price_falls_only_by_flush pk accounts data i w w' :
  backed program_id pk w -> accepts program_id pk accounts data i w w' ->
  tranche_enabled (pool_at pk w) = false -> (forall a, i <> FlushToInsurance a) ->
  price_rises (pool_at pk w) (pool_at pk w').
Proof.
  intros Hb Ha Ht Hn.
  destruct (accepted_ledger _ _ _ _ _ _ Hb Ha) as (Hp & Hv & Hr & Hi & _ & clk & j & Hc & Hs).
  exact (ledger_step_price _ _ _ Hp Hv Hr clk Hc j i _ Ht Hn Hi Hs).
Qed.

(** The tranche invariant. Accepted transactions keep the value
    non-negative, the junior balance within the value plus the outstanding loss,
    the junior shares within all shares and an empty junior tranche at zero, when
    a senior withdrawal is of senior shares and a flush starts from books where
    no more was returned than flushed. *)
Theorem tranche_books_stay_solvent pk accounts data i w w' :
  backed program_id pk w -> accepts program_id pk accounts data i w w' ->
  (forall j, tranche_side j i (pool_at pk w)) ->
  tranche_ok (pool_at pk w) -> tranche_ok (pool_at pk w').
Proof.
  intros Hb Ha Hside Hok.
  destruct (accepted_ledger _ _ _ _ _ _ Hb Ha) as (Hp & Hv & Hr & Hi & _ & clk & j & Hc & Hs).
  exact (ledger_step_tranche _ _ _ Hp Hv Hr clk Hc j i _ Hi (Hside j) Hs Hok).
Qed.

(** C22: a deposit taken back out gains nothing. On a pool without tranches
    (whose surplus, if any, has share holders to go to), when a Deposit is
    accepted and then, with nothing having entered or left the vault in between, a
    Withdraw of exactly the shares it put on record, the vault ends with at least
    what it had before the deposit; and the rounding keeps no more of it than one
    token and the price of one share (the vault's balance over the recorded
    shares), so with the dead shares a pool cannot be primed to swallow a
    deposit. *)
Theorem deposit_then_withdraw_gains_nothing pk acc1 data1 acc2 data2 amount w w1 w1' w2 :
  backed program_id pk w -> tranche_enabled (pool_at pk w) = false ->
  0 < sp_total_lp_supply (pool_at pk w) \/ raw_value (pool_at pk w) = vault_amount pk w ->
  accepts program_id pk acc1 data1 (Instruction.Deposit amount) w w1 ->
  environment pk w1 w1' -> vault_amount pk w1' = vault_amount pk w1 ->
  accepts program_id pk acc2 data2
    (Instruction.Withdraw (sp_total_lp_supply (pool_at pk w1) - sp_total_lp_supply (pool_at pk w)))
    w1' w2 ->
  vault_amount pk w <= vault_amount pk w2 /\
  (vault_amount pk w2 - vault_amount pk w - 1) * (sp_total_lp_supply (pool_at pk w1) + 1)
    <= vault_amount pk w.
Proof.
  intros Hb Ht Hs Ha1 He Ev Ha2. pose proof (proj1 (proj2 (proj2 (accepts_step _ _ _ _ _ _ Hb Ha1)))) as Hb1.
  destruct (environment_backed _ _ _ Hb1 He) as [Hb1' Ep].
  destruct (accepted_ledger _ _ _ _ _ _ Hb Ha1) as (Hp & Hv & Hr & Hi & _ & clk & j & Hc & Hs1).
  destruct (accepted_ledger _ _ _ _ _ _ Hb1' Ha2) as (_ & Hv1 & _ & _ & _ & clk2 & j2 & Hc2 & Hs2).
  rewrite Ep, Ev in Hs2. rewrite Ev in Hv1.
  exact (deposit_withdraw_ledger _ _ _ _ _ _ j2 _ (ledger_of pk w1) (ledger_of pk w2)
           Hp Hv Hr Hc Hc2 Hi Ht Hv1 Hs Hs1 Hs2).
Qed.
(** C40: withdrawals cannot be timed or split. On a pool without tranches, let a
    Withdraw of [a] shares be accepted and then, with nothing having entered or left
    the vault in between, one of [b] shares. Whoever comes second is paid what the
    same Withdraw alone, accepted instead of the first, would have paid, or one
    token more: leaving before the others gains nothing, so there is nothing to run
    for. And the two together pay what one Withdraw of [a + b], accepted instead,
    would have paid, or one token less: neither does splitting a withdrawal gain
    anything. *)
Theorem withdrawals_cannot_be_timed_or_split pk acc1 data1 acc2 data2 a b w w1 w1' w2 :
  backed program_id pk w -> tranche_enabled (pool_at pk w) = false ->
  accepts program_id pk acc1 data1 (Instruction.Withdraw a) w w1 ->
  environment pk w1 w1' -> vault_amount pk w1' = vault_amount pk w1 ->
  accepts program_id pk acc2 data2 (Instruction.Withdraw b) w1' w2 ->
  let second := vault_amount pk w1 - vault_amount pk w2 in
  let both := vault_amount pk w - vault_amount pk w2 in
  (forall acc data w', accepts program_id pk acc data (Instruction.Withdraw b) w w' ->
     let alone := vault_amount pk w - vault_amount pk w' in alone <= second <= alone + 1) /\
  (forall acc data w', accepts program_id pk acc data (Instruction.Withdraw (a + b)) w w' ->
     let once := vault_amount pk w - vault_amount pk w' in both <= once <= both + 1).
Proof.
  intros Hb Ht Ha1 He Ev Ha2 second both.
  destruct (accepts_step _ _ _ _ _ _ Hb Ha1) as (_ & _ & Hb1 & _).
  destruct (environment_backed _ _ _ Hb1 He) as [Hb1' Ep].
  destruct (accepted_ledger _ _ _ _ _ _ Hb Ha1) as (Hp & Hv & Hr & Hi & _ & clk & j & Hc & Hs1).
  destruct (accepted_ledger _ _ _ _ _ _ Hb1' Ha2) as (Hp2 & Hv2 & Hr2 & Hi2 & _ & clk2 & j2 & Hc2 & Hs2).
  apply plain_withdraw in Hs1 as (La & Lv & V1 & S1 & R1 & M1 & T1); [|done..].
  apply plain_withdraw in Hs2 as (Lb & _ & V2 & _); [|first [done | by rewrite Ep]..].
  cbn [ledger_of lg_vault lg_pool] in *. rewrite Ep, Ev, S1, M1, R1, V1 in *.
  set (s := sp_total_lp_supply (pool_at pk w)) in *.
  set (v := if sp_pool_mode (pool_at pk w) <=? 1 then vault_amount pk w else raw_value (pool_at pk w)) in *.
  set (c1 := a * (v + 1) / (s + 1)) in *.
  assert (E : (if sp_pool_mode (pool_at pk w) <=? 1 then vault_amount pk w - c1 else v - c1) = v - c1)
    by (subst v; by destruct (_ <=? 1)).
  rewrite E in V2.
  destruct (withdraw_in_a_row v s a b Lv ltac:(lia) ltac:(lia) ltac:(lia)) as [H1 H2].
  fold c1 in H1, H2. subst second both.
  split; intros acc data w' Ha.
  - destruct (accepted_ledger _ _ _ _ _ _ Hb Ha) as (_ & _ & _ & _ & _ & clk' & j' & Hc' & Hs').
    apply plain_withdraw in Hs' as (_ & _ & V' & _); [|done..]. cbn [ledger_of lg_vault] in V'.
    fold s v in V'. cbn zeta. lia.
  - destruct (accepted_ledger _ _ _ _ _ _ Hb Ha) as (_ & _ & _ & Hi' & _ & clk' & j' & Hc' & Hs').
    apply plain_withdraw in Hs' as (_ & _ & V' & _); [|done..]. cbn [ledger_of lg_vault] in V'.
    fold s v in V'. cbn zeta. lia.
Qed.
End Treasury.

(** ** On the markets *)

#[local] Existing Instance sim.
#[local] Existing Instance sim_build.
#[local] Existing Instance sim_laws_hold.

Lemma flush_moves_exactly_the_amount_witness :
  vault_amount k_pool (run (take 3 market)) = 550000 /\
  vault_amount k_pool (run (take 4 market)) = vault_amount k_pool (run (take 3 market)) - 100000.
Proof.
  split; [by vm_compute|].
  destruct (flush_moves_exactly_the_amount k_pool _ _ _ _ _ (market_backed 2)
              (market_accepts 3 _ _ eq_refl)) as (_ & _ & _ & _ & H & _). exact H.
Defined.

Lemma insurance_comes_back_in_full_witness :
  raw_value (pool_at k_pool (run (take 5 market)))
    = raw_value (pool_at k_pool (run (take 4 market))) + 40000 /\
  wrapper_recoverable (pool_at k_pool (run (take 5 market))) = 100000 /\
  wrapper_recoverable (pool_at k_pool (run (take 6 market)))
    = wrapper_recoverable (pool_at k_pool (run (take 5 market))) - 60000.
Proof.
  split_and!; [|by vm_compute|].
  - destruct (insurance_comes_back_in_full k_pool _ _ _ 40000 _ _ (market_backed 3)
                (market_accepts 4 _ _ eq_refl) (or_introl eq_refl)) as (_ & _ & H & _). exact H.
  - destruct (insurance_comes_back_in_full k_pool _ _ _ 60000 _ _ (market_backed 4)
                (market_accepts 5 _ _ eq_refl) (or_intror eq_refl))
      as (_ & _ & _ & _ & _ & _ & _ & _ & _ & _ & H). by destruct (H eq_refl) as (_ & _ & H').
Defined.

(** Bob's withdrawal leaves the others' price no lower. *)
Lemma share_price_falls_only_by_flush_witness :
  price_rises (pool_at k_pool (run (take 9 market))) (pool_at k_pool (run (take 10 market))).
Proof.
  apply (share_price_falls_only_by_flush k_pool _ _ _ _ _ (market_backed 8)
           (market_accepts 9 _ _ eq_refl)); [by vm_compute|discriminate].
Defined.

(** The flush that eats into the junior tranche. *)
Lemma tranche_books_stay_solvent_witness :
  let p := pool_at k_pool (run (take 6 tranches)) in
  let p' := pool_at k_pool (run (take 7 tranches)) in
  raw_value p = 153000 /\ raw_value p' = 73000 /\ junior_balance p = 51500 /\ tranche_ok p'.
Proof.
  cbn zeta. split_and!; [by vm_compute..|].
  apply (tranche_books_stay_solvent k_pool _ _ _ _ _ (tranches_backed 5) (tranches_accepts 6 _ _ eq_refl)).
  - intros j. by vm_compute.
  - split; [by vm_compute..|intros H; vm_compute in H; discriminate H|by vm_compute].
Defined.

(** Bob deposits 50000 into the untouched market and takes them out again. *)
Definition bounce : list Event :=
  take 3 market ++ [Time 1000 2; Tx acc_bob_withdraw (Instruction.Withdraw 50000)].

Lemma bounce_runs : eventsb bounce genesis_world = true.
Proof. by vm_compute. Qed.

Lemma deposit_then_withdraw_gains_nothing_witness :
  vault_amount k_pool (run (take 2 market)) <= vault_amount k_pool (run bounce) /\
  balance (run bounce) k_bob_ata = 1000000.
Proof.
  split; [|by vm_compute].
  destruct (deposit_then_withdraw_gains_nothing k_pool acc_bob_deposit
              (pack (Instruction.Deposit 50000)) acc_bob_withdraw (pack (Instruction.Withdraw 50000))
              50000 (run (take 2 market)) (run (take 3 market)) (run (take 4 bounce)) (run bounce))
    as [H _]; [..|exact H].
  - exact (market_backed 1).
  - by vm_compute.
  - left. by vm_compute.
  - exact (market_accepts 2 _ _ eq_refl).
  - apply (eventb_step (Time 1000 2) (run (take 3 market))). by vm_compute.
  - by vm_compute.
  - exact (run_accepts 4 bounce acc_bob_withdraw (Instruction.Withdraw 50000) bounce_runs eq_refl).
Defined.

(** Bob's 50000 shares after the fee, in two parts, and the second part alone or
    both at once. *)
Definition bob_leaves (l : list Event) : list Event := take 9 market ++ l.
Definition bob_in_two : list Event :=
  bob_leaves [Tx acc_bob_withdraw (Instruction.Withdraw 20000); Time 1000 2;
              Tx acc_bob_withdraw (Instruction.Withdraw 30000)].
Definition bob_later_half : list Event := bob_leaves [Tx acc_bob_withdraw (Instruction.Withdraw 30000)].
Definition bob_at_once : list Event := bob_leaves [Tx acc_bob_withdraw (Instruction.Withdraw 50000)].

Lemma bob_in_two_runs : eventsb bob_in_two genesis_world = true.
Proof. by vm_compute. Qed.
Lemma bob_later_half_runs : eventsb bob_later_half genesis_world = true.
Proof. by vm_compute. Qed.
Lemma bob_at_once_runs : eventsb bob_at_once genesis_world = true.
Proof. by vm_compute. Qed.

Lemma run_time n l slot epoch :
  l !! n = Some (Time slot epoch) -> eventb (Time slot epoch) (run (take n l)) = true ->
  environment k_pool (run (take n l)) (run (take (S n) l)).
Proof.
  intros Hn H. rewrite (take_S_r _ _ _ Hn). unfold run at 2. rewrite fold_left_app.
  exact (eventb_step _ _ H).
Qed.

(** One transaction after the fee. *)
Lemma bob_leaves_accepts l lp :
  eventsb (bob_leaves (Tx acc_bob_withdraw (Instruction.Withdraw lp) :: l)) genesis_world = true ->
  accepts SIM_ID k_pool acc_bob_withdraw (pack (Instruction.Withdraw lp)) (Instruction.Withdraw lp)
    (run (take 9 market)) (run (bob_leaves [Tx acc_bob_withdraw (Instruction.Withdraw lp)])).
Proof. intros H. exact (run_accepts 9 _ acc_bob_withdraw (Instruction.Withdraw lp) H eq_refl). Qed.

Lemma withdrawals_cannot_be_timed_or_split_witness :
  let vault l := vault_amount k_pool (run l) in
  let second := vault (take 10 bob_in_two) - vault bob_in_two in
  let both := vault (take 9 market) - vault bob_in_two in
  let alone := vault (take 9 market) - vault bob_later_half in
  let once := vault (take 9 market) - vault bob_at_once in
  (alone <= second <= alone + 1 /\ both <= once <= both + 1) /\
  (second, both, alone, once) = (30300, 50499, 30299, 50499).
Proof.
  cbn zeta. split; [|by vm_compute].
  destruct (withdrawals_cannot_be_timed_or_split k_pool acc_bob_withdraw
              (pack (Instruction.Withdraw 20000)) acc_bob_withdraw (pack (Instruction.Withdraw 30000))
              20000 30000 (run (take 9 market)) (run (take 10 bob_in_two))
              (run (take 11 bob_in_two)) (run bob_in_two)) as [H1 H2].
  - exact (market_backed 8).
  - by vm_compute.
  - exact (bob_leaves_accepts _ 20000 bob_in_two_runs).
  - apply (run_time 10 bob_in_two 1000 2); [reflexivity|by vm_compute].
  - by vm_compute.
  - exact (run_accepts 11 bob_in_two acc_bob_withdraw (Instruction.Withdraw 30000) bob_in_two_runs eq_refl).
  - split.
    + exact (H1 _ _ _ (bob_leaves_accepts _ 30000 bob_later_half_runs)).
    + exact (H2 _ _ _ (bob_leaves_accepts _ 50000 bob_at_once_runs)).
Defined.
