(* ===== verification/Settlement.v ===== *)
(** * The books of one step

    Properties of the routines on the record: fee accrual, the split of the
    value between the tranches, the high-water-mark floor, the exit of the last
    junior holder, the dead shares of the first deposit, and that a holder of a
    healthy pool can always withdraw. *)

From S2P Require Import Prelude Errors Math State PoolFacts Instruction Runtime SplToken Cpi Guards.
From S2P Require Import Fees Deposit Withdraw Insurance Admin Proxy Init Processor Ledger.
From S2P Require Import LedgerFacts LedgerInv Laws Backing BackingSteps BackingLp BackingInit.
From S2P Require Import Safety Sim SimLaws Scenario Run.

(** The value as the code reads it. *)
Lemma total_pool_value_raw p : u64 (raw_value p) -> total_pool_value p = Some (raw_value p).
Proof. intros H. by apply total_pool_value_Some. Qed.

(** C23: fee accrual. When [accrue_fees_inner] succeeds on a balance, the pool's
    value becomes the larger of the value and the balance (unchanged while there
    are no shares), the whole increase is booked as fees, the junior tranche gets
    between none and all of it and nothing unless it has shares, no other total
    and no configuration moves, and accruing again on the same balance changes
    nothing. *)
Theorem accrual_books_the_surplus_once p bal q :
  wf_pool p -> u64 bal -> accrue_fees_inner p bal = Ok q ->
  raw_value q = (if 0 <? sp_total_lp_supply p then Z.max (raw_value p) bal else raw_value p) /\
  sp_total_fees_earned q = sp_total_fees_earned p + (raw_value q - raw_value p) /\
  junior_balance p <= junior_balance q <= junior_balance p + (raw_value q - raw_value p) /\
  (distributing p = false -> junior_balance q = junior_balance p) /\
  sp_total_lp_supply q = sp_total_lp_supply p /\ junior_total_lp q = junior_total_lp p /\
  net_loss q = net_loss p /\ config q = config p /\ accrue_fees_inner q bal = Ok q.
Proof.
  intros Hp Hb H. pose proof (accrue_config _ _ _ Hp Hb H) as Hcfg.
  destruct (accrue_frame _ _ _ Hp Hb H) as (Wq & _ & N & S & J & _ & _ & V).
  destruct (accrue_fees_inner_inv _ _ _ Hp Hb H) as (pv & Hpv & Hq).
  pose proof (raw_value_u64_bounds _ _ Hpv) as [Hpu Hpe].
  assert (Uq : u64 (raw_value q)) by (rewrite V; destruct (0 <? _); width_lia).
  assert (Hidle : accrue_fees_inner q bal = Ok q).
  { eapply accrue_idle; [by apply total_pool_value_raw|]. rewrite V, S.
    destruct (Z.ltb_spec 0 (sp_total_lp_supply p)); [left|right]; lia. }
  destruct Hq as [[Hi ->]|(Hlt & Hs & Hfu & Hacc)].
  { split_and!; try done; lia. }
  assert (Ed : raw_value q - raw_value p = bal - pv).
  { rewrite V. destruct (Z.ltb_spec 0 (sp_total_lp_supply p)); lia. }
  rewrite Ed. destruct (distributing p) eqn:D.
  - destruct Hacc as (senior & jf & _ & _ & Hjf & Hju & _ & ->).
    split_and!; try done; pool_simpl; try lia.
  - subst q. split_and!; try done; pool_simpl; lia.
Qed.

(** C24: the two tranches share the value exactly. On books that satisfy the
    tranche invariant, whenever the value can be read the senior value can, it and
    the effective junior balance add up to the value, and losses hit the junior
    tranche first: while the outstanding loss is within the junior balance the
    senior tranche has what it would have without the loss; beyond that the junior
    tranche is at zero and the senior tranche has all that is left. *)
Theorem tranches_share_the_value p v :
  wf_pool p -> tranche_ok p -> total_pool_value p = Some v ->
  exists s, senior_balance p = Some s /\ effective_junior_balance p + s = v /\
    (net_loss p <= junior_balance p -> s = v + net_loss p - junior_balance p) /\
    (junior_balance p <= net_loss p -> effective_junior_balance p = 0 /\ s = v).
Proof.
  intros Hp Hok Hv. destruct (tranche_solvent_senior p v Hp (tk_solvent _ Hok) Hv) as [s Hs].
  pose proof (tranche_values_sum _ _ _ Hv Hs) as Hsum.
  rewrite effective_junior_balance_eq in * by done.
  exists s. split_and!; [done|done|lia|lia].
Qed.

(** Within its epoch a refresh does not lower the mark. *)
Lemma refresh_raises_mark p clk v q m :
  wf_pool p -> u64 (clock_epoch clk) -> u64 v -> refresh_hwm (clock_epoch clk) v p = (q, m) ->
  clock_epoch clk = hwm_last_epoch p -> epoch_high_water_tvl p <= epoch_high_water_tvl q.
Proof.
  intros Hp He Hv Hr Hep.
  destruct (refresh_hwm_spec _ _ _ _ _ Hp He Hv Hr) as (_ & <- & _ & Hsame & _).
  rewrite Hsame by done. lia.
Qed.

(** The check with the floor on. *)
Lemma hwm_floor_on p clk c v :
  wf_pool p -> u64 (clock_epoch clk) -> 0 <= c <= v -> hwm_floor_bps p <= 10000 ->
  hwm_enabled p = true -> total_pool_value p = Some v ->
  let m := if clock_epoch clk =? hwm_last_epoch p then Z.max v (epoch_high_water_tvl p) else v in
  if m * hwm_floor_bps p / 10000 <=? v - c
  then exists q, enforce_hwm_floor p clk c false = Ok q /\
                 epoch_high_water_tvl q = m /\ hwm_last_epoch q = clock_epoch clk
  else enforce_hwm_floor p clk c false = Err (stake_err WithdrawalBelowHwmFloor).
Proof.
  intros Hp He Hc Hbps Hon Hv. cbn zeta. pose proof (raw_value_u64_bounds _ _ Hv) as [Hu _].
  unfold enforce_hwm_floor. rewrite Hon, Hv. cbn [andb negb ok_or]. rewrite bind_of_Ok.
  destruct (refresh_hwm (clock_epoch clk) v p) as [q m] eqn:Hr.
  pose proof (refresh_hwm_only _ _ _ _ _ Hp He Hu Hr) as (Wq & _ & _ & _ & _ & _ & _ & _ & _ & Eb & _).
  destruct (refresh_hwm_spec _ _ _ _ _ Hp He Hu Hr) as (Hle & Hm & Hep & Hsame & Hnew & _).
  replace (if clock_epoch clk =? hwm_last_epoch p then Z.max v (epoch_high_water_tvl p) else v) with m
    by (destruct (Z.eqb_spec (clock_epoch clk) (hwm_last_epoch p)); auto).
  assert (Es : checked_sub v c = Some (v - c)) by (apply checked_sub_Some; lia).
  assert (Um : u64 m) by (rewrite Hm; by apply u64_epoch_high_water_tvl).
  assert (Ub : 0 <= hwm_floor_bps p) by (pose proof (u16_hwm_floor_bps p Hp); width_lia).
  pose proof (hwm_withdrawal_allowed_spec (v - c) m (hwm_floor_bps p) Um (conj Ub Hbps)) as Hal.
  rewrite Es, Eb. cbn [ok_or]. rewrite bind_of_Ok.
  destruct (Z.leb_spec (m * hwm_floor_bps p / 10000) (v - c)) as [Hf|Hf].
  - rewrite (proj2 Hal Hf). by exists q.
  - destruct (hwm_withdrawal_allowed _ _ _); [|done]. destruct Hal as [Hal _]. specialize (Hal eq_refl). lia.
Qed.

(** C25: the high-water-mark floor decides a withdrawal. [c] is the payout, [v] the
    value, [j] whether the record is junior. With the floor off, or for a fully
    wiped junior exit (tranches on, a junior record, an effective junior balance of
    zero, a payout of zero), the check passes and writes nothing. Otherwise, with
    the floor at most 100%, the payout passes if and only if it leaves at least the
    floor's share of the mark; the mark is the larger of [v] and the stored mark
    when that is of this epoch, and [v] in a new epoch; on success the mark and the
    epoch are stored, and the error is WithdrawalBelowHwmFloor. Deposits and
    withdrawals do not lower the stored mark within an epoch; a flush lowers it by
    the amount flushed, to zero at the least. *)
Theorem hwm_floor_decides p clk j c v :
  wf_pool p -> u64 (clock_epoch clk) -> 0 <= c <= v -> hwm_floor_bps p <= 10000 ->
  total_pool_value p = Some v ->
  let check := enforce_hwm_floor p clk c (is_fully_wiped_junior_exit p j c) in
  let wiped := tranche_enabled p && j && (effective_junior_balance p =? 0) && (c =? 0) in
  let m := if clock_epoch clk =? hwm_last_epoch p then Z.max v (epoch_high_water_tvl p) else v in
  (if negb (hwm_enabled p) || wiped then check = Ok p
   else if m * hwm_floor_bps p / 10000 <=? v - c
   then exists q, check = Ok q /\
                  epoch_high_water_tvl q = m /\ hwm_last_epoch q = clock_epoch clk
   else check = Err (stake_err WithdrawalBelowHwmFloor)) /\
  (forall q, check = Ok q \/ refresh_mark p clk = Ok q -> clock_epoch clk = hwm_last_epoch p ->
     epoch_high_water_tvl p <= epoch_high_water_tvl q) /\
  (forall a q, u64 a -> flush_totals p a = Ok q ->
     epoch_high_water_tvl q = Z.max 0 (epoch_high_water_tvl p - a)).
Proof.
  intros Hp He Hc Hbps Hv check wiped m. pose proof (raw_value_u64_bounds _ _ Hv) as [Hu _].
  split_and!.
  - subst check. unfold is_fully_wiped_junior_exit. fold wiped.
    destruct wiped; [rewrite orb_true_r; unfold enforce_hwm_floor; by rewrite andb_false_r|].
    rewrite orb_false_r. destruct (hwm_enabled p) eqn:Hon; [by apply hwm_floor_on|].
    unfold enforce_hwm_floor. by rewrite Hon.
  - intros q H Hep. subst check.
    assert (Hq : q = p \/ exists m', refresh_hwm (clock_epoch clk) v p = (q, m')).
    { destruct H as [H|H]; revert H.
      - unfold enforce_hwm_floor.
        destruct (hwm_enabled p && negb _); [|intros [= <-]; by left].
        rewrite Hv; cbn [ok_or]; rewrite bind_of_Ok; destruct (refresh_hwm _ _ _) as [q' m'].
        intros (x & _ & H)%bind_Ok. destruct (hwm_withdrawal_allowed _ _ _); [|done].
        injection H as <-. eauto.
      - unfold refresh_mark. destruct (hwm_enabled p); [|intros [= <-]; by left].
        rewrite Hv; cbn [ok_or]; rewrite bind_of_Ok; destruct (refresh_hwm _ _ _) as [q' m'].
        intros [= <-]. eauto. }
    destruct Hq as [->|[m' Hr]]; [done|by eapply refresh_raises_mark].
  - intros a q Ha H. apply flush_totals_inv in H as (_ & _ & _ & _ & _ & _ & _ & _ & _ & _ & ->); done.
Qed.

Lemma debit_junior_recovered p lp c q :
  debit_junior p lp c = Ok q ->
  sp_total_recovered_from_wrapper q = sp_total_recovered_from_wrapper p.
Proof.
  unfold debit_junior, realize_junior_loss. intros H. inv_ok_step H. destruct (_ =? 0).
  - inv_ok_step H. injection H as <-. destruct (0 <? _); [|by injection E0 as <-].
    destruct (0 <? _); [|by injection E0 as <-]. inv_ok E0. by injection E0 as <-.
  - inv_ok_step H. by injection H as <-.
Qed.

(** C26: the last junior exit. On a pool that has not got back more than it
    flushed, when a junior withdrawal takes the tranche's last shares, its balance goes to zero, the value is untouched by the settlement, and
    the part of the outstanding loss the tranche had absorbed, at most its balance,
    is written off once: added to the realized loss and taken out of the
    outstanding loss and of what the wrapper still owes. Whatever junior balance a
    later depositor brings then bears only the rest of the loss. *)
Theorem last_junior_exit_writes_off_its_loss p lp c q :
  wf_pool p -> u64 lp -> u64 c -> lp = junior_total_lp p ->
  p.(sp_total_returned) <= p.(sp_total_flushed) ->
  debit_junior p lp c = Ok q ->
  let lost := Z.min (junior_balance p) (net_loss p) in
  junior_total_lp q = 0 /\ junior_balance q = 0 /\ raw_value q = raw_value p /\
  realized_junior_loss q = realized_junior_loss p + lost /\
  net_loss q = net_loss p - lost /\
  wrapper_recoverable q = Z.max 0 (wrapper_recoverable p - lost) /\
  (forall x, u64 x ->
     effective_junior_balance (set_junior_balance x q) = Z.max 0 (x - (net_loss p - lost))).
Proof.
  intros Hp Hlp Hc E Hrf H lost. fold (forfeited p) in lost.
  pose proof (debit_junior_recovered _ _ _ _ H) as Hrec.
  apply debit_junior_inv in H as (Wq & _ & V & _ & _ & J & _ & F & [?|(_ & B & R & L)]);
    [lia| |done|width_lia|width_lia].
  assert (N : net_loss q = net_loss p - lost).
  { unfold net_loss. rewrite F, R. subst lost. unfold forfeited, net_loss. width_lia. }
  split_and!; try done; [lia| |].
  - rewrite !wrapper_recoverable_eq, F, L, Hrec. subst lost. unfold forfeited.
    pose proof (u64_junior_balance p Hp).
    destruct (wf_totals _ Hp) as (_ & _ & ? & ? & _ & _ & ? & _). unfold net_loss. width_lia.
  - intros x Hx. rewrite effective_junior_balance_eq by auto with stake.
    change (net_loss (set_junior_balance x q)) with (net_loss q). rewrite N. pool_simpl. done.
Qed.

(** Accrual on a pool without tranches. *)
Lemma ledger_accrue_plain p vault :
  u64 vault -> 0 <= raw_value p <= vault -> tranche_enabled p = false ->
  0 < sp_total_lp_supply p ->
  sp_total_fees_earned p + (vault - raw_value p) <= U64_MAX ->
  exists f, let p1 := p <| sp_total_fees_earned := f |> in
    ledger_accrue p vault = Ok p1 /\
    raw_value p1 = if sp_pool_mode p <=? 1 then vault else raw_value p.
Proof.
  intros Hb Hv Ht Hs Hf. assert (Hu : u64 (raw_value p)) by width_lia.
  assert (Hsame : p <| sp_total_fees_earned := sp_total_fees_earned p |> = p) by (by destruct p).
  unfold ledger_accrue. destruct (sp_pool_mode p <=? 1).
  2:{ exists (sp_total_fees_earned p). cbn zeta. by rewrite Hsame. }
  destruct (Z.ltb_spec (raw_value p) vault) as [Hlt|Hge].
  - exists (sp_total_fees_earned p + (vault - raw_value p)). split.
    + unfold accrue_fees_inner. rewrite (total_pool_value_raw p Hu). cbn [ok_or]. rewrite bind_of_Ok.
      rewrite (proj2 (Z.ltb_lt _ _) Hlt), (proj2 (Z.ltb_lt _ _) Hs), Ht. cbn [andb].
      rewrite bind_of_Ok. replace (checked_add _ _ _) with
        (Some (sp_total_fees_earned p + (vault - raw_value p))); [done|].
      symmetry. by apply checked_add_Some.
    + unfold raw_value. upd_simpl. fold (raw_value p).
      change (realized_junior_loss (p <| sp_total_fees_earned := _ |>)) with (realized_junior_loss p).
      unfold raw_value. lia.
  - exists (sp_total_fees_earned p). cbn zeta. rewrite Hsame. split; [|lia].
    eapply accrue_idle; [by apply total_pool_value_raw|]. by left.
Qed.

(** What the ledger grants a holder of a pool without tranches, with the floor
    off: the shares' part of the value, whatever donations the vault received,
    unless a running total would pass 2^64 - 1. *)
Lemma ledger_pays_holder p vault supply clk j lp :
  let v := if sp_pool_mode p <=? 1 then vault else raw_value p in
  let c := lp * (v + 1) / (sp_total_lp_supply p + 1) in
  wf_pool p -> u64 vault -> 0 <= raw_value p <= vault ->
  tranche_enabled p = false -> hwm_enabled p = false ->
  0 < lp <= sp_total_lp_supply p -> lp <= supply -> 0 < c ->
  sp_total_fees_earned p + (vault - raw_value p) <= U64_MAX ->
  sp_total_withdrawn p + vault <= U64_MAX ->
  exists q, ledger_withdraw clk j lp (mkLedger p vault supply)
            = Ok (mkLedger q (vault - c) (supply - lp)) /\
            raw_value q = v - c /\ sp_total_lp_supply q = sp_total_lp_supply p - lp.
Proof.
  intros v c Hp Hb Hv Ht Hh Hlp Hsup Hc Hfee Hwd.
  destruct (ledger_accrue_plain p vault Hb Hv Ht) as (f & Hac & Hv1); [lia|done|].
  set (p1 := p <| sp_total_fees_earned := f |>) in *. fold v in Hv1.
  assert (Uv : u64 v) by (subst v; destruct (sp_pool_mode p <=? 1); width_lia).
  destruct (wf_totals _ Hp) as (_ & Us & _).
  assert (Ulp : u64 lp) by width_lia.
  assert (Hvv : v <= vault) by (subst v; destruct (sp_pool_mode p <=? 1); lia).
  assert (Hcv : c <= v).
  { enough (c < v + 1) by lia. subst c. clearbody v. clear - Hlp Uv.
    apply Z.div_lt_upper_bound; [lia|]. unfold fits in Uv. nia. }
  assert (Hq : calc_collateral_for_withdraw (sp_total_lp_supply p) v lp = Some c).
  { apply calc_collateral_for_withdraw_Some; [done..|]. split_and!; [lia|done|width_lia]. }
  assert (Hw : withdrawal_value p1 j lp = Ok c).
  { unfold withdrawal_value. change (tranche_enabled p1) with (tranche_enabled p). rewrite Ht.
    cbn [andb]. unfold pool_calc_collateral_for_withdraw.
    rewrite (total_pool_value_raw p1), Hv1 by (by rewrite Hv1). cbn [mbind option_bind].
    change (sp_total_lp_supply p1) with (sp_total_lp_supply p). by rewrite Hq. }
  assert (Hd : debit_totals p1 lp c
               = Ok (p1 <| sp_total_withdrawn := sp_total_withdrawn p + c |>
                        <| sp_total_lp_supply := sp_total_lp_supply p - lp |>)).
  { apply debit_totals_Ok. split_and!; [|apply Hlp|done].
    change (sp_total_withdrawn p1) with (sp_total_withdrawn p). lia. }
  set (q := p1 <| sp_total_withdrawn := _ |> <| sp_total_lp_supply := _ |>) in *.
  exists q. split_and!.
  - unfold ledger_withdraw. rewrite (proj2 (Z.eqb_neq lp 0)) by lia. cbn [negb].
    rewrite Hac, bind_of_Ok, Hw, bind_of_Ok. rewrite (proj2 (Z.eqb_neq c 0)) by lia. cbn [andb negb].
    unfold enforce_hwm_floor. change (hwm_enabled p1) with (hwm_enabled p). rewrite Hh. cbn [andb].
    rewrite bind_of_Ok, (proj2 (Z.leb_le lp supply)), (proj2 (Z.leb_le c vault)) by lia. cbn [andb].
    unfold ledger_debit. rewrite Hd, !bind_of_Ok.
    change (tranche_enabled q) with (tranche_enabled p). by rewrite Ht.
  - rewrite <- Hv1. unfold raw_value, q. upd_simpl.
    change (realized_junior_loss q) with (realized_junior_loss p1).
    change (sp_total_withdrawn p) with (sp_total_withdrawn p1). lia.
  - done.
Qed.

(** ** On the markets *)

#[local] Existing Instance sim.
#[local] Existing Instance sim_build.
#[local] Existing Instance sim_laws_hold.

(** The market's record after the flush has come back, with a donation of 5500
    tokens in the vault, and the tranche market's before its last junior exit. *)
Definition flushed_pool : StakePool := pool_at k_pool (run (take 7 market)).
Definition junior_pool : StakePool := pool_at k_pool (run (take 9 tranches)).

Lemma wf_flushed_pool : wf_pool flushed_pool.
Proof. exact (backed_wf k_pool _ (market_backed 6)). Qed.
Lemma wf_junior_pool : wf_pool junior_pool.
Proof. exact (backed_wf k_pool _ (tranches_backed 8)). Qed.
#[local] Opaque flushed_pool junior_pool.

Lemma is_ok_Ok {E A} (r : result E A) : is_ok r = true -> exists a, r = Ok a.
Proof. destruct r as [a|]; [by exists a|done]. Qed.

Lemma accrual_books_the_surplus_once_witness :
  exists q, accrue_fees_inner flushed_pool 555500 = Ok q /\ raw_value q = 555500 /\
            accrue_fees_inner q 555500 = Ok q.
Proof.
  assert (Hb : u64 555500) by width_lia.
  destruct (is_ok_Ok (accrue_fees_inner flushed_pool 555500)) as [q Hq]; [by vm_compute|].
  destruct (accrual_books_the_surplus_once flushed_pool 555500 q wf_flushed_pool Hb Hq)
    as (V & _ & _ & _ & _ & _ & _ & _ & H).
  exists q. split; [exact Hq|]. split; [|exact H]. rewrite V. by vm_compute.
Defined.

(** 73000 tokens of value, an outstanding loss of 80000 against a junior balance
    of 51500: the senior tranche has everything. *)
Lemma tranches_share_the_value_witness :
  exists s, senior_balance junior_pool = Some s /\ effective_junior_balance junior_pool + s = 73000.
Proof.
  assert (Hok : tranche_ok junior_pool).
  { split; [by vm_compute..|intros H; vm_compute in H; discriminate H|by vm_compute]. }
  assert (Hv : total_pool_value junior_pool = Some 73000) by by vm_compute.
  destruct (tranches_share_the_value junior_pool 73000 wf_junior_pool Hok Hv) as (s & H1 & H2 & _).
  exact (ex_intro _ s (conj H1 H2)).
Defined.

(** With a floor of half the mark, 300000 tokens may not leave 550000; the last
    junior holder, wiped out, leaves with nothing whatever the floor. *)
Lemma hwm_floor_decides_witness :
  (let p := apply_hwm_config true 5000 flushed_pool in
   enforce_hwm_floor p (mkClock 7 9) 300000 (is_fully_wiped_junior_exit p false 300000)
     = Err (stake_err WithdrawalBelowHwmFloor)) /\
  (let p := apply_hwm_config true 9000 junior_pool in
   enforce_hwm_floor p (mkClock 7 9) 0 (is_fully_wiped_junior_exit p true 0) = Ok p).
Proof.
  assert (He : u64 (clock_epoch (mkClock 7 9))) by (cbn; width_lia).
  split; cbn zeta.
  - set (p := apply_hwm_config true 5000 flushed_pool).
    assert (Hw : wf_pool p) by (apply apply_hwm_config_neutral; [exact wf_flushed_pool|width_lia]).
    assert (Hb : hwm_floor_bps p <= 10000) by by vm_compute.
    assert (Hv : total_pool_value p = Some 550000) by by vm_compute.
    destruct (hwm_floor_decides p (mkClock 7 9) false 300000 550000 Hw He ltac:(lia) Hb Hv) as [H _].
    assert (E1 : negb (hwm_enabled p) || (tranche_enabled p && false &&
              (effective_junior_balance p =? 0) && (300000 =? 0)) = false) by by vm_compute.
    assert (E2 : ((if clock_epoch (mkClock 7 9) =? hwm_last_epoch p
                   then Z.max 550000 (epoch_high_water_tvl p) else 550000)
                  * hwm_floor_bps p / 10000 <=? 550000 - 300000) = false) by by vm_compute.
    rewrite E1, E2 in H. exact H.
  - set (p := apply_hwm_config true 9000 junior_pool).
    assert (Hw : wf_pool p) by (apply apply_hwm_config_neutral; [exact wf_junior_pool|width_lia]).
    assert (Hb : hwm_floor_bps p <= 10000) by by vm_compute.
    assert (Hv : total_pool_value p = Some 73000) by by vm_compute.
    destruct (hwm_floor_decides p (mkClock 7 9) true 0 73000 Hw He ltac:(lia) Hb Hv) as [H _].
    assert (E1 : negb (hwm_enabled p) || (tranche_enabled p && true &&
              (effective_junior_balance p =? 0) && (0 =? 0)) = true) by by vm_compute.
    rewrite E1 in H. exact H.
Defined.

(** The last 40000 junior shares: the 51500 the tranche had lost are written off. *)
Lemma last_junior_exit_writes_off_its_loss_witness :
  exists q, debit_junior junior_pool 40000 0 = Ok q /\ realized_junior_loss q = 51500.
Proof.
  assert (Hlp : u64 40000) by width_lia. assert (Hc : u64 0) by width_lia.
  assert (Hj : 40000 = junior_total_lp junior_pool) by by vm_compute.
  assert (Hr : sp_total_returned junior_pool <= sp_total_flushed junior_pool) by by vm_compute.
  destruct (is_ok_Ok (debit_junior junior_pool 40000 0)) as [q Hq]; [by vm_compute|].
  destruct (last_junior_exit_writes_off_its_loss junior_pool 40000 0 q wf_junior_pool Hlp Hc Hj Hr Hq)
    as (_ & _ & _ & H & _).
  exists q. split; [exact Hq|]. rewrite H. by vm_compute.
Defined.
