(* ===== verification/Serving.v ===== *)
(** * Steps that succeed

    What Exit.v, Join.v and Found.v share: on a backed pool each guard of the
    handlers passes when the accounts are the ones it looks for, and each call
    out is one [TokenProgramServes] or [SystemServes] covers. *)

From S2P Require Import Prelude Errors Math State PoolFacts Instruction Runtime SplToken Cpi Guards.
From S2P Require Import Fees Deposit Withdraw Insurance Admin Proxy Init Processor Ledger.
From S2P Require Import LedgerFacts LedgerInv Laws Backing BackingSteps BackingLp BackingInit.
From S2P Require Import Safety Sim SimLaws SimServes Scenario Run Config.

(** A computation returns: each guard holds, each step returns. *)
Ltac serve :=
  repeat lazymatch goal with
  | |- (if _ then _ else Err _) = Ok _ => apply ensure_Ok; split
  | |- mbind _ _ = Ok _ => apply bind_Ok; eexists; split
  | |- Ok _ = Ok _ => reflexivity
  | |- key_eqb _ _ = true => apply key_eqb_eq
  | |- negb (bool_decide _) = true => apply negb_true_iff, bool_decide_eq_false
  | |- negb (key_eqb _ _) = true => apply negb_true_iff, key_eqb_neq
  end.

Lemma not_held (pk k : Pubkey) : k <> pk -> k ∉ [pk].
Proof. set_solver. Qed.

Section Serving.
Context {RT : Runtime} {BC : BuildConfig} {program_id : Pubkey} {RL : RuntimeLaws program_id}.
Context (pk : Pubkey) (w : World) (Hbk : backed program_id pk w).
#[local] Abbreviation p := (pool_at pk w).

Let HB : bound program_id pk w := bk_bound _ _ _ Hbk.

(** ** The pool's account *)

(** A token or mint account is not the pool's. *)
Lemma spl_not_pool k : acc_owner (get w k) = SplToken.id -> k <> pk.
Proof. intros Ho ->. rewrite (bd_owner _ _ _ HB) in Ho. by apply law_id_spl. Qed.

Lemma live_token_not_mint k :
  live_mint (get w (sp_lp_mint p)) -> live_token (get w k) -> k <> sp_lp_mint p.
Proof.
  intros (_ & Hl' & _) (_ & Hl & _) ->. rewrite Hl' in Hl. discriminate Hl.
Qed.

(** The opening of the handlers anyone may call: signature, pool account, record. *)
Lemma open_serves user ai :
  user.(ai_is_signer) = true -> ai.(ai_key) = pk -> ai.(ai_is_writable) = true ->
  (_ ← require_signer user;
   _ ← validate_account_not_empty [] ai w;
   _ ← validate_account_owner ai program_id w;
   _ ← validate_account_writable ai;
   open_pool [] ai w) = Ok p.
Proof.
  intros Hs Hk Hw. destruct (pool_data_live pk w HB ai Hk) as (_ & _ & E). serve.
  - by apply require_signer_Ok.
  - unfold validate_account_not_empty. by rewrite E.
  - apply validate_account_owner_Ok. rewrite Hk. apply HB.
  - by apply validate_account_writable_Ok.
  - by apply (open_pool_live pk w HB).
Qed.

(** ** Token accounts *)

(** The checks a token account passes. *)
Lemma check_token_account_serves ai spl mint e o :
  live_token (get w ai.(ai_key)) -> token_mint (get w ai.(ai_key)) = mint ->
  (forall k, o = Some k -> token_owner (get w ai.(ai_key)) = k) ->
  check_token_account [pk] ai spl mint e o w = Ok tt.
Proof.
  intros (Ho & Hl & _) Hm Hk. unfold check_token_account. serve.
  - apply orb_true_iff. right. by apply key_eqb_eq.
  - apply try_borrow_data_Ok. split; [by apply not_held, spl_not_pool|done].
  - unfold ai_data. lia.
  - apply index_range_in; unfold ai_data; rewrite ?Hl; unfold ACCOUNT_LEN; lia.
  - exact Hm.
  - destruct o as [k|]; serve; [|by apply Hk].
    apply index_range_in; unfold ai_data; rewrite ?Hl; unfold ACCOUNT_LEN; lia.
Qed.

Lemma vault_balance_serves ai :
  live_token (get w ai.(ai_key)) ->
  vault_balance [pk] ai w = Ok (token_amount (get w ai.(ai_key))).
Proof.
  intros (Ho & Hl & Hs). unfold vault_balance. serve.
  - exact Ho.
  - apply try_borrow_data_Ok. split; [by apply not_held, spl_not_pool|done].
  - apply account_unpack_live. unfold ai_data. lia.
  - apply bool_decide_eq_true. cbn [ta_state]. unfold token_state in Hs. unfold ai_data. by rewrite Hs.
  - reflexivity.
Qed.

(** The accrual every deposit and withdrawal starts with is the ledger's. *)
Lemma pre_accrue_serves ai p1 :
  ai.(ai_key) = sp_vault p -> live_token (get w (sp_vault p)) ->
  ledger_accrue p (vault_amount pk w) = Ok p1 -> pre_accrue_fee_modes [pk] p ai w = Ok p1.
Proof.
  intros Hv Hlive. unfold ledger_accrue, pre_accrue_fee_modes. destruct (sp_pool_mode p <=? 1); [|done].
  intros Hac. rewrite vault_balance_serves; rewrite Hv; [exact Hac|exact Hlive].
Qed.
End Serving.

(** ** Making an account *)

Section Creating.
Context {RT : Runtime} {BC : BuildConfig} {program_id : Pubkey} {RL : RuntimeLaws program_id}.
Context {SS : SystemServes program_id}.

(** The payer's wallet and the unallocated address, funded beforehand or not. *)
Record creatable (payer t sp : AccountInfo) (space : Z) (w : World) : Prop := {
  cr_system : sp.(ai_key) = SYSTEM_PROGRAM_ID;
  cr_payer : payer.(ai_is_signer) = true /\ payer.(ai_is_writable) = true /\
    unallocated (get w payer.(ai_key)) /\ payer.(ai_key) <> t.(ai_key);
  cr_target : t.(ai_is_writable) = true /\ unallocated (get w t.(ai_key)) /\
    0 <= acc_lamports (get w t.(ai_key));
  cr_rent : forall r, rent_get w = Ok r ->
    0 <= rent_minimum_balance r space <= acc_lamports (get w payer.(ai_key));
}.

Lemma create_or_adopt_serves mb payer t sp o s seeds bump w :
  world_ok w -> payer.(ai_key) ∉ mb -> t.(ai_key) ∉ mb ->
  find_program_address seeds program_id = (t.(ai_key), bump) ->
  creatable payer t sp (Z.of_nat s) w ->
  exists w', create_or_adopt_pda mb t payer sp o (Z.of_nat s) (seeds ++ [[bump]]) w = Ok w'.
Proof.
  intros Hw Np Nt Hpda [Hs (Sp & Wp & Up & Hne) (Wt & Ut & Lt) Hrent].
  destruct (rent_served w) as [r Hr]. specialize (Hrent r Hr).
  unfold create_or_adopt_pda. rewrite Hr, bind_of_Ok. unfold ai_lamports.
  destruct (Z.eqb_spec (acc_lamports (get w (ai_key t))) 0) as [Hz|Hz].
  { by apply create_served. }
  set (need := rent_minimum_balance r (Z.of_nat s)) in *.
  assert (Hf : exists w1, (if acc_lamports (get w (ai_key t)) <? need then
      invoke mb (system_transfer (ai_key payer) (ai_key t) (need - acc_lamports (get w (ai_key t))))
        [payer; t; sp] w else Ok w) = Ok w1 /\ world_ok w1 /\ unallocated (get w1 (ai_key t))).
  { destruct (Z.ltb_spec (acc_lamports (get w (ai_key t))) need) as [Hlt|_]; [|by exists w].
    destruct (fund_served mb payer t sp (need - acc_lamports (get w (ai_key t))) w)
      as (w1 & H1 & [Eo Ed]); [done..|lia|].
    exists w1. split_and!; [exact H1|by eapply law_bytes|]. destruct Ut. split; congruence. }
  destruct Hf as (w1 & H1 & Hw1 & U1). rewrite H1, bind_of_Ok.
  destruct (allocate_served mb t sp s seeds bump w1) as (w2 & H2 & O2); [done..|].
  rewrite H2, bind_of_Ok. apply assign_served; [done| |done..|].
  - by eapply law_bytes.
  - unfold blank. rewrite (law_allocate _ _ _ _ _ _ _ H2). by apply Forall_replicate.
Qed.
End Creating.

(** Each condition of a concrete request, by running it. *)
Ltac each_by_running :=
  lazymatch goal with
  | |- _ /\ _ => split; each_by_running
  | |- live_token _ => unfold live_token; each_by_running
  | |- live_mint _ => unfold live_mint; each_by_running
  | |- minted_by _ _ => unfold minted_by; each_by_running
  | |- unallocated _ => unfold unallocated; each_by_running
  | |- unmade _ _ => unfold unmade; each_by_running
  | |- is_record _ _ _ => unfold is_record; each_by_running
  | |- let _ := _ in _ => cbv zeta; each_by_running
  | |- _ \/ _ => idtac
  | |- forall _, _ => idtac
  | |- exempt _ _ => idtac
  | |- _ <> _ => apply key_eqb_neq; by vm_compute
  | |- (_ <= _)%nat => apply Nat.leb_le; by vm_compute
  | |- _ => by vm_compute
  end.
