(* ===== verification/Exit.v ===== *)
(** * A holder can leave

    The other half of the refinement for Withdraw: whatever the ledger lets a
    holder withdraw, the program pays out. The caller's side of the bargain is
    [withdraw_request], the token program's is [TokenProgramServes]. *)

From S2P Require Import Prelude Errors Math State PoolFacts Instruction Runtime SplToken Cpi Guards.
From S2P Require Import Fees Deposit Withdraw Insurance Admin Proxy Init Processor Ledger.
From S2P Require Import LedgerFacts LedgerInv Laws Backing BackingSteps BackingLp BackingInit.
From S2P Require Import Safety Sim SimLaws SimServes Scenario Run Settlement Config Serving.

Section Exit.
Context {RT : Runtime} {BC : BuildConfig} {program_id : Pubkey} {RL : RuntimeLaws program_id}.
Context {TS : TokenProgramServes program_id}.

(** ** The caller *)

(** The accounts a holder passes and what they hold: the pool's own accounts as
    InitPool left them, the holder's two token accounts, the deposit record with
    enough shares on it and its cooldown over. *)
Record withdraw_request (pk : Pubkey) (a : WithdrawAccounts) (lp : Z) (clk : Clock) (w : World)
    : Prop := {
  wr_signer : (wa_user a).(ai_is_signer) = true;
  wr_user : (wa_user a).(ai_key) <> pk;
  wr_pool : (wa_pool_pda a).(ai_key) = pk /\ (wa_pool_pda a).(ai_is_writable) = true;
  wr_mint : (wa_lp_mint a).(ai_key) = sp_lp_mint (pool_at pk w) /\
    (wa_lp_mint a).(ai_is_writable) = true /\ live_mint (get w (sp_lp_mint (pool_at pk w)));
  wr_vault : (wa_vault a).(ai_key) = sp_vault (pool_at pk w) /\
    (wa_vault a).(ai_is_writable) = true /\ live_token (get w (sp_vault (pool_at pk w))) /\
    token_mint (get w (sp_vault (pool_at pk w))) = sp_collateral_mint (pool_at pk w);
  wr_mints : sp_lp_mint (pool_at pk w) <> sp_collateral_mint (pool_at pk w);
  wr_vault_auth : derive_vault_authority program_id pk
                    = ((wa_vault_auth a).(ai_key), sp_vault_authority_bump (pool_at pk w)) /\
    (wa_vault_auth a).(ai_key) <> pk;
  wr_token_program : (wa_token_program a).(ai_key) = SplToken.id;
  wr_lp_ata : let x := get w (wa_user_lp_ata a).(ai_key) in
    (wa_user_lp_ata a).(ai_is_writable) = true /\ live_token x /\
    token_mint x = sp_lp_mint (pool_at pk w) /\ token_owner x = (wa_user a).(ai_key) /\
    lp <= token_amount x;
  wr_ata : let x := get w (wa_user_ata a).(ai_key) in
    (wa_user_ata a).(ai_is_writable) = true /\ live_token x /\
    token_mint x = sp_collateral_mint (pool_at pk w) /\
    (wa_user_ata a).(ai_key) <> sp_vault (pool_at pk w) /\
    token_amount x + vault_amount pk w <= U64_MAX;
  wr_record : let k := (wa_deposit_pda a).(ai_key) in
    k = fst (derive_deposit_pda program_id pk (wa_user a).(ai_key)) /\ k <> pk /\
    is_record program_id k w /\ (wa_deposit_pda a).(ai_is_writable) = true;
  wr_entry : let d := deposit_at (wa_deposit_pda a).(ai_key) w in
    deposit_validate_discriminator d = true /\ sd_is_initialized d = 1 /\
    sd_user d = (wa_user a).(ai_key) /\ sd_pool d = pk /\ lp <= sd_lp_amount d /\
    saturating_add U64_MAX (sd_last_deposit_slot d) (sp_cooldown_slots (pool_at pk w))
      <= clk.(clock_slot);
  wr_clock : clock_from_account_info (wa_clock_sysvar a) w = Ok clk;
}.

(** ** The handler, step by step *)

Section Steps.
Context (pk : Pubkey) (a : WithdrawAccounts) (lp : Z) (clk : Clock) (w : World).
Context (Hbk : backed program_id pk w) (R : withdraw_request pk a lp clk w).
#[local] Abbreviation p := (pool_at pk w).
#[local] Abbreviation d := (deposit_at (wa_deposit_pda a).(ai_key) w).

Let HB : bound program_id pk w := bk_bound _ _ _ Hbk.
Let Hpool : (wa_pool_pda a).(ai_key) = pk := proj1 (wr_pool _ _ _ _ _ R).

Lemma mb_pk : Withdraw.mb_pool a = [pk].
Proof. unfold Withdraw.mb_pool. by rewrite Hpool. Qed.

#[local] Abbreviation spl_not_pool := (spl_not_pool pk w Hbk).

Lemma withdraw_open_serves : withdraw_open program_id a w = Ok p.
Proof. apply (open_serves pk w Hbk); apply R. Qed.

Lemma withdraw_token_guards_serves : withdraw_token_guards program_id a p w = Ok tt.
Proof.
  destruct (wr_mint _ _ _ _ _ R) as (Hm & _). destruct (wr_vault _ _ _ _ _ R) as (Hv & _).
  destruct (wr_lp_ata _ _ _ _ _ R) as (_ & Ll & Ml & Ol & _).
  destruct (wr_ata _ _ _ _ _ R) as (_ & La & Ma & Nv & _).
  unfold withdraw_token_guards, verify_token_program. rewrite Hpool.
  destruct (wr_vault_auth _ _ _ _ _ R) as [-> _]. serve; try done.
  - apply R.
  - rewrite mb_pk. apply check_token_account_serves; [done|done|done|by intros k [= <-]].
  - by rewrite Hv.
  - rewrite mb_pk. by apply check_token_account_serves.
Qed.

Lemma withdraw_record_guards_serves : withdraw_record_guards program_id a w = Ok tt.
Proof.
  destruct (wr_record _ _ _ _ _ R) as (Hk & Nk & [Ho Hl] & Hwr).
  unfold withdraw_record_guards. rewrite Hpool. destruct (derive_deposit_pda _ _ _) as [k b].
  serve; [exact Hk|exact Ho| | |by apply validate_account_writable_Ok].
  - apply data_len_Ok. split; [by rewrite mb_pk; apply (not_held pk)|done].
  - unfold ai_data. lia.
Qed.

(** The record as it reads before and after the calls of the token program. *)
Lemma open_record_serves w1 :
  own_frame (program_id := program_id) w w1 -> Withdraw.open_record a w1 = Ok d.
Proof.
  destruct (wr_record _ _ _ _ _ R) as (_ & Nk & [Ho Hl] & _). intros F.
  rewrite <- (own_frame_deposit w w1 _ F Ho). unfold Withdraw.open_record. serve.
  - apply try_borrow_data_Ok. split; [by rewrite mb_pk; apply (not_held pk)|done].
  - apply deposit_from_data_Ok. unfold ai_data, deposit_at. by destruct (F _ Ho) as [_ <-].
Qed.

Lemma check_record_serves : check_record a lp p d clk = Ok (is_junior_deposit d).
Proof.
  destruct (wr_entry _ _ _ _ _ R) as (Hd & Hi & Hu & Hp & Hlp & Hc).
  apply check_record_Ok. rewrite Hpool. by split_and!.
Qed.

Lemma withdraw_accrue_serves p1 :
  ledger_accrue p (vault_amount pk w) = Ok p1 ->
  pre_accrue_fee_modes (Withdraw.mb_pool a) p (wa_vault a) w = Ok p1.
Proof.
  destruct (wr_vault _ _ _ _ _ R) as (Hv & _ & Hlive & _). rewrite mb_pk.
  by apply (pre_accrue_serves pk w Hbk).
Qed.

(** The two calls, on a payout the vault can make. *)
Lemma burn_and_pay_serves q c :
  u64 lp -> u64 c -> (wa_vault_auth a).(ai_key) <> (wa_user a).(ai_key) ->
  sp_vault_authority_bump q = sp_vault_authority_bump p ->
  lp <= mint_amount pk w -> c <= vault_amount pk w ->
  exists w1, burn_and_pay program_id a lp q c w = Ok w1.
Proof.
  intros Hlp Hc Hua Hq Hls Hcv.
  destruct (wr_mint _ _ _ _ _ R) as (Hm & Wm & Lm). destruct (wr_vault _ _ _ _ _ R) as (Hv & Wv & Lv & Mv).
  destruct (wr_lp_ata _ _ _ _ _ R) as (Wl & Ll & Ml & Ol & Al).
  destruct (wr_ata _ _ _ _ _ R) as (Wa & La & Ma & Nv & Ua).
  destruct (wr_vault_auth _ _ _ _ _ R) as [Hva Nva].
  pose proof (bd_vault_auth _ _ _ HB) as Ov. unfold vault_auth_of in Ov. rewrite Hva in Ov. cbn [fst] in Ov.
  assert (Nlv : (wa_user_lp_ata a).(ai_key) <> sp_vault p) by (intros E; rewrite E in Ol; congruence).
  assert (Nla : (wa_user_ata a).(ai_key) <> (wa_user_lp_ata a).(ai_key)).
  { intros E. rewrite E, Ml in Ma. by apply (wr_mints _ _ _ _ _ R). }
  assert (Nm : forall k, live_token (get w k) -> k <> sp_lp_mint p).
  { intros k (_ & Hl & _) ->. destruct Lm as (_ & Hl' & _). rewrite Hl in Hl'. discriminate Hl'. }
  unfold burn_and_pay. rewrite Hpool, Hva. destruct (SplToken.burn _ _ _ _ _ _) as [ix|e] eqn:Hix; [|done].
  assert (Hb : exists wb, invoke (Withdraw.mb_pool a) ix
                 [wa_user_lp_ata a; wa_lp_mint a; wa_user a; wa_token_program a] w = Ok wb).
  { eapply burn_served; try done; try (rewrite Hm; done); [apply Hbk| |apply R].
    repeat constructor; rewrite mb_pk; apply (not_held pk); [by apply spl_not_pool, Ll| |apply R].
    rewrite Hm. by apply spl_not_pool, Lm. }
  destruct Hb as [wb Hb].
  assert (Fb : forall k, k <> (wa_user_lp_ata a).(ai_key) -> k <> sp_lp_mint p -> get wb k = get w k).
  { intros k H1 H2. apply (law_frame _ _ _ _ _ _ _ Hb).
    assert (writable_keys ix = [ai_key (wa_user_lp_ata a); ai_key (wa_lp_mint a)]) as ->
      by (by injection Hix as <-). rewrite Hm. by apply not_in_2. }
  rewrite !bind_of_Ok, Hb, bind_of_Ok, Hq, Z.eqb_refl.
  destruct (0 <? c); [|by eexists]. destruct (SplToken.transfer _ _ _ _ _ _) as [ix2|e] eqn:Hix2; [|done].
  assert (Ev : get wb (sp_vault p) = get w (sp_vault p)) by (apply Fb; [by apply not_eq_sym|by apply Nm]).
  assert (Ea : get wb (wa_user_ata a).(ai_key) = get w (wa_user_ata a).(ai_key)) by (apply Fb; auto).
  assert (Hmb : Forall (fun ai => ai.(ai_key) ∉ Withdraw.mb_pool a)
                  [wa_vault a; wa_user_ata a; wa_vault_auth a]).
  { repeat constructor; rewrite mb_pk; apply (not_held pk); [rewrite Hv; by apply spl_not_pool, Lv| |exact Nva].
    by apply spl_not_pool, La. }
  pose proof (law_bytes _ _ _ _ _ _ Hb (bk_world _ _ _ Hbk)) as Hwb.
  apply (transfer_served _ _ _ _ _ _ _ [SEED_VAULT_AUTH; pk] (sp_vault_authority_bump p) _ _
           Hix2 Hc Hwb Hmb); rewrite ?Hv, ?Ev, ?Ea; try done; [congruence|].
  unfold vault_amount in *. lia.
Qed.

Lemma debit_record_serves : exists e, debit_record d lp = Ok e.
Proof.
  destruct (wr_entry _ _ _ _ _ R) as (_ & _ & _ & _ & Hlp & _).
  unfold debit_record, checked_sub. rewrite (proj2 (Z.leb_le _ _) Hlp).
  cbn [ok_or]. rewrite bind_of_Ok. destruct (_ =? 0); by eexists.
Qed.

(** What the calls leave alone: the accounts of the program. *)
Lemma burn_and_pay_own q c w1 :
  u64 lp -> u64 c -> (wa_vault_auth a).(ai_key) <> (wa_user a).(ai_key) ->
  burn_and_pay program_id a lp q c w = Ok w1 -> own_frame (program_id := program_id) w w1.
Proof.
  intros Hlp Hc Hua H. destruct (wr_mint _ _ _ _ _ R) as (Hm & _ & Lm).
  destruct (wr_vault _ _ _ _ _ R) as (Hv & _). destruct (wr_lp_ata _ _ _ _ _ R) as (_ & _ & _ & Ol & _).
  destruct (wr_ata _ _ _ _ _ R) as (_ & La & _ & Nv & _).
  destruct (wr_vault_auth _ _ _ _ _ R) as [Hva _].
  pose proof (bd_vault_auth _ _ _ HB) as Ov. unfold vault_auth_of in Ov. rewrite Hva in Ov. cbn [fst] in Ov.
  apply (burn_and_pay_flow pk w Hbk a lp q c w1 Hlp Hc Hm Hv); [| | |exact H].
  - intros E. rewrite E in Ol. congruence.
  - by rewrite Hv.
  - intros E. destruct La as (_ & Hl & _), Lm as (_ & Hl' & _). rewrite E, Hl' in Hl. discriminate Hl.
Qed.

(** Whatever the ledger grants, the handler pays. *)
Lemma withdraw_serves accounts l' :
  withdraw_accounts accounts = Ok a -> u64 lp -> (wa_vault_auth a).(ai_key) <> (wa_user a).(ai_key) ->
  ledger_withdraw clk (is_junior_deposit d) lp (ledger_of pk w) = Ok l' ->
  exists w', process_withdraw program_id accounts lp w = Ok w'.
Proof.
  intros Ha Hlp Hua H. pose proof (wf_clock_law _ _ _ (wr_clock _ _ _ _ _ R)) as Hclk.
  unfold ledger_withdraw, ledger_of in H. apply ensure_Ok in H as [Hnz H].
  apply bind_Ok in H as (p1 & Hac & H).
  destruct (ledger_accrue_ok _ _ _ (backed_wf _ _ Hbk) (vault_amount_u64 _ _ Hbk)
              (bk_value _ _ _ Hbk) Hac) as (W1 & I1 & _).
  apply bind_Ok in H as (c & Hc & H). pose proof (withdrawal_value_nonneg _ _ _ _ W1 Hlp Hc) as Hcu.
  apply ensure_Ok in H as [Hz H]. apply bind_Ok in H as (p2 & H2 & H).
  pose proof (enforce_hwm_floor_inv _ _ _ _ _ W1 (proj2 Hclk) H2) as [(_ & I2 & _) _].
  apply ensure_Ok in H as [[Hls%Z.leb_le Hcv%Z.leb_le]%andb_true_iff H].
  apply bind_Ok in H as (p4 & H4 & _). unfold ledger_debit in H4.
  apply bind_Ok in H4 as (p3 & H3 & H4).
  destruct (burn_and_pay_serves p2 c) as [w1 Hpay]; [done..|unfold pool_ident in *; congruence|done|done|].
  pose proof (burn_and_pay_own _ _ _ Hlp Hcu Hua Hpay) as O.
  destruct debit_record_serves as [e He].
  eexists. unfold process_withdraw. rewrite Hnz, Ha, bind_of_Ok, withdraw_open_serves, bind_of_Ok.
  rewrite withdraw_token_guards_serves, bind_of_Ok, withdraw_record_guards_serves, bind_of_Ok.
  rewrite (wr_clock _ _ _ _ _ R), bind_of_Ok, open_record_serves, bind_of_Ok by done.
  rewrite check_record_serves, bind_of_Ok, (withdraw_accrue_serves _ Hac), bind_of_Ok, Hc, bind_of_Ok.
  rewrite Hz, H2, bind_of_Ok, Hpay, bind_of_Ok, H3, bind_of_Ok, H4, bind_of_Ok.
  by rewrite (open_record_serves _ O), bind_of_Ok, He, bind_of_Ok.
Qed.
End Steps.

(** ** The transaction *)

Section Transaction.
Context (pk : Pubkey) (accounts : list AccountInfo) (a : WithdrawAccounts) (lp : Z) (clk : Clock).
Context (w : World) (Hbk : backed program_id pk w) (Hsig : signers_ok program_id pk accounts).
Context (Ha : withdraw_accounts accounts = Ok a) (Hlp : u64 lp).
Context (R : withdraw_request pk a lp clk w).

Lemma withdraw_completes l' :
  ledger_withdraw clk (is_junior_deposit (deposit_at (wa_deposit_pda a).(ai_key) w)) lp
    (ledger_of pk w) = Ok l' ->
  exists w', process program_id accounts (pack (Instruction.Withdraw lp)) w = Ok w' /\
    ledger_of pk w' = l' /\
    token_amount (get w' (wa_user_ata a).(ai_key))
      = token_amount (get w (wa_user_ata a).(ai_key)) + (vault_amount pk w - lg_vault l').
Proof.
  intros Hl. destruct (withdraw_accounts_in _ _ Ha) as (Hu & _ & _ & H1).
  assert (Hua : (wa_vault_auth a).(ai_key) <> (wa_user a).(ai_key)).
  { destruct (wr_vault_auth _ _ _ _ _ R) as [Hva _]. unfold signers_ok in Hsig.
    rewrite Forall_forall in Hsig. apply not_eq_sym.
    replace (wa_vault_auth a).(ai_key) with (vault_auth_of program_id pk)
      by (unfold vault_auth_of; by rewrite Hva).
    apply Hsig; [by apply list_elem_of_In|apply R]. }
  destruct (withdraw_serves pk a lp clk w Hbk R accounts l' Ha Hlp Hua Hl) as [w' Hw'].
  exists w'. split; [unfold process; by rewrite unpack_pack|].
  assert (Ht : targets 1 accounts pk) by (exists (wa_pool_pda a); split; [done|apply R]).
  destruct (wd_user _ _ _ _ _ (withdraw_inv pk w Hbk accounts lp w' Hsig Ht Hlp Hw'))
    as (a' & clk' & d & e & c & Ha' & _ & _ & Hc' & -> & _ & _ & _ & _ & _ & _ & Hs & Hv & _ & Hpay).
  rewrite Ha in Ha'. injection Ha' as <-. rewrite (wr_clock _ _ _ _ _ R) in Hc'. injection Hc' as <-.
  cbn [ledger_step] in Hs. rewrite Hl in Hs. injection Hs as ->. split; [done|].
  rewrite (Hpay (wr_mints _ _ _ _ _ R)). cbn [ledger_of lg_vault]. lia.
Qed.

(** What the plain pool's ledger grants, as a payout. *)
Definition plain_value (p : StakePool) (vault : Z) : Z :=
  if sp_pool_mode p <=? 1 then vault else raw_value p.

(** C27: a holder can leave. Given the accounts of [withdraw_request] (the pool's
    own, the holder's, a deposit record with the shares on it and its cooldown over)
    and a token program that serves, the program accepts the withdrawal of any
    shares the ledger specification grants, in either tranche and under the floor,
    takes the ledger exactly there and pays the holder what leaves the vault. In a
    pool without tranches and with the floor off, the ledger grants every holding
    within the supply that is worth a token, at its part of the value, unless a
    running total would pass 2^64 - 1. *)
Theorem holder_can_withdraw :
  let p := pool_at pk w in
  let j := is_junior_deposit (deposit_at (wa_deposit_pda a).(ai_key) w) in
  let v := plain_value p (vault_amount pk w) in
  let c := lp * (v + 1) / (sp_total_lp_supply p + 1) in
  let pays l' paid := exists w',
    process program_id accounts (pack (Instruction.Withdraw lp)) w = Ok w' /\
    ledger_of pk w' = l' /\
    token_amount (get w' (wa_user_ata a).(ai_key))
      = token_amount (get w (wa_user_ata a).(ai_key)) + paid in
  (forall l', ledger_withdraw clk j lp (ledger_of pk w) = Ok l' ->
     pays l' (vault_amount pk w - lg_vault l')) /\
  (0 <= raw_value p -> tranche_enabled p = false -> hwm_enabled p = false ->
   0 < lp <= sp_total_lp_supply p -> lp <= mint_amount pk w -> 0 < c ->
   sp_total_fees_earned p + (vault_amount pk w - raw_value p) <= U64_MAX ->
   sp_total_withdrawn p + vault_amount pk w <= U64_MAX ->
   exists q, pays (mkLedger q (vault_amount pk w - c) (mint_amount pk w - lp)) c /\
             raw_value q = v - c /\ sp_total_lp_supply q = sp_total_lp_supply p - lp).
Proof.
  intros p j v c pays. split; [exact withdraw_completes|]. intros Hv Ht Hh Hl Hs Hc Hf Hw.
  destruct (ledger_pays_holder p (vault_amount pk w) (mint_amount pk w) clk j lp) as (q & Hq & Hr & Hn);
    try done; [by eapply backed_wf|by eapply vault_amount_u64|by split; [|apply Hbk]|].
  change (ledger_withdraw clk j lp (ledger_of pk w)
          = Ok (mkLedger q (vault_amount pk w - c) (mint_amount pk w - lp))) in Hq.
  exists q. split; [|done]. destruct (withdraw_completes _ Hq) as (w' & H1 & H2 & H3).
  exists w'. split_and!; [done|done|]. rewrite H3. cbn [lg_vault]. lia.
Qed.
End Transaction.
End Exit.

(** ** On the market *)

#[local] Existing Instance sim.
#[local] Existing Instance sim_build.
#[local] Existing Instance sim_laws_hold.

#[local] Instance sim_serves_hold : TokenProgramServes SIM_ID.
Proof. exact (@sim_serves sim_build SIM_ID). Qed.

(** Bob's request for 20000 of his shares, after a flush, its return and an
    accrued gift. *)
Definition bob_accounts : WithdrawAccounts :=
  match withdraw_accounts acc_bob_withdraw with
  | Ok a => a
  | Err _ => mkWithdrawAccounts (ro k_pool) (ro k_pool) (ro k_pool) (ro k_pool) (ro k_pool)
               (ro k_pool) (ro k_pool) (ro k_pool) (ro k_pool) (ro k_pool)
  end.

Lemma bob_request :
  withdraw_request (program_id := SIM_ID) k_pool bob_accounts 20000 (mkClock 1000 2)
    (run (take 9 market)).
Proof. split; each_by_running. Qed.

(** It is paid 20199 from a vault of 555500. *)
Lemma holder_can_withdraw_witness :
  exists w', process SIM_ID acc_bob_withdraw (pack (Instruction.Withdraw 20000)) (run (take 9 market))
               = Ok w' /\
    token_amount (get w' k_bob_ata) = token_amount (get (run (take 9 market)) k_bob_ata) + 20199.
Proof.
  assert (Hlp : u64 20000) by width_lia.
  assert (Hsig : signers_ok SIM_ID k_pool acc_bob_withdraw).
  { apply (bool_decide_unpack _). by vm_compute. }
  assert (Ha : withdraw_accounts acc_bob_withdraw = Ok bob_accounts) by reflexivity.
  destruct (holder_can_withdraw (program_id := SIM_ID) k_pool acc_bob_withdraw bob_accounts 20000
              (mkClock 1000 2) _ (market_backed 8) Hsig Ha Hlp bob_request) as [_ H].
  cbv zeta in H.
  set (w := run (take 9 market)) in *.
  assert (E : plain_value (pool_at k_pool w) (vault_amount k_pool w) = 555500 /\
              sp_total_lp_supply (pool_at k_pool w) = 550000 /\ raw_value (pool_at k_pool w) = 555500 /\
              vault_amount k_pool w = 555500 /\ mint_amount k_pool w = 549000)
    by (split_and!; by vm_compute).
  destruct E as (E1 & E2 & E3 & E4 & E5). rewrite E1, E2, E3, E4, E5 in H.
  change (20000 * (555500 + 1) / (550000 + 1)) with 20199 in H.
  destruct H as (q & (w' & H1 & _ & H3) & _);
    [lia|by vm_compute|by vm_compute|lia|lia|lia|by vm_compute|by vm_compute|].
  exists w'. split; [exact H1|exact H3].
Defined.
