(* ===== verification/Join.v ===== *)
(** * Anyone can join

    The other half of the refinement for the two deposits: whatever the ledger
    lets a depositor put in, the program takes, into the record the depositor has
    or one it makes. The depositor's side of the bargain is [deposit_request],
    the other programs' are [TokenProgramServes] and [SystemServes]. *)

From S2P Require Import Prelude Errors Math State PoolFacts Instruction Runtime SplToken Cpi Guards.
From S2P Require Import Fees Deposit Withdraw Insurance Admin Proxy Init Processor Ledger.
From S2P Require Import LedgerFacts LedgerInv Laws Backing BackingSteps BackingLp BackingInit.
From S2P Require Import Safety Sim SimLaws SimServes Scenario Run Settlement Config Serving.

(** The instruction of each tranche ([true] is junior). *)
Definition deposit_ix (j : bool) (amount : Z) : StakeInstruction :=
  if j then DepositJunior amount else Instruction.Deposit amount.
Definition tranche_record (j : bool) : StakeDeposit -> ProgramResult StakeDeposit :=
  if j then junior_record else senior_record.

(** ** What the ledger grants *)

Lemma deposit_cap_allows p amount :
  wf_pool p -> 0 <= amount ->
  (0 < sp_deposit_cap p ->
   Z.max 0 (raw_value p - sp_total_fees_earned p) + amount <= sp_deposit_cap p) ->
  enforce_deposit_cap p amount = Ok tt.
Proof.
  intros Hp Ha Hc. unfold enforce_deposit_cap.
  destruct (Z.ltb_spec 0 (sp_deposit_cap p)) as [Hlt|_]; [|done]. specialize (Hc Hlt).
  assert (Ucap : u64 (sp_deposit_cap p)) by (wf_destruct; done).
  rewrite principal_tvl_Some. cbn [ok_or]. rewrite bind_of_Ok.
  apply bind_Ok. eexists. split; [apply ok_or_Ok, checked_add_Some; split; [done|width_lia]|].
  apply ensure_Ok. split; [|done]. apply negb_true_iff, Z.ltb_ge. lia.
Qed.

Lemma refresh_mark_serves p clk :
  wf_pool p -> u64 (clock_epoch clk) -> u64 (raw_value p) ->
  exists q, refresh_mark p clk = Ok q /\ raw_value q = raw_value p /\
            sp_total_lp_supply q = sp_total_lp_supply p.
Proof.
  intros Hp Hc Hv. assert (exists q, refresh_mark p clk = Ok q) as [q Hq].
  { unfold refresh_mark. destruct (hwm_enabled p); [|by eexists].
    rewrite total_pool_value_raw by done. by eexists. }
  exists q. apply refresh_mark_inv in Hq as Hh; [|done..].
  destruct (hwm_only_books _ _ Hh) as (_ & S & V & _). done.
Qed.

(** Accrual on a pool without tranches, with shares or without. *)
Lemma ledger_accrue_any p vault :
  u64 vault -> 0 <= raw_value p <= vault -> tranche_enabled p = false ->
  sp_total_fees_earned p + (vault - raw_value p) <= U64_MAX ->
  exists f, let p1 := p <| sp_total_fees_earned := f |> in
    ledger_accrue p vault = Ok p1 /\
    raw_value p1 = if (sp_pool_mode p <=? 1) && (0 <? sp_total_lp_supply p)
                   then vault else raw_value p.
Proof.
  intros Hb Hv Ht Hfee. destruct (Z.ltb_spec 0 (sp_total_lp_supply p)) as [Hs|Hs].
  - rewrite andb_true_r. by apply ledger_accrue_plain.
  - rewrite andb_false_r. exists (sp_total_fees_earned p). cbn zeta.
    replace (p <| sp_total_fees_earned := sp_total_fees_earned p |>) with p by (by destruct p).
    split; [|done]. unfold ledger_accrue. destruct (sp_pool_mode p <=? 1); [|done].
    eapply accrue_idle; [apply total_pool_value_raw; width_lia|by right].
Qed.

(** The price of a senior deposit on a pool without tranches. *)
Lemma senior_price_open p amount :
  let s := sp_total_lp_supply p in
  let lp := if s =? 0 then amount else amount * (s + 1) / (raw_value p + 1) in
  u64 (raw_value p) -> tranche_enabled p = false -> u64 s -> u64 amount -> 0 < lp -> lp <= U64_MAX ->
  (s = 0 -> raw_value p = 0) -> (0 < s -> 0 < raw_value p) -> senior_lp_to_mint p amount = Ok lp.
Proof.
  intros s lp Uv Ht Us Ua Hlp Ul Hgen Hpos. unfold senior_lp_to_mint. rewrite Ht.
  unfold pool_calc_lp_for_deposit. rewrite total_pool_value_raw by done. cbn [mbind option_bind].
  fold s. replace (calc_lp_for_deposit _ _ _) with (Some lp).
  - cbn [ok_or]. rewrite bind_of_Ok. by rewrite (proj2 (Z.eqb_neq lp 0)) by lia.
  - symmetry. apply calc_lp_for_deposit_Some; [done..|]. subst lp.
    destruct (Z.eqb_spec s 0) as [Hz|Hz]; [by left; auto|right].
    assert (0 < s) by width_lia. auto.
Qed.

(** On an open pool without tranches, every amount worth a share, at the share's
    price, unless a running total would pass 2^64 - 1. *)
Lemma ledger_takes_deposit p vault supply clk amount :
  let v := if (sp_pool_mode p <=? 1) && (0 <? sp_total_lp_supply p) then vault else raw_value p in
  let lp := if sp_total_lp_supply p =? 0 then amount
            else amount * (sp_total_lp_supply p + 1) / (v + 1) in
  wf_pool p -> u64 vault -> 0 <= raw_value p <= vault -> u64 (clock_epoch clk) ->
  tranche_enabled p = false -> market_resolved p = false ->
  (0 < sp_deposit_cap p ->
   Z.max 0 (raw_value p - sp_total_fees_earned p) + amount <= sp_deposit_cap p) ->
  (sp_total_lp_supply p = 0 -> raw_value p = 0 /\ MINIMUM_LIQUIDITY < amount) ->
  (0 < sp_total_lp_supply p -> 0 < v) ->
  0 < amount -> vault + amount <= U64_MAX -> 0 < lp -> sp_total_lp_supply p + lp <= U64_MAX ->
  sp_total_deposited p + amount <= U64_MAX ->
  sp_total_fees_earned p + (vault - raw_value p) <= U64_MAX ->
  exists q m, ledger_deposit clk amount (mkLedger p vault supply)
                = Ok (mkLedger q (vault + amount) (supply + m)) /\
    m = (if sp_total_lp_supply p =? 0 then lp - MINIMUM_LIQUIDITY else lp) /\
    raw_value q = v + amount /\ sp_total_lp_supply q = sp_total_lp_supply p + lp.
Proof.
  intros v lp Hp Hb Hv He Ht Hres Hcap Hgen Hpos Ha Hroom Hlp Hsup Hdep Hfee.
  destruct (wf_totals _ Hp) as (_ & Us & _).
  destruct (ledger_accrue_any p vault Hb Hv Ht Hfee) as (f & Hac & Hv1). fold v in Hv1.
  set (p1 := p <| sp_total_fees_earned := f |>) in *.
  assert (W1 : wf_pool p1)
    by (eapply (ledger_accrue_ok p vault p1); [done|done|apply Hv|done]).
  assert (Hvv : 0 <= v <= vault)
    by (subst v; destruct ((sp_pool_mode p <=? 1) && _); width_lia).
  assert (Uv : u64 v) by width_lia.
  assert (Hq : senior_lp_to_mint p1 amount = Ok lp).
  { pose proof (senior_price_open p1 amount) as H. rewrite Hv1 in H. apply H; clear H;
      change (sp_total_lp_supply p1) with (sp_total_lp_supply p); try done; [width_lia..|].
    intros Hz. destruct (Hgen Hz) as [Hr _]. subst v. by rewrite Hz, andb_false_r. }
  set (m := if sp_total_lp_supply p =? 0 then lp - MINIMUM_LIQUIDITY else lp).
  assert (Hm : apply_minimum_liquidity_lock (sp_total_lp_supply p1) lp = Ok m).
  { apply apply_minimum_liquidity_lock_Ok. change (sp_total_lp_supply p1) with (sp_total_lp_supply p).
    subst m lp. destruct (Z.eqb_spec (sp_total_lp_supply p) 0) as [Hz|Hz]; [right|by left].
    by destruct (Hgen Hz). }
  set (p3 := p1 <| sp_total_deposited := sp_total_deposited p1 + amount |>
                <| sp_total_lp_supply := sp_total_lp_supply p1 + lp |>).
  assert (H3 : credit_totals amount p1 lp = Ok p3) by (by apply credit_totals_Ok).
  assert (Ulp : u64 lp) by width_lia. assert (Uam : u64 amount) by width_lia.
  destruct (credit_totals_inv _ _ _ _ W1 Uam Ulp H3) as (W3 & _ & V3 & _ & _ & S3 & _).
  destruct (refresh_mark_serves p3 clk W3 He) as (q & Hq4 & V4 & S4); [rewrite V3, Hv1; width_lia|].
  exists q, m. split_and!; [|done|lia|by rewrite S4, S3].
  unfold ledger_deposit, ledger_deposit_open. rewrite (proj2 (Z.eqb_neq amount 0)) by lia.
  cbn [negb]. rewrite Hres. cbn [negb]. rewrite deposit_cap_allows, bind_of_Ok, Hac, bind_of_Ok by (done || lia).
  unfold senior_snipe_gate. change (tranche_enabled p1) with (tranche_enabled p).
  rewrite Ht, bind_of_Ok, Hq, bind_of_Ok, Hm, bind_of_Ok, H3, bind_of_Ok.
  by rewrite Hq4, bind_of_Ok.
Qed.

Section Join.
Context {RT : Runtime} {BC : BuildConfig} {program_id : Pubkey} {RL : RuntimeLaws program_id}.
Context {TS : TokenProgramServes program_id} {SS : SystemServes program_id}.

(** ** The depositor *)

(** The record of a depositor of the tranche, with no more shares on it than there
    are. *)
Record holds_record (pk : Pubkey) (k : Pubkey) (j : bool) (w : World) : Prop := {
  hr_record : is_record program_id k w;
  hr_discriminator : deposit_validate_discriminator (deposit_at k w) = true;
  hr_initialized : sd_is_initialized (deposit_at k w) = 1;
  hr_tranche : is_junior_deposit (deposit_at k w) = j;
  hr_shares : sd_lp_amount (deposit_at k w) <= sp_total_lp_supply (pool_at pk w);
}.

(** The accounts a depositor passes and what they hold: the pool's own accounts as
    InitPool left them, the depositor's two token accounts, the deposit record's
    address. A token account holds no more than its mint has issued, and the LP
    mint has issued no more than the shares. *)
Record deposit_request (pk : Pubkey) (a : DepositAccounts) (amount : Z) (j : bool) (clk : Clock)
    (w : World) : Prop := {
  dr_signer : (da_user a).(ai_is_signer) = true;
  dr_user : (da_user a).(ai_key) <> pk;
  dr_pool : (da_pool_pda a).(ai_key) = pk /\ (da_pool_pda a).(ai_is_writable) = true;
  dr_mint : (da_lp_mint a).(ai_key) = sp_lp_mint (pool_at pk w) /\
    (da_lp_mint a).(ai_is_writable) = true /\ live_mint (get w (sp_lp_mint (pool_at pk w))) /\
    minted_by (get w (sp_lp_mint (pool_at pk w))) (da_vault_auth a).(ai_key) /\
    mint_amount pk w <= sp_total_lp_supply (pool_at pk w);
  dr_vault : (da_vault a).(ai_key) = sp_vault (pool_at pk w) /\
    (da_vault a).(ai_is_writable) = true /\ live_token (get w (sp_vault (pool_at pk w))) /\
    token_mint (get w (sp_vault (pool_at pk w))) = sp_collateral_mint (pool_at pk w);
  dr_mints : sp_lp_mint (pool_at pk w) <> sp_collateral_mint (pool_at pk w);
  dr_vault_auth : (da_vault_auth a).(ai_key) = vault_auth_of program_id pk /\
    (da_vault_auth a).(ai_key) <> pk;
  dr_token_program : (da_token_program a).(ai_key) = SplToken.id;
  dr_ata : let x := get w (da_user_ata a).(ai_key) in
    (da_user_ata a).(ai_is_writable) = true /\ live_token x /\
    token_mint x = sp_collateral_mint (pool_at pk w) /\ token_owner x = (da_user a).(ai_key) /\
    amount <= token_amount x /\ token_amount x + vault_amount pk w <= U64_MAX;
  dr_lp_ata : let x := get w (da_user_lp_ata a).(ai_key) in
    (da_user_lp_ata a).(ai_is_writable) = true /\ live_token x /\
    token_mint x = sp_lp_mint (pool_at pk w) /\ token_owner x = (da_user a).(ai_key) /\
    token_amount x <= mint_amount pk w;
  dr_record : let k := (da_deposit_pda a).(ai_key) in
    k = fst (derive_deposit_pda program_id pk (da_user a).(ai_key)) /\ k <> pk /\
    (holds_record pk k j w \/
     creatable (da_user a) (da_deposit_pda a) (da_system_program a) (Z.of_nat STAKE_DEPOSIT_SIZE) w);
  dr_clock : clock_from_account_info (da_clock_sysvar a) w = Ok clk /\
    acc_owner (get w (da_clock_sysvar a).(ai_key)) <> SplToken.id;
}.

Section Steps.
Context (pk : Pubkey) (a : DepositAccounts) (amount : Z) (j : bool) (clk : Clock) (w : World).
Context (Hbk : backed program_id pk w) (R : deposit_request pk a amount j clk w).
Context (Hamt : u64 amount) (Hua : (da_user a).(ai_key) <> vault_auth_of program_id pk).
#[local] Abbreviation p := (pool_at pk w).

Let HB : bound program_id pk w := bk_bound _ _ _ Hbk.
Let Hpool : (da_pool_pda a).(ai_key) = pk := proj1 (dr_pool _ _ _ _ _ _ R).

#[local] Abbreviation spl_not_pool := (spl_not_pool pk w Hbk).

Lemma deposit_mb_pk : Deposit.mb_pool a = [pk].
Proof. unfold Deposit.mb_pool. by rewrite Hpool. Qed.

Lemma deposit_open_serves : deposit_open program_id a w = Ok p.
Proof. apply (open_serves pk w Hbk); apply R. Qed.

Lemma deposit_guards_serves e :
  market_resolved p = false -> enforce_deposit_cap p amount = Ok tt ->
  deposit_guards program_id a amount p e w = Ok tt.
Proof.
  intros Hres Hcap. destruct (dr_mint _ _ _ _ _ _ R) as (Hm & _).
  destruct (dr_vault _ _ _ _ _ _ R) as (Hv & _).
  destruct (dr_ata _ _ _ _ _ _ R) as (_ & La & Ma & Oa & _).
  destruct (dr_lp_ata _ _ _ _ _ _ R) as (_ & Ll & Ml & Ol & _).
  destruct (dr_vault_auth _ _ _ _ _ _ R) as [Hva _]. unfold vault_auth_of in Hva.
  unfold deposit_guards, verify_token_program, validate_lp_recipient_account. rewrite Hpool, Hres, deposit_mb_pk.
  destruct (derive_vault_authority _ _) as [va vb]. serve; try done.
  - apply R.
  - by apply (check_token_account_serves pk w Hbk); [..|intros k [= <-]].
  - by apply (check_token_account_serves pk w Hbk); [..|intros k [= <-]].
Qed.

Lemma deposit_accrue_serves p1 :
  ledger_accrue p (vault_amount pk w) = Ok p1 ->
  pre_accrue_fee_modes (Deposit.mb_pool a) p (da_vault a) w = Ok p1.
Proof.
  destruct (dr_vault _ _ _ _ _ _ R) as (Hv & _ & Hlive & _). rewrite deposit_mb_pk.
  by apply (pre_accrue_serves pk w Hbk).
Qed.

(** The depositor's token accounts are not the pool's, nor each other. *)
Lemma user_accounts :
  (da_user_ata a).(ai_key) <> sp_vault p /\ (da_user_lp_ata a).(ai_key) <> sp_vault p /\
  (da_user_ata a).(ai_key) <> sp_lp_mint p /\
  (da_user_ata a).(ai_key) <> (da_user_lp_ata a).(ai_key).
Proof.
  destruct (dr_mint _ _ _ _ _ _ R) as (_ & _ & Lm & _).
  destruct (dr_ata _ _ _ _ _ _ R) as (_ & La & Ma & Oa & _).
  destruct (dr_lp_ata _ _ _ _ _ _ R) as (_ & _ & Ml & Ol & _).
  pose proof (bd_vault_auth _ _ _ HB) as Ov. pose proof (dr_mints _ _ _ _ _ _ R).
  split_and!; [..|by apply (live_token_not_mint pk w)|]; congruence.
Qed.

Lemma collect_and_mint_rent m w1 :
  collect_and_mint program_id a amount m w = Ok w1 -> rent_get w1 = rent_get w.
Proof.
  unfold collect_and_mint. intros (ix & _ & (wt & Ht & H)%bind_Ok)%bind_Ok.
  destruct (derive_vault_authority _ _). apply bind_Ok in H as (ix2 & _ & H).
  by rewrite (law_rent _ _ _ _ _ _ H), (law_rent _ _ _ _ _ _ Ht).
Qed.

(** The payment and the shares. *)
Lemma collect_and_mint_serves m :
  u64 m -> mint_amount pk w + m <= U64_MAX ->
  exists w1, collect_and_mint program_id a amount m w = Ok w1 /\ flow pk w w1 amount m /\
    rent_get w1 = rent_get w /\
    (forall k, acc_owner (get w k) <> SplToken.id -> get w1 k = get w k).
Proof.
  intros Um Hm. destruct (dr_mint _ _ _ _ _ _ R) as (Em & Wm & Lm & Am & _).
  destruct (dr_vault _ _ _ _ _ _ R) as (Ev & Wv & Lv & Mv).
  destruct (dr_ata _ _ _ _ _ _ R) as (Wa & La & Ma & Oa & Ba & Ua).
  destruct (dr_lp_ata _ _ _ _ _ _ R) as (Wl & Ll & Ml & Ol & Bl).
  destruct (dr_vault_auth _ _ _ _ _ _ R) as [Hva Nva].
  destruct user_accounts as (Nv & Nlv & Nm & Nl).
  enough (exists w1, collect_and_mint program_id a amount m w = Ok w1) as [w1 H1].
  { destruct (collect_and_mint_flow pk w Hbk a amount m w1 Hamt Um Em Ev Nv Nlv Nm H1)
      as (F & _ & _ & Fr & _). exists w1. split_and!; [done|done|by eapply collect_and_mint_rent|].
    apply Fr; [apply La|apply Ll]. }
  unfold vault_auth_of in Hva. unfold collect_and_mint. rewrite Hpool, deposit_mb_pk.
  destruct (derive_vault_authority program_id pk) as [va vb] eqn:Hd. cbn [fst] in Hva. subst va.
  destruct (SplToken.transfer _ _ _ _ _ _) as [ix|] eqn:Hix; [|done]. rewrite bind_of_Ok.
  assert (Ht : exists wt, invoke [pk] ix
                 [da_user_ata a; da_vault a; da_user a; da_token_program a] w = Ok wt).
  { eapply payment_served; try exact Hix; try done; rewrite ?Ev; try done; try (apply Hbk); try apply R.
    - repeat constructor; apply (not_held pk); [by apply spl_not_pool, La| |apply R].
      rewrite Ev. by apply spl_not_pool, Lv.
    - congruence.
    - unfold vault_amount in Ua. lia. }
  destruct Ht as [wt Ht]. rewrite Ht, bind_of_Ok.
  assert (Fr : forall k, k <> (da_user_ata a).(ai_key) -> k <> sp_vault p -> get wt k = get w k).
  { intros k H1 H2. apply (law_frame _ _ _ _ _ _ _ Ht).
    assert (writable_keys ix = [ai_key (da_user_ata a); ai_key (da_vault a)]) as ->
      by (by injection Hix as <-). rewrite Ev. by apply not_in_2. }
  assert (E1 : get wt (sp_lp_mint p) = get w (sp_lp_mint p))
    by (apply Fr; [by apply not_eq_sym|apply not_eq_sym, (live_token_not_mint pk w); done]).
  assert (E2 : get wt (da_user_lp_ata a).(ai_key) = get w (da_user_lp_ata a).(ai_key))
    by (apply Fr; [by apply not_eq_sym|done]).
  destruct (SplToken.mint_to _ _ _ _ _ _) as [ix2|] eqn:Hix2; [|done]. rewrite bind_of_Ok.
  apply (mint_to_served _ _ _ _ _ _ _ [SEED_VAULT_AUTH; pk] vb _ _ Hix2);
    rewrite ?Em, ?E1, ?E2; try done.
  - eapply law_bytes; [exact Ht|apply Hbk].
  - repeat constructor; apply (not_held pk); [| |done].
    + rewrite Em. by apply spl_not_pool, Lm.
    + by apply spl_not_pool, Ll.
  - unfold mint_amount in *. lia.
Qed.
(** ** The record *)

(** A new record is ready for either tranche. *)
Definition zero_deposit : StakeDeposit := deposit_decode (replicate STAKE_DEPOSIT_SIZE 0).

Lemma zero_deposit_ready :
  exists d1, tranche_record j zero_deposit = Ok d1 /\ sd_lp_amount d1 = 0.
Proof. destruct j; eexists; split; by vm_compute. Qed.

Lemma held_record_ready d :
  deposit_validate_discriminator d = true -> sd_is_initialized d = 1 -> is_junior_deposit d = j ->
  exists d1, tranche_record j d = Ok d1 /\ sd_lp_amount d1 = sd_lp_amount d.
Proof.
  intros Hd Hi Hj. destruct j; cbn [tranche_record]; unfold junior_record, senior_record;
    unfold init_or_check_record; rewrite Hi; cbn [Z.eqb Pos.eqb negb]; rewrite Hd, bind_of_Ok, Hj;
    by eexists.
Qed.

Lemma open_deposit_record_serves w2 :
  (da_deposit_pda a).(ai_key) <> pk ->
  (STAKE_DEPOSIT_SIZE <= length (acc_data (get w2 (da_deposit_pda a).(ai_key))))%nat ->
  Deposit.open_record a w2 = Ok (deposit_at (da_deposit_pda a).(ai_key) w2).
Proof.
  intros Nk Hl. unfold Deposit.open_record. rewrite deposit_mb_pk. serve.
  - apply try_borrow_data_Ok. split; [by apply (not_held pk)|done].
  - by apply deposit_from_data_Ok.
Qed.

Lemma credit_record_serves d b lp :
  sd_lp_amount d + lp <= U64_MAX -> exists e, credit_record a d b clk lp = Ok e.
Proof.
  intros Hl. unfold credit_record. upd_simpl. eexists. apply bind_Ok. eexists.
  split; [by apply ok_or_Ok, checked_add_Some|done].
Qed.

(** The record the depositor has, or a new one. *)
Lemma record_serves w1 lp :
  world_ok w1 -> rent_get w1 = rent_get w ->
  (forall k, acc_owner (get w k) <> SplToken.id -> get w1 k = get w k) ->
  0 <= lp -> sp_total_lp_supply p + lp <= U64_MAX ->
  exists w2 b d d1 d2, ensure_deposit_account program_id a w1 = Ok (w2, b) /\
    Deposit.open_record a w2 = Ok d /\ tranche_record j d = Ok d1 /\
    credit_record a d1 b clk lp = Ok d2.
Proof.
  intros Hw1 Hr Fr Hlp Hcap. destruct (dr_record _ _ _ _ _ _ R) as (Hk & Nk & Hrec). cbv zeta in Hk.
  unfold ensure_deposit_account. rewrite Hpool, deposit_mb_pk. unfold derive_deposit_pda in *.
  destruct (find_program_address _ _) as [k b] eqn:Hd. cbn [fst] in Hk.
  rewrite (proj2 (key_eqb_eq _ _) Hk).
  replace (data_is_empty _ _ _) with (Ok (bool_decide (ai_data w1 (da_deposit_pda a) = [])) : ProgramResult bool)
    by (symmetry; apply data_is_empty_Ok; split; [by apply (not_held pk)|done]).
  rewrite bind_of_Ok. unfold ai_data, ai_owner.
  destruct Hrec as [[[Ho Hl] Hdi Hin Hj Hs]|Hc].
  - assert (Ek : get w1 (da_deposit_pda a).(ai_key) = get w (da_deposit_pda a).(ai_key))
      by (apply Fr; rewrite Ho; apply not_eq_sym, law_id_spl).
    rewrite Ek, Ho, bool_decide_eq_false_2, (proj2 (key_eqb_eq program_id _) eq_refl)
      by (intros E; rewrite E in Hl; apply Nat.le_0_r in Hl; discriminate Hl).
    cbn [negb andb]. destruct (held_record_ready _ Hdi Hin Hj) as (d1 & H1 & L1).
    destruct (credit_record_serves d1 b lp) as [e He]; [lia|].
    exists w1, b, (deposit_at (da_deposit_pda a).(ai_key) w), d1, e. split_and!; [done| |done|done].
    rewrite open_deposit_record_serves; [|done|by rewrite Ek]. unfold deposit_at. by rewrite Ek.
  - assert (Hc1 : creatable (da_user a) (da_deposit_pda a) (da_system_program a)
                    (Z.of_nat STAKE_DEPOSIT_SIZE) w1).
    { destruct Hc as [? (? & ? & U1 & ?) (? & U2 & ?) Hrent].
      assert (forall k', unallocated (get w k') -> get w1 k' = get w k') as Hsame
        by (intros k' [Ho _]; apply Fr; rewrite Ho; apply not_eq_sym, spl_not_system).
      split; rewrite ?Hr, ?(Hsame _ U1), ?(Hsame _ U2); done. }
    rewrite bool_decide_eq_true_2 by apply Hc1. cbn [negb andb].
    destruct (create_or_adopt_serves [pk] (da_user a) (da_deposit_pda a) (da_system_program a)
                program_id STAKE_DEPOSIT_SIZE [SEED_STAKE_DEPOSIT; pk; (da_user a).(ai_key)] b w1)
      as [w2 H2]; [done| |by apply (not_held pk)|congruence|done|].
    { apply (not_held pk), R. }
    destruct (create_or_adopt_pda_target _ _ _ _ _ _ _ _ _ H2) as [_ D2].
    destruct zero_deposit_ready as (d1 & H1 & L1).
    destruct (credit_record_serves d1 b lp) as [e He].
    { pose proof (wf_pool_at pk w (bk_world _ _ _ Hbk) (bd_len _ _ _ HB)) as Hp.
      destruct (wf_totals _ Hp) as (_ & Us & _). width_lia. }
    exists w2, b, zero_deposit, d1, e. cbn [app] in H2. rewrite H2, bind_of_Ok.
    split_and!; [done| |done|done].
    rewrite open_deposit_record_serves; [|done|]; unfold deposit_at; rewrite D2; [|by rewrite length_replicate].
    done.
Qed.
(** ** The handlers *)

(** From the priced record on: the calls, the clock, the depositor's record. *)
Lemma finish_serves lp m :
  apply_minimum_liquidity_lock (sp_total_lp_supply p) lp = Ok m -> u64 lp ->
  sp_total_lp_supply p + lp <= U64_MAX ->
  exists w1 w2 b d d1 d2, collect_and_mint program_id a amount m w = Ok w1 /\
    clock_from_account_info (da_clock_sysvar a) w1 = Ok clk /\
    ensure_deposit_account program_id a w1 = Ok (w2, b) /\ Deposit.open_record a w2 = Ok d /\
    tranche_record j d = Ok d1 /\ credit_record a d1 b clk lp = Ok d2.
Proof.
  intros Hm Ulp Hlp. pose proof (minimum_liquidity_u64 _ _ _ Ulp Hm) as Um.
  destruct (dr_mint _ _ _ _ _ _ R) as (_ & _ & _ & _ & Hs).
  destruct (dr_clock _ _ _ _ _ _ R) as [Hc Ho].
  apply apply_minimum_liquidity_lock_Ok in Hm.
  destruct (collect_and_mint_serves m Um) as (w1 & H1 & F & Hr & Fr).
  { unfold MINIMUM_LIQUIDITY in Hm. width_lia. }
  destruct (record_serves w1 lp) as (w2 & b & d & d1 & d2 & H2 & H3 & H4 & H5);
    [by apply F, Hbk|done|done|apply Ulp|done|].
  exists w1, w2, b, d, d1, d2. split_and!; try done. rewrite <- Hc. by apply clock_is_read, Fr.
Qed.

Lemma senior_deposit_serves accounts l' :
  j = false -> deposit_accounts accounts = Ok a ->
  ledger_deposit clk amount (ledger_of pk w) = Ok l' ->
  exists w', process_deposit program_id accounts amount w = Ok w'.
Proof.
  intros Hj Ha H. unfold ledger_deposit, ledger_deposit_open, ledger_of in H.
  apply bind_Ok in H as (p1 & H1 & H). apply ensure_Ok in H1 as [Hnz H1].
  apply ensure_Ok in H1 as [Hres%negb_true_iff H1]. apply bind_Ok in H1 as ([] & Hcap & Hac).
  destruct (ledger_accrue_ok _ _ _ (backed_wf _ _ Hbk) (vault_amount_u64 _ _ Hbk)
              (bk_value _ _ _ Hbk) Hac) as (W1 & _ & _ & S1 & _).
  apply bind_Ok in H as ([] & Hgate & H). apply bind_Ok in H as (lp & Hlp & H).
  destruct (senior_lp_to_mint_u64 _ _ _ W1 Hamt Hlp) as [Ulp _].
  apply bind_Ok in H as (m & Hm & H). apply bind_Ok in H as (p3 & H3 & H).
  pose proof H3 as (_ & Hroom & _)%credit_totals_Ok. apply bind_Ok in H as (p4 & H4 & _).
  rewrite S1 in Hroom. pose proof Hm as Hm'. rewrite S1 in Hm'.
  destruct (finish_serves lp m Hm' Ulp Hroom)
    as (w1 & w2 & b & d & d1 & d2 & Hcm & Hclk & Hacc & Hd & Hd1 & Hd2).
  rewrite Hj in Hd1. cbn [tranche_record] in Hd1.
  eexists. unfold process_deposit. rewrite Hnz, Ha, bind_of_Ok, deposit_open_serves, bind_of_Ok.
  rewrite deposit_guards_serves, bind_of_Ok, (deposit_accrue_serves _ Hac), bind_of_Ok by done.
  rewrite Hgate, bind_of_Ok, Hlp, bind_of_Ok, Hm, bind_of_Ok, Hcm, bind_of_Ok, H3, bind_of_Ok.
  rewrite Hclk, bind_of_Ok, H4, bind_of_Ok, Hacc, bind_of_Ok, Hd, bind_of_Ok, Hd1, bind_of_Ok.
  by rewrite Hd2, bind_of_Ok.
Qed.

Lemma junior_deposit_serves accounts l' :
  j = true -> deposit_accounts accounts = Ok a ->
  ledger_deposit_junior clk amount (ledger_of pk w) = Ok l' ->
  exists w', process_deposit_junior program_id accounts amount w = Ok w'.
Proof.
  intros Hj Ha H. unfold ledger_deposit_junior, ledger_deposit_open, ledger_of in H.
  apply ensure_Ok in H as [Htr H]. apply bind_Ok in H as (p1 & H1 & H).
  apply ensure_Ok in H1 as [Hnz H1].
  apply ensure_Ok in H1 as [Hres%negb_true_iff H1]. apply bind_Ok in H1 as ([] & Hcap & Hac).
  destruct (ledger_accrue_ok _ _ _ (backed_wf _ _ Hbk) (vault_amount_u64 _ _ Hbk)
              (bk_value _ _ _ Hbk) Hac) as (W1 & _ & _ & S1 & _).
  apply bind_Ok in H as ([] & Hgate & H). apply bind_Ok in H as (lp & Hlp & H).
  destruct (junior_lp_to_mint_u64 _ _ _ W1 Hamt Hlp) as [Ulp _].
  apply bind_Ok in H as (m & Hm & H). apply bind_Ok in H as (p2 & H2 & H).
  pose proof H2 as (_ & Hroom & _)%credit_totals_Ok. apply bind_Ok in H as (p3 & H3 & H).
  apply bind_Ok in H as (p4 & H4 & _).
  rewrite S1 in Hroom. pose proof Hm as Hm'. rewrite S1 in Hm'.
  destruct (finish_serves lp m Hm' Ulp Hroom)
    as (w1 & w2 & b & d & d1 & d2 & Hcm & Hclk & Hacc & Hd & Hd1 & Hd2).
  rewrite Hj in Hd1. cbn [tranche_record] in Hd1.
  eexists. unfold process_deposit_junior. rewrite Hnz, Ha, bind_of_Ok, deposit_open_serves, bind_of_Ok.
  rewrite Htr, deposit_guards_serves, bind_of_Ok, (deposit_accrue_serves _ Hac), bind_of_Ok by done.
  rewrite Hgate, bind_of_Ok, Hlp, bind_of_Ok, Hm, bind_of_Ok, Hcm, bind_of_Ok, H2, bind_of_Ok.
  rewrite H3, bind_of_Ok, Hclk, bind_of_Ok, H4, bind_of_Ok, Hacc, bind_of_Ok, Hd, bind_of_Ok.
  by rewrite Hd1, bind_of_Ok, Hd2, bind_of_Ok.
Qed.

(** Whatever the ledger grants, the handler of the tranche takes. *)
Lemma deposit_serves accounts l' :
  deposit_accounts accounts = Ok a ->
  ledger_step clk false (deposit_ix j amount) (ledger_of pk w) = Ok l' ->
  exists w', dispatch program_id accounts (deposit_ix j amount) w = Ok w'.
Proof.
  intros Ha. pose proof senior_deposit_serves as Hs. pose proof junior_deposit_serves as Hj.
  destruct j; [by eapply Hj|by eapply Hs].
Qed.
End Steps.

(** ** The transaction *)

Section Transaction.
Context (pk : Pubkey) (accounts : list AccountInfo) (a : DepositAccounts) (amount : Z) (j : bool).
Context (clk : Clock) (w : World) (Hbk : backed program_id pk w).
Context (Hkeys : keys_ok accounts) (Hsig : signers_ok program_id pk accounts).
Context (Ha : deposit_accounts accounts = Ok a) (Hamt : u64 amount).
Context (R : deposit_request pk a amount j clk w).

(** What the depositor gets for the amount: the shares on the record and their
    tokens. *)
Record joined (shares tokens : Z) (w' : World) : Prop := {
  jn_paid : token_amount (get w' (da_user_ata a).(ai_key))
              = token_amount (get w (da_user_ata a).(ai_key)) - amount;
  jn_tokens : token_amount (get w' (da_user_lp_ata a).(ai_key))
                = token_amount (get w (da_user_lp_ata a).(ai_key)) + tokens;
  jn_record : let k := (da_deposit_pda a).(ai_key) in
    sd_user (deposit_at k w') = (da_user a).(ai_key) /\ sd_pool (deposit_at k w') = pk /\
    is_junior_deposit (deposit_at k w') = j /\
    sd_last_deposit_slot (deposit_at k w') = clock_slot clk /\
    sd_lp_amount (deposit_at k w') = sd_lp_amount (deposit_at k w) + shares;
}.

Lemma user_not_vault_auth : (da_user a).(ai_key) <> vault_auth_of program_id pk.
Proof.
  destruct (deposit_accounts_in _ _ Ha) as (Hu & _). unfold signers_ok in Hsig.
  rewrite Forall_forall in Hsig. apply Hsig; [by apply list_elem_of_In|apply R].
Qed.

Lemma deposit_completes l' :
  ledger_step clk false (deposit_ix j amount) (ledger_of pk w) = Ok l' ->
  exists w', process program_id accounts (pack (deposit_ix j amount)) w = Ok w' /\
    ledger_of pk w' = l' /\
    joined (sp_total_lp_supply (lg_pool l') - sp_total_lp_supply (pool_at pk w))
           (lg_supply l' - mint_amount pk w) w'.
Proof.
  intros Hl. destruct (deposit_serves pk a amount j clk w Hbk R Hamt user_not_vault_auth
                         accounts l' Ha Hl) as [w' Hw'].
  exists w'. split; [unfold process; rewrite unpack_pack; [done|by destruct j]|].
  assert (Ht : targets 1 accounts pk).
  { destruct (deposit_accounts_in _ _ Ha) as (_ & _ & _ & H1). exists (da_pool_pda a).
    split; [done|apply R]. }
  assert (D : deposition program_id pk w accounts (deposit_ix j amount) amount j w')
    by (destruct j; [by apply deposit_junior_inv|by apply deposit_inv]).
  destruct (dp_clock _ _ _ _ _ _ _ D) as (a1 & clk1 & w1 & Ha1 & Hc1 & Fr & Sl & Hs1).
  rewrite Ha in Ha1. injection Ha1 as <-. destruct (dr_clock _ _ _ _ _ _ R) as [Hc Ho].
  rewrite (clock_is_read _ w w1), Hc in Hc1 by by apply Fr. injection Hc1 as <-.
  rewrite Hl in Hs1. injection Hs1 as ->. split; [done|].
  destruct (dp_user _ _ _ _ _ _ _ D) as (a2 & clk2 & d & e & m & Ha2 & _ & _ & _ & -> & -> & H).
  rewrite Ha in Ha2. injection Ha2 as <-.
  destruct H as (_ & Us & Pl & _ & Ju & Lp & Hs2 & _ & Hm & Hpay).
  destruct (Hpay (dr_mints _ _ _ _ _ _ R)) as [P1 P2].
  split; cbn [ledger_of lg_pool lg_supply].
  - exact P1.
  - rewrite P2. lia.
  - cbn zeta. split_and!; done.
Qed.
(** C34: anyone can join. Given the accounts of [deposit_request] (the pool's own,
    the depositor's two token accounts with the amount in the one, and a deposit
    record of the tranche or an address to make it at, funded beforehand or not)
    and token and system programs that serve, the program accepts any deposit the
    ledger specification grants, in either tranche, takes the ledger exactly there,
    takes the amount from the depositor, and books the new shares on the
    depositor's record, with the tokens for them. In an open pool without tranches
    the ledger grants every amount that is within the cap and worth a share (on a
    pool without shares: more than the dead ones), at the share's price, unless a
    running total would pass 2^64 - 1. *)
Theorem anyone_can_deposit :
  let p := pool_at pk w in
  let s := sp_total_lp_supply p in
  let v := if (sp_pool_mode p <=? 1) && (0 <? s) then vault_amount pk w else raw_value p in
  let lp := if s =? 0 then amount else amount * (s + 1) / (v + 1) in
  let grants l' shares tokens := exists w',
    process program_id accounts (pack (deposit_ix j amount)) w = Ok w' /\
    ledger_of pk w' = l' /\ joined shares tokens w' in
  (forall l', ledger_step clk false (deposit_ix j amount) (ledger_of pk w) = Ok l' ->
     grants l' (sp_total_lp_supply (lg_pool l') - s) (lg_supply l' - mint_amount pk w)) /\
  (j = false -> 0 <= raw_value p -> tranche_enabled p = false -> market_resolved p = false ->
   (0 < sp_deposit_cap p ->
    Z.max 0 (raw_value p - sp_total_fees_earned p) + amount <= sp_deposit_cap p) ->
   (s = 0 -> raw_value p = 0 /\ MINIMUM_LIQUIDITY < amount) -> (0 < s -> 0 < v) ->
   0 < amount -> 0 < lp -> s + lp <= U64_MAX -> sp_total_deposited p + amount <= U64_MAX ->
   sp_total_fees_earned p + (vault_amount pk w - raw_value p) <= U64_MAX ->
   exists q m, grants (mkLedger q (vault_amount pk w + amount) (mint_amount pk w + m)) lp m /\
     m = (if s =? 0 then lp - MINIMUM_LIQUIDITY else lp) /\
     raw_value q = v + amount /\ sp_total_lp_supply q = s + lp).
Proof.
  intros p s v lp grants. split; [exact deposit_completes|].
  intros Hj Hv Ht Hres Hcap Hgen Hpos Hm Hlp Hsup Hdep Hfee.
  destruct (dr_clock _ _ _ _ _ _ R) as [Hclk%wf_clock_law _].
  destruct (dr_ata _ _ _ _ _ _ R) as (_ & _ & _ & _ & Ba & Ua).
  destruct (ledger_takes_deposit p (vault_amount pk w) (mint_amount pk w) clk amount)
    as (q & m & Hq & Em & Vq & Sq); try done;
    [by eapply backed_wf|by eapply vault_amount_u64|by split; [|apply Hbk]|apply Hclk|lia|].
  exists q, m. split; [|done].
  assert (Hs : ledger_step clk false (deposit_ix j amount) (ledger_of pk w)
               = Ok (mkLedger q (vault_amount pk w + amount) (mint_amount pk w + m)))
    by (by rewrite Hj).
  destruct (deposit_completes _ Hs) as (w' & H1 & H2 & H3). exists w'. split_and!; [done|done|].
  cbn [lg_pool lg_supply] in H3. fold p in H3.
  assert (El : sp_total_lp_supply q - sp_total_lp_supply p = lp)
    by (rewrite Sq; change (s + lp - s = lp); clearbody lp; lia).
  by rewrite El, Z.add_simpl_l in H3.
Qed.
End Transaction.
End Join.

(** ** On the market *)

#[local] Existing Instance sim.
#[local] Existing Instance sim_build.
#[local] Existing Instance sim_laws_hold.

#[local] Instance sim_serves_hold : TokenProgramServes SIM_ID.
Proof. exact (@sim_serves sim_build SIM_ID). Qed.
#[local] Instance sim_system_serves_hold : SystemServes SIM_ID.
Proof. exact (@sim_system_serves sim_build SIM_ID). Qed.

Definition no_deposit : DepositAccounts :=
  mkDepositAccounts (ro k_pool) (ro k_pool) (ro k_pool) (ro k_pool) (ro k_pool) (ro k_pool)
    (ro k_pool) (ro k_pool) (ro k_pool) (ro k_pool) (ro k_pool).
Definition bob_joins : DepositAccounts :=
  match deposit_accounts acc_bob_deposit with Ok a => a | Err _ => no_deposit end.

(** Bob's first deposit, after Alice's 500000: the record's address is unallocated. *)
Lemma bob_join_request :
  deposit_request (program_id := SIM_ID) k_pool bob_joins 50000 false (mkClock 100 1)
    (run (take 2 market)).
Proof.
  split; each_by_running. right. split; each_by_running. intros r _. each_by_running.
Qed.

(** His second junior deposit on the tranche market: the record is there. *)
Lemma bob_top_up_request :
  deposit_request (program_id := SIM_ID) k_pool bob_joins 7000 true (mkClock 100 1)
    (run (take 6 tranches)).
Proof. split; each_by_running. left. split; each_by_running. Qed.

(** The first is booked as 50000 shares and paid out as as many tokens; the second
    is accepted wherever the ledger grants it. *)
Lemma anyone_can_deposit_witness :
  (exists w', process SIM_ID acc_bob_deposit (pack (Instruction.Deposit 50000)) (run (take 2 market))
                = Ok w' /\
     token_amount (get w' k_bob_ata) = token_amount (get (run (take 2 market)) k_bob_ata) - 50000 /\
     sd_lp_amount (deposit_at k_bob_deposit w') = 50000) /\
  is_ok (process SIM_ID acc_bob_deposit (pack (DepositJunior 7000)) (run (take 6 tranches))) = true.
Proof.
  assert (Hk : keys_ok acc_bob_deposit) by (apply (bool_decide_unpack _); by vm_compute).
  assert (Hsig : signers_ok SIM_ID k_pool acc_bob_deposit)
    by (apply (bool_decide_unpack _); by vm_compute).
  assert (Ha : deposit_accounts acc_bob_deposit = Ok bob_joins) by reflexivity.
  split.
  - assert (Hm : u64 50000) by width_lia.
    destruct (anyone_can_deposit (program_id := SIM_ID) k_pool acc_bob_deposit bob_joins 50000 false
                (mkClock 100 1) _ (market_backed 1) Hk Hsig Ha Hm bob_join_request) as [_ H].
    cbv zeta in H. set (w := run (take 2 market)) in *.
    assert (E : sp_total_lp_supply (pool_at k_pool w) = 500000 /\ vault_amount k_pool w = 500000 /\
                raw_value (pool_at k_pool w) = 500000 /\ sp_pool_mode (pool_at k_pool w) = 0 /\
                sd_lp_amount (deposit_at k_bob_deposit w) = 0)
      by (split_and!; by vm_compute).
    destruct E as (E1 & E2 & E3 & E4 & E5). rewrite E1, E2, E3, E4 in H.
    destruct H as (q & m & (w' & H1 & _ & J) & _);
      [done|lia|by vm_compute|by vm_compute|by vm_compute|done|done|done|by vm_compute|done
      |by vm_compute|by vm_compute|].
    exists w'. destruct J as [J1 _ (_ & _ & _ & _ & J2)]. split; [exact H1|]. split; [exact J1|].
    etransitivity; [exact J2|]. change (da_deposit_pda bob_joins).(ai_key) with k_bob_deposit.
    rewrite E5. by vm_compute.
  - assert (Hm : u64 7000) by width_lia.
    destruct (anyone_can_deposit (program_id := SIM_ID) k_pool acc_bob_deposit bob_joins 7000 true
                (mkClock 100 1) _ (tranches_backed 5) Hk Hsig Ha Hm bob_top_up_request) as [H _].
    cbv zeta in H. set (w := run (take 6 tranches)) in *.
    destruct (is_ok_Ok (ledger_step (mkClock 100 1) false (deposit_ix true 7000) (ledger_of k_pool w)))
      as [l' Hl]; [by vm_compute|].
    destruct (H l' Hl) as (w' & H1 & _). cbn [deposit_ix] in H1. by rewrite H1.
Defined.
