(* ===== verification/Calls.v ===== *)
(** * The rest is a gate and a call

    The thirteen instructions that are neither a holder's (Join.v, Exit.v) nor
    configuration (Config.v): fee accrual, the three insurance flows and the nine
    wrapper proxies. Given the accounts the handler looks for, each is its ledger
    step and at most one payload of calls, and nothing else decides it. *)

From S2P Require Import Prelude Errors Math State PoolFacts Instruction Runtime SplToken Cpi Guards.
From S2P Require Import Fees Deposit Withdraw Insurance Admin Proxy Init Processor Ledger.
From S2P Require Import LedgerFacts LedgerInv Laws Backing BackingSteps BackingLp BackingInit.
From S2P Require Import Safety Sim SimLaws SimServes Scenario Run Settlement Config Serving.

(** ** The accounts *)

(** Everyone a handler may ask for, by role. [c_signer] is the caller of AccrueFees
    and RecoverFlushedInsurance, the admin of the others. *)
Record Cast : Set := mkCast {
  c_signer : AccountInfo;
  c_pool : AccountInfo;
  c_vault : AccountInfo;
  c_vault_auth : AccountInfo;
  c_slab : AccountInfo;
  c_wrapper_vault : AccountInfo;
  c_wrapper_auth : AccountInfo;
  c_target : AccountInfo;
  c_ata : AccountInfo;
  c_percolator : AccountInfo;
  c_token : AccountInfo;
  c_clock : AccountInfo;
}.

(** The list each handler reads. *)
Definition call_accounts (i : StakeInstruction) (c : Cast) : option (list AccountInfo) :=
  match i with
  | AccrueFees => Some [c_signer c; c_pool c; c_vault c; c_clock c]
  | FlushToInsurance _ =>
      Some [c_signer c; c_pool c; c_vault c; c_vault_auth c; c_slab c; c_wrapper_vault c;
            c_percolator c; c_token c]
  | ReturnInsurance _ => Some [c_signer c; c_pool c; c_ata c; c_vault c; c_token c]
  | RecoverFlushedInsurance _ =>
      Some [c_signer c; c_pool c; c_vault c; c_vault_auth c; c_slab c; c_wrapper_vault c;
            c_wrapper_auth c; c_token c; c_percolator c]
  | BindInsuranceAuthority | BurnAssetAdmin
  | AdminUpdateBackingFeePolicy _ _ _ | AdminUpdateTradeFeePolicy _ =>
      Some [c_signer c; c_pool c; c_vault_auth c; c_slab c; c_percolator c]
  | RotateInsuranceAuthority | RotateInsuranceOperator =>
      Some [c_signer c; c_pool c; c_vault_auth c; c_target c; c_slab c; c_percolator c]
  | AdminResolveMarket | AdminUpdateFeeSplit _ _ _ | AdminUpdateMaintenanceFeePerSlot _ =>
      Some [c_signer c; c_pool c; c_slab c; c_percolator c]
  | _ => None
  end.

(** ** The calls *)

Section Outcalls.
Context {RT : Runtime} (program_id : Pubkey).

Definition vault_seeds (pk : Pubkey) : list (list Z) :=
  [SEED_VAULT_AUTH; pk; [snd (derive_vault_authority program_id pk)]].
Definition pool_seeds (p : StakePool) : list (list Z) :=
  [SEED_STAKE_POOL; p.(sp_slab); [p.(sp_bump)]].

(** What the handler of an instruction asks of the other programs, on the pool [p]
    at [pk]: TopUpInsurance, a transfer, WithdrawInsuranceAsset, the two bindings,
    the burn, the rotations and the five market calls. *)
Definition outcall (i : StakeInstruction) (c : Cast) (pk : Pubkey) (p : StakePool) (w : World)
    : ProgramResult World :=
  let perc := c_percolator c in let va := c_vault_auth c in let slab := c_slab c in
  match i with
  | FlushToInsurance amount =>
      cpi_top_up_insurance [pk] perc va slab (c_vault c) (c_wrapper_vault c) (c_token c) amount
        (vault_seeds pk) w
  | ReturnInsurance amount =>
      ix ← SplToken.transfer (c_token c).(ai_key) (c_ata c).(ai_key) (c_vault c).(ai_key)
             (c_signer c).(ai_key) [] amount;
      invoke [pk] ix [c_ata c; c_vault c; c_signer c] w
  | RecoverFlushedInsurance amount =>
      cpi_withdraw_insurance_asset [pk] perc va slab (c_vault c) (c_wrapper_vault c)
        (c_wrapper_auth c) (c_token c) amount (vault_seeds pk) w
  | BindInsuranceAuthority =>
      w ← cpi_bind_insurance_authority [] perc (c_signer c) va slab (vault_seeds pk) w;
      cpi_bind_insurance_operator [] perc (c_signer c) va slab (vault_seeds pk) w
  | BurnAssetAdmin => cpi_burn_asset_admin [] perc (c_signer c) va slab w
  | RotateInsuranceOperator =>
      cpi_rotate_insurance_operator [] perc va (c_target c) slab (vault_seeds pk) w
  | RotateInsuranceAuthority =>
      cpi_rotate_insurance_authority [] perc va (c_target c) slab (vault_seeds pk) w
  | AdminResolveMarket => cpi_resolve_market [] perc (c_pool c) slab (pool_seeds p) w
  | AdminUpdateFeeSplit creator lp insurance =>
      cpi_update_fee_split [] perc (c_pool c) slab creator lp insurance (pool_seeds p) w
  | AdminUpdateMaintenanceFeePerSlot fee =>
      cpi_update_maintenance_fee_per_slot [] perc (c_pool c) slab fee (pool_seeds p) w
  | AdminUpdateBackingFeePolicy domain fee_bps insurance =>
      cpi_update_backing_fee_policy [] perc va slab domain fee_bps insurance (vault_seeds pk) w
  | AdminUpdateTradeFeePolicy bps =>
      cpi_update_trade_fee_policy [] perc va slab bps (vault_seeds pk) w
  | _ => Ok w
  end.

(** The instructions that write the pool's record. *)
Definition writes_record (i : StakeInstruction) : bool :=
  match i with
  | AccrueFees | FlushToInsurance _ | ReturnInsurance _ | RecoverFlushedInsurance _
  | BurnAssetAdmin => true
  | _ => false
  end.

(** The gate passes, the call is made, the record is stored; or nothing happens. *)
Definition gate_and_call (pk : Pubkey) (i : StakeInstruction) (gate : ProgramResult Ledger)
    (call r : ProgramResult World) : Prop :=
  match gate, call with
  | Ok l, Ok w1 => r = Ok (if writes_record i then store_pool pk (lg_pool l) w1 else w1)
  | _, _ => is_ok r = false
  end.
End Outcalls.

Section Calls.
Context {RT : Runtime} {BC : BuildConfig} {program_id : Pubkey} {RL : RuntimeLaws program_id}.

(** The roles are played by the pool's own accounts: its vault, its [vault_auth],
    its market and wrapper; the signer signs, and is the admin where the ledger
    asks for it; a rotation's target signs. *)
Record well_cast (pk : Pubkey) (i : StakeInstruction) (c : Cast) (clk : Clock) (w : World)
    : Prop := {
  wc_signer : (c_signer c).(ai_is_signer) = true /\
    (i <> AccrueFees -> (forall n, i <> RecoverFlushedInsurance n) ->
     (c_signer c).(ai_key) = sp_admin (pool_at pk w));
  wc_pool : (c_pool c).(ai_key) = pk /\ (c_pool c).(ai_is_writable) = true /\
    fst (derive_pool_pda program_id (sp_slab (pool_at pk w))) = pk;
  wc_vault : (c_vault c).(ai_key) = sp_vault (pool_at pk w) /\ (c_vault c).(ai_is_writable) = true /\
    live_token (get w (sp_vault (pool_at pk w)));
  wc_vault_auth : (c_vault_auth c).(ai_key) = vault_auth_of program_id pk;
  wc_slab : (c_slab c).(ai_key) = sp_slab (pool_at pk w);
  wc_wrapper_vault : live_token (get w (c_wrapper_vault c).(ai_key)) /\
    token_mint (get w (c_wrapper_vault c).(ai_key)) = sp_collateral_mint (pool_at pk w);
  wc_target : (c_target c).(ai_is_signer) = true;
  wc_ata : let x := get w (c_ata c).(ai_key) in
    live_token x /\ token_mint x = sp_collateral_mint (pool_at pk w) /\
    token_owner x = (c_signer c).(ai_key);
  wc_percolator : (c_percolator c).(ai_key) = sp_percolator_program (pool_at pk w);
  wc_token : (c_token c).(ai_key) = SplToken.id;
  wc_clock : clock_from_account_info (c_clock c) w = Ok clk;
}.

Section Steps.
Context (pk : Pubkey) (i : StakeInstruction) (c : Cast) (rest : list AccountInfo).
Context (clk : Clock) (w : World) (Hbk : backed program_id pk w) (R : well_cast pk i c clk w).
#[local] Abbreviation p := (pool_at pk w).
#[local] Abbreviation gated gate r := (gate_and_call pk i gate (outcall program_id i c pk p w) r).

Let HB : bound program_id pk w := bk_bound _ _ _ Hbk.
Lemma cast_pool : (c_pool c).(ai_key) = pk.
Proof. apply R. Qed.

(** ** The prologues *)

Lemma signer_serves : require_signer (c_signer c) = Ok tt.
Proof. apply require_signer_Ok, R. Qed.

Lemma pool_mut_serves : validate_pool_mut program_id (c_pool c) w = Ok tt.
Proof. apply (validate_pool_mut_live pk w HB); apply R. Qed.

Lemma token_program_serves : verify_token_program (c_token c) = Ok tt.
Proof. unfold verify_token_program. serve. apply R. Qed.

Lemma open_serves_ : open_pool [] (c_pool c) w = Ok p.
Proof. apply (open_pool_live pk w HB), cast_pool. Qed.

Lemma read_serves :
  (c_signer c).(ai_key) = sp_admin p -> open_pool_read program_id (c_signer c) (c_pool c) w = Ok p.
Proof.
  intros Ha. destruct (pool_data_live pk w HB (c_pool c) cast_pool) as (_ & _ & E).
  unfold open_pool_read. serve.
  - apply validate_account_owner_Ok. rewrite cast_pool. apply HB.
  - unfold validate_account_not_empty. by rewrite E.
  - exact open_serves_.
  - by rewrite Ha.
Qed.

Lemma market_serves : check_market p (c_slab c) (c_percolator c) = Ok tt.
Proof. apply check_market_Ok. split; symmetry; apply R. Qed.

Lemma seeds_serve :
  vault_auth_seeds_for program_id (c_pool c) (c_vault_auth c) = Ok (vault_seeds program_id pk).
Proof.
  pose proof (wc_vault_auth _ _ _ _ _ R) as Hv. unfold vault_auth_seeds_for, vault_seeds, vault_auth_of in *.
  rewrite cast_pool. destruct (derive_vault_authority _ _) as [k b]. cbn [fst snd] in *.
  serve. exact Hv.
Qed.
(** The check of the [vault_auth] address where a handler makes it itself. *)
Lemma vault_auth_serves {A} e (k : Z -> ProgramResult A) :
  (let '(expected, bump) := derive_vault_authority program_id pk in
   ensure key_eqb (c_vault_auth c).(ai_key) expected or_err e; k bump)
    = k (snd (derive_vault_authority program_id pk)).
Proof.
  pose proof (wc_vault_auth _ _ _ _ _ R) as Hv. unfold vault_auth_of in Hv.
  destruct (derive_vault_authority _ _) as [x b]. cbn [fst snd] in *.
  by rewrite Hv, (proj2 (key_eqb_eq _ _) eq_refl).
Qed.

Lemma group_a_serves :
  (c_signer c).(ai_key) = sp_admin p ->
  validate_group_a_proxy program_id (c_signer c) (c_pool c) (c_slab c) (c_percolator c) w
    = Ok (sp_bump p).
Proof.
  intros Ha. unfold validate_group_a_proxy.
  by rewrite signer_serves, bind_of_Ok, read_serves, bind_of_Ok, market_serves.
Qed.

Lemma group_b_serves :
  (c_signer c).(ai_key) = sp_admin p ->
  validate_group_b_proxy program_id (c_signer c) (c_pool c) (c_vault_auth c) (c_slab c)
    (c_percolator c) w = Ok (snd (derive_vault_authority program_id pk)).
Proof.
  intros Ha. unfold validate_group_b_proxy. rewrite group_a_serves, bind_of_Ok by done.
  rewrite cast_pool. apply vault_auth_serves.
Qed.

Lemma rotate_serves :
  (c_signer c).(ai_key) = sp_admin p ->
  rotate_guards program_id (c_signer c) (c_pool c) (c_vault_auth c) (c_target c) (c_slab c)
    (c_percolator c) w
    = (ensure negb (asset_admin_burned p) or_err stake_err Unauthorized;
       Ok (vault_seeds program_id pk)).
Proof.
  intros Ha. unfold rotate_guards. rewrite signer_serves, bind_of_Ok.
  unfold require_signer at 1. rewrite (wc_target _ _ _ _ _ R), bind_of_Ok, read_serves, bind_of_Ok by done.
  by rewrite market_serves, bind_of_Ok, seeds_serve.
Qed.

(** ** The gates *)

(** A call behind a gate the handler checks first. *)
Lemma gated_call (b : bool) e l r :
  writes_record i = false ->
  r = (ensure b or_err e; outcall program_id i c pk p w) ->
  gated (ensure b or_err e; Ok l) r.
Proof.
  intros Hw ->. unfold gate_and_call. rewrite Hw. destruct b; [|done].
  by destruct (outcall _ _ _ _ _ _).
Qed.

Lemma plain_call l r :
  writes_record i = false -> r = outcall program_id i c pk p w -> gated (Ok l) r.
Proof. intros Hw ->. by apply (gated_call true (stake_err Unauthorized)). Qed.

(** Calls, then a change of the record that may fail, then the store. *)
Lemma gated_store (g : ProgramResult unit) (t : ProgramResult StakePool) (room : bool) v s r :
  writes_record i = true ->
  (forall w1, outcall program_id i c pk p w = Ok w1 -> room = true) ->
  r = (_ ← g; w1 ← outcall program_id i c pk p w; q ← t; Ok (store_pool pk q w1)) ->
  gated (_ ← g; ensure room or_err stake_err InsufficientVaultBalance; q ← t; Ok (mkLedger q v s)) r.
Proof.
  intros Hw Hroom ->. unfold gate_and_call. rewrite Hw.
  destruct g as [[]|]; [|done]. rewrite !bind_of_Ok.
  destruct (outcall program_id i c pk p w) as [w1|]; [|by destruct room; [destruct t|]].
  rewrite (Hroom w1 eq_refl), bind_of_Ok. by destruct t.
Qed.
(** ** The insurance flows and the accrual *)

Lemma flush_guards_serves :
  (c_signer c).(ai_key) = sp_admin p ->
  flush_guards p (c_signer c) (c_vault c) (c_slab c) (c_percolator c)
    = (ensure p.(sp_pool_mode) =? 0 or_err stake_err InvalidPoolMode;
       ensure negb (market_resolved p) or_err stake_err MarketResolved; Ok tt).
Proof.
  intros Ha. unfold flush_guards. destruct (wc_vault _ _ _ _ _ R) as [Hv _].
  rewrite Ha, Hv, (wc_slab _ _ _ _ _ R), (wc_percolator _ _ _ _ _ R).
  by rewrite !(proj2 (key_eqb_eq _ _) eq_refl).
Qed.

Lemma flush_gated amount :
  i = FlushToInsurance amount -> (c_signer c).(ai_key) = sp_admin p -> u64 amount ->
  gated (ledger_flush amount (ledger_of pk w))
    (process_flush_to_insurance program_id
       (c_signer c :: c_pool c :: c_vault c :: c_vault_auth c :: c_slab c :: c_wrapper_vault c ::
        c_percolator c :: c_token c :: rest) amount w).
Proof.
  intros Hi Ha Hu. unfold process_flush_to_insurance, ledger_flush, ledger_of.
  destruct (amount =? 0); [done|]. cbn [negb].
  rewrite signer_serves, bind_of_Ok, pool_mut_serves, bind_of_Ok, token_program_serves, bind_of_Ok.
  rewrite open_serves_, bind_of_Ok, flush_guards_serves by done.
  destruct (sp_pool_mode p =? 0); [|done]. destruct (market_resolved p); [done|]. cbn [negb].
  rewrite bind_of_Ok, cast_pool.
  destruct (wc_wrapper_vault _ _ _ _ _ R) as [Lw Mw].
  rewrite (check_token_account_serves pk w Hbk), bind_of_Ok by done.
  destruct (total_pool_value p) as [v|]; [|done]. cbn [ok_or]. rewrite !bind_of_Ok.
  destruct (v <? amount); [done|]. cbn [negb]. rewrite vault_auth_serves.
  refine (gated_store (Ok tt) _ _ _ _ _ _ _ _); rewrite Hi; [done| |done].
  intros w1 Hc. apply Z.leb_le. destruct (wc_vault _ _ _ _ _ R) as [Hv _].
  assert (Hperc : is_percolator (c_percolator c).(ai_key) = true)
    by (rewrite (wc_percolator _ _ _ _ _ R); apply HB).
  destruct (law_top_up _ _ _ _ _ _ _ _ _ _ _ _ Hperc Hu Hc) as [Hbal _]. by rewrite Hv in Hbal.
Qed.

Lemma recover_gated amount :
  i = RecoverFlushedInsurance amount ->
  gated (ledger_recover amount (ledger_of pk w))
    (process_recover_flushed_insurance program_id
       (c_signer c :: c_pool c :: c_vault c :: c_vault_auth c :: c_slab c :: c_wrapper_vault c ::
        c_wrapper_auth c :: c_token c :: c_percolator c :: rest) amount w).
Proof.
  intros Hi. unfold process_recover_flushed_insurance, ledger_recover, ledger_of.
  rewrite token_program_serves, bind_of_Ok, pool_mut_serves, bind_of_Ok, open_serves_, bind_of_Ok.
  destruct (wc_vault _ _ _ _ _ R) as [Hv _]. rewrite Hv, (wc_percolator _ _ _ _ _ R), cast_pool.
  rewrite !(proj2 (key_eqb_eq _ _) eq_refl), vault_auth_serves.
  refine (gated_store _ _ true _ _ _ _ _ _); rewrite Hi; done.
Qed.

Lemma return_gated amount :
  i = ReturnInsurance amount -> (c_signer c).(ai_key) = sp_admin p ->
  gated (ledger_return amount (ledger_of pk w))
    (process_return_insurance program_id
       (c_signer c :: c_pool c :: c_ata c :: c_vault c :: c_token c :: rest) amount w).
Proof.
  intros Hi Ha. unfold process_return_insurance, ledger_return, ledger_of.
  destruct (amount =? 0); [done|]. cbn [negb].
  rewrite signer_serves, bind_of_Ok, token_program_serves, bind_of_Ok, pool_mut_serves, bind_of_Ok.
  destruct (wc_vault _ _ _ _ _ R) as (Hv & Wv & Lv). pose proof (wc_ata _ _ _ _ _ R) as (La & Ma & Oa).
  unfold validate_account_writable at 1, ai_owner. rewrite Wv, bind_of_Ok, open_serves_, bind_of_Ok.
  rewrite Ha, Hv, (proj1 Lv), cast_pool, !(proj2 (key_eqb_eq _ _) eq_refl).
  destruct (_ <? amount); [done|]. cbn [negb]. rewrite <- Ha.
  rewrite (check_token_account_serves pk w Hbk), bind_of_Ok by (done || by intros k [= <-]).
  refine (gated_store (Ok tt) _ true _ _ _ _ _ _); rewrite Hi; [done..|].
  cbn [outcall]. by rewrite Hv.
Qed.

Lemma accrue_gated :
  i = AccrueFees ->
  gated (ledger_accrue_fees clk (ledger_of pk w))
    (process_accrue_fees program_id (c_signer c :: c_pool c :: c_vault c :: c_clock c :: rest) w).
Proof.
  intros Hi. unfold process_accrue_fees, ledger_accrue_fees, ledger_of.
  destruct (pool_data_live pk w HB (c_pool c) cast_pool) as (_ & _ & E).
  destruct (wc_vault _ _ _ _ _ R) as (Hv & _ & Lv). destruct (proj2 (wc_pool _ _ _ _ _ R)) as (Wp & Hpda).
  rewrite signer_serves, bind_of_Ok. unfold validate_account_not_empty, validate_account_writable.
  rewrite E, !bind_of_Ok, Wp.
  rewrite (proj2 (validate_account_owner_Ok (c_pool c) program_id w))
    by (rewrite cast_pool; apply HB).
  cbn [negb]. rewrite !bind_of_Ok, open_serves_, bind_of_Ok, cast_pool.
  destruct (derive_pool_pda _ _) as [k b]. cbn [fst] in Hpda. rewrite Hpda, Hv.
  rewrite !(proj2 (key_eqb_eq _ _) eq_refl). destruct (1 <? sp_pool_mode p); [done|]. cbn [negb].
  rewrite (vault_balance_serves pk w Hbk), Hv, bind_of_Ok by (by rewrite Hv).
  rewrite (wc_clock _ _ _ _ _ R), bind_of_Ok. fold (vault_amount pk w).
  unfold gate_and_call. rewrite Hi. cbn [outcall writes_record].
  by destruct (accrue_fees_inner p (vault_amount pk w)).
Qed.

(** ** The burn *)

Lemma burn_gated :
  i = BurnAssetAdmin -> (c_signer c).(ai_key) = sp_admin p ->
  gated (on_pool (ledger_of pk w) (burn_admin p))
    (process_burn_asset_admin program_id
       (c_signer c :: c_pool c :: c_vault_auth c :: c_slab c :: c_percolator c :: rest) w).
Proof.
  intros Hi Ha. unfold process_burn_asset_admin, on_pool, burn_admin.
  destruct (proj2 (wc_pool _ _ _ _ _ R)) as [Wp _].
  rewrite signer_serves, bind_of_Ok. unfold validate_account_writable. rewrite Wp, bind_of_Ok.
  rewrite read_serves, bind_of_Ok by done. destruct (asset_admin_burned p); [done|]. cbn [negb].
  rewrite market_serves, bind_of_Ok, seeds_serve, !bind_of_Ok.
  unfold gate_and_call. rewrite Hi. cbn [outcall writes_record lg_pool].
  destruct (cpi_burn_asset_admin _ _ _ _ _ _) as [w1|] eqn:Hc; [|done]. rewrite bind_of_Ok.
  pose proof (flow_market pk _ _ _ _ _ _ _ _ HB Hc (eq_sym (wc_slab _ _ _ _ _ R))
                (eq_sym (wc_percolator _ _ _ _ _ R)) eq_refl eq_refl) as F.
  pose proof (keeps_bound _ _ _ HB (fl_keeps _ _ _ _ _ F)) as B1.
  destruct (pool_data_live pk w1 B1 (c_pool c) cast_pool) as (E1 & _ & _).
  unfold mark_burned. rewrite E1, bind_of_Ok, index_range_in, bind_of_Ok
    by first [apply Nat.le_0_l|apply B1].
  change (pool_decode _) with (pool_at pk w1). by rewrite (flow_pool _ _ _ _ _ F), cast_pool.
Qed.
(** ** The proxies *)

(** Who must sign, where the ledger asks for the admin. *)
Lemma cast_admin :
  i <> AccrueFees -> (forall n, i <> RecoverFlushedInsurance n) ->
  (c_signer c).(ai_key) = sp_admin p.
Proof. apply (wc_signer _ _ _ _ _ R). Qed.

(** The handlers of the proxies are their gate and their call. *)
Ltac proxy Hi :=
  pose proof cast_admin as Ha; rewrite Hi in Ha; specialize (Ha ltac:(done) ltac:(done));
  first [apply gated_call | apply plain_call]; rewrite Hi; [done|];
  cbn [outcall app]; unfold pool_seeds; rewrite <- ?(wc_slab _ _ _ _ _ R).

Lemma bind_gated l :
  i = BindInsuranceAuthority ->
  gated (Ok l) (process_bind_insurance_authority program_id
    (c_signer c :: c_pool c :: c_vault_auth c :: c_slab c :: c_percolator c :: rest) w).
Proof.
  intros Hi. proxy Hi. unfold process_bind_insurance_authority.
  by rewrite signer_serves, bind_of_Ok, read_serves, bind_of_Ok, market_serves, bind_of_Ok, seeds_serve.
Qed.

Lemma rotate_operator_gated l :
  i = RotateInsuranceOperator ->
  gated (ensure negb (asset_admin_burned p) or_err stake_err Unauthorized; Ok l)
    (process_rotate_insurance_operator program_id
       (c_signer c :: c_pool c :: c_vault_auth c :: c_target c :: c_slab c :: c_percolator c :: rest) w).
Proof.
  intros Hi. proxy Hi. unfold process_rotate_insurance_operator. rewrite rotate_serves by done.
  by destruct (asset_admin_burned p).
Qed.

Lemma rotate_authority_gated l :
  i = RotateInsuranceAuthority ->
  gated (ensure negb (asset_admin_burned p) or_err stake_err Unauthorized; Ok l)
    (process_rotate_insurance_authority program_id
       (c_signer c :: c_pool c :: c_vault_auth c :: c_target c :: c_slab c :: c_percolator c :: rest) w).
Proof.
  intros Hi. proxy Hi. unfold process_rotate_insurance_authority. rewrite rotate_serves by done.
  by destruct (asset_admin_burned p).
Qed.

Lemma resolve_gated l :
  i = AdminResolveMarket ->
  gated (ensure wrapper_fully_recovered p or_err stake_err InsuranceLossOutstanding; Ok l)
    (process_admin_resolve_market program_id
       (c_signer c :: c_pool c :: c_slab c :: c_percolator c :: rest) w).
Proof.
  intros Hi. proxy Hi. unfold process_admin_resolve_market.
  by rewrite signer_serves, bind_of_Ok, read_serves, bind_of_Ok, market_serves, bind_of_Ok.
Qed.

Lemma fee_split_gated x y z l :
  i = AdminUpdateFeeSplit x y z ->
  gated (Ok l) (process_admin_update_fee_split program_id
    (c_signer c :: c_pool c :: c_slab c :: c_percolator c :: rest) x y z w).
Proof.
  intros Hi. proxy Hi. unfold process_admin_update_fee_split. by rewrite group_a_serves, bind_of_Ok.
Qed.

Lemma maintenance_fee_gated x l :
  i = AdminUpdateMaintenanceFeePerSlot x ->
  gated (Ok l) (process_admin_update_maintenance_fee_per_slot program_id
    (c_signer c :: c_pool c :: c_slab c :: c_percolator c :: rest) x w).
Proof.
  intros Hi. proxy Hi. unfold process_admin_update_maintenance_fee_per_slot.
  by rewrite group_a_serves, bind_of_Ok.
Qed.

Lemma backing_fee_gated x y z l :
  i = AdminUpdateBackingFeePolicy x y z ->
  gated (Ok l) (process_admin_update_backing_fee_policy program_id
    (c_signer c :: c_pool c :: c_vault_auth c :: c_slab c :: c_percolator c :: rest) x y z w).
Proof.
  intros Hi. proxy Hi. unfold process_admin_update_backing_fee_policy, vault_seeds.
  by rewrite group_b_serves, bind_of_Ok, cast_pool.
Qed.

Lemma trade_fee_gated x l :
  i = AdminUpdateTradeFeePolicy x ->
  gated (Ok l) (process_admin_update_trade_fee_policy program_id
    (c_signer c :: c_pool c :: c_vault_auth c :: c_slab c :: c_percolator c :: rest) x w).
Proof.
  intros Hi. proxy Hi. unfold process_admin_update_trade_fee_policy, vault_seeds.
  by rewrite group_b_serves, bind_of_Ok, cast_pool.
Qed.

(** ** The transaction *)

(** C36: the thirteen other instructions are decided by the ledger and their calls
    alone: fee accrual, the three insurance flows and the nine wrapper proxies. Given
    the accounts of [well_cast], a transaction is accepted if and only if the ledger
    step is granted and the calls of [outcall] are carried out. It then makes exactly
    these calls, and stores the ledger's record over the pool's where the instruction
    writes it; otherwise it is refused. So no handler has a gate of its own that the
    specification does not show, and none asks the other programs for anything
    else. *)
Theorem decided_by_the_gate_and_the_call accounts j :
  call_accounts i c = Some accounts -> wf_instruction i ->
  gate_and_call pk i (ledger_step clk j i (ledger_of pk w)) (outcall program_id i c pk p w)
    (process program_id (accounts ++ rest) (pack i) w).
Proof.
  intros Hacc Hi. unfold process. rewrite unpack_pack, bind_of_Ok by done.
  enough (forall x, i = x -> call_accounts x c = Some accounts -> wf_instruction x ->
            gated (ledger_step clk j x (ledger_of pk w)) (dispatch program_id (accounts ++ rest) x w))
    as H by (by apply H).
  clear Hacc Hi. intros x Ex Hacc Hi. pose proof cast_admin as Ha. rewrite Ex in Ha.
  destruct x; try discriminate Hacc; injection Hacc as <-; try specialize (Ha ltac:(done) ltac:(done));
    cbn [app dispatch ledger_step ledger_of lg_pool wf_instruction] in *.
  - by apply flush_gated.
  - by apply bind_gated.
  - by apply rotate_authority_gated.
  - by apply burn_gated.
  - by apply rotate_operator_gated.
  - by apply recover_gated.
  - by apply return_gated.
  - by apply accrue_gated.
  - by apply resolve_gated.
  - by apply fee_split_gated.
  - by apply maintenance_fee_gated.
  - by apply backing_fee_gated.
  - by apply trade_fee_gated.
Qed.
End Steps.
End Calls.

(** ** On the market *)

#[local] Existing Instance sim.
#[local] Existing Instance sim_build.
#[local] Existing Instance sim_laws_hold.

Definition market_cast : Cast :=
  mkCast (signer k_admin) (rw k_pool) (rw k_vault) (ro k_vault_auth) (rw k_slab) (rw k_wrapper_vault)
    (ro k_wrapper_auth) (signer k_admin) (rw k_admin_ata) (ro PERCOLATOR_MAINNET) (ro SplToken.id)
    (ro CLOCK_ID).

(** The market after its two deposits, cast for any instruction. *)
Lemma market_well_cast i :
  well_cast (program_id := SIM_ID) k_pool i market_cast (mkClock 100 1) (run (take 3 market)).
Proof. split; each_by_running. intros _ _. by vm_compute. Qed.

(** A flush of 100000 is granted, and so is the call, so it is accepted and stores the
    ledger's record; one of 600000 is more than the pool's value, so it is refused. *)
Lemma decided_by_the_gate_and_the_call_witness :
  let w := run (take 3 market) in
  (exists l' w1,
     ledger_step (mkClock 100 1) false (FlushToInsurance 100000) (ledger_of k_pool w) = Ok l' /\
     process SIM_ID acc_flush (pack (FlushToInsurance 100000)) w
       = Ok (store_pool k_pool (lg_pool l') w1)) /\
  is_ok (process SIM_ID acc_flush (pack (FlushToInsurance 600000)) w) = false.
Proof.
  cbv zeta. set (w := run (take 3 market)).
  assert (H : forall n, u64 n ->
    gate_and_call k_pool (FlushToInsurance n)
      (ledger_step (mkClock 100 1) false (FlushToInsurance n) (ledger_of k_pool w))
      (outcall SIM_ID (FlushToInsurance n) market_cast k_pool (pool_at k_pool w) w)
      (process SIM_ID acc_flush (pack (FlushToInsurance n)) w)).
  { intros n Hn.
    exact (decided_by_the_gate_and_the_call (program_id := SIM_ID) k_pool (FlushToInsurance n)
             market_cast [] (mkClock 100 1) w (market_backed 2) (market_well_cast _) acc_flush false
             eq_refl Hn). }
  split.
  - assert (Hn : u64 100000) by width_lia. specialize (H 100000 Hn). unfold gate_and_call in H.
    destruct (is_ok_Ok (ledger_step (mkClock 100 1) false (FlushToInsurance 100000) (ledger_of k_pool w)))
      as [l' Hl]; [by vm_compute|].
    destruct (is_ok_Ok (outcall SIM_ID (FlushToInsurance 100000) market_cast k_pool (pool_at k_pool w) w))
      as [w1 Hc]; [by vm_compute|].
    rewrite Hl, Hc in H. exists l', w1. split; [exact Hl|exact H].
  - assert (Hn : u64 600000) by width_lia. specialize (H 600000 Hn). unfold gate_and_call in H.
    assert (E : is_ok (ledger_step (mkClock 100 1) false (FlushToInsurance 600000) (ledger_of k_pool w))
                = false) by by vm_compute.
    destruct (ledger_step _ _ _ _) as [l'|e]; [discriminate E|exact H].
Defined.
