(* ===== verification/Found.v ===== *)
(** * The market's admin can found the pool

    Pool creation is complete too: whoever holds the market's authority gets the
    pool, at an address someone funded beforehand as well as at an empty one. The
    founder's side is [init_request], the other programs' are
    [TokenProgramServes], [SystemServes] and the wrapper's acceptance of the new
    authority. *)

From S2P Require Import Prelude Errors Math State PoolFacts Instruction Runtime SplToken Cpi Guards.
From S2P Require Import Fees Deposit Withdraw Insurance Admin Proxy Init Processor Ledger.
From S2P Require Import LedgerFacts LedgerInv Laws Backing BackingSteps BackingLp BackingInit.
From S2P Require Import Safety Sim SimLaws SimServes Scenario Run Config Serving.

(** The instruction of each mode ([true] is a trading pool). *)
Definition init_ix (trading : bool) (cooldown cap : Z) : StakeInstruction :=
  if trading then InitTradingPool cooldown cap else InitPool cooldown cap.

(** The accounts the five calls and the record may write. *)
Definition init_written (a : InitAccounts) : list Pubkey :=
  [(ia_admin a).(ai_key); (ia_pool_pda a).(ai_key); (ia_slab a).(ai_key);
   (ia_lp_mint a).(ai_key); (ia_vault a).(ai_key)].

Section Found.
Context {RT : Runtime} {BC : BuildConfig} {program_id : Pubkey} {RL : RuntimeLaws program_id}.
Context {TS : TokenProgramServes program_id} {SS : SystemServes program_id}.

(** What the founder brings: a wallet that signs and pays, a market of an allowed
    wrapper, the pool's and the vault authority's addresses, a zeroed LP mint and
    a zeroed vault that hold their rent, a live collateral mint. The wrapper takes
    the pool's address as the new authority of the market, wherever only the pool's
    account has been made and paid for. *)
Record init_request (a : InitAccounts) (c : Z) (w : World) : Prop := {
  ir_wrapper : is_percolator (ia_percolator_program a).(ai_key) = true;
  ir_slab : acc_owner (get w (ia_slab a).(ai_key)) = (ia_percolator_program a).(ai_key) /\
    (ia_slab a).(ai_is_writable) = true;
  ir_cooldown : 0 < c <= MAX_COOLDOWN_SLOTS;
  ir_pool : fst (derive_pool_pda program_id (ia_slab a).(ai_key)) = (ia_pool_pda a).(ai_key);
  ir_vault_auth : vault_auth_of program_id (ia_pool_pda a).(ai_key) = (ia_vault_auth a).(ai_key);
  ir_create : creatable (ia_admin a) (ia_pool_pda a) (ia_system_program a)
                (Z.of_nat STAKE_POOL_SIZE) w;
  ir_mint : (ia_lp_mint a).(ai_is_writable) = true /\
    unmade MINT_LEN (get w (ia_lp_mint a).(ai_key)) /\ exempt w (ia_lp_mint a).(ai_key);
  ir_vault : (ia_vault a).(ai_is_writable) = true /\
    unmade ACCOUNT_LEN (get w (ia_vault a).(ai_key)) /\ exempt w (ia_vault a).(ai_key);
  ir_collateral : live_mint (get w (ia_collateral_mint a).(ai_key));
  ir_token_program : (ia_token_program a).(ai_key) = SplToken.id;
  ir_rent : (ia_rent_sysvar a).(ai_key) = RENT_SYSVAR_ID;
  ir_authority : forall bump w1,
    derive_pool_pda program_id (ia_slab a).(ai_key) = ((ia_pool_pda a).(ai_key), bump) ->
    acc_owner (get w1 (ia_pool_pda a).(ai_key)) = program_id ->
    (forall k, k <> (ia_admin a).(ai_key) -> k <> (ia_pool_pda a).(ai_key) -> get w1 k = get w k) ->
    exists w2, cpi_update_authority [] (ia_percolator_program a) (ia_admin a) (ia_pool_pda a)
                 (ia_slab a) [SEED_STAKE_POOL; (ia_slab a).(ai_key); [bump]] w1 = Ok w2;
}.

(** Making an account touches the payer and the account. *)
Lemma create_or_adopt_keeps mb t p s o sp seeds w w' :
  create_or_adopt_pda mb t p s o sp seeds w = Ok w' ->
  forall k, k <> p.(ai_key) -> k <> t.(ai_key) -> get w' k = get w k.
Proof.
  intros H. unfold create_or_adopt_pda in H. apply bind_Ok in H as (r & _ & H).
  pose proof (system_writes p.(ai_key) t.(ai_key)) as Hsw.
  destruct (ai_lamports w t =? 0).
  - intros k Hp Ht. eapply law_frame; [exact H|].
    rewrite (proj1 (Hsw _ _ _)). set_solver.
  - apply bind_Ok in H as (w1 & H1 & H). apply bind_Ok in H as (w2 & H2 & H3).
    assert (F1 : forall k, k <> p.(ai_key) -> k <> t.(ai_key) -> get w1 k = get w k).
    { destruct (_ <? _); [|by injection H1 as ->].
      intros k Hp Ht. eapply law_frame; [exact H1|].
      destruct (Hsw (rent_minimum_balance r sp - ai_lamports w t) sp o) as (_ & -> & _). set_solver. }
    intros k Hp Ht. rewrite <- F1 by done. destruct (Hsw 0 sp o) as (_ & _ & Ea & Eg).
    rewrite (law_frame _ _ _ _ _ _ _ H3), (law_frame _ _ _ _ _ _ _ H2); [done|..];
      rewrite ?Ea, ?Eg; set_solver.
Qed.

Lemma unmade_not_system n w k : unmade n (get w k) -> acc_owner (get w k) <> SYSTEM_PROGRAM_ID.
Proof. intros [-> _]. apply spl_not_system. Qed.

Section Steps.
Context (a : InitAccounts) (accounts : list AccountInfo) (c : Z) (w : World) (Hw : world_ok w).
Context (Hkeys : keys_ok accounts) (Ha : init_accounts accounts = Ok a) (R : init_request a c w).

Lemma init_guards_serve :
  exists b vb, init_guards program_id a c w = Ok (b, vb) /\
    derive_pool_pda program_id (ia_slab a).(ai_key) = ((ia_pool_pda a).(ai_key), b) /\
    derive_vault_authority program_id (ia_pool_pda a).(ai_key) = ((ia_vault_auth a).(ai_key), vb).
Proof.
  destruct (ir_create _ _ _ R) as [_ (Sg & _) (_ & [_ Dt] & _) _].
  destruct (ir_mint _ _ _ R) as (_ & [_ Dm] & _).
  destruct (ir_collateral _ _ _ R) as (_ & _ & Hc).
  destruct (rent_is_read (ia_rent_sysvar a) w (ir_rent _ _ _ R)) as [r Hr].
  pose proof (ir_pool _ _ _ R) as Hp. pose proof (ir_vault_auth _ _ _ R) as Hv.
  unfold vault_auth_of in Hv. unfold init_guards.
  destruct (derive_pool_pda _ _) as [pk b]. cbn [fst] in Hp. subst pk.
  destruct (derive_vault_authority _ _) as [va vb] eqn:Eva. cbn [fst] in Hv. subst va.
  exists b, vb. split; [|done]. unfold verify_token_program. serve; try done.
  - by apply require_signer_Ok.
  - apply R.
  - apply validate_cooldown_slots_Ok. pose proof (ir_cooldown _ _ _ R). lia.
  - apply bool_decide_eq_true. unfold ai_data. by rewrite Dt.
  - intros E. rewrite <- E, Dm in Hc. discriminate Hc.
  - apply R.
  - apply R.
  - apply R.
Qed.

Lemma collateral_decimals_serve w2 :
  world_ok w2 -> get w2 (ia_collateral_mint a).(ai_key) = get w (ia_collateral_mint a).(ai_key) ->
  exists dec, collateral_decimals a w2 = Ok dec /\ u8 dec.
Proof.
  intros H2 E. destruct (ir_collateral _ _ _ R) as (_ & Lc & _).
  exists (byte_at 44 (acc_data (get w (ai_key (ia_collateral_mint a))))). split.
  - unfold collateral_decimals, try_borrow_data, ai_data. rewrite E.
    serve; try (apply mint_unpack_live; lia); try done; try lia. apply not_elem_of_nil.
  - apply u8_byte_at, Hw.
Qed.

(** The vault authority's address is a key. *)
Lemma vault_auth_is_key vb :
  derive_vault_authority program_id (ia_pool_pda a).(ai_key) = ((ia_vault_auth a).(ai_key), vb) ->
  key_ok (ia_vault_auth a).(ai_key).
Proof.
  intros Hva. pose proof (law_pda [SEED_VAULT_AUTH; (ia_pool_pda a).(ai_key)]) as [Kv _].
  unfold derive_vault_authority in Hva. by rewrite Hva in Kv.
Qed.

(** The founder's wallet, the pool's address and the market are not token accounts. *)
Lemma spl_apart k :
  acc_owner (get w k) = SplToken.id ->
  k <> (ia_admin a).(ai_key) /\ k <> (ia_pool_pda a).(ai_key) /\ k <> (ia_slab a).(ai_key).
Proof.
  pose proof (ir_create _ _ _ R) as [_ (_ & _ & [Oa _] & _) (_ & [Op _] & _) _].
  destruct (ir_slab _ _ _ R) as [Os _].
  destruct (is_percolator_ids _ (ir_wrapper _ _ _ R)) as [Ns _]. pose proof spl_not_system as Nss.
  intros Hk. split_and!; intros ->; congruence.
Qed.

(** The three accounts of the token program are apart. *)
Lemma token_accounts_apart :
  (ia_vault a).(ai_key) <> (ia_lp_mint a).(ai_key) /\
  (ia_collateral_mint a).(ai_key) <> (ia_lp_mint a).(ai_key).
Proof.
  destruct (ir_mint _ _ _ R) as (_ & [_ Dm] & _). destruct (ir_vault _ _ _ R) as (_ & [_ Dv] & _).
  destruct (ir_collateral _ _ _ R) as (_ & _ & Hc). split; intros E.
  - rewrite E, Dm in Dv. apply (f_equal length) in Dv. rewrite !length_replicate in Dv.
    discriminate Dv.
  - rewrite E, Dm in Hc. discriminate Hc.
Qed.

(** The pool's account, and the market's authority handed to it. *)
Lemma authority_serves b :
  derive_pool_pda program_id (ia_slab a).(ai_key) = ((ia_pool_pda a).(ai_key), b) ->
  let seeds := [SEED_STAKE_POOL; (ia_slab a).(ai_key); [b]] in
  exists w1 w2,
    create_or_adopt_pda [] (ia_pool_pda a) (ia_admin a) (ia_system_program a) program_id
      (Z.of_nat STAKE_POOL_SIZE) seeds w = Ok w1 /\
    cpi_update_authority [] (ia_percolator_program a) (ia_admin a) (ia_pool_pda a) (ia_slab a)
      seeds w1 = Ok w2 /\
    world_ok w2 /\ rent_get w2 = rent_get w /\
    (forall k, k <> (ia_admin a).(ai_key) -> k <> (ia_pool_pda a).(ai_key) ->
       k <> (ia_slab a).(ai_key) -> get w2 k = get w k).
Proof.
  intros Hpk seeds.
  destruct (create_or_adopt_serves [] (ia_admin a) (ia_pool_pda a) (ia_system_program a) program_id
              STAKE_POOL_SIZE [SEED_STAKE_POOL; (ia_slab a).(ai_key)] b w)
    as (w1 & H1); [done|apply not_elem_of_nil..|done|apply R|].
  pose proof (create_or_adopt_keeps _ _ _ _ _ _ _ _ _ H1) as F1.
  destruct (create_or_adopt_pda_target _ _ _ _ _ _ _ _ _ H1) as [O1 _].
  destruct (ir_authority _ _ _ R b w1 Hpk O1 F1) as [w2 H2].
  exists w1, w2. split_and!; [exact H1|exact H2| | |].
  - eapply law_bytes; [exact H2|]. by eapply create_or_adopt_pda_bytes.
  - rewrite (law_rent _ _ _ _ _ _ H2). by eapply create_or_adopt_pda_rent.
  - intros k K1 K2 K3. rewrite <- F1 by done. apply (law_frame _ _ _ _ _ _ _ H2). cbn. set_solver.
Qed.

(** The LP mint. *)
Lemma lp_mint_serves vb dec w2 :
  derive_vault_authority program_id (ia_pool_pda a).(ai_key) = ((ia_vault_auth a).(ai_key), vb) ->
  u8 dec -> world_ok w2 -> rent_get w2 = rent_get w ->
  get w2 (ia_lp_mint a).(ai_key) = get w (ia_lp_mint a).(ai_key) ->
  exists ix w3,
    SplToken.initialize_mint (ia_token_program a).(ai_key) (ia_lp_mint a).(ai_key)
      (ia_vault_auth a).(ai_key) None dec = Ok ix /\
    invoke_signed [] ix [ia_lp_mint a; ia_rent_sysvar a]
      [[SEED_VAULT_AUTH; (ia_pool_pda a).(ai_key); [vb]]] w2 = Ok w3 /\
    world_ok w3 /\ rent_get w3 = rent_get w /\
    (forall k, k <> (ia_lp_mint a).(ai_key) -> get w3 k = get w2 k).
Proof.
  intros Hva Ud W2 R2 E2. destruct (ir_mint _ _ _ R) as (Wm & Um & Xm).
  pose proof (vault_auth_is_key vb Hva) as Kv. unfold derive_vault_authority in Hva.
  destruct (SplToken.initialize_mint _ _ _ _ _) as [ix|] eqn:Hix; [|done].
  destruct (initialize_mint_served [] (ia_lp_mint a) (ia_rent_sysvar a) _ _ _
              [SEED_VAULT_AUTH; (ia_pool_pda a).(ai_key)] vb ix w2 Hix W2) as [w3 H3];
    [apply not_elem_of_nil..|done|apply R|done|done|by rewrite Hva|by rewrite Hva|by rewrite E2| |].
  { unfold exempt. rewrite E2, R2. exact Xm. }
  exists ix, w3. split_and!; [done|exact H3|by eapply law_bytes| |].
  - by rewrite (law_rent _ _ _ _ _ _ H3).
  - intros k Hk. apply (law_frame _ _ _ _ _ _ _ H3). injection Hix as <-. cbn. set_solver.
Qed.

(** The vault. *)
Lemma vault_serves vb w3 :
  derive_vault_authority program_id (ia_pool_pda a).(ai_key) = ((ia_vault_auth a).(ai_key), vb) ->
  world_ok w3 -> rent_get w3 = rent_get w ->
  get w3 (ia_vault a).(ai_key) = get w (ia_vault a).(ai_key) ->
  get w3 (ia_collateral_mint a).(ai_key) = get w (ia_collateral_mint a).(ai_key) ->
  exists ix w4,
    SplToken.initialize_account (ia_token_program a).(ai_key) (ia_vault a).(ai_key)
      (ia_collateral_mint a).(ai_key) (ia_vault_auth a).(ai_key) = Ok ix /\
    invoke_signed [] ix [ia_vault a; ia_collateral_mint a; ia_vault_auth a; ia_rent_sysvar a]
      [[SEED_VAULT_AUTH; (ia_pool_pda a).(ai_key); [vb]]] w3 = Ok w4 /\
    (forall k, k <> (ia_vault a).(ai_key) -> get w4 k = get w3 k).
Proof.
  intros Hva W3 R3 Ev Ec. destruct (ir_vault _ _ _ R) as (Wv & Uv & Xv).
  pose proof (init_keys_ok _ _ Hkeys Ha) as Hks. rewrite !Forall_cons_iff in Hks.
  destruct Hks as (_ & _ & _ & _ & _ & Kc & _). pose proof (vault_auth_is_key vb Hva) as Kv.
  destruct (SplToken.initialize_account _ _ _ _) as [ix|] eqn:Hix; [|done].
  destruct (initialize_account_served [] (ia_vault a) (ia_collateral_mint a) (ia_vault_auth a)
              (ia_rent_sysvar a) _ [SEED_VAULT_AUTH; (ia_pool_pda a).(ai_key)] vb ix w3 Hix W3)
    as [w4 H4];
    [repeat constructor; apply not_elem_of_nil|done|apply R|done|done|done|by rewrite Ev| | |].
  { unfold exempt. rewrite Ev, R3. exact Xv. }
  { rewrite Ec. apply R. }
  exists ix, w4. split_and!; [done|exact H4|].
  intros k Hk. apply (law_frame _ _ _ _ _ _ _ H4). injection Hix as <-. cbn. set_solver.
Qed.

(** The five calls. *)
Lemma init_create_serves b vb :
  derive_pool_pda program_id (ia_slab a).(ai_key) = ((ia_pool_pda a).(ai_key), b) ->
  derive_vault_authority program_id (ia_pool_pda a).(ai_key) = ((ia_vault_auth a).(ai_key), vb) ->
  exists w4, init_create program_id a b vb w = Ok w4 /\
    forall k, k ∉ init_written a -> get w4 k = get w k.
Proof.
  intros Hpk Hva. destruct token_accounts_apart as [Nv Nc].
  destruct (spl_apart (ia_lp_mint a).(ai_key)) as (M1 & M2 & M3); [apply R|].
  destruct (spl_apart (ia_vault a).(ai_key)) as (V1 & V2 & V3); [apply R|].
  destruct (spl_apart (ia_collateral_mint a).(ai_key)) as (C1 & C2 & C3); [apply R|].
  destruct (authority_serves b Hpk) as (w1 & w2 & H1 & H2 & W2 & R2 & F2).
  destruct (collateral_decimals_serve w2 W2) as (dec & Hdec & Ud); [by apply F2|].
  destruct (lp_mint_serves vb dec w2 Hva Ud W2 R2) as (ix3 & w3 & Hix3 & H3 & W3 & R3 & F3);
    [by apply F2|].
  destruct (vault_serves vb w3 Hva W3 R3) as (ix4 & w4 & Hix4 & H4 & F4); [by rewrite F3, F2..|].
  exists w4. split.
  - unfold init_create. rewrite H1, bind_of_Ok, H2, bind_of_Ok, Hdec, bind_of_Ok, Hix3, bind_of_Ok.
    by rewrite H3, bind_of_Ok, Hix4, bind_of_Ok.
  - intros k Hk. unfold init_written in Hk. rewrite !not_elem_of_cons in Hk.
    destruct Hk as (K1 & K2 & K3 & K4 & K5 & _). by rewrite F4, F3, F2.
Qed.

(** The record stored in the zeroed account. *)
Lemma init_pool_serves cap :
  u64 c -> u64 cap ->
  exists w', process_init_pool program_id accounts c cap w = Ok w' /\
    forall k, k ∉ init_written a -> get w' k = get w k.
Proof.
  intros Uc Ucap. destruct init_guards_serve as (b & vb & Hg & Hpk & Hva).
  destruct (init_create_serves b vb Hpk Hva) as (w4 & H4 & F4).
  destruct (init_create_spec a b vb w w4 (ir_wrapper _ _ _ R) (proj1 (ir_slab _ _ _ R)) Hw H4)
    as (_ & _ & D & _).
  assert (Hz : pool_from_data (acc_data (get w4 (ia_pool_pda a).(ai_key))) = Ok zero_pool)
    by (rewrite D; apply pool_from_data_Ok; by rewrite length_replicate).
  eexists. split.
  - unfold process_init_pool, try_borrow_data, ai_data.
    rewrite Ha, bind_of_Ok, Hg, bind_of_Ok, H4, bind_of_Ok.
    rewrite bool_decide_eq_false_2 by apply not_elem_of_nil. cbn [negb].
    rewrite bind_of_Ok, Hz, bind_of_Ok. reflexivity.
  - intros k Hk. rewrite <- F4 by done. unfold store_pool. apply get_set_data_ne.
    unfold init_written in Hk. set_solver.
Qed.

(** InitTradingPool's second store. *)
Lemma init_trading_pool_serves cap :
  u64 c -> u64 cap ->
  exists w', process_init_trading_pool program_id accounts c cap w = Ok w' /\
    forall k, k ∉ init_written a -> get w' k = get w k.
Proof.
  intros Uc Ucap. destruct (init_pool_serves cap Uc Ucap) as (w1 & H1 & F1).
  destruct (init_pool_genesis _ _ _ _ _ Hw Hkeys Uc Ucap H1) as (a' & Ha' & G & _).
  rewrite Ha in Ha'. injection Ha' as <-. pose proof (bk_bound _ _ _ (gn_backed _ _ _ _ _ _ G)) as Bd.
  destruct (pool_data_live _ w1 Bd (ia_pool_pda a) eq_refl) as (E1 & E2 & _).
  destruct (init_accounts_in _ _ Ha) as [_ Hi].
  eexists. split.
  - unfold process_init_trading_pool. rewrite H1, bind_of_Ok, Hi. cbn [ok_or].
    rewrite bind_of_Ok. unfold validate_account_owner, ai_owner.
    rewrite (proj2 (key_eqb_eq _ _) (bd_owner _ _ _ Bd)), bind_of_Ok, E1, bind_of_Ok, E2, bind_of_Ok.
    pose proof (bd_check _ _ _ Bd) as (_ & Hd & _)%check_pool_Ok. rewrite Hd. reflexivity.
  - intros k Hk. rewrite <- F1 by done. unfold store_pool. apply get_set_data_ne.
    unfold init_written in Hk. set_solver.
Qed.

End Steps.

(** C8: the market's admin can found a pool. Given the accounts of [init_request]
    (a wallet that signs and pays, a market whose wrapper takes the pool's address
    as its new authority, zeroed accounts for the LP mint and the vault, a live
    collateral mint, the pool's address unallocated, whether or not someone has
    sent it lamports), token and system programs that serve, and a cooldown within
    its bounds, InitPool and InitTradingPool are accepted, leave the pool in the
    genesis state of their mode (the vault empty, or with the lamports beyond its
    rent when the collateral is wrapped SOL), and touch no account but the wallet,
    the pool, the market, the LP mint and the vault. So nobody can keep a pool from
    being founded by funding its address first. *)
Theorem market_admin_can_found_a_pool a accounts trading c cap w :
  world_ok w -> keys_ok accounts -> init_accounts accounts = Ok a -> u64 c -> u64 cap ->
  init_request a c w ->
  let pk := (ia_pool_pda a).(ai_key) in
  exists w', process program_id accounts (pack (init_ix trading c cap)) w = Ok w' /\
    genesis program_id pk a c cap w w' /\
    sp_pool_mode (pool_at pk w') = (if trading then 1 else 0) /\
    forall k, k ∉ init_written a -> get w' k = get w k.
Proof.
  intros Hw Hkeys Ha Uc Ucap R pk. unfold process.
  rewrite unpack_pack, bind_of_Ok by by destruct trading. destruct trading; cbn [init_ix dispatch].
  - destruct (init_trading_pool_serves a accounts c w Hw Hkeys Ha R cap Uc Ucap) as (w' & H & F).
    exists w'. split; [done|].
    destruct (init_trading_pool_genesis _ _ _ _ _ Hw Hkeys Uc Ucap H) as (a' & Ha' & G & M).
    rewrite Ha in Ha'. by injection Ha' as <-.
  - destruct (init_pool_serves a accounts c w Hw Hkeys Ha R cap Uc Ucap) as (w' & H & F).
    exists w'. split; [done|].
    destruct (init_pool_genesis _ _ _ _ _ Hw Hkeys Uc Ucap H) as (a' & Ha' & G & M).
    rewrite Ha in Ha'. by injection Ha' as <-.
Qed.
End Found.

(** ** On the market *)

#[local] Existing Instance sim.
#[local] Existing Instance sim_build.
#[local] Existing Instance sim_laws_hold.

#[local] Instance sim_serves_hold : TokenProgramServes SIM_ID.
Proof. exact (@sim_serves sim_build SIM_ID). Qed.
#[local] Instance sim_system_serves_hold : SystemServes SIM_ID.
Proof. exact (@sim_system_serves sim_build SIM_ID). Qed.

(** The list of the scenarios; the collateral may be wrapped SOL. *)
Definition founder_accounts (native : bool) : list AccountInfo :=
  if native then <[6%nat := ro NATIVE_MINT]> acc_init else acc_init.
Definition no_init : InitAccounts :=
  mkInitAccounts (ro k_pool) (ro k_pool) (ro k_pool) (ro k_pool) (ro k_pool) (ro k_pool)
    (ro k_pool) (ro k_pool) (ro k_pool) (ro k_pool) (ro k_pool).
Definition market_founder (native : bool) : InitAccounts :=
  match init_accounts (founder_accounts native) with Ok a => a | Err _ => no_init end.

(** The store with the mint of wrapped SOL and a vault that holds 250 lamports more
    than its rent; somebody has sent lamports to the pool's address. *)
Definition squatted (n : Z) : World :=
  <[k_pool := mkAccount SYSTEM_PROGRAM_ID n []]>
    (<[NATIVE_MINT := spl (new_mint k_admin 9)]>
      (<[k_vault := mkAccount SplToken.id 2000 (replicate 165 0)]> genesis_world)).

Lemma squatted_ok n : world_ok (squatted n).
Proof.
  apply world_ok_insert; [|constructor]. apply world_ok_insert; [|by apply (bool_decide_unpack _)].
  apply world_ok_insert; [apply genesis_world_ok|by apply (bool_decide_unpack _)].
Qed.

(** The cases: nothing at the address, less and more than the rent. *)
Definition founder_cases : list (bool * Z) :=
  [(false, 0); (false, 50); (false, 100000); (true, 0); (true, 50); (true, 100000)].

Ltac each_case Hn :=
  repeat (destruct Hn as [[= <- <-]|Hn]; [each_by_running; try (intros r _; each_by_running)|]);
  destruct Hn.

Lemma founder_request native n :
  In (native, n) founder_cases ->
  init_request (program_id := SIM_ID) (market_founder native) 100 (squatted n).
Proof.
  intros Hn. unfold founder_cases in Hn. split.
  - by destruct native; vm_compute.
  - each_case Hn.
  - split; by vm_compute.
  - by destruct native; vm_compute.
  - by destruct native; vm_compute.
  - repeat (destruct Hn as [[= <- <-]|Hn];
      [split; each_by_running; intros r _; each_by_running|]). destruct Hn.
  - each_case Hn.
  - each_case Hn.
  - each_case Hn.
  - by destruct native.
  - by destruct native.
  - destruct native; intros b w1 Hb _ _; assert (b = 255) as -> by (by injection Hb);
      eexists; vm_compute; reflexivity.
Qed.

(** Six requests of either mode; only the vault of wrapped SOL opens with tokens. *)
Lemma market_admin_can_found_a_pool_witness :
  Forall (fun '(native, n) => forall trading, exists w',
      process SIM_ID (founder_accounts native) (pack (init_ix trading 100 1000000)) (squatted n)
        = Ok w' /\
      sp_admin (pool_at k_pool w') = k_admin /\
      sp_pool_mode (pool_at k_pool w') = (if trading then 1 else 0) /\
      vault_amount k_pool w' = (if native then 250 else 0))
    founder_cases.
Proof.
  assert (Hu : u64 100 /\ u64 1000000) by (split; width_lia).
  apply Forall_forall. intros [native n] Hn t.
  assert (Hk : keys_ok (founder_accounts native))
    by (destruct native; apply (bool_decide_unpack _); by vm_compute).
  destruct (market_admin_can_found_a_pool (program_id := SIM_ID) (market_founder native)
              (founder_accounts native) t 100 1000000 (squatted n) (squatted_ok n) Hk
              ltac:(by destruct native) (proj1 Hu) (proj2 Hu) (founder_request native n Hn))
    as (w' & H & G & M & F).
  assert (Epk : ai_key (ia_pool_pda (market_founder native)) = k_pool) by (by destruct native).
  rewrite Epk in G, M. exists w'. split; [exact H|].
  split; [rewrite (gn_admin _ _ _ _ _ _ G); by destruct native|]. split; [exact M|].
  assert (V : forallb (fun '(nat, n) => forallb (fun t =>
      match process SIM_ID (founder_accounts nat) (pack (init_ix t 100 1000000)) (squatted n) with
      | Ok w' => vault_amount k_pool w' =? (if nat : bool then 250 else 0)
      | Err _ => false
      end) [false; true]) founder_cases = true) by by vm_compute.
  rewrite forallb_forall in V. specialize (V _ Hn). cbv beta iota in V.
  rewrite forallb_forall in V. specialize (V t ltac:(destruct t; cbn; auto)).
  rewrite H in V. by apply Z.eqb_eq.
Defined.
