(* ===== verification/Exactness.v ===== *)
(** * Arithmetic, layouts and codecs

    Properties of the pure layers: the overflow-free multiply-divide, the fee and
    loss splits, the pricing of shares, the layouts of the two records and of the
    packed reserved area, the instruction codec, the error codes and the creation
    of program accounts. *)

From S2P Require Import Prelude Errors Math State PoolFacts Instruction Runtime SplToken Cpi Guards.
From S2P Require Import Fees Deposit Withdraw Insurance Admin Proxy Init Processor Laws Sim SimLaws.
From S2P Require Import Scenario.

(** ** Arithmetic *)

(** [mul_div_floor] is the exact floor of [a * b / d] for all 128-bit
    operands whose quotient fits 128 bits, through its 256-bit path too. *)
Theorem mul_div_floor_is_exact a b d :
  u128 a -> u128 b -> 0 < d <= U128_MAX -> a * b / d <= U128_MAX ->
  mul_div_floor a b d = a * b / d.
Proof. apply mul_div_floor_exact. Qed.

(** 2^100 * 2^100 / 2^90, whose product does not fit 128 bits. *)
Lemma mul_div_floor_is_exact_witness :
  mul_div_floor (2 ^ 100) (2 ^ 100) (2 ^ 90) = 2 ^ 110.
Proof. rewrite mul_div_floor_is_exact; [reflexivity|..]; by vm_compute. Defined.

(** [distribute_fees] splits a fee by weight: the junior tranche gets the
    exact floor of its weighted share, the senior tranche the rest, nothing is lost
    and neither part is negative, whatever the 64-bit balances, the 16-bit
    multiplier and the 64-bit fee; without weights nobody gets anything. *)
Lemma distribute_fees_is_pro_rata j s m fee :
  u64 j -> u64 s -> u16 m -> u64 fee ->
  let w := j * m in let tw := w + s * 10000 in
  distribute_fees j s m fee
    = (if (fee =? 0) || (tw =? 0) then (0, 0) else (fee * w / tw, fee - fee * w / tw)) /\
  (0 < tw -> 0 <= fee * w / tw <= fee).
Proof.
  intros Hj Hs Hm Hf w tw. split; [by apply distribute_fees_spec|]. intros Htw.
  destruct (fee_weights_bound j s m Hj Hs Hm) as (H1 & H2 & _). unfold fits in Hf. split.
  - apply Z.div_pos; nia.
  - apply Z.div_le_upper_bound; [lia|]. subst tw w. nia.
Qed.

(** [distribute_loss] is a waterfall: the junior tranche takes the loss up to
    its balance, the senior tranche the rest up to its own (balances whose sum fits
    64 bits), and the senior tranche loses nothing exactly when
    [senior_protected] says so. *)
Lemma distribute_loss_is_a_waterfall j s loss :
  u64 j -> u64 s -> j + s <= U64_MAX -> 0 <= loss ->
  distribute_loss j s loss = (Z.min loss j, Z.min (Z.max 0 (loss - j)) s) /\
  (0 < s -> senior_protected j s loss = true <-> snd (distribute_loss j s loss) = 0).
Proof.
  intros Hj Hs Hsum Hl.
  assert (E : distribute_loss j s loss = (Z.min loss j, Z.min (Z.max 0 (loss - j)) s)).
  { destruct (distribute_loss j s loss) as [jl sl] eqn:E.
    destruct (distribute_loss_spec _ _ _ _ _ Hj Hs Hl E) as [-> ->]. f_equal. width_lia. }
  split; [done|]. intros Hpos. rewrite E. cbn [snd]. unfold senior_protected. rewrite Z.leb_le. lia.
Qed.

(** The price of a deposit. [calc_lp_for_deposit] gives one share per token
    to an empty pool, refuses a pool with shares and no value or value and no
    shares, and otherwise gives the exact floor of [a * (s + 1) / (v + 1)] whenever
    it fits 64 bits, at a price no lower than before for the shares that exist. *)
Lemma deposit_price_is_exact s v a lp :
  u64 s -> u64 v -> u64 a ->
  (calc_lp_for_deposit s v a = Some lp <->
    (s = 0 /\ v = 0 /\ lp = a) \/
    (0 < s /\ 0 < v /\ lp = a * (s + 1) / (v + 1) /\ lp <= U64_MAX)) /\
  (calc_lp_for_deposit s v a = Some lp -> price_le v s (v + a) (s + lp)).
Proof.
  intros Hs Hv Ha. split; [by apply calc_lp_for_deposit_Some|]. intros H. by apply deposit_price_le.
Qed.

(** The price of a withdrawal. [calc_collateral_for_withdraw] gives the exact
    floor of [lp * (v + 1) / (s + 1)] whenever it fits 64 bits, nothing for a pool
    without shares, never more than the value for shares within the supply, and
    leaves the price of the remaining shares no lower. *)
Lemma withdrawal_price_is_exact s v lp c :
  u64 s -> u64 v -> u64 lp ->
  (calc_collateral_for_withdraw s v lp = Some c <->
    0 < s /\ c = lp * (v + 1) / (s + 1) /\ c <= U64_MAX) /\
  (calc_collateral_for_withdraw s v lp = Some c ->
    price_le v s (v - c) (s - lp) /\ (lp <= s -> c <= v)).
Proof.
  intros Hs Hv Hl. split; [by apply calc_collateral_for_withdraw_Some|]. intros H.
  split; [by apply withdraw_price_le|]. intros Hle. exact (withdraw_le_value s v lp c Hs Hv Hl Hle H).
Qed.

(** C29: the arithmetic that moves value is exact, and stays in its width.
    [distribute_fees] gives the junior tranche the floor of its weighted share of
    the fee and the senior tranche the rest, nothing without weights;
    [distribute_loss] takes a loss from the junior tranche up to its balance, then
    from the senior one up to its own, and [senior_protected] says whether the
    senior tranche loses anything. [calc_lp_for_deposit] gives one share per token
    to an empty pool, refuses a pool with shares and no value or value and no
    shares, and otherwise gives the floor of [x * (s + 1) / (v + 1)] whenever it
    fits 64 bits; [calc_collateral_for_withdraw] gives the floor of
    [x * (v + 1) / (s + 1)], nothing for a pool without shares, and never more than
    the value for shares within the supply. Neither lowers the price of the other
    shares. *)
Theorem arithmetic_is_exact s v m x y :
  u64 s -> u64 v -> u16 m -> u64 x ->
  let w := s * m in let tw := w + v * 10000 in
  (distribute_fees s v m x
    = (if (x =? 0) || (tw =? 0) then (0, 0) else (x * w / tw, x - x * w / tw)) /\
   (0 < tw -> 0 <= x * w / tw <= x)) /\
  (s + v <= U64_MAX ->
   distribute_loss s v x = (Z.min x s, Z.min (Z.max 0 (x - s)) v) /\
   (0 < v -> senior_protected s v x = true <-> snd (distribute_loss s v x) = 0)) /\
  ((calc_lp_for_deposit s v x = Some y <->
     (s = 0 /\ v = 0 /\ y = x) \/
     (0 < s /\ 0 < v /\ y = x * (s + 1) / (v + 1) /\ y <= U64_MAX)) /\
   (calc_lp_for_deposit s v x = Some y -> price_le v s (v + x) (s + y))) /\
  ((calc_collateral_for_withdraw s v x = Some y <->
     0 < s /\ y = x * (v + 1) / (s + 1) /\ y <= U64_MAX) /\
   (calc_collateral_for_withdraw s v x = Some y ->
     price_le v s (v - y) (s - x) /\ (x <= s -> y <= v))).
Proof.
  intros Hs Hv Hm Hx w tw. split_and!.
  - by apply distribute_fees_is_pro_rata.
  - by apply distribute_fees_is_pro_rata.
  - intros Hsum. apply distribute_loss_is_a_waterfall; [done..|apply Hx].
  - by apply deposit_price_is_exact.
  - by apply deposit_price_is_exact.
  - by apply withdrawal_price_is_exact.
  - by apply withdrawal_price_is_exact.
Qed.

(** A 3000 fee and an 80000 loss on tranches of 50000 and 100000; a deposit and a
    withdrawal on a pool of 550000 shares worth 555500. *)
Lemma arithmetic_is_exact_witness :
  distribute_fees 50000 100000 20000 3000 = (1500, 1500) /\
  distribute_loss 51500 100000 80000 = (51500, 28500) /\
  calc_lp_for_deposit 550000 555500 1000 = Some 990 /\
  price_le 555500 550000 556500 550990 /\
  price_le 555500 550000 (555500 - 20199) (550000 - 20000).
Proof.
  destruct (arithmetic_is_exact 50000 100000 20000 3000 0) as [[H1 _] _]; [width_lia..|].
  destruct (arithmetic_is_exact 51500 100000 20000 80000 0) as (_ & H2 & _); [width_lia..|].
  destruct H2 as [H2 _]; [width_lia|].
  destruct (arithmetic_is_exact 550000 555500 20000 1000 990) as (_ & _ & [H3 H4] & _); [width_lia..|].
  destruct (arithmetic_is_exact 550000 555500 20000 20000 20199) as (_ & _ & _ & _ & H5);
    [width_lia..|].
  assert (H : calc_lp_for_deposit 550000 555500 1000 = Some 990).
  { apply H3. right. split_and!; [lia|lia|reflexivity|width_lia]. }
  split_and!; [rewrite H1; reflexivity|rewrite H2; reflexivity|exact H|exact (H4 H)|].
  exact (proj1 (H5 eq_refl)).
Defined.

(** ** Layouts *)

(** The pool record's 408-byte layout loses nothing: encoding then decoding
    gives the record back, decoding then encoding gives the bytes back, and every
    408 bytes decode to a well-formed record. *)
Lemma pool_layout_round_trips p data :
  wf_pool p -> bytes_ok data -> length data = STAKE_POOL_SIZE ->
  pool_decode (pool_encode p) = p /\ length (pool_encode p) = STAKE_POOL_SIZE /\
  pool_encode (pool_decode data) = data /\ wf_pool (pool_decode data).
Proof.
  intros Hp Hd Hl. split_and!; auto using pool_decode_encode, length_pool_encode, pool_encode_decode.
  apply wf_pool_decode; [done|lia].
Qed.

(** So does the deposit record's 152-byte layout. *)
Lemma deposit_layout_round_trips d data :
  wf_deposit d -> bytes_ok data -> length data = STAKE_DEPOSIT_SIZE ->
  deposit_decode (deposit_encode d) = d /\ length (deposit_encode d) = STAKE_DEPOSIT_SIZE /\
  deposit_encode (deposit_decode data) = data /\ wf_deposit (deposit_decode data).
Proof.
  intros Hp Hd Hl.
  split_and!; auto using deposit_decode_encode, length_deposit_encode, deposit_encode_decode.
  apply wf_deposit_decode; [done|lia].
Qed.

(** The offsets the wrapper reads the pool record at are the ones the source pins. *)
Lemma pool_layout_is_pinned p :
  wf_pool p ->
  pinned_layout p = true /\ byte_at 0 (pool_encode p) = sp_is_initialized p /\
  slice 8 40 (pool_encode p) = sp_slab p /\ slice 136 168 (pool_encode p) = sp_vault p /\
  slice 224 256 (pool_encode p) = sp_percolator_program p /\
  byte_at 280 (pool_encode p) = sp_pool_mode p /\ slice 320 384 (pool_encode p) = sp_reserved p.
Proof.
  intros Hp. pose proof (pool_decode_encode p Hp) as E. split.
  - wf_destruct. unfold pinned_layout, pool_offset. cbn [pool_chunks take concat].
    rewrite !length_app, !length_le_bytes. cbn [length]. forall_simpl.
    repeat match goal with H : key_ok _ |- _ => destruct H as [? _] end.
    rewrite !andb_true_iff, !Nat.eqb_eq. split_and!; (lia || done).
  - split_and!;
      [exact (f_equal sp_is_initialized E)|exact (f_equal sp_slab E)|exact (f_equal sp_vault E)
      |exact (f_equal sp_percolator_program E)|exact (f_equal sp_pool_mode E)
      |exact (f_equal sp_reserved E)].
Qed.

(** C30: the layouts of both records, 408 and 152 bytes, lose nothing: encoding
    then decoding gives the record back, decoding then encoding gives the bytes
    back, and any bytes of the right length decode to a well-formed record. In the
    bytes of a pool record, the fields the wrapper reads for itself (the initialized
    byte, market, vault, wrapper, mode, and the area that starts with discriminator
    and version) are at the offsets the source pins at compile time. *)
Theorem record_layouts_round_trip p d pool_data deposit_data :
  wf_pool p -> wf_deposit d -> bytes_ok pool_data -> bytes_ok deposit_data ->
  length pool_data = STAKE_POOL_SIZE -> length deposit_data = STAKE_DEPOSIT_SIZE ->
  (pool_decode (pool_encode p) = p /\ length (pool_encode p) = STAKE_POOL_SIZE /\
   pool_encode (pool_decode pool_data) = pool_data /\ wf_pool (pool_decode pool_data)) /\
  (deposit_decode (deposit_encode d) = d /\ length (deposit_encode d) = STAKE_DEPOSIT_SIZE /\
   deposit_encode (deposit_decode deposit_data) = deposit_data /\
   wf_deposit (deposit_decode deposit_data)) /\
  pinned_layout p = true /\ byte_at 0 (pool_encode p) = sp_is_initialized p /\
  slice 8 40 (pool_encode p) = sp_slab p /\ slice 136 168 (pool_encode p) = sp_vault p /\
  slice 224 256 (pool_encode p) = sp_percolator_program p /\
  byte_at 280 (pool_encode p) = sp_pool_mode p /\ slice 320 384 (pool_encode p) = sp_reserved p.
Proof.
  intros Hp Hd Hb Hb' Hl Hl'.
  split; [by apply pool_layout_round_trips|].
  split; [by apply deposit_layout_round_trips|by apply pool_layout_is_pinned].
Qed.

Lemma record_layouts_round_trip_witness :
  let p := replicate STAKE_POOL_SIZE 7 in let d := replicate STAKE_DEPOSIT_SIZE 7 in
  pool_encode (pool_decode p) = p /\ deposit_encode (deposit_decode d) = d.
Proof.
  assert (Hb : forall n, bytes_ok (replicate n 7))
    by (intros n; apply Forall_replicate; unfold byte_ok; lia).
  pose proof (length_replicate STAKE_POOL_SIZE 7) as Hlp.
  pose proof (length_replicate STAKE_DEPOSIT_SIZE 7) as Hld.
  assert (Hp : wf_pool (pool_decode (replicate STAKE_POOL_SIZE 7)))
    by (apply wf_pool_decode; [apply Hb|lia]).
  assert (Hd : wf_deposit (deposit_decode (replicate STAKE_DEPOSIT_SIZE 7)))
    by (apply wf_deposit_decode; [apply Hb|lia]).
  destruct (record_layouts_round_trip _ _ _ _ Hp Hd (Hb _) (Hb _) Hlp Hld)
    as ((_ & _ & H1 & _) & (_ & _ & H2 & _) & _). split; [exact H1|exact H2].
Defined.

(** C31: the fields packed into the pool's 64 reserved bytes do not alias: each
    setter writes its own field and leaves every other one, named here by the full
    view of the area, and keeps the record well formed. *)
Theorem reserved_fields_do_not_alias p (b : bool) v m :
  wf_pool p -> u64 v -> u16 m ->
  let flag := if b then 1 else 0 in
  rview (set_market_resolved b p) = rview p <| rv_resolved := flag |> /\
  rview (set_tranche_enabled b p) = rview p <| rv_tranche := flag |> /\
  rview (set_hwm_enabled b p) = rview p <| rv_hwm_enabled := flag |> /\
  rview (set_asset_admin_burned b p) = rview p <| rv_burned := flag |> /\
  rview (set_junior_balance v p) = rview p <| rv_junior_balance := v |> /\
  rview (set_junior_total_lp v p) = rview p <| rv_junior_total_lp := v |> /\
  rview (set_realized_junior_loss v p) = rview p <| rv_realized_junior_loss := v |> /\
  rview (set_epoch_high_water_tvl v p) = rview p <| rv_hwm_tvl := v |> /\
  rview (set_hwm_last_epoch v p) = rview p <| rv_hwm_epoch := v |> /\
  rview (set_junior_fee_mult_bps m p) = rview p <| rv_junior_fee_mult_bps := m |> /\
  rview (set_hwm_floor_bps m p) = rview p <| rv_hwm_floor_bps := m |> /\
  rview (set_discriminator p)
    = rview p <| rv_discriminator := STAKE_POOL_DISCRIMINATOR |> <| rv_version := CURRENT_VERSION |>.
Proof.
  intros Hp Hv Hm. pose proof (wf_length_reserved p Hp) as Hl.
  split_and!; auto using rview_set_market_resolved, rview_set_tranche_enabled, rview_set_hwm_enabled,
    rview_set_asset_admin_burned, rview_set_junior_balance, rview_set_junior_total_lp,
    rview_set_realized_junior_loss, rview_set_epoch_high_water_tvl, rview_set_hwm_last_epoch,
    rview_set_junior_fee_mult_bps, rview_set_hwm_floor_bps, rview_set_discriminator.
Qed.

Lemma reserved_fields_do_not_alias_witness :
  let p := pool_decode (replicate STAKE_POOL_SIZE 0) in
  rview (set_junior_balance 51500 p) = rview p <| rv_junior_balance := 51500 |>.
Proof.
  assert (Hp : wf_pool (pool_decode (replicate STAKE_POOL_SIZE 0))).
  { apply wf_pool_decode; [apply Forall_replicate; unfold byte_ok; lia|].
    rewrite length_replicate. lia. }
  destruct (reserved_fields_do_not_alias _ true 51500 20000 Hp) as (_ & _ & _ & _ & H & _);
    [width_lia..|]. exact H.
Defined.

(** ** The instruction codec and the errors *)

(** Every instruction with arguments of its types survives the wire: what
    [pack] writes, [unpack] reads back. *)
Lemma instruction_round_trips i : wf_instruction i -> unpack (pack i) = Ok i.
Proof. apply unpack_pack. Qed.

(** The decoder is sound and canonical. What it accepts is an instruction
    with arguments of its types, in exactly the bytes [pack] would take, and
    (outside the two instructions with boolean flags, which read any non-zero byte
    as true) it is those bytes, so no two byte strings decode to the same
    instruction. All it ever refuses with is InvalidInstructionData. *)
Lemma decoder_is_sound_and_canonical data :
  bytes_ok data ->
  match unpack data with
  | Ok i => wf_instruction i /\ length data = length (pack i) /\
            (has_flags i = false ->
               data = pack i /\
               forall data', bytes_ok data' -> unpack data' = Ok i -> data' = data)
  | Err e => e = InvalidInstructionData
  end.
Proof.
  intros Hd. destruct (unpack data) as [i|e] eqn:E.
  - destruct (unpack_inv _ _ Hd E) as (Hw & Hl & Hc). split_and!; [done|done|].
    intros Hf. rewrite (Hc Hf). split; [done|]. intros data' Hd' E'.
    by apply (unpack_inv _ _ Hd' E').
  - by apply unpack_Err in E.
Qed.

(** C32: the instruction codec. What [pack] writes of an instruction with arguments
    of its types, [unpack] reads back. What [unpack] accepts is such an instruction,
    in exactly the bytes [pack] would take, and (outside the two instructions with
    boolean flags, which read any non-zero byte as true) it is those bytes, so no
    two byte strings decode to the same instruction. All it ever refuses with is
    InvalidInstructionData. *)
Theorem instruction_codec_round_trips i data :
  wf_instruction i -> bytes_ok data ->
  unpack (pack i) = Ok i /\
  match unpack data with
  | Ok i => wf_instruction i /\ length data = length (pack i) /\
            (has_flags i = false ->
               data = pack i /\
               forall data', bytes_ok data' -> unpack data' = Ok i -> data' = data)
  | Err e => e = InvalidInstructionData
  end.
Proof.
  intros Hi Hd. split; [by apply instruction_round_trips|by apply decoder_is_sound_and_canonical].
Qed.

Lemma instruction_codec_round_trips_witness :
  unpack (pack (AdminUpdateMaintenanceFeePerSlot (2 ^ 100)))
    = Ok (AdminUpdateMaintenanceFeePerSlot (2 ^ 100)) /\
  unpack [17] = Err InvalidInstructionData.
Proof.
  assert (Hd : bytes_ok [17]) by (apply Forall_singleton; unfold byte_ok; lia).
  destruct (instruction_codec_round_trips (AdminUpdateMaintenanceFeePerSlot (2 ^ 100)) [17])
    as [H1 H2]; [cbn [wf_instruction]; width_lia|exact Hd|]. split; [exact H1|].
  destruct (unpack [17]) as [i|e] eqn:E; [vm_compute in E; discriminate E|by rewrite H2].
Defined.

(** C33: malformed transactions never reach the accounts. Data that do not decode
    are refused with InvalidInstructionData; a decoded instruction with fewer
    accounts than its handler reads is refused with NotEnoughAccountKeys, unless
    an earlier check fails first: a zero amount, or for AccrueFees a caller that
    did not sign. *)
Theorem malformed_transactions_are_refused `{Runtime} `{BuildConfig} program_id accounts data w :
  match unpack data with
  | Err e => process program_id accounts data w = Err e /\ e = InvalidInstructionData
  | Ok i => (length accounts < accounts_read i)%nat ->
      process program_id accounts data w = Err NotEnoughAccountKeys \/
      process program_id accounts data w = Err (stake_err ZeroAmount) /\ moves_zero i = true \/
      process program_id accounts data w = Err MissingRequiredSignature /\ i = AccrueFees
  end.
Proof.
  unfold process. destruct (unpack data) as [i|e] eqn:E.
  - intros Hl. by apply dispatch_short.
  - split; [done|by apply unpack_Err in E].
Qed.

(** Error codes. Distinct errors have distinct codes, in 0..28, the ones the
    source documents. [error_hint] knows all of them but three: the time lock's
    CooldownIncreaseRequiresTimelock, TimelockNotElapsed and
    NoPendingCooldownProposal get the text for unknown codes. *)
Theorem error_codes_are_distinct :
  (forall e e', stake_err e = stake_err e' -> e = e') /\
  (forall e, 0 <= stake_error_code e <= 28) /\
  (forall e, has_hint e = false <->
     e = CooldownIncreaseRequiresTimelock \/ e = TimelockNotElapsed \/
     e = NoPendingCooldownProposal).
Proof.
  split_and!; [|apply stake_error_code_range|apply has_hint_false].
  intros e e' H. injection H as H. by destruct e, e'.
Qed.

(** [create_or_adopt_pda] cannot be blocked or poisoned. On any runtime that
    satisfies the laws, whether the address was empty or had been funded by
    somebody beforehand, success leaves an account owned by [owner] with exactly
    [space] zero bytes, and no account of another program changes hands or data. *)
Theorem create_or_adopt_gives_a_fresh_account `{RL : RuntimeLaws}
    mb target payer system owner space seeds w w' :
  create_or_adopt_pda mb target payer system owner space seeds w = Ok w' ->
  acc_owner (get w' (ai_key target)) = owner /\
  acc_data (get w' (ai_key target)) = replicate (Z.to_nat space) 0 /\
  forall k, acc_owner (get w k) <> SYSTEM_PROGRAM_ID -> same_state (get w k) (get w' k).
Proof.
  intros Hc. destruct (create_or_adopt_pda_target _ _ _ _ _ _ _ _ _ Hc) as [Ho Hd].
  split_and!; [done|done|]. intros k. by eapply create_or_adopt_pda_frame.
Qed.

(** The dead shares. The first deposit of a pool mints exactly
    MINIMUM_LIQUIDITY shares less than it records and is refused with
    DepositBelowMinimumLiquidity unless that leaves some; every later deposit mints
    all it records. *)
Theorem minimum_liquidity_is_exact before lp :
  0 <= before -> 0 <= lp ->
  apply_minimum_liquidity_lock before lp
    = if 0 <? before then Ok lp
      else if MINIMUM_LIQUIDITY <? lp then Ok (lp - MINIMUM_LIQUIDITY)
      else Err (stake_err DepositBelowMinimumLiquidity).
Proof.
  intros Hb Hlp. unfold apply_minimum_liquidity_lock, checked_sub, MINIMUM_LIQUIDITY.
  destruct (Z.ltb_spec 0 before) as [Hpos|Hz].
  { by rewrite (proj2 (Z.eqb_neq before 0)) by lia. }
  rewrite (proj2 (Z.eqb_eq before 0)) by lia. cbn [negb].
  destruct (Z.ltb_spec 1000 lp) as [Hlt|Hge].
  - rewrite (proj2 (Z.leb_le 1000 lp)) by lia. cbn [ok_or mbind result_bind].
    by rewrite (proj2 (Z.eqb_neq (lp - 1000) 0)) by lia.
  - destruct (Z.leb_spec 1000 lp); [|done]. by assert (lp = 1000) as -> by lia.
Qed.

Lemma minimum_liquidity_is_exact_witness :
  apply_minimum_liquidity_lock 0 1000 = Err (stake_err DepositBelowMinimumLiquidity).
Proof. rewrite minimum_liquidity_is_exact by lia. reflexivity. Defined.

(** ** On the concrete runtime *)

#[local] Existing Instance sim.
#[local] Existing Instance sim_build.
#[local] Existing Instance sim_laws_hold.

(** A pool address somebody sent 50 lamports to: adopted. *)
Definition prefunded : World := <[k_pool := mkAccount SYSTEM_PROGRAM_ID 50 []]> genesis_world.
Definition adopt (w : World) : ProgramResult World :=
  create_or_adopt_pda [] (rw k_pool) (signer k_admin) (ro SYSTEM_PROGRAM_ID) SIM_ID 408
    [SEED_STAKE_POOL; k_slab; [255]] w.

Lemma create_or_adopt_gives_a_fresh_account_witness :
  exists w', adopt prefunded = Ok w' /\ acc_owner (get w' k_pool) = SIM_ID.
Proof.
  assert (H : is_ok (adopt prefunded) = true) by by vm_compute.
  destruct (adopt prefunded) as [w'|e] eqn:E; [|discriminate H].
  exists w'. split; [reflexivity|]. unfold adopt in E.
  exact (proj1 (create_or_adopt_gives_a_fresh_account _ _ _ _ _ _ _ _ _ E)).
Defined.
