(* ===== verification/Divergences.v ===== *)
(** * Where the code parts from its comments

    Three behaviours the model shows, each against what the source says of itself:
    a donation that blocks every deposit and withdrawal, a flush the junior
    tranche's mark-down does not see, and a junior tranche that does not re-open. *)

From S2P Require Import Prelude Errors Math State PoolFacts Instruction Runtime SplToken Cpi Guards.
From S2P Require Import Fees Deposit Withdraw Insurance Admin Proxy Init Processor Ledger.
From S2P Require Import LedgerFacts LedgerInv Laws Backing BackingSteps BackingLp BackingInit.
From S2P Require Import Safety Sim SimLaws Scenario Run Settlement.

(** ** A surplus under a deep loss *)

Lemma checked_add_cases m a b : checked_add m a b = Some (a + b) \/ checked_add m a b = None.
Proof. unfold checked_add. destruct (_ <=? _); auto. Qed.

(** The M-2 guard of the accrual: a junior balance above the value is refused. *)
Lemma junior_above_value p b :
  wf_pool p -> u64 b -> u64 (raw_value p) -> raw_value p < b ->
  (pv ← ok_or (total_pool_value (set_junior_balance b p)) (stake_err Overflow);
   ensure negb (pv <? junior_balance (set_junior_balance b p)) or_err stake_err Overflow;
   Ok (set_junior_balance b p)) = Err (stake_err Overflow).
Proof.
  intros Hp Hb Hv Hlt. destruct (set_junior_balance_frame p b Hp Hb) as (_ & _ & V & J & _).
  rewrite total_pool_value_raw, V, J by by rewrite V. cbn [ok_or]. rewrite bind_of_Ok.
  by rewrite (proj2 (Z.ltb_lt _ _) Hlt).
Qed.

Lemma deep_loss_accrual p v bal :
  wf_pool p -> u64 bal -> total_pool_value p = Some v -> distributing p = true ->
  0 < sp_total_lp_supply p -> v < bal < junior_balance p ->
  accrue_fees_inner p bal = Err (stake_err Overflow).
Proof.
  intros Hp Hb Hv Hd Hs Hlt. unfold distributing in Hd.
  unfold accrue_fees_inner. rewrite Hv. cbn [ok_or]. rewrite bind_of_Ok.
  rewrite (proj2 (Z.ltb_lt v bal)), (proj2 (Z.ltb_lt 0 _)), Hd by lia. cbn [andb].
  destruct (senior_balance p) as [s|] eqn:Es; [|done]. cbn [ok_or]. rewrite !bind_of_Ok.
  destruct (checked_add_cases U64_MAX (sp_total_fees_earned p) (bal - v)) as [Ef|Ef]; rewrite Ef;
    [|done]. cbn [ok_or]. rewrite bind_of_Ok. cbn [fst snd].
  apply checked_add_Some in Ef as [_ Hf]. pose proof (raw_value_u64_bounds _ _ Hv) as [Hvu Hve].
  assert (Hfu : u64 (bal - v)) by width_lia.
  destruct (wf_totals _ Hp) as (_ & _ & _ & _ & _ & Hfees & _).
  set (p1 := p <| sp_total_fees_earned := _ |>).
  change (junior_fee_mult_bps p1) with (junior_fee_mult_bps p).
  change (junior_balance p1) with (junior_balance p).
  destruct (distribute_fees _ _ _ _) as [jf sf] eqn:Ed.
  pose proof (accrual_junior_fee p v (bal - v) jf sf Hp Hv Hfu s Es Ed) as Hjf.
  destruct (checked_add_cases U64_MAX (junior_balance p) jf) as [Ej|Ej]; rewrite Ej; [|done].
  cbn [ok_or]. rewrite bind_of_Ok. apply checked_add_Some in Ej as [_ Hj].
  pose proof (u64_junior_balance p Hp) as Hju.
  assert (Wp1 : wf_pool p1) by (apply wf_sp_total_fees_earned; [done|width_lia]).
  assert (Hnew : u64 (junior_balance p + jf)) by width_lia.
  assert (V1 : raw_value p1 = bal).
  { unfold raw_value, p1. upd_simpl. change (realized_junior_loss p1) with (realized_junior_loss p).
    unfold raw_value in Hve. lia. }
  apply junior_above_value; [done|done|by rewrite V1|lia].
Qed.

(** Accrual fails, and so does everything priced after it. *)
Lemma accrual_blocks p vault supply clk j :
  (sp_pool_mode p <=? 1) = true ->
  accrue_fees_inner p vault = Err (stake_err Overflow) ->
  let l := mkLedger p vault supply in
  is_ok (ledger_step clk j AccrueFees l) = false /\
  forall n, is_ok (ledger_step clk j (Instruction.Withdraw n) l) = false /\
            is_ok (ledger_step clk j (Instruction.Deposit n) l) = false /\
            is_ok (ledger_step clk j (DepositJunior n) l) = false.
Proof.
  intros Hm Ha l. subst l. cbn [ledger_step lg_pool]. split.
  - unfold ledger_accrue_fees. destruct (negb _); [|done]. by rewrite Ha.
  - intros n. unfold ledger_withdraw, ledger_deposit, ledger_deposit_junior, ledger_deposit_open.
    unfold ledger_accrue. rewrite Hm, Ha.
    destruct (n =? 0), (market_resolved p), (tranche_enabled p), (enforce_deposit_cap p n);
      split_and!; reflexivity.
Qed.

(** A flush loss deeper than the senior value lets one token block the pool.
    On a pool with junior shares whose junior balance (as recorded, before the
    mark-down) exceeds the vault, any surplus at all makes fee accrual fail with
    Overflow, since its guard compares the recorded junior balance with the value
    after the loss; so every AccrueFees, Withdraw, Deposit and DepositJunior fails,
    and anyone can send the surplus. *)
Theorem surplus_blocks_a_deep_loss p v vault supply clk j :
  wf_pool p -> u64 vault -> total_pool_value p = Some v -> distributing p = true ->
  0 < sp_total_lp_supply p -> sp_pool_mode p <= 1 -> v < vault < junior_balance p ->
  let l := mkLedger p vault supply in
  accrue_fees_inner p vault = Err (stake_err Overflow) /\
  is_ok (ledger_step clk j AccrueFees l) = false /\
  forall n, is_ok (ledger_step clk j (Instruction.Withdraw n) l) = false /\
            is_ok (ledger_step clk j (Instruction.Deposit n) l) = false /\
            is_ok (ledger_step clk j (DepositJunior n) l) = false.
Proof.
  intros Hp Hb Hv Hd Hs Hm%Z.leb_le Hlt l.
  pose proof (deep_loss_accrual p v vault Hp Hb Hv Hd Hs Hlt) as Ha.
  split; [done|]. by apply accrual_blocks.
Qed.

(** A loss written off at the last junior exit keeps the junior tranche
    closed. When the last junior shares leave while a loss is outstanding, the
    gate of DepositJunior, which counts the loss without the write-off, still
    refuses with InsuranceLossOutstanding, although the comment on it says that a
    fully exited junior tranche always re-opens. *)
Theorem written_off_loss_keeps_juniors_out p lp c q :
  wf_pool p -> u64 lp -> u64 c -> lp = junior_total_lp p -> 0 < net_loss p ->
  debit_junior p lp c = Ok q ->
  junior_total_lp q = 0 /\ junior_loss_gate q = Err (stake_err InsuranceLossOutstanding).
Proof.
  intros Hp Hlp Hc E Hn H.
  apply debit_junior_inv in H as (Wq & _ & _ & _ & _ & J & _ & F & [?|(_ & _ & R & L)]);
    [lia| |done|width_lia|width_lia].
  split; [lia|]. unfold junior_loss_gate. rewrite F, R, L.
  destruct (wf_totals _ Hp) as (_ & _ & Hf & Hr & _). pose proof (u64_realized_junior_loss p Hp).
  unfold net_loss in Hn. destruct (Z.ltb_spec 0 (saturating_sub (sp_total_flushed p)
    (saturating_sub (sp_total_returned p + forfeited p) (realized_junior_loss p + forfeited p))));
    [done|width_lia].
Qed.

(** ** A loss the mark-down does not see *)

#[local] Existing Instance sim.
#[local] Existing Instance sim_build.
#[local] Existing Instance sim_laws_hold.

(** The admin returns a flush out of pocket, then the same flush comes back from
    the wrapper as well; the seniors leave with the excess; the next flush is no
    more than what was over-returned. *)
Definition returned_twice : list Event := [
  Tx acc_init (InitPool 100 0);
  Tx acc_admin (AdminSetTrancheConfig 20000);
  Tx acc_alice_deposit (Instruction.Deposit 100000);
  Tx acc_bob_deposit (DepositJunior 50000);
  Tx acc_flush (FlushToInsurance 50000);
  Tx acc_return (ReturnInsurance 50000);
  Tx acc_recover (RecoverFlushedInsurance 50000);
  Time 1000 2;
  Tx acc_alice_withdraw (Instruction.Withdraw 99000);
  Tx acc_flush (FlushToInsurance 50000)].

Lemma returned_twice_runs : eventsb returned_twice genesis_world = true.
Proof. by vm_compute. Qed.

(** ReturnInsurance and RecoverFlushedInsurance can each bring the same
    flushed tokens back, so more is returned than was flushed, against the bound
    the instruction's documentation states; a later flush within the excess then
    leaves no outstanding loss on the books, and a store is reachable in which the
    junior balance, not marked down at all, exceeds the whole value of the pool and
    the senior value cannot be computed. *)
Theorem over_return_hides_a_loss :
  exists w w', reachable SIM_ID k_pool w /\ reachable SIM_ID k_pool w' /\
    sp_total_flushed (pool_at k_pool w) < sp_total_returned (pool_at k_pool w) /\
    let p := pool_at k_pool w' in
    net_loss p = 0 /\ effective_junior_balance p = junior_balance p /\
    raw_value p < junior_balance p /\ senior_balance p = None.
Proof.
  exists (run (take 7 returned_twice)), (run returned_twice).
  split_and!; [| |by vm_compute..].
  - apply (run_reachable acc_init (InitPool 100 0)); [done|].
    exact (eventsb_take 7 _ _ returned_twice_runs).
  - apply (run_reachable acc_init (InitPool 100 0)); [done|exact returned_twice_runs].
Qed.

(** C35: two corners of the loss accounting. First, a flush loss deeper than the
    senior value lets one token block the pool: on a pool with junior shares whose
    junior balance (as recorded, before the mark-down) exceeds the vault, any surplus
    at all makes fee accrual fail with Overflow, since its guard compares the recorded
    junior balance with the value after the loss; so every AccrueFees, Withdraw,
    Deposit and DepositJunior fails, and anyone can send the surplus. Second,
    ReturnInsurance and RecoverFlushedInsurance can each bring the same flushed
    tokens back, so more is returned than was flushed, against the bound the
    instruction's documentation states; a later flush within the excess then leaves no
    outstanding loss on the books, and a store is reachable in which the junior
    balance, not marked down at all, exceeds the whole value of the pool and the
    senior value cannot be computed. *)
Theorem loss_accounting_has_two_corners :
  (forall p v vault supply clk j,
     wf_pool p -> u64 vault -> total_pool_value p = Some v -> distributing p = true ->
     0 < sp_total_lp_supply p -> sp_pool_mode p <= 1 -> v < vault < junior_balance p ->
     let l := mkLedger p vault supply in
     accrue_fees_inner p vault = Err (stake_err Overflow) /\
     is_ok (ledger_step clk j AccrueFees l) = false /\
     forall n, is_ok (ledger_step clk j (Instruction.Withdraw n) l) = false /\
               is_ok (ledger_step clk j (Instruction.Deposit n) l) = false /\
               is_ok (ledger_step clk j (DepositJunior n) l) = false) /\
  exists w w', reachable SIM_ID k_pool w /\ reachable SIM_ID k_pool w' /\
    sp_total_flushed (pool_at k_pool w) < sp_total_returned (pool_at k_pool w) /\
    let p := pool_at k_pool w' in
    net_loss p = 0 /\ effective_junior_balance p = junior_balance p /\
    raw_value p < junior_balance p /\ senior_balance p = None.
Proof. split; [exact surplus_blocks_a_deep_loss|exact over_return_hides_a_loss]. Qed.

(** ** Witnesses *)

Definition deep_loss : list Event :=
  take 4 tranches ++ [Tx acc_flush (FlushToInsurance 120000); Gift 1; Time 1000 2].

Lemma deep_loss_runs : eventsb deep_loss genesis_world = true.
Proof. by vm_compute. Qed.

Definition deep_pool : StakePool := pool_at k_pool (run deep_loss).

Lemma wf_deep_pool : wf_pool deep_pool.
Proof.
  apply (backed_wf (program_id := SIM_ID) k_pool (run deep_loss)).
  apply reachable_safe, (run_reachable acc_init (InitPool 100 0)); [done|exact deep_loss_runs].
Qed.
#[local] Opaque deep_pool.

(** One token on top of 30000: bob's withdrawal is refused with Overflow (6). *)
Lemma loss_accounting_has_two_corners_witness :
  accrue_fees_inner deep_pool 30001 = Err (stake_err Overflow) /\
  exec acc_bob_withdraw (Instruction.Withdraw 10000) (run deep_loss) = Err (Custom 6).
Proof.
  assert (Hb : u64 30001) by width_lia.
  assert (Hv : total_pool_value deep_pool = Some 30000) by by vm_compute.
  assert (Hd : distributing deep_pool = true) by by vm_compute.
  assert (Hs : 0 < sp_total_lp_supply deep_pool) by by vm_compute.
  assert (Hm : sp_pool_mode deep_pool <= 1) by by vm_compute.
  assert (Hj : 30001 < junior_balance deep_pool) by by vm_compute.
  split; [|by vm_compute].
  exact (proj1 (proj1 loss_accounting_has_two_corners deep_pool 30000 30001 0 (mkClock 0 0) false
                  wf_deep_pool Hb Hv Hd Hs Hm (conj (Z.lt_succ_diag_r 30000) Hj))).
Defined.

Lemma written_off_loss_keeps_juniors_out_witness :
  exists q, debit_junior junior_pool 40000 0 = Ok q /\
            junior_loss_gate q = Err (stake_err InsuranceLossOutstanding).
Proof.
  assert (Hlp : u64 40000) by width_lia. assert (Hc : u64 0) by width_lia.
  assert (Hj : 40000 = junior_total_lp junior_pool) by by vm_compute.
  assert (Hn : 0 < net_loss junior_pool) by by vm_compute.
  destruct (is_ok_Ok (debit_junior junior_pool 40000 0)) as [q Hq]; [by vm_compute|].
  exists q. split; [exact Hq|].
  exact (proj2 (written_off_loss_keeps_juniors_out junior_pool 40000 0 q wf_junior_pool Hlp Hc Hj Hn Hq)).
Defined.
