(* ===== verification/Forwarding.v ===== *)
(** * What the proxies send to the wrapper

    The five instructions that only forward a parameter change (or the
    resolution) to the wrapper, against a table of the wrapper's messages. *)

From S2P Require Import Prelude Errors Math State PoolFacts Instruction Runtime SplToken Cpi Guards.
From S2P Require Import Fees Deposit Withdraw Insurance Admin Proxy Init Processor Ledger.
From S2P Require Import LedgerFacts LedgerInv Laws Backing BackingSteps BackingLp BackingInit.
From S2P Require Import Safety Sim SimLaws Scenario Run.

(** Who signs a message: the pool's own address or its vault authority. *)
Inductive ProxySigner : Set := ByPool | ByVaultAuth.

(** The wrapper's messages: the signer and the bytes, tag first, arguments in
    little-endian order at their widths. *)
Definition wrapper_message (i : StakeInstruction) : option (ProxySigner * list Z) :=
  match i with
  | AdminResolveMarket => Some (ByPool, [19])
  | AdminUpdateFeeSplit creator lp insurance =>
      Some (ByPool, [86] ++ le_bytes 2 creator ++ le_bytes 2 lp ++ le_bytes 2 insurance)
  | AdminUpdateMaintenanceFeePerSlot fee => Some (ByPool, [88] ++ le_bytes 16 fee)
  | AdminUpdateBackingFeePolicy domain fee_bps insurance =>
      Some (ByVaultAuth, [51] ++ le_bytes 2 domain ++ le_bytes 2 fee_bps ++ le_bytes 2 insurance)
  | AdminUpdateTradeFeePolicy bps => Some (ByVaultAuth, [55] ++ le_bytes 8 bps)
  | _ => None
  end.

Section Forwarding.
Context {RT : Runtime} {BC : BuildConfig} {program_id : Pubkey}.

Definition proxy_key (s : ProxySigner) (pk : Pubkey) : Pubkey :=
  match s with ByPool => pk | ByVaultAuth => vault_auth_of program_id pk end.
Definition proxy_seeds (s : ProxySigner) (pk : Pubkey) (p : StakePool) : list (list Z) :=
  match s with
  | ByPool => [SEED_STAKE_POOL; p.(sp_slab); [p.(sp_bump)]]
  | ByVaultAuth => [SEED_VAULT_AUTH; pk; [snd (derive_vault_authority program_id pk)]]
  end.

(** [forwards pk s data w w']: one call to the pool's wrapper, on the pool's
    market, signed by [s] alone, with [data] as its bytes, is all that happened. *)
Definition forwards (pk : Pubkey) (s : ProxySigner) (data : list Z) (w w' : World) : Prop :=
  let p := pool_at pk w in
  exists infos,
    invoke_signed []
      {| ix_program_id := p.(sp_percolator_program);
         ix_accounts := [meta_new_readonly (proxy_key s pk) true; meta_new p.(sp_slab) false];
         ix_data := data |}
      infos [proxy_seeds s pk p] w = Ok w'.

Lemma group_a_inv admin pool_pda slab perc w b :
  validate_group_a_proxy program_id admin pool_pda slab perc w = Ok b ->
  let p := pool_at (ai_key pool_pda) w in
  ai_is_signer admin = true /\ p.(sp_admin) = ai_key admin /\ p.(sp_slab) = ai_key slab /\
  p.(sp_percolator_program) = ai_key perc /\ b = p.(sp_bump).
Proof.
  unfold validate_group_a_proxy. intros ([] & Hs%require_signer_Ok & H)%bind_Ok.
  apply bind_Ok in H as (p & (-> & Ha & _)%open_pool_read_Ok & H).
  by apply bind_Ok in H as ([] & [Hsl Hp]%check_market_Ok & [= <-]).
Qed.

Lemma group_b_inv admin pool_pda va slab perc w b :
  validate_group_b_proxy program_id admin pool_pda va slab perc w = Ok b ->
  let p := pool_at (ai_key pool_pda) w in
  ai_is_signer admin = true /\ p.(sp_admin) = ai_key admin /\ p.(sp_slab) = ai_key slab /\
  p.(sp_percolator_program) = ai_key perc /\
  ai_key va = vault_auth_of program_id (ai_key pool_pda) /\
  b = snd (derive_vault_authority program_id (ai_key pool_pda)).
Proof.
  unfold validate_group_b_proxy, vault_auth_of. intros (b' & (Hs & Ha & Hsl & Hp & _)%group_a_inv & H)%bind_Ok.
  destruct (derive_vault_authority program_id (ai_key pool_pda)) as [k b2].
  apply ensure_Ok in H as [Hk%key_eqb_eq [= <-]]. done.
Qed.

(** One forwarded call, from what the handlers read. *)
Lemma forwards_intro pk s data p authority slab perc infos seeds w w' :
  p = pool_at pk w -> ai_key authority = proxy_key s pk -> p.(sp_slab) = ai_key slab ->
  p.(sp_percolator_program) = ai_key perc -> seeds = proxy_seeds s pk p ->
  invoke_signed [] (authority_market_ix perc authority slab data) infos [seeds] w = Ok w' ->
  forwards pk s data w w'.
Proof.
  intros -> Ek Es Ep -> H. exists infos. unfold authority_market_ix in H.
  by rewrite <- Ek, Es, Ep.
Qed.

(** The two families of handlers: guards, then the call. *)
Lemma group_a_forwards admin pool slab perc l data infos w w' :
  (b ← validate_group_a_proxy program_id admin pool slab perc w;
   invoke_signed [] (authority_market_ix perc pool slab data) infos
     [[SEED_STAKE_POOL; ai_key slab; [b]]] w) = Ok w' ->
  signed (admin :: l) (sp_admin (pool_at (ai_key pool) w)) /\
  forwards (ai_key pool) ByPool data w w'.
Proof.
  intros (b & (Hs & Ha & Hsl & Hp & ->)%group_a_inv & H)%bind_Ok.
  split; [exists admin; split_and!; [left|done|done]|].
  eapply (forwards_intro _ ByPool); [done|done|done|done|unfold proxy_seeds; by rewrite Hsl|exact H].
Qed.

Lemma group_b_forwards admin pool va slab perc l data infos w w' :
  (b ← validate_group_b_proxy program_id admin pool va slab perc w;
   invoke_signed [] (authority_market_ix perc va slab data) infos
     [[SEED_VAULT_AUTH; ai_key pool; [b]]] w) = Ok w' ->
  signed (admin :: l) (sp_admin (pool_at (ai_key pool) w)) /\
  forwards (ai_key pool) ByVaultAuth data w w'.
Proof.
  intros (b & (Hs & Ha & Hsl & Hp & Hva & ->)%group_b_inv & H)%bind_Ok.
  split; [exists admin; split_and!; [left|done|done]|].
  eapply (forwards_intro _ ByVaultAuth); [done|done|done|done|done|exact H].
Qed.

(** C37: the proxies forward exactly. An accepted AdminResolveMarket,
    AdminUpdateFeeSplit, AdminUpdateMaintenanceFeePerSlot,
    AdminUpdateBackingFeePolicy or AdminUpdateTradeFeePolicy, signed by the pool's
    admin, is one call to the pool's own wrapper program on the pool's own market,
    with the bytes the wrapper's message table gives for it, under the signature of
    the pool (the first three) or of its vault authority (the last two), and
    nothing else. *)
Theorem proxies_forward_exactly pk accounts data i w w' s bytes :
  accepts program_id pk accounts data i w w' -> wrapper_message i = Some (s, bytes) ->
  signed accounts (sp_admin (pool_at pk w)) /\ forwards pk s bytes w w'.
Proof.
  intros [_ _ _ Hu (ai & Hai & <-) Hr] Hm. apply (process_dispatch _ _ _ _ _ Hu) in Hr.
  destruct i; try discriminate Hm; injection Hm as <- <-; cbn [dispatch pool_index] in Hr, Hai.
  - unfold process_admin_resolve_market in Hr.
    destruct accounts as [|admin [|pool [|slab [|perc l]]]]; try discriminate Hr.
    injection Hai as ->. apply bind_Ok in Hr as ([] & Hs%require_signer_Ok & Hr).
    apply bind_Ok in Hr as (p & (Hp & Ha & _)%open_pool_read_Ok & Hr).
    apply bind_Ok in Hr as ([] & [Hsl Hpr]%check_market_Ok & Hr). apply ensure_Ok in Hr as [_ Hr].
    split; [exists admin; rewrite <- Hp; split_and!; [left|done|done]|].
    eapply (forwards_intro _ ByPool _ p); [done|done|done|done|unfold proxy_seeds; by rewrite Hsl|exact Hr].
  - destruct accounts as [|admin [|pool [|slab [|perc l]]]]; try discriminate Hr.
    injection Hai as ->. exact (group_a_forwards _ _ _ _ _ _ _ _ _ Hr).
  - destruct accounts as [|admin [|pool [|slab [|perc l]]]]; try discriminate Hr.
    injection Hai as ->. exact (group_a_forwards _ _ _ _ _ _ _ _ _ Hr).
  - destruct accounts as [|admin [|pool [|va [|slab [|perc l]]]]]; try discriminate Hr.
    injection Hai as ->. exact (group_b_forwards _ _ _ _ _ _ _ _ _ _ Hr).
  - destruct accounts as [|admin [|pool [|va [|slab [|perc l]]]]]; try discriminate Hr.
    injection Hai as ->. exact (group_b_forwards _ _ _ _ _ _ _ _ _ _ Hr).
Qed.
End Forwarding.

#[local] Existing Instance sim.
#[local] Existing Instance sim_build.
#[local] Existing Instance sim_laws_hold.

(** The admin sets a fee split on the empty market. *)
Lemma proxies_forward_exactly_witness :
  let w := run (take 1 market) in
  forwards (program_id := SIM_ID) k_pool ByPool ([86] ++ [232; 3] ++ [208; 7] ++ [88; 27]) w
    (next (Tx acc_proxy (AdminUpdateFeeSplit 1000 2000 7000)) w).
Proof.
  cbn zeta.
  assert (Ha : acceptedb acc_proxy (AdminUpdateFeeSplit 1000 2000 7000) (run (take 1 market)) = true)
    by by vm_compute.
  apply acceptedb_accepts in Ha.
  exact (proj2 (proxies_forward_exactly k_pool _ _ _ _ _ ByPool _ Ha eq_refl)).
Defined.
