(* ===== verification/Checks.v ===== *)
(** * Checks

    The programs of the repository's two test suites, the Kani harnesses
    (KaniHarness.v) and the unit tests (UnitMath.v and its siblings). A check may
    draw 32-bit inputs ([kani::any]), give up on inputs it does not want
    ([kani::assume], an early [return]), panic ([assert!], [unwrap], an arithmetic
    overflow) and mark places that must be reachable ([kani::cover!]). [Check] is
    the type of such programs, [run_check] runs one on given inputs. *)

From S2P Require Import Prelude Math.

(** ** Programs *)

Inductive Check (A : Type) : Type :=
  | Ret (a : A)
  | Any (k : Z -> Check A)
  | Cover (site : nat) (hit : bool) (k : Check A)
  | Skip
  | Panic.
Arguments Ret {A} a.
Arguments Any {A} k.
Arguments Cover {A} site hit k.
Arguments Skip {A}.
Arguments Panic {A}.

#[global] Instance check_ret : MRet Check := @Ret.
#[global] Instance check_bind : MBind Check :=
  fun A B f => fix go (m : Check A) : Check B :=
    match m with
    | Ret a => f a
    | Any k => Any (fun x => go (k x))
    | Cover n b k => Cover n b (go k)
    | Skip => Skip
    | Panic => Panic
    end.

(** [kani::any::<u32>()], and [kani::any::<i32>()]: the 32 bits read as a signed
    integer ([as i32]). *)
Definition any : Check Z := Any Ret.
Definition as_i32 (x : Z) : Z := if x <=? 2147483647 then x else x - 4294967296.
Definition any_i32 : Check Z := x ← any; Ret (as_i32 x).
(** [as u32] of a signed integer. *)
Definition as_u32 (x : Z) : Z := wrap U32_MAX x.

Definition assume (b : bool) : Check () := if b then Ret () else Skip.
Definition assert (b : bool) : Check () := if b then Ret () else Panic.
(** [kani::cover!]; [site] numbers the covers of a harness from 0. *)
Definition cover (site : nat) (b : bool) : Check () := Cover site b (Ret ()).

(** [.unwrap()]; [match o { Some(v) => v, None => return }]. *)
Definition unwrap {A} (o : option A) : Check A :=
  match o with Some a => Ret a | None => Panic end.
Definition or_return {A} (o : option A) : Check A :=
  match o with Some a => Ret a | None => Skip end.
(** [match o { Some(v) if v > 0 => v, _ => return }]. *)
Definition positive_or_return (o : option Z) : Check Z :=
  match o with Some a => if 0 <? a then Ret a else Skip | None => Skip end.
(** [if let Some(v) = o { k(v) }] *)
Definition if_some {A} (o : option A) (k : A -> Check ()) : Check () :=
  match o with Some a => k a | None => Ret () end.
(** [match (o, o') { (Some(a), Some(b)) => k, _ => {} }] *)
Definition if_both {A} (o o' : option A) (k : A -> A -> Check ()) : Check () :=
  match o, o' with Some a, Some b => k a b | _, _ => Ret () end.

(** The plain operators: an overflow panics. *)
Definition add_u (m a b : Z) : Check Z := if a + b <=? m then Ret (a + b) else Panic.
Definition mul_u (m a b : Z) : Check Z := if a * b <=? m then Ret (a * b) else Panic.
Definition sub_u (a b : Z) : Check Z := if b <=? a then Ret (a - b) else Panic.
Abbreviation add32 := (add_u U32_MAX).
Abbreviation add64 := (add_u U64_MAX).
Abbreviation mul64 := (mul_u U64_MAX).
Definition add_i32 (a b : Z) : Check Z :=
  if (-2147483648 <=? a + b) && (a + b <=? 2147483647) then Ret (a + b) else Panic.

Definition is_none (o : option Z) : bool := match o with None => true | Some _ => false end.
Definition opt_eqb (o o' : option Z) : bool := bool_decide (o = o').

(** ** What a unit test uses

    [assert_eq!], [assert_ne!], [.unwrap()] and [.unwrap_err()] of a [Result], a
    [for] loop over a list. *)

#[global] Instance result_eq_dec {E A} `{EqDecision E, EqDecision A} : EqDecision (result E A).
Proof. solve_decision. Defined.

Definition assert_eq {A} `{EqDecision A} (a b : A) : Check () := assert (bool_decide (a = b)).
Definition assert_ne {A} `{EqDecision A} (a b : A) : Check () := assert (negb (bool_decide (a = b))).
Definition unwrap_ok {E A} (r : result E A) : Check A :=
  match r with Ok a => Ret a | Err _ => Panic end.
Definition unwrap_err {E A} (r : result E A) : Check E :=
  match r with Ok _ => Panic | Err e => Ret e end.
Definition is_err {E A} (r : result E A) : bool := negb (is_ok r).
Fixpoint for_each {A} (l : list A) (f : A -> Check ()) : Check () :=
  match l with [] => Ret () | x :: l => _ ← f x; for_each l f end.

(** ** Execution *)

Inductive Outcome : Set :=
  | Completed (hits : list nat)
  | Skipped (hits : list nat)
  | Failed
  | OutOfInputs.

Fixpoint run_check {A} (hits : list nat) (inputs : list Z) (m : Check A) : Outcome :=
  match m with
  | Ret _ => Completed hits
  | Any k => match inputs with x :: inputs => run_check hits inputs (k x) | [] => OutOfInputs end
  | Cover n b m => run_check (if b then n :: hits else hits) inputs m
  | Skip => Skipped hits
  | Panic => Failed
  end.

(** The covers a run has satisfied. *)
Definition hits_of (o : Outcome) : list nat :=
  match o with Completed h | Skipped h => h | Failed | OutOfInputs => [] end.

(** A unit test passes: it draws nothing, skips nothing and reaches its end. *)
Definition passes (t : Check ()) : Prop := run_check [] [] t = Completed [].

Section Passes.
Context {A : Type} `{EqDecision A}.
Implicit Types a b : A.

Lemma passes_assert_ne a b : a <> b -> passes (assert_ne a b).
Proof. intros Hne. unfold passes, assert_ne. by rewrite bool_decide_eq_false_2. Qed.

Lemma passes_assert_eq a : passes (assert_eq a a).
Proof. unfold passes, assert_eq. by rewrite bool_decide_eq_true_2. Qed.

Lemma passes_then_eq a t : passes t -> passes (_ ← assert_eq a a; t).
Proof. intros Ht. unfold assert_eq. by rewrite bool_decide_eq_true_2. Qed.

Lemma passes_then_ne a b t : a <> b -> passes t -> passes (_ ← assert_ne a b; t).
Proof. intros Hne Ht. unfold assert_ne. by rewrite bool_decide_eq_false_2. Qed.
End Passes.

(** The tests whose values are all known. *)
Ltac run_tests := repeat (constructor; [vm_compute; reflexivity|]); constructor.
