(* ===== verification/UnitMath.v ===== *)
(** * The unit tests of src/math.rs

    One definition per [#[test]] function, under the source's name, as a program
    of Checks.v. *)

From S2P Require Import Prelude Errors Math Checks.

(** ** Basic behaviour *)

Definition test_first_depositor : Check () :=
  assert_eq (calc_lp_for_deposit 0 0 1_000_000) (Some 1_000_000).

Definition test_pro_rata : Check () :=
  assert_eq (calc_lp_for_deposit 1_000_000 1_000_000 500_000) (Some 500_000).

Definition test_withdraw_proportional : Check () :=
  assert_eq (calc_collateral_for_withdraw 2_000_000 2_000_000 1_000_000) (Some 1_000_000).

Definition test_rounding_down : Check () :=
  assert_eq (calc_lp_for_deposit 999_999 1_000_000 1) (Some 0).

Definition test_zero_supply_withdraw_none : Check () :=
  assert_eq (calc_collateral_for_withdraw 0 100 10) None.

(** ** Conservation *)

Definition test_roundtrip_no_profit : Check () :=
  lp ← unwrap (calc_lp_for_deposit 5_000 10_000 1_000);
  _ ← assert_eq lp 500;
  back ← unwrap (calc_collateral_for_withdraw 5_500 11_000 500);
  _ ← assert_eq back 999;
  assert (back <=? 1_000).

Definition test_roundtrip_with_rounding_loss : Check () :=
  lp ← unwrap (calc_lp_for_deposit 3 10 7);
  _ ← assert_eq lp 2;
  back ← unwrap (calc_collateral_for_withdraw 5 17 2);
  _ ← assert_eq back 6;
  assert (back <=? 7).

Definition test_two_depositors_conservation : Check () :=
  a_lp ← unwrap (calc_lp_for_deposit 0 0 100);
  _ ← assert_eq a_lp 100;
  b_lp ← unwrap (calc_lp_for_deposit 100 100 50);
  _ ← assert_eq b_lp 50;
  a_back ← unwrap (calc_collateral_for_withdraw 150 150 100);
  _ ← assert_eq a_back 100;
  b_back ← unwrap (calc_collateral_for_withdraw 50 50 50);
  _ ← assert_eq b_back 50;
  total ← add64 a_back b_back;
  assert (total <=? 100 + 50).

(** ** Dilution protection *)

Definition test_no_dilution_attack : Check () :=
  a_lp ← unwrap (calc_lp_for_deposit 0 0 1000);
  a_value_before ← unwrap (calc_collateral_for_withdraw a_lp 1000 a_lp);
  _ ← assert_eq a_value_before 1000;
  b_lp ← unwrap (calc_lp_for_deposit 1000 1000 1);
  _ ← assert_eq b_lp 1;
  a_value_after ← unwrap (calc_collateral_for_withdraw 1001 1001 1000);
  assert (a_value_before <=? a_value_after).

(** ** Edge cases *)

Definition test_zero_deposit_zero_lp : Check () :=
  assert_eq (calc_lp_for_deposit 100 200 0) (Some 0).

Definition test_zero_burn_zero_col : Check () :=
  assert_eq (calc_collateral_for_withdraw 100 200 0) (Some 0).

Definition test_deposit_into_zero_value_pool_blocked : Check () :=
  assert_eq (calc_lp_for_deposit 100 0 50) None.

Definition test_deposit_orphaned_value_blocked : Check () :=
  assert_eq (calc_lp_for_deposit 0 500 1) None.

Definition test_large_values_no_overflow : Check () :=
  let max := U64_MAX / 2 in
  _ ← assert (negb (is_none (calc_lp_for_deposit max max max)));
  assert (negb (is_none (calc_collateral_for_withdraw max max max))).

Definition test_u64_max_deposit : Check () :=
  let result := calc_lp_for_deposit U64_MAX U64_MAX U64_MAX in
  assert_eq result (Some U64_MAX).

(** ** Pool value *)

Definition test_pool_value_normal : Check () := assert_eq (pool_value 1000 300) (Some 700).

Definition test_pool_value_overdrawn : Check () := assert_eq (pool_value 100 200) None.

Definition test_pool_value_exact : Check () := assert_eq (pool_value 100 100) (Some 0).

(** ** Rounding direction *)

Definition test_lp_rounds_down_not_up : Check () :=
  lp ← unwrap (calc_lp_for_deposit 3 10 7);
  _ ← assert_eq lp 2;
  assert (lp * 10 <=? 7 * 3).

Definition test_withdrawal_rounds_down_not_up : Check () :=
  col ← unwrap (calc_collateral_for_withdraw 7 10 3);
  _ ← assert_eq col 4;
  assert (col * 7 <=? 3 * 10).

(** ** Orphaned value and dilution *)

Definition test_c9_orphaned_insurance_theft_blocked : Check () :=
  assert_eq (calc_lp_for_deposit 0 10_000_000 1) None.

Definition test_c9_dilution_attack_blocked : Check () :=
  assert_eq (calc_lp_for_deposit 1000 0 500) None.

Definition test_c9_true_first_depositor_works : Check () :=
  assert_eq (calc_lp_for_deposit 0 0 1000) (Some 1000).

Definition test_c9_normal_pro_rata_unaffected : Check () :=
  assert_eq (calc_lp_for_deposit 1000 2000 500) (Some 250).

(** ** Monotonicity *)

Definition test_larger_deposit_more_lp : Check () :=
  small ← unwrap (calc_lp_for_deposit 100 200 10);
  large ← unwrap (calc_lp_for_deposit 100 200 20);
  assert (small <=? large).

Definition test_larger_burn_more_collateral : Check () :=
  small ← unwrap (calc_collateral_for_withdraw 100 200 10);
  large ← unwrap (calc_collateral_for_withdraw 100 200 20);
  assert (small <=? large).

(** ** Fee-inclusive pool value *)

Definition test_pool_value_with_fees : Check () :=
  assert_eq (pool_value_with_fees 1000 200 100) (Some 900).

Definition test_pool_value_with_fees_zero : Check () :=
  assert_eq (pool_value_with_fees 1000 1000 0) (Some 0).

Definition test_pool_value_with_fees_overflow : Check () :=
  assert_eq (pool_value_with_fees 100 200 50) None.

(** ** Tranches *)

Definition test_junior_first_deposit_1_to_1 : Check () :=
  assert_eq (calc_junior_lp_for_deposit 0 0 1000) (Some 1000).

Definition test_junior_pro_rata : Check () :=
  assert_eq (calc_junior_lp_for_deposit 1000 2000 500) (Some 250).

Definition test_senior_first_deposit_1_to_1 : Check () :=
  assert_eq (calc_senior_lp_for_deposit 0 0 1000) (Some 1000).

Definition test_senior_pro_rata : Check () :=
  assert_eq (calc_senior_lp_for_deposit 1000 2000 500) (Some 250).

Definition test_senior_deposit_orphaned_value_blocked : Check () :=
  assert_eq (calc_senior_lp_for_deposit 0 500 1000) None.

Definition test_senior_deposit_round_trip_no_profit_after_loss : Check () :=
  lp ← unwrap (calc_senior_lp_for_deposit 1000 1000 1000);
  back ← unwrap (calc_senior_collateral_for_withdraw 2000 2000 lp);
  assert (back <=? 1000).

Definition test_junior_withdraw_proportional : Check () :=
  assert_eq (calc_junior_collateral_for_withdraw 1000 2000 500) (Some 999).

Definition test_junior_withdraw_after_loss : Check () :=
  assert_eq (calc_junior_collateral_for_withdraw 1000 500 1000) (Some 500).

Definition test_senior_withdraw_full_protection : Check () :=
  assert_eq (calc_senior_collateral_for_withdraw 500 1000 500) (Some 999).

Definition test_distribute_loss_junior_absorbs_all : Check () :=
  let '(j, s) := distribute_loss 1000 5000 800 in
  _ ← assert_eq j 800; assert_eq s 0.

Definition test_distribute_loss_junior_wiped : Check () :=
  let '(j, s) := distribute_loss 1000 5000 1500 in
  _ ← assert_eq j 1000; assert_eq s 500.

Definition test_distribute_loss_total_wipe : Check () :=
  let '(j, s) := distribute_loss 1000 5000 10000 in
  _ ← assert_eq j 1000; assert_eq s 5000.

Definition test_distribute_loss_zero : Check () :=
  let '(j, s) := distribute_loss 1000 5000 0 in
  _ ← assert_eq j 0; assert_eq s 0.

Definition test_distribute_fees_2x_multiplier : Check () :=
  let '(jf, sf) := distribute_fees 1000 4000 20000 600 in
  _ ← assert_eq jf 200; assert_eq sf 400.

Definition test_distribute_fees_no_junior : Check () :=
  let '(jf, sf) := distribute_fees 0 5000 20000 1000 in
  _ ← assert_eq jf 0; assert_eq sf 1000.

Definition test_distribute_fees_no_senior : Check () :=
  let '(jf, sf) := distribute_fees 5000 0 20000 1000 in
  _ ← assert_eq jf 1000; assert_eq sf 0.

Definition test_distribute_fees_zero_fee : Check () :=
  let '(jf, sf) := distribute_fees 1000 4000 20000 0 in
  _ ← assert_eq jf 0; assert_eq sf 0.

(** The product overflows [u128] in each of the four cases. *)
Definition test_distribute_fees_overflow_proportional : Check () :=
  let max := U64_MAX in
  let '(jf, sf) := distribute_fees max max 50000 max in
  _ ← assert_eq jf 15372286728091293012;
  _ ← assert_eq sf 3074457345618258603;
  _ ← assert_eq (jf + sf) max;
  _ ← assert (0 <? sf);
  let '(jf, sf) := distribute_fees max 1_000_000 50000 max in
  _ ← assert_eq jf 18446744073709351615;
  _ ← assert_eq sf 200000;
  let '(jf, sf) := distribute_fees 1_000_000 max 50000 max in
  _ ← assert_eq jf 4999999;
  _ ← assert_eq sf 18446744073704551616;
  let '(jf, sf) := distribute_fees (max / 2) (max / 3) 30000 (max / 7) in
  _ ← assert_eq jf 2156112943680337201;
  assert_eq sf 479136209706741601.

Definition test_mul_div_floor_matches_native_when_product_fits : Check () :=
  _ ← for_each [(1_000_000, 500_000, 1_500_000); (0, 123, 7); (U64_MAX, 3, 7);
                (12345678, 87654321, 999983); (1, 1, 1)]
    (fun '(a, b, d) => p ← mul_u U128_MAX a b; assert_eq (mul_div_floor a b d) (p / d));
  let big := Z.shiftl 1 120 in
  assert_eq (mul_div_floor big big big) big.

Definition test_senior_protected_when_junior_covers : Check () :=
  assert (senior_protected 1000 5000 800).

Definition test_senior_not_protected_when_loss_exceeds_junior : Check () :=
  assert (negb (senior_protected 1000 5000 1500)).

(** ** The high-water-mark floor *)

Definition test_hwm_floor_basic : Check () := assert_eq (hwm_floor 1000 5000) (Some 500).

Definition test_hwm_floor_zero_tvl : Check () := assert_eq (hwm_floor 0 5000) (Some 0).

Definition test_hwm_floor_zero_bps : Check () := assert_eq (hwm_floor 1000 0) (Some 0).

Definition test_hwm_floor_100_percent : Check () :=
  assert_eq (hwm_floor 1000 10_000) (Some 1000).

Definition test_hwm_floor_rounds_down : Check () := assert_eq (hwm_floor 999 5000) (Some 499).

Definition test_hwm_floor_large_values : Check () :=
  let result := hwm_floor U64_MAX 5000 in
  _ ← assert (negb (is_none result));
  r ← unwrap result;
  assert_eq r (U64_MAX / 2).

Definition test_hwm_withdrawal_allowed_above_floor : Check () :=
  assert (hwm_withdrawal_allowed 600 1000 5000).

Definition test_hwm_withdrawal_allowed_at_floor : Check () :=
  assert (hwm_withdrawal_allowed 500 1000 5000).

Definition test_hwm_withdrawal_blocked_below_floor : Check () :=
  assert (negb (hwm_withdrawal_allowed 499 1000 5000)).

Definition test_hwm_withdrawal_allowed_zero_floor : Check () :=
  assert (hwm_withdrawal_allowed 0 1000 0).

Definition test_hwm_withdrawal_blocked_100_percent_floor : Check () :=
  _ ← assert (negb (hwm_withdrawal_allowed 999 1000 10_000));
  assert (hwm_withdrawal_allowed 1000 1000 10_000).

Definition test_fee_appreciation_increases_share_price : Check () :=
  lp_before ← unwrap (calc_collateral_for_withdraw 1000 1000 100);
  _ ← assert_eq lp_before 100;
  lp_after ← unwrap (calc_collateral_for_withdraw 1000 1200 100);
  _ ← assert_eq lp_after 119;
  assert (lp_before <? lp_after).

(** ** The virtual offset *)

(** The formulas before the offset, the baseline of the next tests. *)
Definition pre_n7_calc_lp_for_deposit_baseline
    (total_lp_supply total_pool_value deposit_amount : Z) : option Z :=
  if (total_lp_supply =? 0) && (total_pool_value =? 0) then Some deposit_amount
  else if (total_lp_supply =? 0) || (total_pool_value =? 0) then None
  else
    product ← checked_mul U128_MAX deposit_amount total_lp_supply;
    lp ← checked_div product total_pool_value;
    if lp <=? U64_MAX then Some lp else None.

Definition pre_n7_calc_collateral_for_withdraw_baseline
    (total_lp_supply total_pool_value lp_amount : Z) : option Z :=
  if total_lp_supply =? 0 then None
  else
    product ← checked_mul U128_MAX lp_amount total_pool_value;
    col ← checked_div product total_lp_supply;
    if col <=? U64_MAX then Some col else None.

Definition n7_mutation_check_deposit_offset_diverges_from_pre_n7_baseline : Check () :=
  let '(supply, value, deposit) := (900_000, 400_000, 400_000) in
  pre_n7 ← unwrap (pre_n7_calc_lp_for_deposit_baseline supply value deposit);
  current ← unwrap (calc_lp_for_deposit supply value deposit);
  _ ← assert (current <? pre_n7);
  assert (0 <? current).

Definition n7_mutation_check_withdraw_offset_diverges_from_pre_n7_baseline : Check () :=
  let '(supply, value, lp) := (1_000, 2_000, 500) in
  pre_n7 ← unwrap (pre_n7_calc_collateral_for_withdraw_baseline supply value lp);
  current ← unwrap (calc_collateral_for_withdraw supply value lp);
  assert (current <? pre_n7).

Definition n7_mutation_check_zero_offset_would_reproduce_exact_pre_n7_values_on_full_test_suite
    : Check () :=
  current ← unwrap (calc_lp_for_deposit 500_000 500_000 250_000);
  pre_n7 ← unwrap (pre_n7_calc_lp_for_deposit_baseline 500_000 500_000 250_000);
  assert_eq current pre_n7.

(** ** The suite *)

Definition math_tests : list (Check ()) :=
  [ test_first_depositor; test_pro_rata; test_withdraw_proportional; test_rounding_down;
    test_zero_supply_withdraw_none; test_roundtrip_no_profit;
    test_roundtrip_with_rounding_loss; test_two_depositors_conservation;
    test_no_dilution_attack; test_zero_deposit_zero_lp; test_zero_burn_zero_col;
    test_deposit_into_zero_value_pool_blocked; test_deposit_orphaned_value_blocked;
    test_large_values_no_overflow; test_u64_max_deposit; test_pool_value_normal;
    test_pool_value_overdrawn; test_pool_value_exact; test_lp_rounds_down_not_up;
    test_withdrawal_rounds_down_not_up; test_c9_orphaned_insurance_theft_blocked;
    test_c9_dilution_attack_blocked; test_c9_true_first_depositor_works;
    test_c9_normal_pro_rata_unaffected; test_larger_deposit_more_lp;
    test_larger_burn_more_collateral; test_pool_value_with_fees;
    test_pool_value_with_fees_zero; test_pool_value_with_fees_overflow;
    test_junior_first_deposit_1_to_1; test_junior_pro_rata; test_senior_first_deposit_1_to_1;
    test_senior_pro_rata; test_senior_deposit_orphaned_value_blocked;
    test_senior_deposit_round_trip_no_profit_after_loss; test_junior_withdraw_proportional;
    test_junior_withdraw_after_loss; test_senior_withdraw_full_protection;
    test_distribute_loss_junior_absorbs_all; test_distribute_loss_junior_wiped;
    test_distribute_loss_total_wipe; test_distribute_loss_zero;
    test_distribute_fees_2x_multiplier; test_distribute_fees_no_junior;
    test_distribute_fees_no_senior; test_distribute_fees_zero_fee;
    test_distribute_fees_overflow_proportional;
    test_mul_div_floor_matches_native_when_product_fits;
    test_senior_protected_when_junior_covers;
    test_senior_not_protected_when_loss_exceeds_junior; test_hwm_floor_basic;
    test_hwm_floor_zero_tvl; test_hwm_floor_zero_bps; test_hwm_floor_100_percent;
    test_hwm_floor_rounds_down; test_hwm_floor_large_values;
    test_hwm_withdrawal_allowed_above_floor; test_hwm_withdrawal_allowed_at_floor;
    test_hwm_withdrawal_blocked_below_floor; test_hwm_withdrawal_allowed_zero_floor;
    test_hwm_withdrawal_blocked_100_percent_floor; test_fee_appreciation_increases_share_price;
    n7_mutation_check_deposit_offset_diverges_from_pre_n7_baseline;
    n7_mutation_check_withdraw_offset_diverges_from_pre_n7_baseline;
    n7_mutation_check_zero_offset_would_reproduce_exact_pre_n7_values_on_full_test_suite ].

Lemma math_tests_pass : Forall passes math_tests.
Proof. run_tests. Qed.
