(* ===== verification/UnitState.v ===== *)
(** * The unit tests of src/state.rs

    One definition per [#[test]] function, under the source's name, as a program
    of Checks.v. [Pubkey::new_unique] is code outside the repository: the parameter
    [new_unique] numbers the keys a test draws from 0. *)

From S2P Require Import Prelude Errors Math State Runtime Checks.

(** [StakePool::zeroed()] *)
Definition zeroed : StakePool := pool_decode (replicate STAKE_POOL_SIZE 0).

(** ** Sizes: [size_of] is the length of the record's layout *)

Definition test_stake_pool_size : Check () :=
  _ ← assert_eq STAKE_POOL_SIZE (length (pool_encode zeroed));
  assert_eq STAKE_POOL_SIZE 408%nat.

Definition test_stake_deposit_size : Check () :=
  _ ← assert_eq STAKE_DEPOSIT_SIZE
        (length (deposit_encode (deposit_decode (replicate STAKE_DEPOSIT_SIZE 0))));
  assert_eq STAKE_DEPOSIT_SIZE 152%nat.

(** ** Pool value *)

Definition test_pool_value_normal : Check () :=
  let pool := zeroed in
  let pool := pool <| sp_total_deposited := 1000 |> in
  let pool := pool <| sp_total_withdrawn := 300 |> in
  let pool := pool <| sp_total_flushed := 0 |> in
  let pool := pool <| sp_total_returned := 0 |> in
  assert_eq (total_pool_value pool) (Some 700).

Definition test_pool_value_with_flush : Check () :=
  let pool := zeroed in
  let pool := pool <| sp_total_deposited := 1000 |> in
  let pool := pool <| sp_total_withdrawn := 0 |> in
  let pool := pool <| sp_total_flushed := 500 |> in
  let pool := pool <| sp_total_returned := 0 |> in
  assert_eq (total_pool_value pool) (Some 500).

Definition test_pool_value_with_flush_and_returns : Check () :=
  let pool := zeroed in
  let pool := pool <| sp_total_deposited := 1000 |> in
  let pool := pool <| sp_total_withdrawn := 300 |> in
  let pool := pool <| sp_total_flushed := 500 |> in
  let pool := pool <| sp_total_returned := 200 |> in
  assert_eq (total_pool_value pool) (Some 400).

Definition test_pool_value_full_return_conservation : Check () :=
  let pool := zeroed in
  let pool := pool <| sp_total_deposited := 1000 |> in
  let pool := pool <| sp_total_withdrawn := 0 |> in
  let pool := pool <| sp_total_flushed := 500 |> in
  let pool := pool <| sp_total_returned := 500 |> in
  assert_eq (total_pool_value pool) (Some 1000).

Definition test_pool_value_overdrawn : Check () :=
  let pool := zeroed in
  let pool := pool <| sp_total_deposited := 100 |> in
  let pool := pool <| sp_total_withdrawn := 200 |> in
  assert_eq (total_pool_value pool) None.

Definition test_pool_value_overflushed : Check () :=
  let pool := zeroed in
  let pool := pool <| sp_total_deposited := 1000 |> in
  let pool := pool <| sp_total_withdrawn := 0 |> in
  let pool := pool <| sp_total_flushed := 1001 |> in
  assert_eq (total_pool_value pool) None.

(** ** Share pricing on the record *)

Definition test_calc_lp_first_depositor : Check () :=
  let pool := zeroed in
  let pool := pool <| sp_total_deposited := 0 |> in
  let pool := pool <| sp_total_withdrawn := 0 |> in
  let pool := pool <| sp_total_lp_supply := 0 |> in
  assert_eq (pool_calc_lp_for_deposit pool 1000) (Some 1000).

Definition test_calc_lp_pro_rata : Check () :=
  let pool := zeroed in
  let pool := pool <| sp_total_deposited := 2000 |> in
  let pool := pool <| sp_total_withdrawn := 0 |> in
  let pool := pool <| sp_total_lp_supply := 1000 |> in
  assert_eq (pool_calc_lp_for_deposit pool 500) (Some 250).

Definition test_calc_lp_broken_accounting_returns_none : Check () :=
  let pool := zeroed in
  let pool := pool <| sp_total_deposited := 100 |> in
  let pool := pool <| sp_total_withdrawn := 200 |> in
  let pool := pool <| sp_total_lp_supply := 50 |> in
  assert_eq (pool_calc_lp_for_deposit pool 100) None.

Definition test_calc_lp_first_depositor_still_works : Check () :=
  let pool := zeroed in
  _ ← assert_eq (total_pool_value pool) (Some 0);
  assert_eq (pool_calc_lp_for_deposit pool 1000) (Some 1000).

Definition test_calc_lp_fully_flushed_pool_blocks_deposit : Check () :=
  let pool := zeroed in
  let pool := pool <| sp_total_deposited := 1000 |> in
  let pool := pool <| sp_total_flushed := 1000 |> in
  let pool := pool <| sp_total_lp_supply := 100 |> in
  _ ← assert_eq (total_pool_value pool) (Some 0);
  assert_eq (pool_calc_lp_for_deposit pool 100) None.

Definition test_calc_collateral_proportional : Check () :=
  let pool := zeroed in
  let pool := pool <| sp_total_deposited := 2000 |> in
  let pool := pool <| sp_total_withdrawn := 0 |> in
  let pool := pool <| sp_total_lp_supply := 1000 |> in
  assert_eq (pool_calc_collateral_for_withdraw pool 250) (Some 499).

(** ** Program addresses and keys *)

Section Keys.
Context `{Runtime} (new_unique : nat -> Pubkey).

Definition test_pda_derivation_deterministic : Check () :=
  let program_id := new_unique 0%nat in
  let slab := new_unique 1%nat in
  let '(pda1, bump1) := derive_pool_pda program_id slab in
  let '(pda2, bump2) := derive_pool_pda program_id slab in
  _ ← assert_eq pda1 pda2;
  assert_eq bump1 bump2.

Definition test_pda_different_slabs_different_pdas : Check () :=
  let program_id := new_unique 0%nat in
  let slab1 := new_unique 1%nat in
  let slab2 := new_unique 2%nat in
  let '(pda1, _) := derive_pool_pda program_id slab1 in
  let '(pda2, _) := derive_pool_pda program_id slab2 in
  assert_ne pda1 pda2.

Definition test_vault_auth_derives_from_pool : Check () :=
  let program_id := new_unique 0%nat in
  let slab := new_unique 1%nat in
  let '(pool_pda, _) := derive_pool_pda program_id slab in
  let '(vault_auth, _) := derive_vault_authority program_id pool_pda in
  _ ← assert_ne vault_auth pool_pda;
  let '(vault_auth2, _) := derive_vault_authority program_id pool_pda in
  assert_eq vault_auth vault_auth2.

Definition test_deposit_pda_per_user : Check () :=
  let program_id := new_unique 0%nat in
  let pool := new_unique 1%nat in
  let user1 := new_unique 2%nat in
  let user2 := new_unique 3%nat in
  let '(dep1, _) := derive_deposit_pda program_id pool user1 in
  let '(dep2, _) := derive_deposit_pda program_id pool user2 in
  assert_ne dep1 dep2.

Definition test_deposit_pda_per_pool : Check () :=
  let program_id := new_unique 0%nat in
  let pool1 := new_unique 1%nat in
  let pool2 := new_unique 2%nat in
  let user := new_unique 3%nat in
  let '(dep1, _) := derive_deposit_pda program_id pool1 user in
  let '(dep2, _) := derive_deposit_pda program_id pool2 user in
  assert_ne dep1 dep2.

Definition test_pubkey_helpers : Check () :=
  let pool := zeroed in
  let key := new_unique 0%nat in
  let pool := pool <| sp_slab := key |> in
  _ ← assert_eq (slab_pubkey pool) key;
  let admin := new_unique 1%nat in
  let pool := pool <| sp_admin := admin |> in
  assert_eq (admin_pubkey pool) admin.
End Keys.

(** ** The high-water mark *)

Definition test_hwm_defaults_zero : Check () :=
  let pool := zeroed in
  _ ← assert (negb (hwm_enabled pool));
  _ ← assert_eq (hwm_floor_bps pool) 0;
  _ ← assert_eq (epoch_high_water_tvl pool) 0;
  assert_eq (hwm_last_epoch pool) 0.

Definition test_hwm_set_enabled : Check () :=
  let pool := zeroed in
  let pool := set_hwm_enabled true pool in
  _ ← assert (hwm_enabled pool);
  let pool := set_hwm_enabled false pool in
  assert (negb (hwm_enabled pool)).

Definition test_hwm_set_floor_bps : Check () :=
  let pool := zeroed in
  let pool := set_hwm_floor_bps 5000 pool in
  _ ← assert_eq (hwm_floor_bps pool) 5000;
  let pool := set_hwm_floor_bps 10_000 pool in
  assert_eq (hwm_floor_bps pool) 10_000.

Definition test_hwm_set_epoch_tvl : Check () :=
  let pool := zeroed in
  let pool := set_epoch_high_water_tvl 1_000_000 pool in
  assert_eq (epoch_high_water_tvl pool) 1_000_000.

Definition test_hwm_set_last_epoch : Check () :=
  let pool := zeroed in
  let pool := set_hwm_last_epoch 42 pool in
  assert_eq (hwm_last_epoch pool) 42.

Definition test_refresh_hwm_new_epoch_resets : Check () :=
  let pool := zeroed in
  let pool := set_hwm_last_epoch 5 pool in
  let pool := set_epoch_high_water_tvl 2000 pool in
  let '(pool, hwm) := refresh_hwm 6 1500 pool in
  _ ← assert_eq hwm 1500;
  assert_eq (hwm_last_epoch pool) 6.

Definition test_refresh_hwm_same_epoch_raises : Check () :=
  let pool := zeroed in
  let pool := set_hwm_last_epoch 5 pool in
  let pool := set_epoch_high_water_tvl 1000 pool in
  let '(pool, hwm) := refresh_hwm 5 1500 pool in
  assert_eq hwm 1500.

Definition test_refresh_hwm_same_epoch_no_lower : Check () :=
  let pool := zeroed in
  let pool := set_hwm_last_epoch 5 pool in
  let pool := set_epoch_high_water_tvl 2000 pool in
  let '(pool, hwm) := refresh_hwm 5 1500 pool in
  assert_eq hwm 2000.

Definition test_hwm_does_not_clobber_discriminator : Check () :=
  let pool := zeroed in
  let pool := set_discriminator pool in
  let disc_before := slice 0 8 (sp_reserved pool) in
  let pool := set_hwm_enabled true pool in
  let pool := set_hwm_floor_bps 5000 pool in
  let pool := set_epoch_high_water_tvl 1_000_000 pool in
  let pool := set_hwm_last_epoch 42 pool in
  let disc_after := slice 0 8 (sp_reserved pool) in
  _ ← assert_eq disc_before disc_after;
  assert_eq (version pool) CURRENT_VERSION.

(** ** Collisions of the reserved bytes *)

Definition test_hwm_and_market_resolved_independent : Check () :=
  let pool := zeroed in
  let pool := set_discriminator pool in
  let pool := set_hwm_enabled true pool in
  _ ← assert (hwm_enabled pool);
  _ ← assert (negb (market_resolved pool));
  let pool := set_market_resolved true pool in
  _ ← assert (market_resolved pool);
  _ ← assert (hwm_enabled pool);
  let pool := set_hwm_enabled false pool in
  _ ← assert (negb (hwm_enabled pool));
  _ ← assert (market_resolved pool);
  let pool := set_market_resolved false pool in
  _ ← assert (negb (market_resolved pool));
  assert (negb (hwm_enabled pool)).

Definition test_state_layout_byte_offsets : Check () :=
  let pool := zeroed in
  let pool := set_discriminator pool in
  let pool := set_market_resolved true pool in
  _ ← assert_eq (byte_at 9 (sp_reserved pool)) 1;
  _ ← assert_eq (byte_at 10 (sp_reserved pool)) 0;
  let pool := set_market_resolved false pool in
  let pool := set_hwm_enabled true pool in
  _ ← assert_eq (byte_at 9 (sp_reserved pool)) 0;
  assert_eq (byte_at 10 (sp_reserved pool)) 1.

Definition test_asset_admin_burned_flag_uses_reserved_byte_59 : Check () :=
  let pool := zeroed in
  _ ← assert (negb (asset_admin_burned pool));
  let pool := set_realized_junior_loss 0x0102030405060708 pool in
  let pool := set_asset_admin_burned true pool in
  _ ← assert (asset_admin_burned pool);
  _ ← assert_eq (byte_at 59 (sp_reserved pool)) 1;
  _ ← assert_eq (realized_junior_loss pool) 0x0102030405060708;
  let pool := set_asset_admin_burned false pool in
  _ ← assert (negb (asset_admin_burned pool));
  _ ← assert_eq (byte_at 59 (sp_reserved pool)) 0;
  assert_eq (realized_junior_loss pool) 0x0102030405060708.

Definition test_pool_value_returns_overflow : Check () :=
  let pool := zeroed in
  let pool := pool <| sp_total_deposited := U64_MAX |> in
  let pool := pool <| sp_total_withdrawn := 0 |> in
  let pool := pool <| sp_total_flushed := 0 |> in
  let pool := pool <| sp_total_returned := 1 |> in
  assert_eq (total_pool_value pool) None.

(** ** The suite *)

Definition state_tests : list (Check ()) :=
  [ test_stake_pool_size; test_stake_deposit_size; test_pool_value_normal;
    test_pool_value_with_flush; test_pool_value_with_flush_and_returns;
    test_pool_value_full_return_conservation; test_pool_value_overdrawn;
    test_pool_value_overflushed; test_calc_lp_first_depositor; test_calc_lp_pro_rata;
    test_calc_lp_broken_accounting_returns_none; test_calc_lp_first_depositor_still_works;
    test_calc_lp_fully_flushed_pool_blocks_deposit; test_calc_collateral_proportional;
    test_hwm_defaults_zero; test_hwm_set_enabled; test_hwm_set_floor_bps;
    test_hwm_set_epoch_tvl; test_hwm_set_last_epoch; test_refresh_hwm_new_epoch_resets;
    test_refresh_hwm_same_epoch_raises; test_refresh_hwm_same_epoch_no_lower;
    test_hwm_does_not_clobber_discriminator; test_hwm_and_market_resolved_independent;
    test_state_layout_byte_offsets; test_asset_admin_burned_flag_uses_reserved_byte_59;
    test_pool_value_returns_overflow ].

Lemma state_tests_pass : Forall passes state_tests.
Proof. run_tests. Qed.

Section KeyTests.
Context `{Runtime} (new_unique : nat -> Pubkey).

Definition key_tests : list (Check ()) :=
  [ test_pda_derivation_deterministic new_unique; test_pda_different_slabs_different_pdas new_unique;
    test_vault_auth_derives_from_pool new_unique; test_deposit_pda_per_user new_unique;
    test_deposit_pda_per_pool new_unique; test_pubkey_helpers new_unique ].

(** The seeds the tests derive addresses of their program from. *)
Definition derived_seeds : list (list (list Z)) :=
  let key := new_unique in
  [ [SEED_STAKE_POOL; key 1%nat]; [SEED_STAKE_POOL; key 2%nat];
    [SEED_VAULT_AUTH; fst (derive_pool_pda (key 0%nat) (key 1%nat))];
    [SEED_STAKE_DEPOSIT; key 1%nat; key 2%nat]; [SEED_STAKE_DEPOSIT; key 1%nat; key 3%nat];
    [SEED_STAKE_DEPOSIT; key 2%nat; key 3%nat] ].

(** What the tests rely on: [new_unique] does not repeat itself, and those of the
    seeds that differ as byte strings have different addresses. *)
Class DistinctKeys : Prop := {
  fresh_keys : NoDup (new_unique <$> seq 0 4);
  fresh_addresses : forall s s', s ∈ derived_seeds -> s' ∈ derived_seeds -> concat s <> concat s' ->
    fst (find_program_address s (new_unique 0%nat)) <>
    fst (find_program_address s' (new_unique 0%nat));
}.

(** The shape of the three tests on two addresses. *)
Lemma two_addresses_pass s s' :
  DistinctKeys -> s ∈ derived_seeds -> s' ∈ derived_seeds -> concat s <> concat s' ->
  passes (let '(a, _) := find_program_address s (new_unique 0%nat) in
          let '(b, _) := find_program_address s' (new_unique 0%nat) in assert_ne a b).
Proof.
  intros D Hs Hs' Hne. pose proof (fresh_addresses s s' Hs Hs' Hne) as Ha.
  destruct (find_program_address s _), (find_program_address s' _). by apply passes_assert_ne.
Qed.

Lemma fresh_keys_ne i j : DistinctKeys -> (i < 4)%nat -> (j < 4)%nat -> i <> j ->
  new_unique i <> new_unique j.
Proof.
  intros D Hi Hj Hne He. apply Hne. apply (NoDup_lookup _ _ _ (new_unique i) fresh_keys).
  - rewrite list_lookup_fmap, lookup_seq_lt by done. done.
  - rewrite list_lookup_fmap, lookup_seq_lt by done. by rewrite He.
Qed.

Lemma vault_auth_test_passes : DistinctKeys -> passes (test_vault_auth_derives_from_pool new_unique).
Proof.
  intros D. unfold test_vault_auth_derives_from_pool, derive_vault_authority.
  assert (Hne : fst (find_program_address [SEED_STAKE_POOL; new_unique 1%nat] (new_unique 0%nat)) <>
                fst (find_program_address [SEED_VAULT_AUTH; fst (derive_pool_pda (new_unique 0%nat)
                      (new_unique 1%nat))] (new_unique 0%nat))).
  { apply fresh_addresses; [set_solver|set_solver|done]. }
  unfold derive_pool_pda in *. destruct (find_program_address [SEED_STAKE_POOL; _] _) as [pool_pda ?].
  cbn [fst] in *. destruct (find_program_address [SEED_VAULT_AUTH; _] _) as [vault_auth ?].
  apply passes_then_ne; [by apply not_eq_sym|apply passes_assert_eq].
Qed.

Lemma key_tests_pass : DistinctKeys -> Forall passes key_tests.
Proof.
  intros D. pose proof (fresh_keys_ne 1 2 D) as H12. pose proof (fresh_keys_ne 2 3 D) as H23.
  repeat constructor.
  - unfold passes, test_pda_derivation_deterministic. destruct (derive_pool_pda _ _).
    apply passes_then_eq, passes_assert_eq.
  - apply two_addresses_pass; [done|set_solver|set_solver|].
    cbn. rewrite !app_nil_r. intros [=He]. apply H12; auto with lia.
  - by apply vault_auth_test_passes.
  - apply two_addresses_pass; [done|set_solver|set_solver|].
    cbn. rewrite !app_nil_r. intros [=He%app_inv_head]. apply H23; auto with lia.
  - apply two_addresses_pass; [done|set_solver|set_solver|].
    cbn. rewrite !app_nil_r. intros [=He%app_inv_tail]. apply H12; auto with lia.
  - apply passes_then_eq, passes_assert_eq.
Qed.
End KeyTests.
