(* ===== verification/UnitInstruction.v ===== *)
(** * The unit tests of src/instruction.rs

    One definition per [#[test]] function, under the source's name, as a program
    of Checks.v. *)

From S2P Require Import Prelude Errors State Instruction Checks.

(** [to_le_bytes] of a [u64] and of a [u16]. *)
#[local] Abbreviation le64 := (le_bytes 8).
#[local] Abbreviation le16 := (le_bytes 2).

(** [matches!(r, Err(ProgramError::InvalidInstructionData))] *)
Definition refused (r : ProgramResult StakeInstruction) : bool :=
  bool_decide (r = Err InvalidInstructionData).

Definition test_unpack_init_pool : Check () :=
  let data := [0] ++ le64 100 ++ le64 5000 in
  i ← unwrap_ok (unpack data);
  match i with
  | InitPool cooldown_slots deposit_cap =>
      _ ← assert_eq cooldown_slots 100; assert_eq deposit_cap 5000
  | _ => Panic
  end.

Definition test_unpack_deposit : Check () :=
  let data := [1] ++ le64 42 in
  i ← unwrap_ok (unpack data);
  match i with Deposit amount => assert_eq amount 42 | _ => Panic end.

Definition test_unpack_withdraw : Check () :=
  let data := [2] ++ le64 999 in
  i ← unwrap_ok (unpack data);
  match i with Withdraw lp_amount => assert_eq lp_amount 999 | _ => Panic end.

Definition test_unpack_return_insurance : Check () :=
  let data := [10] ++ le64 1234 in
  i ← unwrap_ok (unpack data);
  match i with ReturnInsurance amount => assert_eq amount 1234 | _ => Panic end.

Definition test_unpack_set_market_resolved : Check () :=
  i ← unwrap_ok (unpack [18]);
  match i with SetMarketResolved => Ret () | _ => Panic end.

Definition test_tombstoned_tags_rejected : Check () :=
  for_each [11; 17] (fun tag => assert (is_err (unpack [tag]))).

Definition test_unpack_propose_cooldown_increase : Check () :=
  let data := [7] ++ le64 123_456 in
  i ← unwrap_ok (unpack data);
  _ ← match i with
      | ProposeCooldownIncrease new_cooldown_slots => assert_eq new_cooldown_slots 123_456
      | _ => Panic
      end;
  _ ← assert (is_err (unpack [7]));
  assert (is_err (unpack [7; 1; 2; 3])).

Definition test_unpack_commit_and_cancel_cooldown_increase : Check () :=
  i ← unwrap_ok (unpack [8]);
  _ ← match i with CommitCooldownIncrease => Ret () | _ => Panic end;
  i ← unwrap_ok (unpack [9]);
  _ ← match i with CancelCooldownIncrease => Ret () | _ => Panic end;
  _ ← assert (is_err (unpack [8; 0]));
  assert (is_err (unpack [9; 0])).

Definition test_unpack_propose_admin : Check () :=
  let new_admin := replicate 32 7 in
  let data := [5] ++ new_admin in
  i ← unwrap_ok (unpack data);
  match i with ProposeAdmin got => assert_eq got new_admin | _ => Panic end.

Definition test_unpack_propose_admin_truncated_rejected : Check () :=
  let data := [5] ++ replicate 31 0 in
  _ ← assert (is_err (unpack data));
  assert (is_err (unpack [5])).

Definition test_unpack_accept_admin : Check () :=
  i ← unwrap_ok (unpack [6]);
  match i with AcceptAdmin => Ret () | _ => Panic end.

Definition test_unpack_bind_insurance_authority : Check () :=
  i ← unwrap_ok (unpack [19]);
  _ ← match i with BindInsuranceAuthority => Ret () | _ => Panic end;
  assert (is_err (unpack [19; 0; 0])).

Definition test_unpack_rotate_insurance_authority : Check () :=
  i ← unwrap_ok (unpack [20]);
  match i with RotateInsuranceAuthority => Ret () | _ => Panic end.

Definition test_propose_admin_zero_pubkey_cancel_sentinel_unpacks : Check () :=
  let data := [5] ++ replicate 32 0 in
  i ← unwrap_ok (unpack data);
  match i with ProposeAdmin new_admin => assert_eq new_admin (replicate 32 0) | _ => Panic end.

Definition test_truncated_payloads_never_panic : Check () :=
  let cases := [(0, 16); (1, 8); (2, 8); (3, 8); (4, 18); (5, 32); (10, 8); (13, 16); (14, 3);
                (15, 2); (16, 8); (23, 8)]%nat in
  for_each cases (fun '(tag, need) =>
    for_each (seq 0 need) (fun short_len =>
      let data := [Z.of_nat tag] ++ replicate short_len 0 in
      let res := unpack data in
      assert (is_err res))).

Definition test_unpack_invalid_tag : Check () := assert (is_err (unpack [255])).

Definition test_unpack_empty : Check () := assert (is_err (unpack [])).

Definition poc_byte_payload_instructions_should_reject_trailing_bytes : Check () :=
  let cases :=
    [ (0, le64 100 ++ le64 5_000 ++ [99]);  (* InitPool *)
      (1, le64 42 ++ [99]);                 (* Deposit *)
      (2, le64 42 ++ [99]);                 (* Withdraw *)
      (3, le64 42 ++ [99]);                 (* FlushToInsurance *)
      (10, le64 42 ++ [99]);                (* ReturnInsurance *)
      (13, le64 100 ++ le64 5_000 ++ [99]); (* InitTradingPool *)
      (15, le16 1_500 ++ [99]);             (* AdminSetTrancheConfig *)
      (16, le64 42 ++ [99]);                (* DepositJunior *)
      (23, le64 42 ++ [99]) ] in            (* RecoverFlushedInsurance *)
  for_each cases (fun '(tag, payload) =>
    let data := [tag] ++ payload in
    let result := unpack data in
    assert (refused result)).

Definition poc_tag_only_instructions_should_reject_trailing_bytes : Check () :=
  for_each [6; 12; 18; 19; 20; 21; 22; 24] (fun tag =>
    let result := unpack [tag; 99] in
    assert (refused result)).

Definition test_unpack_recover_flushed_insurance_round_trip : Check () :=
  let amount := 123_456_789 in
  let data := [23] ++ le64 amount in
  _ ← assert_eq (length data) 9%nat;
  i ← unwrap_ok (unpack data);
  _ ← match i with RecoverFlushedInsurance got => assert_eq got amount | _ => Panic end;
  let data_max := [23] ++ le64 U64_MAX in
  i ← unwrap_ok (unpack data_max);
  match i with RecoverFlushedInsurance got => assert_eq got U64_MAX | _ => Panic end.

Definition test_unpack_recover_flushed_insurance_short_payload_rejected : Check () :=
  for_each (seq 0 8) (fun short_len =>
    let data := [23] ++ replicate short_len 0 in
    assert (is_err (unpack data))).

Definition test_unpack_recover_flushed_insurance_trailing_bytes_rejected : Check () :=
  let data := [23] ++ le64 1 ++ [99] in
  assert (refused (unpack data)).

Definition test_unpack_admin_resolve_market : Check () :=
  i ← unwrap_ok (unpack [24]);
  _ ← match i with AdminResolveMarket => Ret () | _ => Panic end;
  assert (is_err (unpack [24; 0; 0])).

Definition test_unpack_admin_resolve_market_trailing_bytes_rejected : Check () :=
  let result := unpack [24; 99] in
  assert (refused result).

(** ** The suite *)

Definition instruction_tests : list (Check ()) :=
  [ test_unpack_init_pool; test_unpack_deposit; test_unpack_withdraw;
    test_unpack_return_insurance; test_unpack_set_market_resolved;
    test_tombstoned_tags_rejected; test_unpack_propose_cooldown_increase;
    test_unpack_commit_and_cancel_cooldown_increase; test_unpack_propose_admin;
    test_unpack_propose_admin_truncated_rejected; test_unpack_accept_admin;
    test_unpack_bind_insurance_authority; test_unpack_rotate_insurance_authority;
    test_propose_admin_zero_pubkey_cancel_sentinel_unpacks;
    test_truncated_payloads_never_panic; test_unpack_invalid_tag; test_unpack_empty;
    poc_byte_payload_instructions_should_reject_trailing_bytes;
    poc_tag_only_instructions_should_reject_trailing_bytes;
    test_unpack_recover_flushed_insurance_round_trip;
    test_unpack_recover_flushed_insurance_short_payload_rejected;
    test_unpack_recover_flushed_insurance_trailing_bytes_rejected;
    test_unpack_admin_resolve_market; test_unpack_admin_resolve_market_trailing_bytes_rejected ].

Lemma instruction_tests_pass : Forall passes instruction_tests.
Proof. run_tests. Qed.
