(* ===== verification/UnitCpi.v ===== *)
(** * The unit tests of src/cpi.rs

    One definition per [#[test]] function, under the source's name, as a program
    of Checks.v. They pin the bytes of the messages to the wrapper; each builds the
    message again by hand. [wire_shapes_are_sent] ties the hand-built messages to
    those of Cpi.v. *)

From S2P Require Import Prelude Errors State Runtime Cpi Checks.

Definition test_cpi_tag_constants : Check () :=
  _ ← assert_eq TAG_TOP_UP_INSURANCE 9;
  _ ← assert_eq TAG_UPDATE_ASSET_AUTHORITY 65;
  _ ← assert_eq ASSET_INDEX_ZERO 0;
  assert_eq ASSET_AUTH_INSURANCE 1.

(** The message of an asset-authority call, as three of the tests build it. *)
Definition asset_authority_wire (kind : Z) (pda : list Z) : list Z :=
  [TAG_UPDATE_ASSET_AUTHORITY] ++ le_bytes 2 ASSET_INDEX_ZERO ++ [kind] ++ pda.

Definition test_cpi_bind_asset_authority_wire_shape_v17 : Check () :=
  let pda := replicate 32 9 in
  let data := asset_authority_wire ASSET_AUTH_INSURANCE pda in
  _ ← assert_eq (length data) 36%nat;
  _ ← assert_eq (byte_at 0 data) 65;
  _ ← assert_ne (byte_at 0 data) 32;
  _ ← assert_eq (byte_at 1 data) 0x00;
  _ ← assert_eq (byte_at 2 data) 0x00;
  _ ← assert_eq (byte_at 3 data) 1;
  _ ← assert_ne (byte_at 3 data) 2;
  assert_eq (slice 4 36 data) pda.

Definition test_old_v16_bind_wire_is_wrong_for_v17 : Check () :=
  let pda := replicate 32 9 in
  let old_data := [32] ++ [2] ++ pda in
  _ ← assert_eq (byte_at 0 old_data) 32;
  _ ← assert_eq (byte_at 1 old_data) 2;
  _ ← assert_eq (length old_data) 34%nat;
  _ ← assert_ne (byte_at 0 old_data) TAG_UPDATE_ASSET_AUTHORITY;
  assert_ne (length old_data) 36%nat.

Definition test_cpi_wire_shape_is_tag_plus_u128 : Check () :=
  let amount := 1_000 in
  let data := [TAG_TOP_UP_INSURANCE] ++ le_bytes 16 amount in
  _ ← assert_eq (length data) 17%nat;
  _ ← assert_eq (byte_at 0 data) 9;
  let decoded := le_val (slice 1 17 data) in
  _ ← assert_eq decoded amount;
  assert_ne (length data) 9%nat.

Definition test_cpi_bind_operator_wire_shape : Check () :=
  let pda := replicate 32 7 in
  let data := asset_authority_wire ASSET_AUTH_INSURANCE_OPERATOR pda in
  _ ← assert_eq (length data) 36%nat;
  _ ← assert_eq (byte_at 0 data) 65;
  _ ← assert_eq (byte_at 3 data) 2;
  _ ← assert_ne (byte_at 3 data) 1;
  _ ← assert_ne (byte_at 3 data) 0;
  assert_eq (slice 4 36 data) pda.

Definition test_cpi_burn_asset_admin_wire_shape : Check () :=
  let data := asset_authority_wire ASSET_AUTH_ADMIN (replicate 32 0) in
  _ ← assert_eq (length data) 36%nat;
  _ ← assert_eq (byte_at 0 data) 65;
  _ ← assert_eq (byte_at 3 data) 0;
  _ ← assert_ne (byte_at 3 data) 1;
  _ ← assert_ne (byte_at 3 data) 2;
  assert_eq (slice 4 36 data) (replicate 32 0).

Definition test_secure_bind_kind_constants_are_distinct : Check () :=
  _ ← assert_eq ASSET_AUTH_ADMIN 0;
  _ ← assert_eq ASSET_AUTH_INSURANCE 1;
  _ ← assert_eq ASSET_AUTH_INSURANCE_OPERATOR 2;
  _ ← assert_ne ASSET_AUTH_ADMIN ASSET_AUTH_INSURANCE;
  _ ← assert_ne ASSET_AUTH_ADMIN ASSET_AUTH_INSURANCE_OPERATOR;
  assert_ne ASSET_AUTH_INSURANCE ASSET_AUTH_INSURANCE_OPERATOR.

Definition test_cpi_withdraw_insurance_asset_wire_shape : Check () :=
  let amount := 250_000 in
  let data := [TAG_WITHDRAW_INSURANCE_ASSET] ++ le_bytes 2 ASSET_INDEX_ZERO ++ le_bytes 16 amount in
  _ ← assert_eq (length data) 19%nat;
  _ ← assert_eq (byte_at 0 data) 57;
  _ ← assert_eq (byte_at 1 data) 0x00;
  _ ← assert_eq (byte_at 2 data) 0x00;
  let decoded := le_val (slice 3 19 data) in
  _ ← assert_eq decoded amount;
  _ ← assert_ne (length data) 9%nat;
  assert_ne (byte_at 0 data) TAG_TOP_UP_INSURANCE.

Definition test_cpi_resolve_market_wire_shape : Check () :=
  let data := [TAG_RESOLVE_MARKET] in
  _ ← assert_eq (length data) 1%nat;
  _ ← assert_eq (byte_at 0 data) 19;
  let vault_reference := [19] in
  assert_eq data vault_reference.

Definition test_tag_resolve_market_is_19_and_distinct : Check () :=
  _ ← assert_eq TAG_RESOLVE_MARKET 19;
  _ ← assert_ne TAG_RESOLVE_MARKET TAG_TOP_UP_INSURANCE;
  _ ← assert_ne TAG_RESOLVE_MARKET TAG_UPDATE_AUTHORITY;
  _ ← assert_ne TAG_RESOLVE_MARKET TAG_UPDATE_ASSET_AUTHORITY;
  assert_ne TAG_RESOLVE_MARKET TAG_WITHDRAW_INSURANCE_ASSET.

(** [(is_signer, is_writable)] per account. *)
Definition test_cpi_resolve_market_account_shape_is_two_accounts : Check () :=
  let shape := [(true, false); (false, true)] in
  let at_ (i : nat) := nth i shape (false, false) in
  _ ← assert_eq (length shape) 2%nat;
  _ ← assert (at_ 0%nat).1;
  _ ← assert (negb (at_ 0%nat).2);
  _ ← assert (at_ 1%nat).2;
  assert (negb (at_ 1%nat).1).

(** ** The suite *)

Definition cpi_tests : list (Check ()) :=
  [ test_cpi_tag_constants; test_cpi_bind_asset_authority_wire_shape_v17;
    test_old_v16_bind_wire_is_wrong_for_v17; test_cpi_wire_shape_is_tag_plus_u128;
    test_cpi_bind_operator_wire_shape; test_cpi_burn_asset_admin_wire_shape;
    test_secure_bind_kind_constants_are_distinct; test_cpi_withdraw_insurance_asset_wire_shape;
    test_cpi_resolve_market_wire_shape; test_tag_resolve_market_is_19_and_distinct;
    test_cpi_resolve_market_account_shape_is_two_accounts ].

Lemma cpi_tests_pass : Forall passes cpi_tests.
Proof. run_tests. Qed.

(** The messages the tests build are those the calls send, for any accounts, and
    the account shape is that of the resolve call. *)
Lemma wire_shapes_are_sent pp a b m sa wv wa tp amount :
  ix_data (top_up_insurance_ix pp a m sa wv tp amount) =
    [TAG_TOP_UP_INSURANCE] ++ le_bytes 16 amount /\
  (forall signs kind k, ix_data (update_asset_authority_ix pp a b m signs kind k) =
    asset_authority_wire kind k) /\
  ix_data (withdraw_insurance_asset_ix pp a m sa wv wa tp amount) =
    [TAG_WITHDRAW_INSURANCE_ASSET] ++ le_bytes 2 ASSET_INDEX_ZERO ++ le_bytes 16 amount /\
  (fun x => (am_is_signer x, am_is_writable x)) <$>
    ix_accounts (authority_market_ix pp a m [TAG_RESOLVE_MARKET]) = [(true, false); (false, true)].
Proof. done. Qed.
