(* ===== verification/UnitProcessor.v ===== *)
(** * The unit tests of src/processor.rs

    One definition per [#[test]] function, under the source's name, as a program
    of Checks.v. Eight of them build accounts and run [process] on them; whatever
    the runtime, they end before any call leaves the program, so the suite is
    parametric in it. *)

From S2P Require Import Prelude Errors Math State Runtime SplToken Guards Fees Deposit Withdraw Init.
From S2P Require Import Admin Processor Checks UnitState.

(** ** The genesis lock *)

Definition n7_genesis_deposit_above_minimum_liquidity_carves_out_dead_shares : Check () :=
  let lp_to_mint := MINIMUM_LIQUIDITY + 1 in
  mint_amount ← unwrap_ok (apply_minimum_liquidity_lock 0 lp_to_mint);
  assert_eq mint_amount 1.

Definition n7_genesis_deposit_at_exactly_minimum_liquidity_rejected : Check () :=
  err ← unwrap_err (apply_minimum_liquidity_lock 0 MINIMUM_LIQUIDITY);
  assert_eq err (stake_err DepositBelowMinimumLiquidity).

Definition n7_genesis_deposit_below_minimum_liquidity_rejected : Check () :=
  err ← unwrap_err (apply_minimum_liquidity_lock 0 (MINIMUM_LIQUIDITY - 1));
  assert_eq err (stake_err DepositBelowMinimumLiquidity).

Definition n7_genesis_deposit_of_zero_lp_rejected_not_underflow_panic : Check () :=
  err ← unwrap_err (apply_minimum_liquidity_lock 0 0);
  assert_eq err (stake_err DepositBelowMinimumLiquidity).

Definition n7_non_genesis_deposit_mints_full_amount_unchanged : Check () :=
  m ← unwrap_ok (apply_minimum_liquidity_lock 1 1);
  _ ← assert_eq m 1;
  m ← unwrap_ok (apply_minimum_liquidity_lock 1_000_000 5);
  _ ← assert_eq m 5;
  m ← unwrap_ok (apply_minimum_liquidity_lock 42 MINIMUM_LIQUIDITY);
  assert_eq m MINIMUM_LIQUIDITY.

Definition n7_mutation_check_dead_share_floor_is_strictly_deducted_at_genesis : Check () :=
  let lp_to_mint := MINIMUM_LIQUIDITY + 12_345 in
  let pre_n7_baseline_mint_amount := lp_to_mint in
  actual_mint_amount ← unwrap_ok (apply_minimum_liquidity_lock 0 lp_to_mint);
  _ ← assert (actual_mint_amount <? pre_n7_baseline_mint_amount);
  deducted ← sub_u pre_n7_baseline_mint_amount actual_mint_amount;
  assert_eq deducted MINIMUM_LIQUIDITY.

(** ** The time lock *)

Definition timelock_not_elapsed_before_window : Check () :=
  b ← unwrap_ok (timelock_window_elapsed 1_000 TIMELOCK_SLOTS 1_000);
  _ ← assert_eq b false;
  b ← unwrap_ok (timelock_window_elapsed 1_000 TIMELOCK_SLOTS (433_000 - 1));
  assert_eq b false.

Definition timelock_elapsed_at_or_after_window : Check () :=
  b ← unwrap_ok (timelock_window_elapsed 1_000 TIMELOCK_SLOTS (1_000 + TIMELOCK_SLOTS));
  _ ← assert_eq b true;
  b ← unwrap_ok (timelock_window_elapsed 1_000 TIMELOCK_SLOTS (1_000 + TIMELOCK_SLOTS + 5));
  assert_eq b true.

Definition timelock_overflow_is_error_not_panic : Check () :=
  assert_eq (timelock_window_elapsed U64_MAX TIMELOCK_SLOTS U64_MAX) (Err (stake_err Overflow)).

Definition pending_cooldown_accessors_roundtrip_and_default_zero : Check () :=
  let pool := zeroed in
  _ ← assert_eq (pending_cooldown_slots pool) 0;
  _ ← assert_eq (cooldown_proposed_at_slot pool) 0;
  let pool := set_pending_cooldown_slots 987_654 pool in
  let pool := set_cooldown_proposed_at_slot 42 pool in
  _ ← assert_eq (pending_cooldown_slots pool) 987_654;
  _ ← assert_eq (cooldown_proposed_at_slot pool) 42;
  let pool := set_cooldown_proposed_at_slot 0 pool in
  assert_eq (cooldown_proposed_at_slot pool) 0.

Definition pending_cooldown_bytes_do_not_collide_with_neighbors : Check () :=
  let pool := zeroed in
  let pool := set_discriminator pool in
  let pool := set_market_resolved true pool in
  let pool := set_realized_junior_loss 7_777 pool in
  let pool := set_tranche_enabled true pool in
  let pool := set_pending_cooldown_slots U64_MAX pool in
  let pool := set_cooldown_proposed_at_slot 123 pool in
  _ ← assert (validate_discriminator pool);
  _ ← assert_eq (version pool) CURRENT_VERSION;
  _ ← assert (market_resolved pool);
  _ ← assert (tranche_enabled pool);
  _ ← assert_eq (realized_junior_loss pool) 7_777;
  _ ← assert_eq (pending_cooldown_slots pool) U64_MAX;
  assert_eq (cooldown_proposed_at_slot pool) 123.

(** ** The high-water-mark configuration *)

Definition test_apply_hwm_config_disable_preserves_floor : Check () :=
  let pool := zeroed in
  let pool := apply_hwm_config true 5000 pool in
  _ ← assert (hwm_enabled pool);
  _ ← assert_eq (hwm_floor_bps pool) 5000;
  let pool := apply_hwm_config false 0 pool in
  _ ← assert (negb (hwm_enabled pool));
  _ ← assert_eq (hwm_floor_bps pool) 5000;
  let pool := apply_hwm_config true 0 pool in
  _ ← assert (hwm_enabled pool);
  assert_eq (hwm_floor_bps pool) 0.

Definition test_apply_hwm_config_enable_writes_floor : Check () :=
  let pool := zeroed in
  let pool := apply_hwm_config true 7500 pool in
  _ ← assert (hwm_enabled pool);
  _ ← assert_eq (hwm_floor_bps pool) 7500;
  let pool := apply_hwm_config true 9000 pool in
  _ ← assert (hwm_enabled pool);
  assert_eq (hwm_floor_bps pool) 9000.

Definition test_validate_hwm_floor_bps_rejects_100_percent_and_above_cap : Check () :=
  _ ← assert (is_err (validate_hwm_floor_bps 10_000));
  _ ← assert (is_err (validate_hwm_floor_bps (MAX_HWM_FLOOR_BPS + 1)));
  assert (is_err (validate_hwm_floor_bps U16_MAX)).

Definition test_validate_hwm_floor_bps_rejects_zero : Check () :=
  assert (is_err (validate_hwm_floor_bps 0)).

Definition test_validate_hwm_floor_bps_accepts_legitimate_range_up_to_cap : Check () :=
  _ ← for_each [1; 5_000; 7_500; MAX_HWM_FLOOR_BPS]
        (fun bps => assert (is_ok (validate_hwm_floor_bps bps)));
  assert (MAX_HWM_FLOOR_BPS <? 10_000).

Definition test_capped_floor_preserves_a_withdrawal_margin : Check () :=
  let tvl := 1_000_000 in
  let hwm := tvl in
  floor ← unwrap (hwm_floor hwm MAX_HWM_FLOOR_BPS);
  _ ← assert (floor <? tvl);
  margin ← sub_u tvl floor;
  _ ← assert (0 <? margin);
  rest ← sub_u tvl margin;
  _ ← assert (hwm_withdrawal_allowed rest hwm MAX_HWM_FLOOR_BPS);
  assert (negb (hwm_withdrawal_allowed (tvl - 1) hwm 10_000)).

(** ** The records in account data

    The mutable and the read-only helper of the source read the same record. *)

Definition test_pool_helpers_reject_undersized_without_panic : Check () :=
  _ ← assert (bool_decide (STAKE_DEPOSIT_SIZE < STAKE_POOL_SIZE)%nat);
  let deposit_sized := replicate STAKE_DEPOSIT_SIZE 0 in
  _ ← assert (is_err (pool_from_data deposit_sized));
  _ ← assert (is_err (pool_from_data deposit_sized));
  let one_short := replicate (STAKE_POOL_SIZE - 1) 0 in
  _ ← assert (is_err (pool_from_data one_short));
  _ ← assert (is_err (pool_from_data one_short));
  let empty := [] in
  _ ← assert (is_err (pool_from_data empty));
  assert (is_err (pool_from_data empty)).

Definition test_pool_helpers_accept_exact_and_oversized : Check () :=
  let buf := replicate STAKE_POOL_SIZE 0 in
  pool ← unwrap_ok (pool_from_data buf);
  _ ← assert_eq (sp_is_initialized pool) 0;
  _ ← assert (is_ok (pool_from_data buf));
  let over := replicate (STAKE_POOL_SIZE + 32) 0 in
  assert (is_ok (pool_from_data over)).

Definition test_deposit_helpers_reject_undersized_without_panic : Check () :=
  let short := replicate (STAKE_DEPOSIT_SIZE - 1) 0 in
  _ ← assert (is_err (deposit_from_data short));
  _ ← assert (is_err (deposit_from_data short));
  let empty := [] in
  assert (is_err (deposit_from_data empty)).

Definition test_deposit_helpers_accept_exact_size : Check () :=
  let buf := replicate STAKE_DEPOSIT_SIZE 0 in
  _ ← assert (is_ok (deposit_from_data buf));
  assert (is_ok (deposit_from_data buf)).

(** ** Transactions *)

(** [AccountInfo::new(key, is_signer, is_writable, lamports, data, owner, ..)]
    with no lamports, and the accounts of a test: what [process] is passed, and
    the store behind it. *)
Definition account_info (key : Pubkey) (is_signer is_writable : bool) (data : list Z) (owner : Pubkey)
    : AccountInfo * (Pubkey * Account) :=
  (mkAccountInfo key is_signer is_writable, (key, mkAccount owner 0 data)).
Definition infos (l : list (AccountInfo * (Pubkey * Account))) : list AccountInfo := fst <$> l.
Definition store (l : list (AccountInfo * (Pubkey * Account))) : World := list_to_map (snd <$> l).

(** What the source's [process] returns, and the data of an account after it. The
    tests that read data after an error read what the handler had not yet touched. *)
Definition returned (r : ProgramResult World) : ProgramResult () :=
  match r with Ok _ => Ok () | Err e => Err e end.
Definition data_after (l : list (AccountInfo * (Pubkey * Account))) (r : ProgramResult World)
    (key : Pubkey) : list Z :=
  acc_data (get (match r with Ok w => w | Err _ => store l end) key).

Section Transactions.
Context `{Runtime} `{BuildConfig}.

Definition return_insurance_rejects_admin_ata_not_owned_by_admin : Check () :=
  let program_id := replicate 32 9 in
  let admin_key := replicate 32 1 in
  let pool_key := replicate 32 2 in
  let admin_ata_key := replicate 32 3 in
  let vault_key := replicate 32 4 in
  let collateral_mint := replicate 32 5 in
  let other_owner := replicate 32 6 in
  let pool := zeroed in
  let pool := pool <| sp_is_initialized := 1 |> in
  let pool := pool <| sp_admin := admin_key |> in
  let pool := pool <| sp_vault := vault_key |> in
  let pool := pool <| sp_collateral_mint := collateral_mint |> in
  let pool := pool <| sp_total_flushed := 100 |> in
  let pool := pool <| sp_total_returned := 0 |> in
  let pool := set_discriminator pool in
  let pool_data := pool_encode pool in
  let admin_ata_data := replicate ACCOUNT_LEN 0 in
  let admin_ata_data := splice 0 collateral_mint admin_ata_data in
  let admin_ata_data := splice 32 other_owner admin_ata_data in
  let vault_data := replicate ACCOUNT_LEN 0 in
  let token_program_id := SplToken.id in
  let accounts :=
    [ account_info admin_key true false [] SYSTEM_PROGRAM_ID;
      account_info pool_key false true pool_data program_id;
      account_info admin_ata_key false true admin_ata_data token_program_id;
      account_info vault_key false true vault_data token_program_id;
      account_info token_program_id false false [] SYSTEM_PROGRAM_ID ] in
  let result := process program_id (infos accounts) [10; 10; 0; 0; 0; 0; 0; 0; 0] (store accounts) in
  assert (bool_decide (returned result = Err (stake_err Unauthorized))).

Definition poc_set_market_resolved_should_reject_readonly_pool_account : Check () :=
  let program_id := replicate 32 9 in
  let admin_key := replicate 32 1 in
  let pool_key := replicate 32 2 in
  let pool := zeroed in
  let pool := pool <| sp_is_initialized := 1 |> in
  let pool := pool <| sp_admin := admin_key |> in
  let pool := set_discriminator pool in
  let pool := set_market_resolved false pool in
  let pool_data := pool_encode pool in
  let accounts :=
    [ account_info admin_key true false [] SYSTEM_PROGRAM_ID;
      account_info pool_key false false pool_data program_id ] in
  let result := process program_id (infos accounts) [18] (store accounts) in
  assert_eq (returned result) (Err (stake_err InvalidAccount)).

Definition h1_set_market_resolved_blocks_when_flushed_not_returned : Check () :=
  let program_id := replicate 32 9 in
  let admin_key := replicate 32 1 in
  let pool_key := replicate 32 2 in
  let pool := zeroed in
  let pool := pool <| sp_is_initialized := 1 |> in
  let pool := pool <| sp_admin := admin_key |> in
  let pool := pool <| sp_total_flushed := 500 |> in
  let pool := pool <| sp_total_returned := 200 |> in
  let pool := set_discriminator pool in
  let pool_data := pool_encode pool in
  let accounts :=
    [ account_info admin_key true false [] SYSTEM_PROGRAM_ID;
      account_info pool_key false true pool_data program_id ] in
  let result := process program_id (infos accounts) [18] (store accounts) in
  assert_eq (returned result) (Err (stake_err InsuranceLossOutstanding)).

Definition h1_set_market_resolved_blocks_when_only_total_returned_caught_up : Check () :=
  let program_id := replicate 32 9 in
  let admin_key := replicate 32 1 in
  let pool_key := replicate 32 2 in
  let pool := zeroed in
  let pool := pool <| sp_is_initialized := 1 |> in
  let pool := pool <| sp_admin := admin_key |> in
  let pool := pool <| sp_total_flushed := 500 |> in
  let pool := pool <| sp_total_returned := 500 |> in
  let pool := pool <| sp_total_recovered_from_wrapper := 0 |> in
  let pool := set_discriminator pool in
  let pool_data := pool_encode pool in
  let accounts :=
    [ account_info admin_key true false [] SYSTEM_PROGRAM_ID;
      account_info pool_key false true pool_data program_id ] in
  let result := process program_id (infos accounts) [18] (store accounts) in
  _ ← assert_eq (returned result) (Err (stake_err InsuranceLossOutstanding));
  pool_after ← unwrap_ok (pool_from_data (data_after accounts result pool_key));
  assert (negb (market_resolved pool_after)).

Definition h1_set_market_resolved_allows_when_fully_recovered_from_wrapper : Check () :=
  let program_id := replicate 32 9 in
  let admin_key := replicate 32 1 in
  let pool_key := replicate 32 2 in
  let pool := zeroed in
  let pool := pool <| sp_is_initialized := 1 |> in
  let pool := pool <| sp_admin := admin_key |> in
  let pool := pool <| sp_total_flushed := 500 |> in
  let pool := pool <| sp_total_returned := 500 |> in
  let pool := pool <| sp_total_recovered_from_wrapper := 500 |> in
  let pool := set_discriminator pool in
  let pool_data := pool_encode pool in
  let accounts :=
    [ account_info admin_key true false [] SYSTEM_PROGRAM_ID;
      account_info pool_key false true pool_data program_id ] in
  let result := process program_id (infos accounts) [18] (store accounts) in
  _ ← assert (is_ok result);
  pool_after ← unwrap_ok (pool_from_data (data_after accounts result pool_key));
  assert (market_resolved pool_after).

Definition c1_admin_resolve_market_rejects_non_admin_signer : Check () :=
  let program_id := replicate 32 9 in
  let admin_key := replicate 32 1 in
  let attacker_key := replicate 32 0xAA in
  let pool_key := replicate 32 2 in
  let slab_key := replicate 32 3 in
  let percolator_program_id := replicate 32 4 in
  let pool := zeroed in
  let pool := pool <| sp_is_initialized := 1 |> in
  let pool := pool <| sp_admin := admin_key |> in
  let pool := pool <| sp_slab := slab_key |> in
  let pool := pool <| sp_percolator_program := percolator_program_id |> in
  let pool := pool <| sp_bump := 255 |> in
  let pool := set_discriminator pool in
  let pool_data := pool_encode pool in
  let accounts :=
    [ account_info attacker_key true false [] SYSTEM_PROGRAM_ID;
      account_info pool_key false false pool_data program_id;
      account_info slab_key false true [] percolator_program_id;
      account_info percolator_program_id false false [] SYSTEM_PROGRAM_ID ] in
  let result := process program_id (infos accounts) [24] (store accounts) in
  assert_eq (returned result) (Err (stake_err Unauthorized)).

Definition h1_admin_resolve_market_blocks_when_flushed_not_returned : Check () :=
  let program_id := replicate 32 9 in
  let admin_key := replicate 32 1 in
  let pool_key := replicate 32 2 in
  let slab_key := replicate 32 3 in
  let percolator_program_id := replicate 32 4 in
  let pool := zeroed in
  let pool := pool <| sp_is_initialized := 1 |> in
  let pool := pool <| sp_admin := admin_key |> in
  let pool := pool <| sp_slab := slab_key |> in
  let pool := pool <| sp_percolator_program := percolator_program_id |> in
  let pool := pool <| sp_bump := 255 |> in
  let pool := pool <| sp_total_flushed := 1_000 |> in
  let pool := pool <| sp_total_returned := 400 |> in
  let pool := set_discriminator pool in
  let pool_data := pool_encode pool in
  let accounts :=
    [ account_info admin_key true false [] SYSTEM_PROGRAM_ID;
      account_info pool_key false false pool_data program_id;
      account_info slab_key false true [] percolator_program_id;
      account_info percolator_program_id false false [] SYSTEM_PROGRAM_ID ] in
  let result := process program_id (infos accounts) [24] (store accounts) in
  assert_eq (returned result) (Err (stake_err InsuranceLossOutstanding)).

Definition c1_admin_resolve_market_rejects_wrong_slab : Check () :=
  let program_id := replicate 32 9 in
  let admin_key := replicate 32 1 in
  let pool_key := replicate 32 2 in
  let real_slab_key := replicate 32 3 in
  let wrong_slab_key := replicate 32 0xBB in
  let percolator_program_id := replicate 32 4 in
  let pool := zeroed in
  let pool := pool <| sp_is_initialized := 1 |> in
  let pool := pool <| sp_admin := admin_key |> in
  let pool := pool <| sp_slab := real_slab_key |> in
  let pool := pool <| sp_percolator_program := percolator_program_id |> in
  let pool := pool <| sp_bump := 255 |> in
  let pool := set_discriminator pool in
  let pool_data := pool_encode pool in
  let accounts :=
    [ account_info admin_key true false [] SYSTEM_PROGRAM_ID;
      account_info pool_key false false pool_data program_id;
      account_info wrong_slab_key false true [] percolator_program_id;
      account_info percolator_program_id false false [] SYSTEM_PROGRAM_ID ] in
  let result := process program_id (infos accounts) [24] (store accounts) in
  assert_eq (returned result) (Err (stake_err InvalidPda)).
End Transactions.

(** ** The suite *)

Definition processor_tests : list (Check ()) :=
  [ n7_genesis_deposit_above_minimum_liquidity_carves_out_dead_shares;
    n7_genesis_deposit_at_exactly_minimum_liquidity_rejected;
    n7_genesis_deposit_below_minimum_liquidity_rejected;
    n7_genesis_deposit_of_zero_lp_rejected_not_underflow_panic;
    n7_non_genesis_deposit_mints_full_amount_unchanged;
    n7_mutation_check_dead_share_floor_is_strictly_deducted_at_genesis;
    timelock_not_elapsed_before_window; timelock_elapsed_at_or_after_window;
    timelock_overflow_is_error_not_panic;
    pending_cooldown_accessors_roundtrip_and_default_zero;
    pending_cooldown_bytes_do_not_collide_with_neighbors;
    test_apply_hwm_config_disable_preserves_floor; test_apply_hwm_config_enable_writes_floor;
    test_validate_hwm_floor_bps_rejects_100_percent_and_above_cap;
    test_validate_hwm_floor_bps_rejects_zero;
    test_validate_hwm_floor_bps_accepts_legitimate_range_up_to_cap;
    test_capped_floor_preserves_a_withdrawal_margin;
    test_pool_helpers_reject_undersized_without_panic;
    test_pool_helpers_accept_exact_and_oversized;
    test_deposit_helpers_reject_undersized_without_panic;
    test_deposit_helpers_accept_exact_size ].

Lemma processor_tests_pass : Forall passes processor_tests.
Proof. run_tests. Qed.

Section TransactionTests.
Context `{Runtime} `{BuildConfig}.

Definition transaction_tests : list (Check ()) :=
  [ return_insurance_rejects_admin_ata_not_owned_by_admin;
    poc_set_market_resolved_should_reject_readonly_pool_account;
    h1_set_market_resolved_blocks_when_flushed_not_returned;
    h1_set_market_resolved_blocks_when_only_total_returned_caught_up;
    h1_set_market_resolved_allows_when_fully_recovered_from_wrapper;
    c1_admin_resolve_market_rejects_non_admin_signer;
    h1_admin_resolve_market_blocks_when_flushed_not_returned;
    c1_admin_resolve_market_rejects_wrong_slab ].

Lemma transaction_tests_pass : Forall passes transaction_tests.
Proof. run_tests. Qed.
End TransactionTests.
