(* ===== verification/UnitTests.v ===== *)
(** * The unit tests pass

    The 162 unit tests of src/math.rs, src/state.rs, src/instruction.rs, src/cpi.rs
    and src/processor.rs, collected and run on the model: a regression test of the
    definitions, fixed inputs throughout, and not one of the development's
    properties. *)

From S2P Require Import Prelude Errors State Runtime Init Checks UnitMath UnitState UnitInstruction.
From S2P Require Import UnitCpi UnitProcessor Sim SimLaws.

Section Suite.
Context `{Runtime} `{BuildConfig} (new_unique : nat -> Pubkey).

Definition unit_tests : list (Check ()) :=
  math_tests ++ state_tests ++ key_tests new_unique ++ instruction_tests ++ cpi_tests ++
  processor_tests ++ transaction_tests.
End Suite.

(** The program's unit tests pass. Each of the 162 tests of its five source
    files runs to its end, no assertion failing and nothing panicking, whatever the
    runtime, the other programs and the build's network. Only the six tests on keys
    need anything of the outside: that fresh keys differ, and that the different
    seeds they derive addresses from have different addresses. *)
Theorem unit_tests_pass `{Runtime} `{BuildConfig} new_unique :
  DistinctKeys new_unique ->
  length (unit_tests new_unique) = 162%nat /\ Forall passes (unit_tests new_unique).
Proof.
  intros D. split; [reflexivity|]. unfold unit_tests. rewrite !Forall_app. split_and!;
    auto using math_tests_pass, state_tests_pass, key_tests_pass, instruction_tests_pass,
      cpi_tests_pass, processor_tests_pass, transaction_tests_pass.
Qed.

(** The executable runtime, and keys filled with a number. *)
Lemma unit_tests_pass_witness :
  let key := fun n => replicate 32 (Z.of_nat n) in
  DistinctKeys (H := sim) key /\ Forall passes (unit_tests (H := sim) (H0 := sim_build) key).
Proof.
  intros key. assert (D : DistinctKeys (H := sim) key).
  { assert (Hd : NoDup (key <$> seq 0 4) /\
                 NoDup ((fun s => fst (@find_program_address sim s (key 0%nat))) <$>
                          derived_seeds (H := sim) key))
      by (split; apply (bool_decide_unpack _); by vm_compute).
    destruct Hd as [Hk Ha]. split; [exact Hk|]. intros s s' [i Hi]%list_elem_of_lookup
      [j Hj]%list_elem_of_lookup Hne Heq.
    assert (i = j) as ->.
    { apply (NoDup_lookup _ i j (fst (@find_program_address sim s (key 0%nat))) Ha);
        rewrite list_lookup_fmap; [by rewrite Hi|by rewrite Hj, Heq]. }
    rewrite Hi in Hj. by injection Hj as ->. }
  split; [exact D|]. destruct (unit_tests_pass (H := sim) (H0 := sim_build) key D) as [_ Ht].
  exact Ht.
Defined.
