(* ===== verification/KaniMirror.v ===== *)
(** * The Kani mirror (kani-proofs/src/lib.rs)

    The crate the model checker runs on restates the share and tranche
    arithmetic at half the width: [u32] operands, [u64] intermediates. Its
    functions are modelled here under the prefix [kani_], to be compared with the
    program's own. An unchecked operation that leaves its width panics, which the
    checker reports as a failure; such a function returns an option. *)

From S2P Require Import Prelude Errors Math State PoolFacts Runtime Guards Fees Deposit.

(** [if x > u32::MAX as u64 { None } else { Some(x as u32) }] *)
Definition narrow (o : option Z) : option Z :=
  x ← o; if U32_MAX <? x then None else Some x.

Definition kani_calc_lp_for_deposit (supply pool_value deposit : Z) : option Z :=
  if (supply =? 0) && (pool_value =? 0) then Some deposit
  else if (supply =? 0) || (pool_value =? 0) then None
  else
    shares ← checked_add U64_MAX supply VIRTUAL_SHARES;
    product ← checked_mul U64_MAX deposit shares;
    assets ← checked_add U64_MAX pool_value VIRTUAL_ASSETS;
    lp ← checked_div product assets;
    if U32_MAX <? lp then None else Some lp.

Definition kani_calc_collateral_for_withdraw (supply pool_value lp : Z) : option Z :=
  if supply =? 0 then None
  else
    assets ← checked_add U64_MAX pool_value VIRTUAL_ASSETS;
    product ← checked_mul U64_MAX lp assets;
    shares ← checked_add U64_MAX supply VIRTUAL_SHARES;
    col ← checked_div product shares;
    if U32_MAX <? col then None else Some col.

Definition kani_pool_value (deposited withdrawn : Z) : option Z := checked_sub deposited withdrawn.

Definition kani_pool_value_with_flush (deposited withdrawn flushed returned : Z) : option Z :=
  held ← checked_sub deposited withdrawn;
  kept ← checked_sub held flushed;
  checked_add U32_MAX kept returned.

Definition kani_flush_available (deposited withdrawn flushed : Z) : Z :=
  saturating_sub (saturating_sub deposited withdrawn) flushed.

Definition kani_cooldown_elapsed (current_slot deposit_slot cooldown_slots : Z) : bool :=
  saturating_add U32_MAX deposit_slot cooldown_slots <=? current_slot.

Definition kani_exceeds_cap (total_deposited new_deposit cap : Z) : bool :=
  if cap =? 0 then false
  else match checked_add U32_MAX total_deposited new_deposit with
       | Some total => cap <? total
       | None => true
       end.

Definition kani_pool_inv (supply pv : Z) : bool := Bool.eqb (supply =? 0) (pv =? 0).

Definition kani_calc_subpool_lp_for_deposit (sub_lp sub_balance deposit : Z) : option Z :=
  kani_calc_lp_for_deposit sub_lp sub_balance deposit.

Definition kani_calc_subpool_collateral_for_withdraw (sub_lp sub_balance lp : Z) : option Z :=
  kani_calc_collateral_for_withdraw sub_lp sub_balance lp.

Definition kani_distribute_loss (junior_balance senior_balance loss : Z) : Z * Z :=
  let total := saturating_add U64_MAX junior_balance senior_balance in
  let capped := Z.min loss total in
  if capped <=? junior_balance then (capped, 0)
  else (junior_balance, capped - junior_balance).

Definition kani_distribute_fees
    (junior_balance senior_balance junior_fee_mult_bps total_fee : Z) : option (Z * Z) :=
  if total_fee =? 0 then Some (0, 0)
  else if junior_balance + senior_balance =? 0 then Some (0, 0)
  else
    junior_weight ← checked_mul U64_MAX junior_balance junior_fee_mult_bps;
    senior_weight ← checked_mul U64_MAX senior_balance 10000;
    total_weight ← checked_add U64_MAX junior_weight senior_weight;
    if total_weight =? 0 then Some (0, 0)
    else
      product ← checked_mul U64_MAX total_fee junior_weight;
      let junior_fee := Z.min (product / total_weight) total_fee in
      Some (junior_fee, saturating_sub total_fee junior_fee).

Definition kani_total_pool_value_mode0 (deposited withdrawn flushed returned : Z) : option Z :=
  held ← checked_sub deposited withdrawn;
  kept ← checked_sub held flushed;
  checked_add U32_MAX kept returned.

Definition kani_effective_junior_balance
    (deposited withdrawn flushed returned junior_balance : Z) : Z :=
  let jb := junior_balance in
  let net_loss := saturating_sub flushed returned in
  if net_loss =? 0 then jb
  else
    let gross_pool := saturating_sub deposited withdrawn in
    let gross_senior := saturating_sub gross_pool jb in
    let '(junior_loss, _) := kani_distribute_loss jb gross_senior net_loss in
    saturating_sub jb junior_loss.

Definition kani_senior_balance
    (deposited withdrawn flushed returned junior_balance : Z) : option Z :=
  pv ← kani_total_pool_value_mode0 deposited withdrawn flushed returned;
  checked_sub pv
    (kani_effective_junior_balance deposited withdrawn flushed returned junior_balance).

Definition kani_total_pool_value_mode0_rl
    (deposited withdrawn flushed returned realized_junior_loss : Z) : option Z :=
  value ← kani_total_pool_value_mode0 deposited withdrawn flushed returned;
  checked_sub value realized_junior_loss.

Definition kani_senior_balance_rl
    (deposited withdrawn flushed returned junior_balance realized_junior_loss : Z) : option Z :=
  pv ← kani_total_pool_value_mode0_rl deposited withdrawn flushed returned realized_junior_loss;
  checked_sub pv
    (kani_effective_junior_balance deposited withdrawn flushed returned junior_balance).

Definition kani_total_pool_value_mode1_rl_i128
    (deposited withdrawn flushed returned fees realized_junior_loss : Z) : option Z :=
  let v := deposited - withdrawn - flushed + returned + fees - realized_junior_loss in
  if (v <? 0) || (U32_MAX <? v) then None else Some v.

(** ** Agreement with the program *)

(** A pool whose totals are in the mirror's range. *)
Record totals32 (p : StakePool) : Prop := {
  t32_deposited : u32 p.(sp_total_deposited);
  t32_withdrawn : u32 p.(sp_total_withdrawn);
  t32_flushed : u32 p.(sp_total_flushed);
  t32_returned : u32 p.(sp_total_returned);
  t32_fees : u32 p.(sp_total_fees_earned);
  t32_cap : u32 p.(sp_deposit_cap);
  t32_junior_balance : u32 (junior_balance p);
  t32_realized : u32 (realized_junior_loss p);
}.

Lemma u32_u64 z : u32 z -> u64 z.
Proof. unfold fits, U32_MAX, U64_MAX. lia. Qed.
#[local] Hint Resolve u32_u64 : core.

Lemma narrow_Some o x : narrow o = Some x <-> o = Some x /\ x <= U32_MAX.
Proof.
  unfold narrow. destruct o as [y|]; cbn; [|naive_solver].
  destruct (Z.ltb_spec U32_MAX y); naive_solver lia.
Qed.

(** [a * (b + 1)] of 32-bit operands fits 64 bits. *)
Lemma mul_succ_u64 a b : u32 a -> u32 b -> a * (b + 1) <= U64_MAX.
Proof. unfold fits, U32_MAX, U64_MAX. nia. Qed.

Lemma kani_calc_lp_for_deposit_Some s v a lp :
  u32 s -> u32 v -> u32 a ->
  kani_calc_lp_for_deposit s v a = Some lp <->
    (s = 0 /\ v = 0 /\ lp = a) \/
    (0 < s /\ 0 < v /\ lp = a * (s + 1) / (v + 1) /\ lp <= U32_MAX).
Proof.
  intros Hs Hv Ha. pose proof (mul_succ_u64 a s Ha Hs) as Hm.
  unfold kani_calc_lp_for_deposit, VIRTUAL_SHARES, VIRTUAL_ASSETS.
  unfold fits, U32_MAX, U64_MAX in *.
  destruct (Z.eqb_spec s 0) as [->|]; destruct (Z.eqb_spec v 0) as [->|]; cbn [andb orb];
    [naive_solver lia..|].
  unfold checked_add, checked_mul, checked_div, U64_MAX.
  repeat (rewrite (proj2 (Z.leb_le _ _)) by lia; cbn [mbind option_bind]).
  rewrite (proj2 (Z.eqb_neq (v + 1) 0)) by lia. cbn [mbind option_bind].
  destruct (Z.ltb_spec 4294967295 (a * (s + 1) / (v + 1))); split; intros; simplify_eq;
    naive_solver lia.
Qed.

Lemma kani_calc_collateral_Some s v l c :
  u32 s -> u32 v -> u32 l ->
  kani_calc_collateral_for_withdraw s v l = Some c <->
    0 < s /\ c = l * (v + 1) / (s + 1) /\ c <= U32_MAX.
Proof.
  intros Hs Hv Hl. pose proof (mul_succ_u64 l v Hl Hv) as Hm.
  unfold kani_calc_collateral_for_withdraw, VIRTUAL_SHARES, VIRTUAL_ASSETS.
  unfold fits, U32_MAX, U64_MAX in *.
  destruct (Z.eqb_spec s 0) as [->|]; [naive_solver lia|].
  unfold checked_add, checked_mul, checked_div, U64_MAX.
  repeat (rewrite (proj2 (Z.leb_le _ _)) by lia; cbn [mbind option_bind]).
  rewrite (proj2 (Z.eqb_neq (s + 1) 0)) by lia. cbn [mbind option_bind].
  destruct (Z.ltb_spec 4294967295 (l * (v + 1) / (s + 1))); split; intros; simplify_eq;
    naive_solver lia.
Qed.

(** Two partial results with the same graph. *)
Lemma option_graph {A} (o o' : option A) : (forall x, o = Some x <-> o' = Some x) -> o = o'.
Proof. intros H. destruct o as [x|], o' as [y|]; naive_solver. Qed.

Lemma kani_distribute_loss_eq j s l : kani_distribute_loss j s l = distribute_loss j s l.
Proof.
  unfold kani_distribute_loss, distribute_loss.
  destruct (Z.leb_spec (Z.min l (saturating_add U64_MAX j s)) j); [done|].
  f_equal. unfold saturating_sub. lia.
Qed.

Lemma kani_distribute_fees_sound j s m f r :
  u32 j -> u32 s -> u16 m -> u32 f ->
  kani_distribute_fees j s m f = Some r -> distribute_fees j s m f = r.
Proof.
  intros Hj Hs Hm Hf H. rewrite distribute_fees_spec by auto. cbn zeta.
  unfold kani_distribute_fees in H.
  destruct (Z.eqb_spec f 0) as [->|]; [by injection H as <-|]. cbn [orb].
  destruct (Z.eqb_spec (j + s) 0) as [E|].
  { assert (j = 0 /\ s = 0) as [-> ->] by (unfold fits in *; lia).
    by injection H as <-. }
  apply bind_Some in H as (jw & [-> _]%checked_mul_Some & H).
  apply bind_Some in H as (sw & [-> _]%checked_mul_Some & H).
  apply bind_Some in H as (tw & [-> _]%checked_add_Some & H).
  destruct (Z.eqb_spec (j * m + s * 10000) 0); [by injection H as <-|].
  apply bind_Some in H as (pr & [-> _]%checked_mul_Some & [= <-]).
  assert (f * (j * m) / (j * m + s * 10000) <= f).
  { unfold fits in *. apply Z.div_le_upper_bound; nia. }
  f_equal; unfold saturating_sub; lia.
Qed.

Lemma kani_effective_junior_balance_eq p :
  kani_effective_junior_balance p.(sp_total_deposited) p.(sp_total_withdrawn)
    p.(sp_total_flushed) p.(sp_total_returned) (junior_balance p)
  = effective_junior_balance p.
Proof.
  unfold kani_effective_junior_balance, effective_junior_balance. cbn zeta.
  by rewrite kani_distribute_loss_eq.
Qed.

Lemma kani_mode1_value p :
  kani_total_pool_value_mode1_rl_i128 p.(sp_total_deposited) p.(sp_total_withdrawn)
    p.(sp_total_flushed) p.(sp_total_returned) p.(sp_total_fees_earned) (realized_junior_loss p)
  = narrow (total_pool_value p).
Proof.
  apply option_graph. intros x. rewrite narrow_Some, total_pool_value_Some.
  unfold kani_total_pool_value_mode1_rl_i128. cbn zeta. fold (raw_value p).
  unfold fits, U32_MAX, U64_MAX.
  destruct (Z.ltb_spec (raw_value p) 0); destruct (Z.ltb_spec 4294967295 (raw_value p));
    cbn [orb]; naive_solver lia.
Qed.

(** The left-to-right chain, when it does not underflow on the way, is the sum. *)
Lemma kani_mode0_rl_Some d w f r l x :
  kani_total_pool_value_mode0_rl d w f r l = Some x <->
  x = d - w - f + r - l /\ w <= d /\ f <= d - w /\ d - w - f + r <= U32_MAX /\ 0 <= x.
Proof.
  unfold kani_total_pool_value_mode0_rl, kani_total_pool_value_mode0.
  rewrite bind_Some. setoid_rewrite bind_Some. setoid_rewrite bind_Some.
  setoid_rewrite checked_sub_Some. setoid_rewrite checked_add_Some.
  split.
  - intros (y & (h & [-> ?] & k & [-> ?] & -> & ?) & -> & ?). lia.
  - intros (-> & ? & ? & ? & ?). exists (d - w - f + r). split; [|lia].
    exists (d - w). split; [lia|]. exists (d - w - f). lia.
Qed.

Lemma kani_mode0_sound p x :
  totals32 p -> p.(sp_total_fees_earned) = 0 ->
  kani_total_pool_value_mode0_rl p.(sp_total_deposited) p.(sp_total_withdrawn)
    p.(sp_total_flushed) p.(sp_total_returned) (realized_junior_loss p) = Some x ->
  total_pool_value p = Some x.
Proof.
  intros [] Hf (-> & ? & ? & ? & ?)%kani_mode0_rl_Some. apply total_pool_value_Some.
  unfold raw_value. rewrite Hf. unfold fits, U32_MAX, U64_MAX in *. lia.
Qed.

Lemma kani_exceeds_cap_spec p a t :
  totals32 p -> u32 a -> principal_tvl p = Some t -> u32 t ->
  kani_exceeds_cap t a p.(sp_deposit_cap) = false <-> enforce_deposit_cap p a = Ok tt.
Proof.
  intros [] Ha Ht Ht32. unfold kani_exceeds_cap, enforce_deposit_cap. rewrite Ht. cbn.
  unfold checked_add, fits, U32_MAX, U64_MAX in *.
  destruct (Z.eqb_spec (sp_deposit_cap p) 0) as [->|]; [done|].
  rewrite (proj2 (Z.ltb_lt 0 _)) by lia.
  rewrite (proj2 (Z.leb_le (t + a) 18446744073709551615)) by lia. cbn.
  rewrite ensure_Ok, negb_true_iff.
  destruct (Z.leb_spec (t + a) 4294967295); [naive_solver|].
  rewrite (proj2 (Z.ltb_lt _ _)) by lia. naive_solver.
Qed.

(** C38: the Kani mirror, on its own 32-bit range, against the program. The share
    formulas and the mode-1 value are the program's, cut off at 32 bits; the loss
    split, the junior mark-down and the deposit cap decide alike; the fee split
    agrees wherever the mirror's 64-bit products do not overflow; the mode-0 value
    and the senior value are sound on pools without fees, and undefined, unlike the
    program's, whenever more was flushed than principal is left. *)
Theorem kani_mirror_agrees p s v a m :
  u32 s -> u32 v -> u32 a -> u16 m -> totals32 p ->
  let D := p.(sp_total_deposited) in let W := p.(sp_total_withdrawn) in
  let F := p.(sp_total_flushed) in let R := p.(sp_total_returned) in
  let E := p.(sp_total_fees_earned) in let L := realized_junior_loss p in
  let J := junior_balance p in
  kani_calc_lp_for_deposit s v a = narrow (calc_lp_for_deposit s v a) /\
  kani_calc_collateral_for_withdraw s v a = narrow (calc_collateral_for_withdraw s v a) /\
  kani_distribute_loss s v a = distribute_loss s v a /\
  (forall r, kani_distribute_fees s v m a = Some r -> distribute_fees s v m a = r) /\
  kani_effective_junior_balance D W F R J = effective_junior_balance p /\
  (forall t, principal_tvl p = Some t -> u32 t ->
     kani_exceeds_cap t a p.(sp_deposit_cap) = false <-> enforce_deposit_cap p a = Ok tt) /\
  kani_total_pool_value_mode1_rl_i128 D W F R E L = narrow (total_pool_value p) /\
  (E = 0 -> forall x, kani_total_pool_value_mode0_rl D W F R L = Some x ->
     total_pool_value p = Some x) /\
  (E = 0 -> forall x, kani_senior_balance_rl D W F R J L = Some x -> senior_balance p = Some x) /\
  (D - W < F -> kani_total_pool_value_mode0_rl D W F R L = None).
Proof.
  intros Hs Hv Ha Hm Hp D W F R E L J. subst D W F R E L J. split_and!.
  - apply option_graph. intros x. rewrite narrow_Some, kani_calc_lp_for_deposit_Some by done.
    rewrite calc_lp_for_deposit_Some by auto. unfold fits, U32_MAX, U64_MAX in *. naive_solver lia.
  - apply option_graph. intros x. rewrite narrow_Some, kani_calc_collateral_Some by done.
    rewrite calc_collateral_for_withdraw_Some by auto.
    unfold U32_MAX, U64_MAX. naive_solver lia.
  - apply kani_distribute_loss_eq.
  - intros r. by apply kani_distribute_fees_sound.
  - apply kani_effective_junior_balance_eq.
  - intros t Ht Ht32. by apply kani_exceeds_cap_spec.
  - apply kani_mode1_value.
  - intros HE x. by apply kani_mode0_sound.
  - intros HE x (pv & Hpv & Hx)%bind_Some. unfold senior_balance.
    apply kani_mode0_sound in Hpv as ->; [|done..]. by rewrite <- kani_effective_junior_balance_eq.
  - intros Hlt. apply eq_None_not_Some. intros [x Hx]. apply kani_mode0_rl_Some in Hx. lia.
Qed.

(** 1000 deposited, 500 flushed, 300 returned, then 600 withdrawn: 200 are left,
    and the mirror's chain stops at 1000 - 600 - 500. *)
Definition returned_pool : StakePool :=
  pool_decode (replicate STAKE_POOL_SIZE 0)
    <| sp_total_deposited := 1000 |> <| sp_total_withdrawn := 600 |>
    <| sp_total_flushed := 500 |> <| sp_total_returned := 300 |>.

Lemma returned_pool_totals : totals32 returned_pool.
Proof. split; by vm_compute. Qed.

Lemma kani_mirror_agrees_witness :
  kani_calc_lp_for_deposit 5000 7000 100 = Some 71 /\ calc_lp_for_deposit 5000 7000 100 = Some 71 /\
  total_pool_value returned_pool = Some 200 /\
  kani_total_pool_value_mode0_rl 1000 600 500 300 0 = None.
Proof.
  destruct (kani_mirror_agrees returned_pool 5000 7000 100 20000)
    as (Hlp & _ & _ & _ & _ & _ & _ & _ & _ & Hnone);
    [by vm_compute..|exact returned_pool_totals|].
  assert (calc_lp_for_deposit 5000 7000 100 = Some 71) as E by reflexivity.
  rewrite E in Hlp. split_and!; [exact Hlp|exact E|reflexivity|].
  apply Hnone. by vm_compute.
Defined.
