(* ===== verification/KaniHarness.v ===== *)
(** * The Kani harnesses (kani-proofs/src/lib.rs, mod proofs)

    The repository's bounded model-checking suite: 56 harnesses over the mirror
    functions of KaniMirror.v, one definition each, under the source's names, as
    programs of Checks.v. KaniChecks.v proves what Kani checks. *)

From S2P Require Import Prelude Math Checks KaniMirror.

(** ** Section 1: Conservation *)

Definition proof_deposit_withdraw_no_inflation : Check () :=
  supply ← any; pv ← any; deposit ← any;
  _ ← assume ((0 <? deposit) && (deposit <=? 0xFFFF));
  _ ← assume ((0 <? supply) && (supply <=? 0xFFFF));
  _ ← assume ((0 <? pv) && (pv <=? 0xFFFF));
  lp ← positive_or_return (kani_calc_lp_for_deposit supply pv deposit);
  ns ← add32 supply lp;
  np ← add32 pv deposit;
  back ← or_return (kani_calc_collateral_for_withdraw ns np lp);
  _ ← cover 0 (back <=? deposit);
  assert (back <=? deposit).

Definition proof_first_depositor_exact : Check () :=
  amount ← any;
  _ ← assume ((0 <? amount) && (amount <? 100));
  lp ← unwrap (kani_calc_lp_for_deposit 0 0 amount);
  _ ← assert (lp =? amount);
  back ← unwrap (kani_calc_collateral_for_withdraw lp amount lp);
  _ ← cover 0 (back =? amount);
  assert (back =? amount).

Definition proof_two_depositors_conservation : Check () :=
  a ← any; b ← any; appreciation ← any;
  _ ← assume ((0 <? a) && (a <=? 0xFFFF));
  _ ← assume ((0 <? b) && (b <=? 0xFFFF));
  _ ← assume (appreciation <=? 0xFFFF);
  a_lp ← unwrap (kani_calc_lp_for_deposit 0 0 a);
  pv_after_appreciation ← add32 a appreciation;
  b_lp ← positive_or_return (kani_calc_lp_for_deposit a_lp pv_after_appreciation b);
  s2 ← add32 a_lp b_lp;
  pv2 ← add32 pv_after_appreciation b;
  a_back ← or_return (kani_calc_collateral_for_withdraw s2 pv2 a_lp);
  s_rem ← sub_u s2 a_lp;
  pv_rem ← sub_u pv2 a_back;
  b_back ← or_return (kani_calc_collateral_for_withdraw s_rem pv_rem b_lp);
  total_out ← add64 a_back b_back;
  ab ← add64 a b;
  total_in ← add64 ab appreciation;
  _ ← cover 0 (total_out <=? total_in);
  assert (total_out <=? total_in).

Definition proof_no_dilution : Check () :=
  init_s ← any; init_pv ← any; a_dep ← any; b_dep ← any;
  _ ← assume ((0 <? init_s) && (init_s <=? 0xFFFF));
  _ ← assume ((0 <? init_pv) && (init_pv <=? 0xFFFF));
  _ ← assume ((0 <? a_dep) && (a_dep <=? 0xFFFF));
  _ ← assume ((0 <? b_dep) && (b_dep <=? 0xFFFF));
  a_lp ← positive_or_return (kani_calc_lp_for_deposit init_s init_pv a_dep);
  s_after_a ← add32 init_s a_lp;
  pv_after_a ← add32 init_pv a_dep;
  a_value_before ← or_return (kani_calc_collateral_for_withdraw s_after_a pv_after_a a_lp);
  b_lp ← positive_or_return (kani_calc_lp_for_deposit s_after_a pv_after_a b_dep);
  s_after_b ← add32 s_after_a b_lp;
  pv_after_b ← add32 pv_after_a b_dep;
  a_value_after ← or_return (kani_calc_collateral_for_withdraw s_after_b pv_after_b a_lp);
  _ ← cover 0 (a_value_before <=? a_value_after);
  assert (a_value_before <=? a_value_after).

Definition proof_flush_full_return_conservation : Check () :=
  dep ← any; wd ← any; flush ← any;
  _ ← assume ((dep <? 100) && (wd <? 100) && (flush <? 100));
  _ ← assume (wd <=? dep);
  left ← sub_u dep wd;
  _ ← assume (flush <=? left);
  pv_original ← unwrap (kani_pool_value dep wd);
  pv_after_flush ← unwrap (kani_pool_value_with_flush dep wd flush 0);
  expected ← sub_u pv_original flush;
  _ ← assert (pv_after_flush =? expected);
  pv_after_return ← unwrap (kani_pool_value_with_flush dep wd flush flush);
  _ ← cover 0 (pv_after_return =? pv_original);
  assert (pv_after_return =? pv_original).

(** ** Section 2: Arithmetic safety *)

Definition proof_lp_deposit_no_panic : Check () :=
  s ← any; pv ← any; dep ← any;
  _ ← assume (s <=? 0xFFFF);
  _ ← assume (pv <=? 0xFFFF);
  _ ← assume (dep <=? 0xFFFF);
  let _ := kani_calc_lp_for_deposit s pv dep in
  cover 0 true.

(** [lp * (pv + VIRTUAL_ASSETS) <= deposit * (supply + VIRTUAL_SHARES)], in [u64]. *)
Definition rounding_favors_pool (supply pv deposit lp : Z) : Check bool :=
  assets ← add64 pv VIRTUAL_ASSETS;
  lhs ← mul64 lp assets;
  shares ← add64 supply VIRTUAL_SHARES;
  rhs ← mul64 deposit shares;
  Ret (lhs <=? rhs).

Definition proof_lp_deposit_overflow_guard : Check () :=
  supply ← any; pv ← any; deposit ← any;
  _ ← assume (supply <=? 0xFF);
  _ ← assume (pv <=? 0xFF);
  _ ← assume (deposit <=? 0xFF);
  if_some (kani_calc_lp_for_deposit supply pv deposit) (fun lp =>
    _ ← assert (lp <=? U32_MAX);
    if 0 <? pv then
      c ← rounding_favors_pool supply pv deposit lp;
      _ ← cover 0 c;
      c ← rounding_favors_pool supply pv deposit lp;
      assert c
    else Ret ()).

Definition proof_overflow_guard_fires_concrete : Check () :=
  _ ← assert (is_none (kani_calc_lp_for_deposit 100000 1 100000));
  _ ← assert (opt_eqb (kani_calc_lp_for_deposit 2 1 100000) (Some 150000));
  _ ← assert (opt_eqb (kani_calc_lp_for_deposit 1 1 1) (Some 1));
  assert (is_none (kani_calc_collateral_for_withdraw 1 100000 100000)).

Definition proof_collateral_withdraw_no_panic : Check () :=
  s ← any; pv ← any; lp ← any;
  _ ← assume (s <=? 0xFFFF);
  _ ← assume (pv <=? 0xFFFF);
  _ ← assume (lp <=? 0xFFFF);
  let _ := kani_calc_collateral_for_withdraw s pv lp in
  cover 0 true.

Definition proof_pool_value_no_panic : Check () :=
  d ← any; w ← any;
  let _ := kani_pool_value d w in
  cover 0 true.

Definition proof_flush_available_no_panic : Check () :=
  d ← any; w ← any; f ← any;
  let _ := kani_flush_available d w f in
  cover 0 true.

(** ** Section 3: Fairness and monotonicity *)

Definition proof_lp_rounding_favors_pool : Check () :=
  s ← any; pv ← any; dep ← any;
  _ ← assume ((0 <? s) && (s <? 100));
  _ ← assume ((0 <? pv) && (pv <? 100));
  _ ← assume ((0 <? dep) && (dep <? 100));
  if_some (kani_calc_lp_for_deposit s pv dep) (fun lp =>
    c ← rounding_favors_pool s pv dep lp;
    _ ← cover 0 c;
    c ← rounding_favors_pool s pv dep lp;
    assert c).

Definition proof_larger_deposit_more_lp : Check () :=
  s ← any; pv ← any; sm ← any; lg ← any;
  _ ← assume ((0 <? s) && (s <? 100));
  _ ← assume ((0 <? pv) && (pv <? 100));
  _ ← assume ((0 <? sm) && (sm <? 50));
  _ ← assume ((sm <? lg) && (lg <? 100));
  if_both (kani_calc_lp_for_deposit s pv sm) (kani_calc_lp_for_deposit s pv lg) (fun ls ll =>
    _ ← cover 0 (ls <=? ll);
    assert (ls <=? ll)).

Definition proof_larger_burn_more_collateral : Check () :=
  s ← any; pv ← any; sm ← any; lg ← any;
  _ ← assume ((0 <? s) && (s <? 100));
  _ ← assume ((0 <? pv) && (pv <? 100));
  _ ← assume ((0 <? sm) && (sm <? 50));
  _ ← assume ((sm <? lg) && (lg <=? s));
  if_both (kani_calc_collateral_for_withdraw s pv sm) (kani_calc_collateral_for_withdraw s pv lg)
    (fun cs cl =>
    _ ← cover 0 (cs <=? cl);
    assert (cs <=? cl)).

Definition proof_equal_deposits_equal_lp : Check () :=
  amount ← any;
  _ ← assume ((0 <? amount) && (amount <? 50));
  lp1 ← or_return (kani_calc_lp_for_deposit 0 0 amount);
  _ ← assert (lp1 =? amount);
  lp2 ← or_return (kani_calc_lp_for_deposit lp1 amount amount);
  _ ← cover 0 (lp2 =? lp1);
  assert (lp2 =? lp1).

(** ** Section 4: Withdrawal bounds *)

Definition proof_full_burn_bounded : Check () :=
  s ← any; pv ← any;
  _ ← assume ((0 <? s) && (s <? 100));
  _ ← assume (pv <? 100);
  if_some (kani_calc_collateral_for_withdraw s pv s) (fun col =>
    _ ← cover 0 (col <=? pv);
    assert (col <=? pv)).

Definition proof_partial_less_than_full : Check () :=
  s ← any; pv ← any; p ← any;
  _ ← assume ((1 <? s) && (s <? 100));
  _ ← assume ((0 <? pv) && (pv <? 100));
  _ ← assume ((0 <? p) && (p <? s));
  if_both (kani_calc_collateral_for_withdraw s pv s) (kani_calc_collateral_for_withdraw s pv p)
    (fun f pp =>
    _ ← cover 0 (pp <=? f);
    assert (pp <=? f)).

(** ** Section 5: Flush bounds *)

Definition proof_flush_preserves_value : Check () :=
  dep ← any; wd ← any; flushed ← any; returned ← any; flush_amount ← any;
  _ ← assume ((dep <? 100) && (wd <? 100) && (flushed <? 100) && (returned <? 100) &&
              (flush_amount <? 100));
  _ ← assume (wd <=? dep);
  net ← sub_u dep wd;
  _ ← assume (flushed <=? net);
  _ ← assume (returned <=? flushed);
  net ← sub_u dep wd;
  left ← sub_u net flushed;
  _ ← assume (flush_amount <=? left);
  pv_before ← or_return (kani_pool_value_with_flush dep wd flushed returned);
  flushed' ← add32 flushed flush_amount;
  pv_after ← or_return (kani_pool_value_with_flush dep wd flushed' returned);
  expected ← sub_u pv_before flush_amount;
  _ ← cover 0 (expected =? pv_after);
  expected ← sub_u pv_before flush_amount;
  assert (expected =? pv_after).

Definition proof_flush_bounded : Check () :=
  d ← any; w ← any; f ← any;
  _ ← assume ((d <? 100) && (w <? 100) && (f <? 100));
  let avail := kani_flush_available d w f in
  _ ← cover 0 (avail <=? d);
  assert (avail <=? d).

Definition proof_flush_max_then_zero : Check () :=
  d ← any; w ← any; f ← any;
  _ ← assume ((d <? 100) && (w <? 100) && (f <? 100));
  _ ← assume (w <=? d);
  _ ← assume (f <=? saturating_sub d w);
  let avail := kani_flush_available d w f in
  flushed ← add32 f avail;
  let remaining := kani_flush_available d w flushed in
  _ ← cover 0 (remaining =? 0);
  assert (remaining =? 0).

(** ** Section 6: Pool value *)

Definition proof_pool_value_correctness : Check () :=
  d ← any; w ← any;
  _ ← assume ((d <? 100) && (w <? 100));
  let r := kani_pool_value d w in
  if d <? w then assert (is_none r)
  else
    net ← sub_u d w;
    _ ← cover 0 (opt_eqb r (Some net));
    net ← sub_u d w;
    assert (opt_eqb r (Some net)).

Definition proof_deposit_increases_value : Check () :=
  d ← any; w ← any; extra ← any;
  _ ← assume ((d <? 100) && (w <? 100) && (extra <? 100));
  _ ← assume ((w <=? d) && (0 <? extra));
  old ← unwrap (kani_pool_value d w);
  if_some (checked_add U32_MAX d extra) (fun new_d =>
    new ← unwrap (kani_pool_value new_d w);
    _ ← cover 0 (old <? new);
    assert (old <? new)).

Definition proof_flush_return_conservation : Check () :=
  d ← any; w ← any; f ← any; r ← any;
  _ ← assume ((d <? 100) && (w <? 100) && (f <? 100) && (r <? 100));
  _ ← assume (w <=? d);
  net ← sub_u d w;
  _ ← assume (f <=? net);
  _ ← assume (r <=? f);
  if_some (kani_pool_value_with_flush d w f r) (fun pv =>
    net ← sub_u d w;
    _ ← assert (pv <=? net);
    _ ← (if r =? f then
           net ← sub_u d w;
           _ ← cover 0 (pv =? net);
           net ← sub_u d w;
           assert (pv =? net)
         else Ret ());
    if r <? f then
      net ← sub_u d w;
      _ ← cover 1 (pv <? net);
      net ← sub_u d w;
      assert (pv <? net)
    else Ret ()).

Definition proof_returns_increase_value : Check () :=
  d ← any; w ← any; f ← any; r ← any;
  _ ← assume ((d <? 50) && (w <? 50) && (f <? 50) && (r <? 50));
  ok ← (if w <=? d then net ← sub_u d w; Ret ((f <=? net) && (r <? f)) else Ret false);
  _ ← assume ok;
  let before := kani_pool_value_with_flush d w f r in
  r' ← add32 r 1;
  let after := kani_pool_value_with_flush d w f r' in
  if_both before after (fun b a =>
    _ ← cover 0 (b <? a);
    assert (b <? a)).

(** ** Section 7: Zero inputs *)

Definition proof_zero_deposit_zero_lp : Check () :=
  s ← any; pv ← any;
  _ ← assume ((s <? 100) && (pv <? 100));
  if_some (kani_calc_lp_for_deposit s pv 0) (fun lp =>
    _ ← cover 0 (lp =? 0);
    assert (lp =? 0)).

Definition proof_zero_burn_zero_col : Check () :=
  s ← any; pv ← any;
  _ ← assume ((s <? 100) && (pv <? 100));
  if_some (kani_calc_collateral_for_withdraw s pv 0) (fun col =>
    _ ← cover 0 (col =? 0);
    assert (col =? 0)).

(** ** Section 8: Cooldown *)

Definition proof_cooldown_no_panic : Check () :=
  c ← any; d ← any; n ← any;
  let _ := kani_cooldown_elapsed c d n in
  cover 0 true.

Definition proof_cooldown_not_immediate : Check () :=
  slot ← any; cd ← any;
  _ ← assume ((0 <? cd) && (cd <? 100));
  _ ← assume (slot <? U32_MAX - 100);
  _ ← cover 0 (negb (kani_cooldown_elapsed slot slot cd));
  assert (negb (kani_cooldown_elapsed slot slot cd)).

Definition proof_cooldown_exact_boundary : Check () :=
  dep_slot ← any; cd ← any;
  _ ← assume (cd <? 100);
  _ ← assume (dep_slot <? U32_MAX - 100);
  let check_slot := saturating_add U32_MAX dep_slot cd in
  _ ← cover 0 (kani_cooldown_elapsed check_slot dep_slot cd);
  assert (kani_cooldown_elapsed check_slot dep_slot cd).

(** ** Section 9: Deposit cap *)

Definition proof_cap_zero_uncapped : Check () :=
  total ← any; dep ← any;
  _ ← cover 0 (negb (kani_exceeds_cap total dep 0));
  assert (negb (kani_exceeds_cap total dep 0)).

Definition proof_cap_at_boundary : Check () :=
  cap ← any; existing ← any;
  _ ← assume ((0 <? cap) && (cap <? 100));
  _ ← assume (existing <=? cap);
  dep ← sub_u cap existing;
  _ ← cover 0 (negb (kani_exceeds_cap existing dep cap));
  assert (negb (kani_exceeds_cap existing dep cap)).

Definition proof_cap_above_boundary : Check () :=
  cap ← any; existing ← any;
  _ ← assume ((0 <? cap) && (cap <? 100));
  _ ← assume (existing <? cap);
  room ← sub_u cap existing;
  dep ← add32 room 1;
  _ ← cover 0 (kani_exceeds_cap existing dep cap);
  assert (kani_exceeds_cap existing dep cap).

(** ** Section 10: Orphaned value *)

Definition proof_c9_orphaned_value_blocked : Check () :=
  pv ← any; dep ← any;
  _ ← assume ((0 <? pv) && (pv <? 100));
  _ ← assume ((0 <? dep) && (dep <? 100));
  _ ← cover 0 (is_none (kani_calc_lp_for_deposit 0 pv dep));
  assert (is_none (kani_calc_lp_for_deposit 0 pv dep)).

Definition proof_c9_valueless_lp_blocked : Check () :=
  supply ← any; dep ← any;
  _ ← assume ((0 <? supply) && (supply <? 100));
  _ ← assume ((0 <? dep) && (dep <? 100));
  _ ← cover 0 (is_none (kani_calc_lp_for_deposit supply 0 dep));
  assert (is_none (kani_calc_lp_for_deposit supply 0 dep)).

Definition proof_c9_true_first_depositor : Check () :=
  dep ← any;
  _ ← assume ((0 <? dep) && (dep <? 100));
  _ ← cover 0 (opt_eqb (kani_calc_lp_for_deposit 0 0 dep) (Some dep));
  assert (opt_eqb (kani_calc_lp_for_deposit 0 0 dep) (Some dep)).

(** ** Section 11: Flush value mechanics *)

Definition proof_flush_reduces_value_exactly : Check () :=
  dep ← any; wd ← any; flush ← any;
  _ ← assume ((dep <? 100) && (wd <? 100) && (flush <? 100));
  _ ← assume (wd <=? dep);
  net ← sub_u dep wd;
  _ ← assume (flush <=? net);
  before ← unwrap (kani_pool_value dep wd);
  after ← unwrap (kani_pool_value_with_flush dep wd flush 0);
  delta ← sub_u before after;
  _ ← cover 0 (delta =? flush);
  delta ← sub_u before after;
  assert (delta =? flush).

Definition proof_determinism_across_states : Check () :=
  amount ← any;
  _ ← assume ((0 <? amount) && (amount <? 50));
  lp1 ← unwrap (kani_calc_lp_for_deposit 0 0 amount);
  lp2 ← unwrap (kani_calc_lp_for_deposit amount amount amount);
  _ ← cover 0 (lp1 =? lp2);
  assert (lp1 =? lp2).

(** ** Section 12: Extended arithmetic safety *)

Definition proof_pool_value_with_flush_no_panic : Check () :=
  d ← any; w ← any; f ← any; r ← any;
  let _ := kani_pool_value_with_flush d w f r in
  cover 0 true.

Definition proof_exceeds_cap_no_panic : Check () :=
  t ← any; d ← any; c ← any;
  let _ := kani_exceeds_cap t d c in
  cover 0 true.

(** ** Section 13: Defense in depth *)

Definition proof_roundtrip_under_pool_value_change : Check () :=
  supply ← any; pv ← any; deposit ← any; pv_delta ← any_i32;
  _ ← assume ((0 <? supply) && (supply <=? 0xFF));
  _ ← assume ((0 <? pv) && (pv <=? 0xFF));
  _ ← assume ((0 <? deposit) && (deposit <=? 0xFF));
  _ ← assume ((-0xFF <? pv_delta) && (pv_delta <? 0xFF));
  lp ← positive_or_return (kani_calc_lp_for_deposit supply pv deposit);
  new_supply ← add32 supply lp;
  grown ← add_i32 (as_i32 pv) (as_i32 deposit);
  new_pv_signed ← add_i32 grown pv_delta;
  _ ← assume (0 <? new_pv_signed);
  let new_pv := as_u32 new_pv_signed in
  back ← or_return (kani_calc_collateral_for_withdraw new_supply new_pv lp);
  if pv_delta <=? 0 then
    _ ← cover 0 (back <=? deposit);
    assert (back <=? deposit)
  else Ret ().

Definition proof_no_inflation_attack : Check () :=
  attacker_deposit ← any; victim_deposit ← any; donation ← any;
  _ ← assume ((0 <? attacker_deposit) && (attacker_deposit <=? 0xFFFF));
  _ ← assume ((0 <? victim_deposit) && (victim_deposit <=? 0xFFFF));
  _ ← assume (donation <=? 0xFFFF);
  attacker_lp ← unwrap (kani_calc_lp_for_deposit 0 0 attacker_deposit);
  inflated_pv ← add32 attacker_deposit donation;
  if_some (kani_calc_lp_for_deposit attacker_lp inflated_pv victim_deposit) (fun vlp =>
    if 0 <? vlp then
      total_supply ← add32 attacker_lp vlp;
      total_pv ← add32 inflated_pv victim_deposit;
      if_some (kani_calc_collateral_for_withdraw total_supply total_pv vlp) (fun vb =>
        _ ← cover 0 ((0 <? vb) || (victim_deposit =? 0));
        assert ((0 <? vb) || (victim_deposit =? 0)))
    else Ret ()).

Definition proof_cooldown_boundary_iff : Check () :=
  deposit_slot ← any; cooldown ← any; check_slot ← any;
  _ ← assume ((0 <? cooldown) && (cooldown <? 1000));
  _ ← assume (deposit_slot <? U32_MAX - 1000);
  deadline ← add32 deposit_slot cooldown;
  let elapsed := kani_cooldown_elapsed check_slot deposit_slot cooldown in
  if deadline <=? check_slot then
    _ ← cover 0 elapsed;
    assert elapsed
  else
    _ ← cover 1 (negb elapsed);
    assert (negb elapsed).

Definition proof_flush_conservation_lp_value : Check () :=
  supply ← any; dep ← any; wd ← any; flush ← any;
  _ ← assume ((0 <? supply) && (supply <=? 0xFF));
  _ ← assume ((0 <? dep) && (dep <=? 0xFF));
  _ ← assume (wd <? dep);
  ok ← (if 0 <? flush then net ← sub_u dep wd; Ret (flush <? net) else Ret false);
  _ ← assume ok;
  pv_before ← unwrap (kani_pool_value_with_flush dep wd 0 0);
  pv_after ← unwrap (kani_pool_value_with_flush dep wd flush 0);
  if_both (kani_calc_collateral_for_withdraw supply pv_before supply)
          (kani_calc_collateral_for_withdraw supply pv_after supply) (fun before after =>
    delta ← sub_u before after;
    _ ← cover 0 (delta <=? flush);
    _ ← assert (after <=? before);
    delta ← sub_u before after;
    assert (delta <=? flush)).

(** ** Section 14: Inductive proofs *)

Definition proof_deposit_withdraw_no_inflation_inductive : Check () :=
  supply ← any; pv ← any; deposit ← any;
  _ ← assume ((0 <? supply) && (0 <? pv));
  _ ← assume (kani_pool_inv supply pv);
  _ ← assume (supply <=? 0xFFFF);
  _ ← assume (pv <=? 0xFFFF);
  _ ← assume ((0 <? deposit) && (deposit <=? 0xFFFF));
  lp ← positive_or_return (kani_calc_lp_for_deposit supply pv deposit);
  ns ← or_return (checked_add U32_MAX supply lp);
  np ← or_return (checked_add U32_MAX pv deposit);
  _ ← assert ((0 <? ns) && (0 <? np));
  _ ← assert (kani_pool_inv ns np);
  back ← or_return (kani_calc_collateral_for_withdraw ns np lp);
  _ ← cover 0 (back <=? deposit);
  assert (back <=? deposit).

Definition proof_two_depositors_conservation_inductive : Check () :=
  supply ← any; pv ← any; a ← any; b ← any; appreciation ← any;
  _ ← assume ((0 <? supply) && (0 <? pv));
  _ ← assume (kani_pool_inv supply pv);
  _ ← assume ((supply <=? 0xFFFF) && (pv <=? 0xFFFF));
  _ ← assume ((0 <? a) && (a <=? 0xFFFF));
  _ ← assume ((0 <? b) && (b <=? 0xFFFF));
  _ ← assume (appreciation <=? 0xFFFF);
  a_lp ← positive_or_return (kani_calc_lp_for_deposit supply pv a);
  s1 ← or_return (checked_add U32_MAX supply a_lp);
  pv1 ← or_return (checked_add U32_MAX pv a);
  pv_after_appreciation ← or_return (checked_add U32_MAX pv1 appreciation);
  b_lp ← positive_or_return (kani_calc_lp_for_deposit s1 pv_after_appreciation b);
  s2 ← or_return (checked_add U32_MAX s1 b_lp);
  pv2 ← or_return (checked_add U32_MAX pv_after_appreciation b);
  a_back ← or_return (kani_calc_collateral_for_withdraw s2 pv2 a_lp);
  s_rem ← positive_or_return (checked_sub s2 a_lp);
  pv_rem ← or_return (checked_sub pv2 a_back);
  b_back ← or_return (kani_calc_collateral_for_withdraw s_rem pv_rem b_lp);
  total_new_in ← or_return (checked_add U32_MAX a b);
  total_new_in_with_appr ← or_return (checked_add U32_MAX total_new_in appreciation);
  total_out ← or_return (checked_add U32_MAX a_back b_back);
  _ ← cover 0 (total_out <=? total_new_in_with_appr);
  assert (total_out <=? total_new_in_with_appr).

(** ** Section 15: Tranches *)

Definition proof_distribute_loss_conservation : Check () :=
  jb ← any; sb ← any; loss ← any;
  _ ← assume ((jb <=? 0xFFFF) && (sb <=? 0xFFFF) && (loss <=? 0xFFFF));
  let '(jl, sl) := kani_distribute_loss jb sb loss in
  total ← add64 jb sb;
  let capped := Z.min loss total in
  _ ← cover 0 (0 <? sl);
  booked ← add64 jl sl;
  _ ← assert (booked =? capped);
  _ ← assert (jl <=? jb);
  assert (sl <=? sb).

Definition proof_distribute_loss_junior_first : Check () :=
  jb ← any; sb ← any; loss ← any;
  _ ← assume ((jb <=? 0xFFFF) && (sb <=? 0xFFFF) && (loss <=? 0xFFFF));
  _ ← assume (loss <=? jb);
  let '(jl, sl) := kani_distribute_loss jb sb loss in
  _ ← cover 0 (sl =? 0);
  _ ← assert (sl =? 0);
  assert (jl =? loss).

Definition proof_distribute_fees_conservation : Check () :=
  jb ← any; sb ← any; mult ← any; fee ← any;
  _ ← assume ((jb <=? 0xFFFF) && (sb <=? 0xFFFF) && (fee <=? 0xFFFF));
  _ ← assume ((0 <? mult) && (mult <=? 50000));
  '(jf, sf) ← unwrap (kani_distribute_fees jb sb mult fee);
  _ ← assert (jf <=? fee);
  _ ← assert (sf <=? fee);
  total ← add64 jf sf;
  _ ← assert (total <=? fee);
  if (0 <? fee) && ((0 <? jb) || (0 <? sb)) then
    total ← add32 jf sf;
    _ ← cover 0 (total =? fee);
    total ← add64 jf sf;
    assert (total =? fee)
  else Ret ().

Definition proof_distribute_fees_no_senior_all_to_junior : Check () :=
  jb ← any; mult ← any; fee ← any;
  _ ← assume ((0 <? jb) && (jb <=? 0xFFFF));
  _ ← assume ((0 <? fee) && (fee <=? 0xFFFF));
  _ ← assume ((0 <? mult) && (mult <=? 50000));
  '(jf, sf) ← unwrap (kani_distribute_fees jb 0 mult fee);
  _ ← cover 0 (jf =? fee);
  assert ((jf =? fee) && (sf =? 0)).

Definition proof_subpool_deposit_orphan_blocked : Check () :=
  bal ← any; dep ← any;
  _ ← assume ((0 <? bal) && (bal <=? 0xFFFF));
  _ ← assume ((0 <? dep) && (dep <=? 0xFFFF));
  assert (is_none (kani_calc_subpool_lp_for_deposit 0 bal dep)).

Definition proof_subpool_first_deposit_one_to_one : Check () :=
  dep ← any;
  _ ← assume ((0 <? dep) && (dep <=? 0xFFFF));
  _ ← cover 0 (opt_eqb (kani_calc_subpool_lp_for_deposit 0 0 dep) (Some dep));
  assert (opt_eqb (kani_calc_subpool_lp_for_deposit 0 0 dep) (Some dep)).

Definition proof_subpool_deposit_withdraw_no_profit : Check () :=
  sub_lp ← any; sub_bal ← any; dep ← any;
  _ ← assume ((0 <? sub_lp) && (sub_lp <=? 0xFFFF));
  _ ← assume ((0 <? sub_bal) && (sub_bal <=? 0xFFFF));
  _ ← assume ((0 <? dep) && (dep <=? 0xFFFF));
  lp ← positive_or_return (kani_calc_subpool_lp_for_deposit sub_lp sub_bal dep);
  s ← add32 sub_lp lp;
  v ← add32 sub_bal dep;
  back ← or_return (kani_calc_subpool_collateral_for_withdraw s v lp);
  _ ← cover 0 (back <=? dep);
  assert (back <=? dep).

Definition proof_senior_balance_never_underflows : Check () :=
  dep ← any; wd ← any; flush ← any; ret ← any; jb ← any;
  _ ← assume ((dep <=? 0xFFFF) && (wd <=? 0xFFFF) && (flush <=? 0xFFFF) && (ret <=? 0xFFFF) &&
              (jb <=? 0xFFFF));
  pv ← or_return (kani_total_pool_value_mode0 dep wd flush ret);
  gross_pool ← or_return (checked_sub dep wd);
  _ ← assume (ret <=? flush);
  _ ← assume (jb <=? gross_pool);
  let ejb := kani_effective_junior_balance dep wd flush ret jb in
  _ ← cover 0 (ejb <=? pv);
  _ ← assert (ejb <=? pv);
  assert (negb (is_none (kani_senior_balance dep wd flush ret jb))).

Definition proof_tranche_decomposition : Check () :=
  dep ← any; wd ← any; flush ← any; ret ← any; jb ← any;
  _ ← assume ((dep <=? 0xFFFF) && (wd <=? 0xFFFF) && (flush <=? 0xFFFF) && (ret <=? 0xFFFF) &&
              (jb <=? 0xFFFF));
  _ ← assume (ret <=? flush);
  _ ← assume (jb <=? saturating_sub dep wd);
  pv ← or_return (kani_total_pool_value_mode0 dep wd flush ret);
  let ejb := kani_effective_junior_balance dep wd flush ret jb in
  sb ← or_return (kani_senior_balance dep wd flush ret jb);
  total ← add32 sb ejb;
  _ ← cover 0 (total =? pv);
  total ← add64 sb ejb;
  assert (total =? pv).

Definition proof_169_mode1_no_false_underflow_brick : Check () :=
  dep ← any; wd ← any; flush ← any; ret ← any; fees ← any; rl ← any;
  _ ← assume ((dep <=? 0xFFFF) && (wd <=? 0xFFFF) && (flush <=? 0xFFFF) && (ret <=? 0xFFFF) &&
              (fees <=? 0xFFFF) && (rl <=? 0xFFFF));
  (* six 32-bit values: no [i64] overflow *)
  let true_value := dep - wd - flush + ret + fees - rl in
  let got := kani_total_pool_value_mode1_rl_i128 dep wd flush ret fees rl in
  if (0 <=? true_value) && (true_value <=? U32_MAX) then
    _ ← cover 0 (dep <? wd);
    assert (opt_eqb got (Some (as_u32 true_value)))
  else if true_value <? 0 then assert (is_none got)
  else Ret ().

Definition proof_161_recovery_never_windfalls_protected_senior : Check () :=
  sp ← any; jb0 ← any; nl ← any;
  _ ← assume ((sp <=? 0xFFFF) && (jb0 <=? 0xFFFF) && (nl <=? 0xFFFF));
  deposited ← or_return (checked_add U32_MAX sp jb0);
  _ ← assume (nl <=? deposited);
  let '(junior_loss, _) := kani_distribute_loss jb0 sp nl in
  let junior_payout := saturating_sub jb0 junior_loss in
  let l := Z.min junior_loss nl in
  let withdrawn := junior_payout in
  let returned_after_book := l in
  let rl := l in
  let outstanding := saturating_sub nl returned_after_book in
  r ← any;
  _ ← assume (r <=? outstanding);
  returned_final ← or_return (checked_add U32_MAX returned_after_book r);
  senior ← or_return (kani_senior_balance_rl deposited withdrawn nl returned_final 0 rl);
  _ ← cover 0 (senior =? sp);
  _ ← cover 1 (0 <? r);
  assert (senior <=? sp).

(** ** The suite *)

(** Every harness, with the number of its [cover!] sites. *)
Definition harnesses : list (Check () * nat) :=
  [ (proof_deposit_withdraw_no_inflation, 1); (proof_first_depositor_exact, 1);
    (proof_two_depositors_conservation, 1); (proof_no_dilution, 1);
    (proof_flush_full_return_conservation, 1); (proof_lp_deposit_no_panic, 1);
    (proof_lp_deposit_overflow_guard, 1); (proof_overflow_guard_fires_concrete, 0);
    (proof_collateral_withdraw_no_panic, 1); (proof_pool_value_no_panic, 1);
    (proof_flush_available_no_panic, 1); (proof_lp_rounding_favors_pool, 1);
    (proof_larger_deposit_more_lp, 1); (proof_larger_burn_more_collateral, 1);
    (proof_equal_deposits_equal_lp, 1); (proof_full_burn_bounded, 1);
    (proof_partial_less_than_full, 1); (proof_flush_preserves_value, 1);
    (proof_flush_bounded, 1); (proof_flush_max_then_zero, 1);
    (proof_pool_value_correctness, 1); (proof_deposit_increases_value, 1);
    (proof_flush_return_conservation, 2); (proof_returns_increase_value, 1);
    (proof_zero_deposit_zero_lp, 1); (proof_zero_burn_zero_col, 1);
    (proof_cooldown_no_panic, 1); (proof_cooldown_not_immediate, 1);
    (proof_cooldown_exact_boundary, 1); (proof_cap_zero_uncapped, 1);
    (proof_cap_at_boundary, 1); (proof_cap_above_boundary, 1);
    (proof_c9_orphaned_value_blocked, 1); (proof_c9_valueless_lp_blocked, 1);
    (proof_c9_true_first_depositor, 1); (proof_flush_reduces_value_exactly, 1);
    (proof_determinism_across_states, 1); (proof_pool_value_with_flush_no_panic, 1);
    (proof_exceeds_cap_no_panic, 1); (proof_roundtrip_under_pool_value_change, 1);
    (proof_no_inflation_attack, 1); (proof_cooldown_boundary_iff, 2);
    (proof_flush_conservation_lp_value, 1); (proof_deposit_withdraw_no_inflation_inductive, 1);
    (proof_two_depositors_conservation_inductive, 1); (proof_distribute_loss_conservation, 1);
    (proof_distribute_loss_junior_first, 1); (proof_distribute_fees_conservation, 1);
    (proof_distribute_fees_no_senior_all_to_junior, 1); (proof_subpool_deposit_orphan_blocked, 0);
    (proof_subpool_first_deposit_one_to_one, 1); (proof_subpool_deposit_withdraw_no_profit, 1);
    (proof_senior_balance_never_underflows, 1); (proof_tranche_decomposition, 1);
    (proof_169_mode1_no_false_underflow_brick, 1);
    (proof_161_recovery_never_windfalls_protected_senior, 2) ]%nat.
