(* ===== verification/KaniChecks.v ===== *)
(** * The Kani harnesses hold (kani-proofs/src/lib.rs, mod proofs)

    What the model checker is asked to establish, proved: no input makes a harness
    of KaniHarness.v panic, and each [cover!] is reached by some input. The first
    goes through a weakest precondition for checks, [verified], which the tactic
    [check] computes down to arithmetic goals. *)

From S2P Require Import Prelude Math Checks KaniMirror KaniHarness.

(** ** Weakest preconditions *)

(** [verified m Q]: for every input, [m] does not panic, and what it returns
    satisfies [Q]. *)
Fixpoint verified {A} (m : Check A) (Q : A -> Prop) : Prop :=
  match m with
  | Ret a => Q a
  | Any k => forall x, u32 x -> verified (k x) Q
  | Cover _ _ m => verified m Q
  | Skip => True
  | Panic => False
  end.

(** [verified] is what execution observes. *)
Lemma verified_run {A} (m : Check A) Q hits inputs :
  verified m Q -> Forall u32 inputs -> run_check hits inputs m <> Failed.
Proof.
  revert hits inputs. induction m as [a|k IH|n b m IH| |]; intros hits inputs Hm Hi; cbn in *;
    try done.
  - destruct Hi as [|x inputs Hx Hi]; [done|]. by apply IH; [apply Hm|].
  - by apply IH.
Qed.

Section Rules.
Context {A B : Type}.
Implicit Types (m : Check A) (f : A -> Check B) (Q : A -> Prop) (b : bool).

Lemma verified_bind m f (P : B -> Prop) :
  verified m (fun a => verified (f a) P) -> verified (m ≫= f) P.
Proof. induction m as [a|k IH|n b m IH| |]; intros H; cbn in *; auto. Qed.

Lemma verified_or_return o Q : (forall a, o = Some a -> Q a) -> verified (or_return o) Q.
Proof. destruct o; cbn; auto. Qed.

Lemma verified_unwrap o Q : (exists a, o = Some a /\ Q a) -> verified (unwrap o) Q.
Proof. intros (a & -> & H). done. Qed.

Lemma verified_if_some (o : option A) (k : A -> Check ()) P :
  (forall a, o = Some a -> verified (k a) P) -> P () -> verified (if_some o k) P.
Proof. destruct o; cbn; auto. Qed.

Lemma verified_if_both (o o' : option A) (k : A -> A -> Check ()) P :
  (forall a a', o = Some a -> o' = Some a' -> verified (k a a') P) -> P () ->
  verified (if_both o o' k) P.
Proof. destruct o, o'; cbn; auto. Qed.

Lemma verified_if b m m' Q :
  (b = true -> verified m Q) -> (b = false -> verified m' Q) -> verified (if b then m else m') Q.
Proof. destruct b; auto. Qed.
End Rules.

Lemma verified_any Q : (forall x, u32 x -> Q x) -> verified any Q.
Proof. auto. Qed.

Lemma as_i32_range x : u32 x -> -2147483648 <= as_i32 x <= 2147483647.
Proof. unfold fits, U32_MAX, as_i32. intros. destruct (Z.leb_spec x 2147483647); lia. Qed.

Lemma verified_any_i32 Q :
  (forall x, -2147483648 <= x <= 2147483647 -> Q x) -> verified any_i32 Q.
Proof. intros H x Hx. apply H. by apply as_i32_range. Qed.

Lemma verified_assume b Q : (b = true -> Q ()) -> verified (assume b) Q.
Proof. destruct b; cbn; auto. Qed.

Lemma verified_assert b Q : b = true -> Q () -> verified (assert b) Q.
Proof. intros ->. done. Qed.

Lemma verified_cover n b Q : Q () -> verified (cover n b) Q.
Proof. done. Qed.

Lemma verified_positive o (Q : Z -> Prop) :
  (forall a, o = Some a -> 0 < a -> Q a) -> verified (positive_or_return o) Q.
Proof.
  destruct o as [a|]; cbn; [|done]. destruct (Z.ltb_spec 0 a); cbn; auto.
Qed.

Lemma verified_add m a b (Q : Z -> Prop) : a + b <= m -> (a + b <= m -> Q (a + b)) ->
  verified (add_u m a b) Q.
Proof. unfold add_u. intros H HQ. rewrite (proj2 (Z.leb_le _ _) H). by apply HQ. Qed.

Lemma verified_mul m a b (Q : Z -> Prop) : a * b <= m -> (a * b <= m -> Q (a * b)) ->
  verified (mul_u m a b) Q.
Proof. unfold mul_u. intros H HQ. rewrite (proj2 (Z.leb_le _ _) H). by apply HQ. Qed.

Lemma verified_sub a b (Q : Z -> Prop) : b <= a -> (b <= a -> Q (a - b)) -> verified (sub_u a b) Q.
Proof. unfold sub_u. intros H HQ. rewrite (proj2 (Z.leb_le _ _) H). by apply HQ. Qed.

Lemma verified_add_i32 a b (Q : Z -> Prop) :
  -2147483648 <= a + b <= 2147483647 -> Q (a + b) -> verified (add_i32 a b) Q.
Proof.
  unfold add_i32. intros [H1 H2]. by rewrite (proj2 (Z.leb_le _ _) H1), (proj2 (Z.leb_le _ _) H2).
Qed.

(** ** Automation *)

(** Boolean goals as arithmetic. *)
Ltac goal_bool :=
  repeat match goal with
  | |- (_ && _)%bool = true => apply andb_true_iff; split
  | |- negb _ = true => apply negb_true_iff
  | |- (_ <? _) = true => apply Z.ltb_lt
  | |- (_ <=? _) = true => apply Z.leb_le
  | |- (_ =? _) = true => apply Z.eqb_eq
  | |- (_ <? _) = false => apply Z.ltb_ge
  | |- (_ <=? _) = false => apply Z.leb_gt
  | |- opt_eqb _ _ = true => apply bool_decide_eq_true_2
  end.

(** Linear goals of a check, widths and guards included. *)
Ltac check_lia :=
  bool_prop; goal_bool;
  unfold fits, U32_MAX, U64_MAX, VIRTUAL_ASSETS, VIRTUAL_SHARES, saturating_sub,
    saturating_add in *; lia.

(** ** The mirror's prices, without division *)

Lemma kani_lp_bounds s v a lp :
  u32 s -> u32 v -> u32 a -> kani_calc_lp_for_deposit s v a = Some lp ->
  u32 lp /\
  (s = 0 /\ v = 0 /\ lp = a \/
   0 < s /\ 0 < v /\ lp * (v + 1) <= a * (s + 1) < (lp + 1) * (v + 1)).
Proof.
  intros Hs Hv Ha H. apply kani_calc_lp_for_deposit_Some in H; [|done..].
  destruct H as [(-> & -> & ->)|(? & ? & -> & ?)]; [split; [done|by left]|].
  unfold fits in *.
  pose proof (Z.div_pos (a * (s + 1)) (v + 1) ltac:(lia) ltac:(lia)).
  pose proof (Z.div_mod (a * (s + 1)) (v + 1) ltac:(lia)).
  pose proof (Z.mod_pos_bound (a * (s + 1)) (v + 1) ltac:(lia)).
  split; [lia|]. right. lia.
Qed.

Lemma kani_collateral_bounds s v l c :
  u32 s -> u32 v -> u32 l -> kani_calc_collateral_for_withdraw s v l = Some c ->
  0 < s /\ u32 c /\ c * (s + 1) <= l * (v + 1) < (c + 1) * (s + 1).
Proof.
  intros Hs Hv Hl H. apply kani_calc_collateral_Some in H as (? & -> & ?); [|done..].
  unfold fits in *.
  pose proof (Z.div_pos (l * (v + 1)) (s + 1) ltac:(lia) ltac:(lia)).
  pose proof (Z.div_mod (l * (v + 1)) (s + 1) ltac:(lia)).
  pose proof (Z.mod_pos_bound (l * (v + 1)) (s + 1) ltac:(lia)). lia.
Qed.

Lemma kani_lp_first a : kani_calc_lp_for_deposit 0 0 a = Some a.
Proof. done. Qed.

(** Two operands of [n] bits mint less than half of [2 ^ 2n]. *)
Lemma kani_lp_half n s v a lp :
  0 < s -> s <= n -> 0 < v -> 0 <= a <= n -> 0 <= lp -> lp * (v + 1) <= a * (s + 1) ->
  2 * lp <= n * (n + 1).
Proof. intros. nia. Qed.

(** The value of a pool with flushes, when it has one. *)
Lemma kani_flush_value_Some d w f r x :
  kani_pool_value_with_flush d w f r = Some x <->
  x = d - w - f + r /\ w <= d /\ f <= d - w /\ d - w - f + r <= U32_MAX.
Proof.
  unfold kani_pool_value_with_flush. rewrite bind_Some. setoid_rewrite bind_Some.
  setoid_rewrite checked_sub_Some. setoid_rewrite checked_add_Some. split.
  - intros (h & [-> ?] & k & [-> ?] & -> & ?). lia.
  - intros (-> & ? & ? & ?). exists (d - w). split; [lia|]. exists (d - w - f). lia.
Qed.

(** At equal supply and value a price is the amount itself. *)
Lemma kani_lp_par a : u32 a -> 0 < a -> kani_calc_lp_for_deposit a a a = Some a.
Proof.
  intros Ha Hp. apply kani_calc_lp_for_deposit_Some; [done..|]. right.
  unfold fits in *. rewrite Z.div_mul by lia. lia.
Qed.

Lemma kani_collateral_par a : u32 a -> 0 < a -> kani_calc_collateral_for_withdraw a a a = Some a.
Proof.
  intros Ha Hp. apply kani_calc_collateral_Some; [done..|].
  unfold fits in *. rewrite Z.div_mul by lia. lia.
Qed.

(** [unwrap] of a price or a value that exists. *)
Lemma verified_unwrap_first a (Q : Z -> Prop) :
  Q a -> verified (unwrap (kani_calc_lp_for_deposit 0 0 a)) Q.
Proof. done. Qed.

Lemma verified_unwrap_par_lp a (Q : Z -> Prop) :
  u32 a -> 0 < a -> Q a -> verified (unwrap (kani_calc_lp_for_deposit a a a)) Q.
Proof. intros. by rewrite kani_lp_par. Qed.

Lemma verified_unwrap_par_collateral a (Q : Z -> Prop) :
  u32 a -> 0 < a -> Q a -> verified (unwrap (kani_calc_collateral_for_withdraw a a a)) Q.
Proof. intros. by rewrite kani_collateral_par. Qed.

Lemma verified_unwrap_value d w (Q : Z -> Prop) :
  w <= d -> Q (d - w) -> verified (unwrap (kani_pool_value d w)) Q.
Proof.
  intros H HQ. apply verified_unwrap. exists (d - w). split; [|done].
  by apply checked_sub_Some.
Qed.

Lemma verified_unwrap_flush d w f r (Q : Z -> Prop) :
  w <= d /\ f <= d - w /\ d - w - f + r <= U32_MAX -> Q (d - w - f + r) ->
  verified (unwrap (kani_pool_value_with_flush d w f r)) Q.
Proof.
  intros H HQ. apply verified_unwrap. exists (d - w - f + r). split; [|done].
  by apply kani_flush_value_Some.
Qed.

(** The weakest precondition of a harness, down to the arithmetic of its
    assertions; the linear goals are closed. *)
Ltac check_step :=
  lazymatch goal with
  | |- verified (mbind _ _) _ => apply verified_bind
  | |- verified any _ => apply verified_any; intros ? ?
  | |- verified any_i32 _ => apply verified_any_i32; intros ? ?
  | |- verified (assume _) _ => apply verified_assume; intros ?
  | |- verified (assert _) _ => apply verified_assert; [try check_lia|]
  | |- verified (cover _ _) _ => apply verified_cover
  | |- verified (or_return _) _ => apply verified_or_return; intros ? ?
  | |- verified (positive_or_return _) _ => apply verified_positive; intros ? ? ?
  | |- verified (if_some _ _) _ => apply verified_if_some; [intros ? ?|]
  | |- verified (if_both _ _ _) _ => apply verified_if_both; [intros ? ? ? ?|]
  | |- verified (if _ then _ else _) _ => apply verified_if; intros ?
  | |- verified (add_u _ _ _) _ => apply verified_add; [try check_lia|intros ?]
  | |- verified (mul_u _ _ _) _ => apply verified_mul; [try check_lia|intros ?]
  | |- verified (sub_u _ _) _ => apply verified_sub; [try check_lia|intros ?]
  | |- verified (unwrap (kani_calc_lp_for_deposit 0 0 _)) _ => apply verified_unwrap_first
  | |- verified (unwrap (kani_calc_lp_for_deposit ?a ?a ?a)) _ =>
      apply verified_unwrap_par_lp; [check_lia..|]
  | |- verified (unwrap (kani_calc_collateral_for_withdraw ?a ?a ?a)) _ =>
      apply verified_unwrap_par_collateral; [check_lia..|]
  | |- verified (unwrap (kani_pool_value _ _)) _ => apply verified_unwrap_value; [check_lia|]
  | |- verified (unwrap (kani_pool_value_with_flush _ _ _ _)) _ =>
      apply verified_unwrap_flush; [check_lia|]
  | |- verified (add_i32 _ _) _ => apply verified_add_i32; [try check_lia|]
  | |- verified (rounding_favors_pool _ _ _ _) _ => unfold rounding_favors_pool
  | |- verified (Ret _) _ => cbn [verified]
  | |- True => exact I
  end.
Ltac check := repeat (check_step; cbv beta zeta).
Ltac open_check := lazymatch goal with |- verified ?h _ => unfold h end; check.

(** Replaces the priced amounts of the context by their bounds. *)
Ltac kani_facts :=
  repeat match goal with
  | H : kani_calc_lp_for_deposit _ _ _ = Some _ |- _ =>
      apply kani_lp_bounds in H;
      [destruct H as [? [H|H]]; [try (exfalso; check_lia)|]|check_lia..]
  | H : kani_calc_collateral_for_withdraw _ _ _ = Some _ |- _ =>
      apply kani_collateral_bounds in H; [destruct H as (? & ? & H)|check_lia..]
  | H : kani_pool_value_with_flush _ _ _ _ = Some _ |- _ => apply kani_flush_value_Some in H
  | H : kani_total_pool_value_mode0 _ _ _ _ = Some _ |- _ => apply kani_flush_value_Some in H
  | H : kani_pool_value _ _ = Some _ |- _ => apply checked_sub_Some in H
  | H : checked_add _ _ _ = Some _ |- _ => apply checked_add_Some in H
  | H : checked_sub _ _ = Some _ |- _ => apply checked_sub_Some in H
  end; destruct_and?; subst; bool_prop; unfold fits in *.

(** ** Pricing arguments the harnesses share *)

Section Pricing.
Implicit Types s v a l lp c : Z.

Lemma floor_mono x y q c c' : 0 < q -> x <= y -> c * q <= x -> y < (c' + 1) * q -> c <= c'.
Proof. intros. assert (c < c' + 1) by (apply (Z.mul_lt_mono_pos_r q); lia). lia. Qed.

(** Shares just minted redeem for at most what they cost, unless the value rose. *)
Lemma round_trip_le s v v' a lp c :
  0 < s -> 0 < v -> 0 <= a -> 0 <= lp -> v' <= v + a ->
  lp * (v + 1) <= a * (s + 1) -> c * (s + lp + 1) <= lp * (v' + 1) -> c <= a.
Proof.
  intros. assert (lp * (v' + 1) <= a * (s + lp + 1)) by nia.
  apply (Z.mul_le_mono_pos_r _ _ (s + lp + 1)); lia.
Qed.

(** A redemption is within the value, all shares or fewer. *)
Lemma redeem_le s v l c : 0 <= v -> l <= s -> 0 < s -> c * (s + 1) <= l * (v + 1) -> c <= v.
Proof.
  intros. assert (l * (v + 1) <= s * (v + 1)) by (apply Z.mul_le_mono_nonneg_r; lia).
  apply Z.lt_succ_r. apply (Z.mul_lt_mono_pos_r (s + 1)); lia.
Qed.

(** A redemption at a price that has not fallen. *)
Lemma redeem_mono s v s' v' l c c' :
  0 <= l -> 0 <= s -> 0 <= s' -> price_le v s v' s' ->
  c * (s + 1) <= l * (v + 1) -> l * (v' + 1) < (c' + 1) * (s' + 1) -> c <= c'.
Proof.
  unfold price_le. intros Hl Hs Hs' Hp Hc Hc'.
  assert (c * (s + 1) * (s' + 1) <= l * (v + 1) * (s' + 1)) by (apply Z.mul_le_mono_nonneg_r; lia).
  assert (l * ((v + 1) * (s' + 1)) <= l * ((v' + 1) * (s + 1)))
    by (apply Z.mul_le_mono_nonneg_l; lia).
  assert (l * (v' + 1) * (s + 1) < (c' + 1) * (s' + 1) * (s + 1))
    by (apply Z.mul_lt_mono_pos_r; lia).
  assert (c < c' + 1); [|lia].
  apply (Z.mul_lt_mono_pos_r ((s + 1) * (s' + 1))); [nia|]. nia.
Qed.

Lemma mint_price_le s v a lp : lp * (v + 1) <= a * (s + 1) -> price_le v s (v + a) (s + lp).
Proof. unfold price_le. lia. Qed.

Lemma burn_price_le s v l c : c * (s + 1) <= l * (v + 1) -> price_le v s (v - c) (s - l).
Proof. unfold price_le. lia. Qed.

Lemma gain_price_le s v x : 0 <= s -> 0 <= x -> price_le v s (v + x) s.
Proof. unfold price_le. intros. nia. Qed.

(** A second deposit mints no more than it would have at the first price. *)
Lemma mint_at_old_price s v s1 v1 b lp :
  0 <= b -> 0 <= v -> 0 <= v1 -> price_le v s v1 s1 ->
  lp * (v1 + 1) <= b * (s1 + 1) -> lp * (v + 1) <= b * (s + 1).
Proof.
  unfold price_le. intros Hb Hv Hv1 Hp Hl.
  assert (lp * (v1 + 1) * (v + 1) <= b * (s1 + 1) * (v + 1)) by (apply Z.mul_le_mono_nonneg_r; lia).
  assert (b * ((v + 1) * (s1 + 1)) <= b * ((v1 + 1) * (s + 1)))
    by (apply Z.mul_le_mono_nonneg_l; lia).
  apply (Z.mul_le_mono_pos_r _ _ (v1 + 1)); nia.
Qed.

(** Two depositors, whatever was gained in between, leave the first value. *)
Lemma two_redemptions_le s v s2 v2 l1 l2 c1 c2 :
  0 <= s -> 0 <= l1 -> 0 <= l2 -> s2 = s + l1 + l2 -> price_le v s v2 s2 ->
  c1 * (s2 + 1) <= l1 * (v2 + 1) -> c2 * (s2 - l1 + 1) <= l2 * (v2 - c1 + 1) ->
  v <= v2 - c1 - c2.
Proof.
  intros Hs H1 H2 -> Hp Hc1%burn_price_le Hc2%burn_price_le.
  replace (s + l1 + l2 - l1 - l2) with s in Hc2 by ring.
  assert (price_le v s (v2 - c1 - c2) s) as Hf.
  { eapply price_le_trans; [| | |exact Hp|eapply price_le_trans; [| | |exact Hc1|exact Hc2]]; lia. }
  unfold price_le in Hf. apply Z.mul_le_mono_pos_r in Hf; lia.
Qed.

(** A flush lowers a holder's quote, by no more than itself. *)
Lemma flush_quote s v f c c' :
  0 < s -> 0 <= f -> c * (s + 1) <= s * (v + 1) < (c + 1) * (s + 1) ->
  c' * (s + 1) <= s * (v - f + 1) < (c' + 1) * (s + 1) -> c' <= c /\ c - c' <= f.
Proof.
  intros Hs Hf [Hc1 Hc2] [Hd1 Hd2]. split; [apply (floor_mono (s * (v - f + 1)) (s * (v + 1)) (s + 1)); nia|].
  assert ((c - c' - 1) * (s + 1) < f * (s + 1)) by nia.
  assert (c - c' - 1 < f) by (apply (Z.mul_lt_mono_pos_r (s + 1)); lia). lia.
Qed.
End Pricing.

(** The fee split at the mirror's scale: defined, and conservative. *)
Lemma kani_distribute_fees_total j s m f :
  0 <= j <= 65535 -> 0 <= s <= 65535 -> 0 < m <= 50000 -> 0 <= f <= 65535 ->
  exists jf sf, kani_distribute_fees j s m f = Some (jf, sf) /\
    0 <= jf /\ 0 <= sf /\ jf + sf <= f /\
    (0 < j \/ 0 < s -> jf + sf = f) /\ (0 < j -> s = 0 -> jf = f).
Proof.
  intros Hj Hs Hm Hf. unfold kani_distribute_fees, checked_mul, checked_add.
  destruct (Z.eqb_spec f 0); [exists 0, 0; split; [done|lia]|].
  destruct (Z.eqb_spec (j + s) 0); [exists 0, 0; split; [done|lia]|].
  assert (0 <= j * m <= 65535 * 50000) by nia.
  assert (0 < j * m + s * 10000 <= U64_MAX) by (unfold U64_MAX; nia).
  assert (f * (j * m) <= U64_MAX) by (unfold U64_MAX; nia).
  repeat (rewrite (proj2 (Z.leb_le _ _)) by (unfold U64_MAX in *; lia); cbn [mbind option_bind]).
  rewrite (proj2 (Z.eqb_neq (j * m + s * 10000) 0)) by lia.
  set (q := f * (j * m) / (j * m + s * 10000)).
  assert (0 <= q) by (apply Z.div_pos; nia).
  assert (q <= f) by (apply Z.div_le_upper_bound; nia).
  exists (Z.min q f), (saturating_sub f (Z.min q f)). unfold saturating_sub.
  split_and!; try lia; [done|]. intros Hp ->.
  assert (q = f); [|lia]. unfold q. rewrite Z.mul_0_l, Z.add_0_r. apply Z.div_mul. nia.
Qed.

Lemma kani_lp_orphan v a : 0 < v -> kani_calc_lp_for_deposit 0 v a = None.
Proof.
  intros. unfold kani_calc_lp_for_deposit. by rewrite (proj2 (Z.eqb_neq v 0)) by lia.
Qed.

Lemma kani_lp_valueless s a : 0 < s -> kani_calc_lp_for_deposit s 0 a = None.
Proof.
  intros. unfold kani_calc_lp_for_deposit. rewrite (proj2 (Z.eqb_neq s 0)) by lia. done.
Qed.

(** The functions without products are case distinctions. *)
Ltac kani_cases :=
  unfold kani_flush_available, kani_cooldown_elapsed, kani_exceeds_cap, kani_pool_inv,
    kani_pool_value, kani_effective_junior_balance, kani_senior_balance, kani_senior_balance_rl,
    kani_total_pool_value_mode1_rl_i128, kani_total_pool_value_mode0_rl,
    kani_total_pool_value_mode0, kani_distribute_loss, checked_add, checked_sub, is_none,
    saturating_sub, saturating_add, as_u32 in *;
  repeat (match goal with
  | |- context [if ?a <=? ?b then _ else _] => destruct (Z.leb_spec a b)
  | |- context [if ?a <? ?b then _ else _] => destruct (Z.ltb_spec a b)
  | |- context [if ?a =? ?b then _ else _] => destruct (Z.eqb_spec a b)
  | H : context [if ?a <=? ?b then _ else _] |- _ => destruct (Z.leb_spec a b)
  | H : context [if ?a =? ?b then _ else _] |- _ => destruct (Z.eqb_spec a b)
  end; cbn [mbind option_bind negb orb] in *).
Ltac kani_done := simplify_eq; first [done|check_lia|exfalso; check_lia].

Lemma as_i32_small x : x <= 255 -> as_i32 x = x.
Proof. unfold as_i32. intros. by rewrite (proj2 (Z.leb_le _ _)) by lia. Qed.

(** Within the principal, the junior tranche is worth its balance less the net
    loss. *)
Lemma kani_effective_spec d w f r j :
  0 <= w <= d -> d <= U32_MAX -> 0 <= f -> 0 <= r -> 0 <= j <= d - w ->
  kani_effective_junior_balance d w f r j = Z.max 0 (j - Z.max 0 (f - r)).
Proof. unfold U32_MAX. intros. kani_cases; unfold U64_MAX in *; lia. Qed.

(** The senior value is what the junior's worth leaves of the pool's. *)
Lemma kani_senior_Some d w f r j x :
  kani_senior_balance d w f r j = Some x <->
  0 <= x /\
  kani_total_pool_value_mode0 d w f r = Some (x + kani_effective_junior_balance d w f r j).
Proof.
  unfold kani_senior_balance. rewrite bind_Some. setoid_rewrite checked_sub_Some. split.
  - intros (v & -> & -> & ?). split; [lia|]. f_equal. lia.
  - intros [? ->]. eexists. split; [done|]. lia.
Qed.

(** ** The harnesses that need an argument *)

Lemma proof_deposit_withdraw_no_inflation_ok : verified proof_deposit_withdraw_no_inflation (fun _ => True).
Proof.
  open_check; kani_facts.
  - pose proof (kani_lp_half 65535 x x0 x1 a). check_lia.
  - goal_bool. apply (round_trip_le x x0 (x0 + x1) x1 a a0); check_lia.
Qed.

Lemma proof_two_depositors_conservation_ok : verified proof_two_depositors_conservation (fun _ => True).
Proof.
  open_check; kani_facts.
  - pose proof (kani_lp_half 65535 x (x + x1) x0 a). check_lia.
  - apply (redeem_le (x + a) (x + x1 + x0) x); check_lia.
  - check_lia.
  - goal_bool. pose proof (redeem_le (x + a - x) (x + x1 + x0 - a0) a a1). check_lia.
Qed.

Lemma proof_no_dilution_ok : verified proof_no_dilution (fun _ => True).
Proof.
  open_check; kani_facts.
  - pose proof (kani_lp_half 65535 x x0 x1 a). check_lia.
  - pose proof (mint_at_old_price x x0 (x + a) (x0 + x1) x2 a1 ltac:(lia) ltac:(lia) ltac:(lia)
                  (mint_price_le x x0 x1 a ltac:(lia)) ltac:(lia)).
    pose proof (kani_lp_half 65535 x x0 x1 a). pose proof (kani_lp_half 65535 x x0 x2 a1).
    check_lia.
  - goal_bool. apply (redeem_mono (x + a) (x0 + x1) (x + a + a1) (x0 + x1 + x2) a);
      try check_lia. by apply mint_price_le.
Qed.

Lemma proof_lp_deposit_overflow_guard_ok : verified proof_lp_deposit_overflow_guard (fun _ => True).
Proof.
  open_check; kani_facts; try check_lia; check; unfold U64_MAX, VIRTUAL_ASSETS, VIRTUAL_SHARES in *; nia.
Qed.

Lemma proof_overflow_guard_fires_concrete_ok : verified proof_overflow_guard_fires_concrete (fun _ => True).
Proof.
  open_check; by vm_compute.
Qed.

Lemma proof_lp_rounding_favors_pool_ok : verified proof_lp_rounding_favors_pool (fun _ => True).
Proof.
  open_check; kani_facts; try check_lia; check; unfold U64_MAX, VIRTUAL_ASSETS, VIRTUAL_SHARES in *; nia.
Qed.

Lemma proof_larger_deposit_more_lp_ok : verified proof_larger_deposit_more_lp (fun _ => True).
Proof.
  open_check; kani_facts. goal_bool. apply (floor_mono (x1 * (x + 1)) (x2 * (x + 1)) (x0 + 1)); nia.
Qed.

Lemma proof_larger_burn_more_collateral_ok : verified proof_larger_burn_more_collateral (fun _ => True).
Proof.
  open_check; kani_facts. goal_bool. apply (floor_mono (x1 * (x0 + 1)) (x2 * (x0 + 1)) (x + 1)); nia.
Qed.

Lemma proof_equal_deposits_equal_lp_ok : verified proof_equal_deposits_equal_lp (fun _ => True).
Proof.
  open_check; kani_facts; try check_lia; goal_bool; nia.
Qed.

Lemma proof_full_burn_bounded_ok : verified proof_full_burn_bounded (fun _ => True).
Proof.
  open_check; kani_facts. goal_bool. apply (redeem_le x x0 x); lia.
Qed.

Lemma proof_partial_less_than_full_ok : verified proof_partial_less_than_full (fun _ => True).
Proof.
  open_check; kani_facts. goal_bool. apply (floor_mono (x1 * (x0 + 1)) (x * (x0 + 1)) (x + 1)); nia.
Qed.

Lemma proof_pool_value_correctness_ok : verified proof_pool_value_correctness (fun _ => True).
Proof.
  open_check; kani_cases; bool_prop; try (exfalso; check_lia); [done|by apply bool_decide_eq_true_2].
Qed.

Lemma proof_deposit_increases_value_ok : verified proof_deposit_increases_value (fun _ => True).
Proof.
  open_check; kani_facts; check; check_lia.
Qed.

Lemma proof_zero_deposit_zero_lp_ok : verified proof_zero_deposit_zero_lp (fun _ => True).
Proof.
  open_check; kani_facts; goal_bool; nia.
Qed.

Lemma proof_zero_burn_zero_col_ok : verified proof_zero_burn_zero_col (fun _ => True).
Proof.
  open_check; kani_facts; goal_bool; nia.
Qed.

Lemma proof_c9_orphaned_value_blocked_ok : verified proof_c9_orphaned_value_blocked (fun _ => True).
Proof.
  open_check. by rewrite kani_lp_orphan by check_lia.
Qed.

Lemma proof_c9_valueless_lp_blocked_ok : verified proof_c9_valueless_lp_blocked (fun _ => True).
Proof.
  open_check. by rewrite kani_lp_valueless by check_lia.
Qed.

Lemma proof_c9_true_first_depositor_ok : verified proof_c9_true_first_depositor (fun _ => True).
Proof.
  open_check. by apply bool_decide_eq_true_2.
Qed.

Lemma proof_roundtrip_under_pool_value_change_ok : verified proof_roundtrip_under_pool_value_change (fun _ => True).
Proof.
  open_check; bool_prop; rewrite ?as_i32_small in * by lia; try check_lia.
  - kani_facts. pose proof (kani_lp_half 255 x x0 x1 a). check_lia.
  - unfold as_u32 in *. rewrite wrap_small in * by check_lia. kani_facts. goal_bool.
    apply (round_trip_le x x0 (x0 + x1 + x2) x1 a a0); check_lia.
Qed.

Lemma proof_no_inflation_attack_ok : verified proof_no_inflation_attack (fun _ => True).
Proof.
  open_check; kani_facts.
  - pose proof (kani_lp_half 65535 x (x + x1) x0 a). check_lia.
  - apply orb_true_iff. left. goal_bool.
    assert (1 * (x + x1 + x0 + 1) <= a * (x + x1 + x0 + 1)) by (apply Z.mul_le_mono_nonneg_r; lia).
    assert (x0 * (x + 1) <= x0 * (x + x1 + 1)) by (apply Z.mul_le_mono_nonneg_l; lia).
    assert (a <= x0) by (apply (Z.mul_le_mono_pos_r _ _ (x + x1 + 1)); lia).
    assert (a0 <> 0) by (intros ->; lia). lia.
Qed.

Lemma proof_flush_conservation_lp_value_ok : verified proof_flush_conservation_lp_value (fun _ => True).
Proof.
  open_check; try check_lia.
  all: kani_facts; destruct (flush_quote x (x0 - x1 - 0 + 0) x2 a a');
    rewrite ?Z.sub_0_r, ?Z.add_0_r in *; check_lia.
Qed.

Lemma proof_deposit_withdraw_no_inflation_inductive_ok : verified proof_deposit_withdraw_no_inflation_inductive (fun _ => True).
Proof.
  open_check; kani_facts; try check_lia.
  - kani_cases; first [done|check_lia].
  - goal_bool. apply (round_trip_le x x0 (x0 + x1) x1 a a2); check_lia.
Qed.

Lemma proof_two_depositors_conservation_inductive_ok : verified proof_two_depositors_conservation_inductive (fun _ => True).
Proof.
  open_check; kani_facts. goal_bool.
  enough (x0 <= x0 + x1 + x3 + x2 - a6 - a9) by lia.
  apply (two_redemptions_le x x0 (x + a + a3) (x0 + x1 + x3 + x2) a a3); try lia.
  apply price_le_trans with (x0 + x1) (x + a); [lia..|by apply mint_price_le|].
  apply price_le_trans with (x0 + x1 + x3) (x + a); [lia..|apply gain_price_le; lia|].
  by apply mint_price_le.
Qed.

Lemma proof_distribute_loss_conservation_ok : verified proof_distribute_loss_conservation (fun _ => True).
Proof.
  open_check; kani_cases; check; check_lia.
Qed.

Lemma proof_distribute_loss_junior_first_ok : verified proof_distribute_loss_junior_first (fun _ => True).
Proof.
  open_check; kani_cases; check; check_lia.
Qed.

Lemma proof_distribute_fees_conservation_ok : verified proof_distribute_fees_conservation (fun _ => True).
Proof.
  open_check. bool_prop.
  destruct (kani_distribute_fees_total x x0 x1 x2) as (jf & sf & E & ? & ? & ? & Hall & _);
    [check_lia..|].
  apply verified_unwrap. exists (jf, sf). split; [exact E|]. check; try check_lia.
  all: bool_prop; goal_bool; apply Hall; by destruct_or?; bool_prop; auto.
Qed.

Lemma proof_distribute_fees_no_senior_all_to_junior_ok : verified proof_distribute_fees_no_senior_all_to_junior (fun _ => True).
Proof.
  open_check. bool_prop.
  destruct (kani_distribute_fees_total x 0 x0 x1) as (jf & sf & E & ? & ? & ? & _ & Hall);
    [check_lia..|].
  apply verified_unwrap. exists (jf, sf). split; [exact E|]. check.
Qed.

Lemma proof_subpool_deposit_orphan_blocked_ok : verified proof_subpool_deposit_orphan_blocked (fun _ => True).
Proof.
  open_check. unfold kani_calc_subpool_lp_for_deposit. by rewrite kani_lp_orphan by check_lia.
Qed.

Lemma proof_subpool_first_deposit_one_to_one_ok : verified proof_subpool_first_deposit_one_to_one (fun _ => True).
Proof.
  open_check. by apply bool_decide_eq_true_2.
Qed.

Lemma proof_subpool_deposit_withdraw_no_profit_ok : verified proof_subpool_deposit_withdraw_no_profit (fun _ => True).
Proof.
  open_check; unfold kani_calc_subpool_lp_for_deposit, kani_calc_subpool_collateral_for_withdraw in *; kani_facts.
  - pose proof (kani_lp_half 65535 x x0 x1 a). check_lia.
  - goal_bool. apply (round_trip_le x x0 (x0 + x1) x1 a a0); check_lia.
Qed.

Lemma proof_senior_balance_never_underflows_ok : verified proof_senior_balance_never_underflows (fun _ => True).
Proof.
  open_check; kani_facts; [rewrite kani_effective_spec by check_lia; check_lia|].
  rewrite (proj2 (kani_senior_Some x x0 x1 x2 x3
    (x - x0 - x1 + x2 - kani_effective_junior_balance x x0 x1 x2 x3))); [done|].
  split; [rewrite kani_effective_spec by check_lia; check_lia|].
  apply kani_flush_value_Some. lia.
Qed.

Lemma proof_tranche_decomposition_ok : verified proof_tranche_decomposition (fun _ => True).
Proof.
  open_check; kani_facts;
    (match goal with
     | H : kani_senior_balance _ _ _ _ _ = Some _ |- _ =>
         apply kani_senior_Some in H as (? & (? & _)%kani_flush_value_Some)
     end); check_lia.
Qed.

Lemma proof_169_mode1_no_false_underflow_brick_ok : verified proof_169_mode1_no_false_underflow_brick (fun _ => True).
Proof.
  open_check; bool_prop; unfold kani_total_pool_value_mode1_rl_i128, as_u32; cbv zeta.
  - rewrite (proj2 (Z.ltb_ge _ 0)), (proj2 (Z.ltb_ge U32_MAX _)) by lia. cbn [orb].
    apply bool_decide_eq_true_2. rewrite wrap_small by lia. done.
  - rewrite (proj2 (Z.ltb_lt _ 0)) by lia. done.
Qed.

Lemma proof_161_recovery_never_windfalls_protected_senior_ok : verified proof_161_recovery_never_windfalls_protected_senior (fun _ => True).
Proof.
  open_check; kani_facts; kani_cases; check; kani_facts; kani_cases; kani_done.
Qed.

#[local] Hint Resolve
  proof_deposit_withdraw_no_inflation_ok proof_two_depositors_conservation_ok proof_no_dilution_ok proof_lp_deposit_overflow_guard_ok proof_overflow_guard_fires_concrete_ok proof_lp_rounding_favors_pool_ok proof_larger_deposit_more_lp_ok proof_larger_burn_more_collateral_ok proof_equal_deposits_equal_lp_ok proof_full_burn_bounded_ok proof_partial_less_than_full_ok proof_pool_value_correctness_ok proof_deposit_increases_value_ok proof_zero_deposit_zero_lp_ok proof_zero_burn_zero_col_ok proof_c9_orphaned_value_blocked_ok proof_c9_valueless_lp_blocked_ok proof_c9_true_first_depositor_ok proof_roundtrip_under_pool_value_change_ok proof_no_inflation_attack_ok proof_flush_conservation_lp_value_ok proof_deposit_withdraw_no_inflation_inductive_ok proof_two_depositors_conservation_inductive_ok proof_distribute_loss_conservation_ok proof_distribute_loss_junior_first_ok proof_distribute_fees_conservation_ok proof_distribute_fees_no_senior_all_to_junior_ok proof_subpool_deposit_orphan_blocked_ok proof_subpool_first_deposit_one_to_one_ok proof_subpool_deposit_withdraw_no_profit_ok proof_senior_balance_never_underflows_ok proof_tranche_decomposition_ok proof_169_mode1_no_false_underflow_brick_ok proof_161_recovery_never_windfalls_protected_senior_ok : kani.

(** The others are decided by the shape of the mirror functions. *)
Ltac solve_check := open_check; kani_facts; try check_lia; kani_cases; kani_done.

Lemma harnesses_verified : Forall (fun h => verified h.1 (fun _ => True)) harnesses.
Proof.
  unfold harnesses.
  repeat (constructor; [cbn [fst]; first [by eauto 1 with kani nocore | solve_check]|]).
  constructor.
Qed.

(** ** The covers *)

(** For each harness, inputs that reach its covers, in order. *)
Definition cover_inputs : list (list (list Z)) :=
  [ [[10; 10; 5]]; [[7]]; [[5; 5; 1]]; [[10; 10; 5; 5]]; [[10; 2; 3]]; [[1; 1; 1]]; [[5; 5; 5]];
    []; [[1; 1; 1]]; [[1; 1]]; [[1; 1; 1]]; [[5; 5; 5]]; [[5; 5; 1; 2]]; [[5; 5; 1; 2]]; [[5]];
    [[5; 5]]; [[5; 5; 2]]; [[10; 2; 3; 1; 2]]; [[10; 2; 3]]; [[10; 2; 3]]; [[10; 2]];
    [[10; 2; 1]]; [[10; 2; 3; 3]; [10; 2; 3; 1]]; [[10; 2; 3; 1]]; [[5; 5]]; [[5; 5]];
    [[1; 1; 1]]; [[10; 5]]; [[10; 5]]; [[10; 5]]; [[10; 5]]; [[10; 5]]; [[5; 5]]; [[5; 5]]; [[5]];
    [[10; 2; 3]]; [[5]]; [[1; 1; 1; 1]]; [[1; 1; 1]]; [[10; 10; 5; 0]]; [[5; 5; 1]];
    [[10; 5; 15]; [10; 5; 14]]; [[10; 10; 2; 3]]; [[10; 10; 5]]; [[10; 10; 5; 5; 1]]; [[5; 5; 7]];
    [[5; 5; 3]]; [[5; 5; 10000; 3]]; [[5; 10000; 3]]; []; [[5]]; [[10; 10; 5]];
    [[10; 2; 3; 1; 4]]; [[10; 2; 3; 1; 4]]; [[5; 6; 0; 0; 2; 0]];
    [[10; 5; 3; 0]; [10; 5; 7; 1]] ].

Definition reaches (h : Check ()) (site : nat) (inputs : list Z) : Prop :=
  Forall u32 inputs /\ site ∈ hits_of (run_check [] inputs h).

#[global] Instance reaches_dec h site inputs : Decision (reaches h site inputs).
Proof. unfold reaches. apply _. Defined.

(** Every cover of the harness is reached by its own input. *)
Definition all_covered (h : Check () * nat) (ins : list (list Z)) : bool :=
  bool_decide (length ins = h.2 /\ Forall (fun x => reaches h.1 x.1 x.2) (zip (seq 0 h.2) ins)).

Lemma all_covered_site h n ins site :
  all_covered (h, n) ins = true -> (site < n)%nat -> exists inputs, reaches h site inputs.
Proof.
  intros [Hl Hr]%bool_decide_eq_true Hs. cbn [fst snd] in *.
  destruct (lookup_lt_is_Some_2 ins site ltac:(lia)) as [inputs Hi]. exists inputs.
  rewrite Forall_lookup in Hr. apply (Hr site (site, inputs)).
  apply lookup_zip_with_Some. exists site, inputs. split_and!; [done| |done].
  by rewrite lookup_seq_lt.
Qed.

Lemma harnesses_covered : forallb (fun x => all_covered x.1 x.2) (zip harnesses cover_inputs) = true.
Proof. by vm_compute. Qed.

(** C39: the Kani suite passes. None of the 56 harnesses over the mirror functions
    can panic, overflow or fail an assertion, for any 32-bit inputs; and each of
    their [cover!] conditions is reached by some input, so that no assertion is
    guarded by assumptions nothing meets. *)
Theorem kani_suite_passes h n :
  (h, n) ∈ harnesses ->
  (forall inputs, Forall u32 inputs -> run_check [] inputs h <> Failed) /\
  (forall site, (site < n)%nat -> exists inputs, reaches h site inputs).
Proof.
  intros [i Hi]%list_elem_of_lookup. split.
  - intros inputs Hin. apply (verified_run h (fun _ => True)); [|done].
    exact (Forall_lookup_1 _ _ _ _ harnesses_verified Hi).
  - intros site. assert (length harnesses = length cover_inputs) as Hlen by reflexivity.
    destruct (lookup_lt_is_Some_2 cover_inputs i) as [ins Hc].
    { rewrite <- Hlen. by apply lookup_lt_is_Some_1; eexists. }
    apply (all_covered_site h n ins). pose proof harnesses_covered as Ha.
    rewrite forallb_forall in Ha. apply (Ha ((h, n), ins)).
    apply list_elem_of_In, list_elem_of_lookup. exists i.
    apply lookup_zip_with_Some. by exists (h, n), ins.
Qed.

(** The inductive anti-inflation harness on a pool of 65535 shares worth 2, the
    steepest price it allows: it runs to its end, and its cover is reached. *)
Lemma kani_suite_passes_witness :
  run_check [] [65535; 2; 65535] proof_deposit_withdraw_no_inflation_inductive = Completed [0%nat] /\
  run_check [] [65535; 2; 65535] proof_deposit_withdraw_no_inflation_inductive <> Failed /\
  exists inputs, reaches proof_deposit_withdraw_no_inflation_inductive 0 inputs.
Proof.
  assert (Hin : (proof_deposit_withdraw_no_inflation_inductive, 1%nat) ∈ harnesses)
    by (apply (list_elem_of_lookup_2 _ 43); reflexivity).
  destruct (kani_suite_passes _ _ Hin) as [Hrun Hcov].
  split; [by vm_compute|]. split.
  - apply Hrun. repeat (constructor; [split; by vm_compute|]). constructor.
  - apply (Hcov 0%nat). constructor.
Defined.
