(* ===== verification/Holders.v ===== *)
(** * The holders

    What the records mean together: they account for every share, what they can
    be redeemed for is in the vault at the same time, nobody else's transaction
    touches them, and nothing leaves the vault or enters the share supply but
    through their owners and the admin. *)

From S2P Require Import Prelude Errors Math State PoolFacts Instruction Runtime SplToken Cpi Guards.
From S2P Require Import Fees Deposit Withdraw Insurance Admin Proxy Init Processor Ledger.
From S2P Require Import LedgerFacts LedgerInv Laws Backing BackingSteps BackingLp BackingInit Safety.
From S2P Require Import Sim SimLaws Scenario Run Frame Register Records.

(** ** What all holdings are quoted together *)

(** What a Withdraw of the whole holding would pay; nothing if it is refused. *)
Definition quoted (p : StakePool) (h : Holding) : Z :=
  match withdrawal_value p (fst h) (snd h) with Ok c => c | Err _ => 0 end.

Definition quoted_in (j : bool) (p : StakePool) (h : Holding) : Z :=
  if Bool.eqb (fst h) j then quoted p h else 0.

(** The shares and the value a tranche's quotes are taken from. *)
Definition sub_pool (p : StakePool) (j : bool) (shares value : Z) : Prop :=
  forall s c, u64 s -> withdrawal_value p j s = Ok c -> 0 <= c /\ c * (shares + 1) <= s * (value + 1).

Lemma plain_sub_pool p j :
  wf_pool p -> tranche_enabled p = false ->
  sub_pool p j (sp_total_lp_supply p) (Z.max 0 (raw_value p)).
Proof.
  intros Hp Ht s c Hs H. unfold withdrawal_value in H. rewrite Ht in H. cbn [andb] in H.
  apply ok_or_Ok in H. unfold pool_calc_collateral_for_withdraw in H.
  apply bind_Some in H as (v & Hv & H). apply raw_value_u64_bounds in Hv as [Hv <-].
  apply withdraw_rounds_down in H as (_ & ? & ?); [|by apply wf_totals|done|done].
  rewrite Z.max_r by width_lia. lia.
Qed.

Lemma junior_sub_pool p :
  wf_pool p -> tranche_enabled p = true ->
  sub_pool p true (junior_total_lp p) (effective_junior_balance p).
Proof.
  intros Hp Ht s c Hs H. unfold withdrawal_value in H. rewrite Ht in H. cbn [andb] in H.
  apply ok_or_Ok, withdraw_rounds_down in H as (_ & ? & ?);
    auto using effective_junior_balance_u64, u64_junior_total_lp. lia.
Qed.

Lemma senior_sub_pool p v :
  wf_pool p -> tranche_enabled p = true -> senior_balance p = Some v ->
  sub_pool p false (senior_total_lp p) v.
Proof.
  intros Hp Ht Hv s c Hs H. unfold withdrawal_value in H. rewrite Ht in H. cbn [andb] in H.
  rewrite Hv in H. apply bind_Ok in H as (? & [= <-] & H%ok_or_Ok).
  destruct (wf_totals _ Hp) as (_ & Us & _). pose proof (u64_junior_total_lp p Hp).
  apply withdraw_rounds_down in H as (_ & ? & ?); [lia| |by eapply senior_balance_u64|done].
  unfold senior_total_lp. width_lia.
Qed.

Section Quotes.
Context (p : StakePool) (m : gmap Pubkey Holding).
Context (Hm : forall k h, m !! k = Some h -> u64 (snd h)).

(** Quotes priced on a sub-pool fit in its value. *)
Lemma quotes_fit (f g : Holding -> Z) v :
  0 <= v -> 0 <= map_sum g m ->
  (forall k h, m !! k = Some h -> f h * (map_sum g m + 1) <= g h * (v + 1)) ->
  map_sum f m <= v.
Proof. intros Hv HS Hle%map_sum_scale. nia. Qed.

Lemma quoted_le j S v h :
  0 <= v -> u64 (snd h) -> sub_pool p j S v -> fst h = j ->
  quoted p h * (S + 1) <= snd h * (v + 1).
Proof.
  intros Hv Hu Hs Ej. unfold quoted. rewrite Ej. specialize (Hs (snd h)).
  destruct (withdrawal_value p j (snd h)) as [c|e]; [|width_lia]. by destruct (Hs c Hu eq_refl).
Qed.

Lemma quotes_of_tranche j v :
  0 <= v -> sub_pool p j (map_sum (tranche_shares j) m) v -> map_sum (quoted_in j p) m <= v.
Proof.
  intros Hv Hs. apply (quotes_fit _ (tranche_shares j)); [done| |].
  - apply map_sum_nonneg. intros k h Hk. unfold tranche_shares. pose proof (Hm k h Hk).
    destruct (Bool.eqb _ _); width_lia.
  - intros k h Hk. unfold quoted_in, tranche_shares.
    destruct (Bool.eqb (fst h) j) eqn:E; [|lia]. apply Bool.eqb_prop in E.
    eapply quoted_le; [done|by eapply Hm|done..].
Qed.

Lemma quotes_of_pool v :
  0 <= v -> (forall j, sub_pool p j (map_sum all_shares m) v) -> map_sum (quoted p) m <= v.
Proof.
  intros Hv Hs. apply (quotes_fit _ all_shares); [done| |].
  - apply map_sum_nonneg. intros k h Hk. unfold all_shares. pose proof (Hm k h Hk). width_lia.
  - intros k h Hk. eapply quoted_le; [done|by eapply Hm|apply Hs|done].
Qed.

Lemma quoted_split : map_sum (quoted p) m = map_sum (quoted_in false p) m + map_sum (quoted_in true p) m.
Proof.
  rewrite <- map_sum_add. apply map_sum_ext. intros k [[] s] _; unfold quoted_in; cbn; lia.
Qed.
End Quotes.

Section Holders.
Context {RT : Runtime} {BC : BuildConfig} {program_id : Pubkey} {RL : RuntimeLaws program_id}.
Context (pk : Pubkey).

Lemma holding_u64 w k h : world_ok w -> register program_id pk w !! k = Some h -> u64 (snd h).
Proof.
  intros Hw. destruct h as [j s]. intros (_ & _ & Hl & _ & _ & _ & <-)%register_Some.
  assert (wf_deposit (deposit_at k w)) as Hd.
  { apply wf_deposit_decode; [apply bytes_ok_slice, Hw|].
    rewrite length_slice; unfold STAKE_DEPOSIT_SIZE in *; lia. }
  destruct Hd. cbn [snd]. by wf_destruct.
Qed.

(** The accrual a withdrawal starts with leaves the share totals. *)
Lemma quotes_covered w p1 :
  kept program_id pk w -> ledger_accrue (pool_at pk w) (vault_amount pk w) = Ok p1 ->
  (tranche_enabled p1 = true -> senior_balance p1 <> None) ->
  map_sum (quoted p1) (register program_id pk w) <= vault_amount pk w.
Proof.
  intros [B T J O L C] Ha Hs. set (m := register program_id pk w).
  assert (Hm : forall k h, m !! k = Some h -> u64 (snd h))
    by (intros k h; apply holding_u64, B).
  pose proof (vault_amount_u64 pk w B) as Hv.
  destruct (ledger_accrue_ok _ _ _ (backed_wf _ _ B) Hv (bk_value _ _ _ B) Ha)
    as (W & _ & V & ET & EJ & _).
  unfold shares, shares_in in T, J. fold m in T, J. rewrite T in ET. rewrite J in EJ.
  destruct (tranche_enabled p1) eqn:E.
  - destruct (senior_balance p1) as [v|] eqn:Ev; [|by destruct (Hs eq_refl)].
    pose proof (senior_sub_pool p1 v W E Ev) as S0. pose proof (junior_sub_pool p1 W E) as S1.
    pose proof Ev as (pv & Hpv & Hsum & Hle)%senior_balance_Some.
    apply raw_value_u64_bounds in Hpv as [Hpv Epv].
    pose proof (effective_junior_balance_u64 p1 W). pose proof (shares_split program_id pk w) as Hsp.
    unfold shares, shares_in in Hsp. fold m in Hsp.
    unfold senior_total_lp in S0. rewrite ET, EJ in S0. rewrite EJ in S1.
    replace (saturating_sub (map_sum all_shares m) (map_sum (tranche_shares true) m))
      with (map_sum (tranche_shares false) m) in S0.
    2:{ enough (0 <= map_sum (tranche_shares false) m) by width_lia.
        apply map_sum_nonneg. intros k [[] s] Hk; cbn; [done|]. apply (Hm _ _ Hk). }
    rewrite quoted_split.
    pose proof (quotes_of_tranche p1 m Hm false v ltac:(lia) S0).
    pose proof (quotes_of_tranche p1 m Hm true (effective_junior_balance p1) ltac:(width_lia) S1). lia.
  - enough (map_sum (quoted p1) m <= Z.max 0 (raw_value p1)) by width_lia.
    apply quotes_of_pool; [done|lia|]. intros j. rewrite <- ET. by apply plain_sub_pool.
Qed.

(** The holding a Withdraw draws on. *)
Lemma withdraw_holding accounts data lp w w' :
  backed program_id pk w -> accepts program_id pk accounts data (Instruction.Withdraw lp) w w' ->
  exists user s clk c,
    let k := record_of program_id pk user in let j := is_junior_deposit (deposit_at k w) in
    signed accounts user /\ targets record_index accounts k /\ sd_user (deposit_at k w) = user /\
    register program_id pk w !! k = Some (j, s) /\ 0 < lp <= s /\ wf_clock clk /\
    ledger_step clk j (Instruction.Withdraw lp) (ledger_of pk w) = Ok (ledger_of pk w') /\
    vault_amount pk w' = vault_amount pk w - c.
Proof.
  intros B [Hkeys Hs Hd Hu Ht Hr]. pose proof (unpack_inv _ _ Hd Hu) as (Hlp & _).
  apply (process_dispatch _ _ _ _ _ Hu) in Hr. cbn [wf_instruction dispatch pool_index] in Hlp, Hr, Ht.
  pose proof (withdraw_traced _ _ _ _ _ Ht Hr) as (a & d0 & d1 & d2 & w1 & T).
  destruct (withdraw_inv pk w B accounts lp w' Hs Ht Hlp Hr)
    as [_ (a' & clk & d & e & c & Ha & Hsg & Hpda & Hc & -> & -> & _ & _ & _ & Hle & _ & Hst & Hv & _) Hacc].
  pose proof (wt_accounts _ _ _ _ _ _ _ _ _ _ T) as Ea. rewrite Ha in Ea. injection Ea as ->.
  destruct (Hacc a Ha) as (Nk & Hr1 & _).
  destruct (withdraw_record_after _ _ _ _ _ _ _ _ _ _ B (proj1 Hlp) Nk Hr1 T) as (_ & _ & _ & Hus & Hp).
  change (ai_key (wa_deposit_pda a) = record_of program_id pk (ai_key (wa_user a))) in Hpda.
  pose proof (withdraw_accounts_record _ _ Ha) as Hrec.
  pose proof (law_clock _ _ _ Hc) as Hclk.
  assert (Hpos : 0 < lp).
  { pose proof Hst as (Hpos & _)%withdraw_totals; [done|by eapply backed_wf|by eapply vault_amount_u64|apply B|done|done]. }
  exists (ai_key (wa_user a)), (sd_lp_amount (deposit_at (ai_key (wa_deposit_pda a)) w)), clk, c.
  cbn zeta. rewrite <- Hpda. destruct Hr1. split_and!; try done.
  - exists (wa_user a). pose proof Ha as (Hin & _)%withdraw_accounts_in. done.
  - apply register_Some. split_and!; first [done|lia].
Qed.

Lemma targets_eq n accounts k k' : targets n accounts k -> targets n accounts k' -> k = k'.
Proof. intros (x & Hx & <-) (y & Hy & <-). rewrite Hx in Hy. by injection Hy as ->. Qed.

(** The record a transaction writes is at the address of one of its signers. *)
Lemma written_record accounts data i w w' k :
  backed program_id pk w -> accepts program_id pk accounts data i w w' ->
  keeps_record i = true -> targets record_index accounts k ->
  exists user, signed accounts user /\ k = record_of program_id pk user.
Proof.
  intros B Ha Hi Hk. pose proof Ha as [Hkeys Hs Hd Hu Ht Hr].
  pose proof (unpack_inv _ _ Hd Hu) as (Hwf & _). apply (process_dispatch _ _ _ _ _ Hu) in Hr.
  assert (Hdep : forall amount j, deposition program_id pk w accounts i amount j w' ->
            exists user, signed accounts user /\ k = record_of program_id pk user).
  { intros amount j [_ (a & clk & d & e & m & Hac & Hsg & Hpda & _) _].
    rewrite (targets_eq _ _ _ _ Hk (deposit_accounts_record _ _ Hac)).
    exists (ai_key (da_user a)). split; [|done]. exists (da_user a).
    by pose proof Hac as (Hin & _)%deposit_accounts_in. }
  destruct i; try discriminate Hi; cbn [dispatch pool_index wf_instruction] in *.
  - eapply Hdep, deposit_inv; done.
  - destruct (withdraw_holding _ _ _ _ _ B Ha) as (user & s & clk & c & Hsg & Htg & _).
    exists user. split; [done|]. by eapply targets_eq.
  - eapply Hdep, deposit_junior_inv; done.
Qed.

(** What the steps that move no money out do to the vault and the supply. *)
Lemma ledger_step_custody p vault supply clk j i l' :
  wf_pool p -> u64 vault -> raw_value p <= vault -> wf_clock clk -> wf_instruction i ->
  ledger_step clk j i (mkLedger p vault supply) = Ok l' ->
  (vault <= lg_vault l' \/ (exists lp, i = Instruction.Withdraw lp) \/
   exists a, i = FlushToInsurance a) /\
  (lg_supply l' <= supply \/
   exists a, (i = Instruction.Deposit a \/ i = DepositJunior a) /\ lg_vault l' = vault + a).
Proof.
  intros Hp Hb Hv Hc Hi H. destruct (is_money i) eqn:Hm.
  2:{ destruct (ledger_step_books p vault supply Hp clk Hc j i l' Hi Hm H) as (_ & -> & ->).
      split; left; lia. }
  destruct i; try discriminate Hm; cbn [wf_instruction] in Hi.
  - cbn [ledger_step] in H.
    apply deposit_parts in H as (_ & _ & _ & p1 & lp & m & p3 & p4 & _ & _ & _ & _ & _ & _ & _ & _ & ->);
      [|done..]. cbn. split; [left; width_lia|right; eauto].
  - cbn [ledger_step] in H.
    apply withdraw_parts in H as (Hn & _ & p1 & c & p2 & p4 & _ & _ & _ & _ & _ & _ & _ & _ & ->); [|done..].
    cbn. split; [right; left; eauto|left; width_lia].
  - destruct (insurance_parts p vault supply Hp clk j _ _ l' Hi (or_introl eq_refl) H) as (_ & -> & _).
    split; [right; right; eauto|left; lia].
  - destruct (insurance_parts p vault supply Hp clk j _ _ l' Hi (or_intror (or_intror eq_refl)) H)
      as (_ & -> & _ & _ & _ & _ & _ & Ev & _ & Hr & _).
    destruct Hr as [V _]; [done|]. split; left; width_lia.
  - destruct (insurance_parts p vault supply Hp clk j _ _ l' Hi (or_intror (or_introl eq_refl)) H)
      as (_ & -> & _ & _ & _ & _ & _ & Ev & _ & Hr & _).
    destruct Hr as [V _]; [done|]. split; left; width_lia.
  - cbn [ledger_step] in H. unfold ledger_accrue_fees in H. apply ensure_Ok in H as [_ H].
    apply bind_Ok in H as (q & _ & [= <-]). cbn. split; left; lia.
  - cbn [ledger_step] in H. apply deposit_junior_parts in H as
      (_ & _ & _ & _ & p1 & lp & m & p2 & p3 & p4 & _ & _ & _ & _ & _ & _ & _ & _ & _ & _ & ->);
      [|done..]. cbn. split; [left; width_lia|right; eauto].
Qed.

(** ** The properties *)

(** C3: the deposit records account for every share. On any store a pool reaches
    from its InitPool by accepted transactions and by whatever else the chain does
    that respects the ownership of the records, the recorded total supply is the
    sum of the holdings of all the deposit records, the junior supply the sum of the
    junior ones and the senior supply of the others; the LP tokens in circulation
    never exceed it; and every holding is in its owner's own record account, owned
    by the program, initialised for this pool, positive, and junior only if the
    tranche is enabled. *)
Theorem records_account_for_every_share w :
  recorded program_id pk w ->
  let p := pool_at pk w in
  p.(sp_total_lp_supply) = shares program_id pk w /\
  junior_total_lp p = shares_in true program_id pk w /\
  senior_total_lp p = shares_in false program_id pk w /\
  0 <= mint_amount pk w <= shares program_id pk w /\
  (forall k j s, register program_id pk w !! k = Some (j, s) ->
     let d := deposit_at k w in
     k <> pk /\ acc_owner (get w k) = program_id /\ k = record_of program_id pk (sd_user d) /\
     sd_is_initialized d = 1 /\ sd_pool d = pk /\ 0 < s <= U64_MAX /\
     (j = true -> tranche_enabled p = true)).
Proof.
  intros H p. pose proof (recorded_kept pk w H) as K. apply recorded_reachable in H.
  destruct (reachable_safe pk w H) as [B [Hm0 Hm]]. pose proof (shares_split program_id pk w) as Hsp.
  cbn [ledger_of lg_supply lg_pool] in Hm0, Hm.
  assert (H0 : 0 <= shares_in false program_id pk w).
  { apply map_sum_nonneg. intros k [[] s] Hk; cbn; [done|].
    apply (holding_u64 _ _ _ (bk_world _ _ _ B)) in Hk. apply Hk. }
  split; [apply K|]. split; [apply K|].
  split. { unfold senior_total_lp. subst p. rewrite (kt_total _ _ _ K), (kt_junior _ _ _ K). width_lia. }
  split. { rewrite <- (kt_total _ _ _ K). unfold MINIMUM_LIQUIDITY in Hm. lia. }
  intros k j s Hk d. pose proof (kt_live _ _ _ K k _ Hk) as [Hi Ho].
  pose proof (holding_u64 _ _ _ (bk_world _ _ _ B) Hk) as Hu. cbn [snd] in Hu.
  pose proof Hk as (Nk & Own & _ & Hp & Hs & _)%register_Some.
  assert (0 < s <= U64_MAX) by width_lia. split_and!; try done; try lia.
  intros ->. pose proof (junior_enabled pk k w true s K Hk ltac:(lia)) as E.
  by rewrite andb_true_r in E.
Qed.

(** C4: everyone can be paid at once. On such a store, after the accrual a
    withdrawal starts with, the sum over all deposit records of what a Withdraw of
    the whole holding is quoted never exceeds the tokens in the vault (if the pool
    has tranches, as long as its senior value is defined). *)
Theorem all_holdings_are_covered_together w p1 :
  recorded program_id pk w -> ledger_accrue (pool_at pk w) (vault_amount pk w) = Ok p1 ->
  (tranche_enabled p1 = true -> senior_balance p1 <> None) ->
  map_sum (quoted p1) (register program_id pk w) <= vault_amount pk w.
Proof. intros H. by apply quotes_covered, recorded_kept. Qed.

(** C10: nobody else can touch a record. An accepted transaction leaves every
    account of the program other than the pool as it was, owner and data, except
    that a Deposit, DepositJunior or Withdraw may write the deposit record whose
    address is derived from the pool and a user who signed it. *)
Theorem transactions_leave_other_records accounts data i w w' :
  is_init i = true \/ backed program_id pk w -> accepts program_id pk accounts data i w w' ->
  forall k, acc_owner (get w k) = program_id -> k <> pk ->
    (keeps_record i = true -> forall user, signed accounts user -> k <> record_of program_id pk user) ->
    acc_owner (get w' k) = program_id /\ acc_data (get w' k) = acc_data (get w k) /\
    register program_id pk w' !! k = register program_id pk w !! k.
Proof.
  intros B Ha k Ho Nk Hn.
  assert (U : untouched program_id k w w').
  { apply (accepts_frame _ _ _ _ _ _ _ B Ha). intros [?|[Hi Ht]]; [done|].
    destruct B as [B|B]; [by destruct i|].
    destruct (written_record _ _ _ _ _ _ B Ha Hi Ht) as (user & Hs & Hk). by eapply Hn. }
  pose proof (frame_register pk w w' k U) as Er. unfold untouched in U.
  rewrite decide_True in U by done. destruct U as [E1 E2]. by rewrite <- E1, <- E2.
Qed.

(** C9: nothing leaves the vault or enters the share supply by other hands. If an
    accepted transaction lowers the vault's balance it is a Withdraw signed by the
    owner of a deposit record, of at most the shares it holds, or the admin's
    FlushToInsurance on an unresolved insurance pool, by its exact amount; if it
    raises the LP supply it is a deposit that paid its amount into the vault. *)
Theorem funds_leave_only_by_their_owners accounts data i w w' :
  backed program_id pk w -> accepts program_id pk accounts data i w w' ->
  (vault_amount pk w' < vault_amount pk w ->
     (exists lp user j s, i = Instruction.Withdraw lp /\ signed accounts user /\
        register program_id pk w !! record_of program_id pk user = Some (j, s) /\ 0 < lp <= s) \/
     (exists a, i = FlushToInsurance a /\ signed accounts (sp_admin (pool_at pk w)) /\
        (pool_at pk w).(sp_pool_mode) = 0 /\ market_resolved (pool_at pk w) = false /\
        vault_amount pk w' = vault_amount pk w - a)) /\
  (mint_amount pk w < mint_amount pk w' ->
     exists a, (i = Instruction.Deposit a \/ i = DepositJunior a) /\
       vault_amount pk w' = vault_amount pk w + a).
Proof.
  intros B Ha. pose proof (accepts_step _ _ _ _ _ _ B Ha) as (Hi & Hau & _ & clk & j & Hc & _ & Hst).
  destruct (ledger_step_custody _ _ _ _ _ _ _ (backed_wf _ _ B) (vault_amount_u64 _ _ B)
              (bk_value _ _ _ B) Hc Hi Hst) as [Hout Hin].
  cbn [ledger_of lg_vault lg_supply] in Hout, Hin. split.
  - intros Hlt. destruct Hout as [?|[(lp & ->)|(a & ->)]]; [lia|left|right].
    + destruct (withdraw_holding _ _ _ _ _ B Ha) as (user & s & _ & _ & Hs & _ & _ & Hr & Hlp & _).
      by exists lp, user, (is_junior_deposit (deposit_at (record_of program_id pk user) w)), s.
    + exists a. split; [done|]. split; [done|]. cbn [ledger_step ledger_of] in Hst.
      unfold ledger_flush in Hst. apply ensure_Ok in Hst as [_ Hst].
      apply ensure_Ok in Hst as [Hm%Z.eqb_eq Hst]. apply ensure_Ok in Hst as [Hr%negb_true_iff Hst].
      apply bind_Ok in Hst as (av & _ & Hst). do 2 apply ensure_Ok in Hst as [_ Hst].
      apply bind_Ok in Hst as (q & _ & E). split_and!; [done|done|].
      by injection E as _ <- _.
  - intros Hlt. destruct Hin as [?|H]; [lia|exact H].
Qed.

(** C11: the tranche invariant. On a recorded pool (see
    [records_account_for_every_share]) every accepted transaction keeps the value
    non-negative, the junior balance within the value plus the outstanding loss, the
    junior shares within all shares and an empty junior tranche at zero; a flush
    must start from books where no more was returned than flushed. That a senior
    withdrawal is of senior shares is not assumed: the records show it. *)
Theorem recorded_tranches_stay_solvent accounts data i w w' :
  recorded program_id pk w -> accepts program_id pk accounts data i w w' ->
  (forall a, i = FlushToInsurance a ->
     (pool_at pk w).(sp_total_returned) <= (pool_at pk w).(sp_total_flushed)) ->
  tranche_ok (pool_at pk w) -> tranche_ok (pool_at pk w').
Proof.
  intros K%recorded_kept Ha Hf T. pose proof (kt_backed _ _ _ K) as B.
  pose proof (backed_wf _ _ B) as Hp. pose proof (vault_amount_u64 _ _ B) as Hv.
  pose proof (accepts_step _ _ _ _ _ _ B Ha) as (Hi & _ & _ & clk & j & Hc & _ & Hst).
  assert (Hw : (exists lp, i = Instruction.Withdraw lp) \/ forall lp, i <> Instruction.Withdraw lp)
    by (destruct i; first [by right|left; by eexists]).
  destruct Hw as [(lp & ->)|Hnw].
  - destruct (withdraw_holding _ _ _ _ _ B Ha) as (user & s & clk' & c & _ & _ & _ & Hr & Hlp & Hc' & Hst' & _).
    refine (ledger_step_tranche (pool_at pk w) (vault_amount pk w) (mint_amount pk w) Hp Hv
      (bk_value _ _ _ B) clk' Hc' _ _ _ Hi _ Hst' T).
    intros Et Ej. rewrite Ej in Hr. unfold senior_total_lp.
    rewrite (kt_total _ _ _ K), (kt_junior _ _ _ K), shares_split.
    enough (tranche_shares false (false, s) <= shares_in false program_id pk w) as Hle
      by (change (s <= shares_in false program_id pk w) in Hle; width_lia).
    eapply map_sum_term; [|exact Hr]. intros k [[] x] Hk; cbn; [done|].
    apply (holding_u64 _ _ _ (bk_world _ _ _ B)) in Hk. apply Hk.
  - refine (ledger_step_tranche (pool_at pk w) (vault_amount pk w) (mint_amount pk w) Hp Hv
      (bk_value _ _ _ B) clk Hc j i _ Hi _ Hst T).
    destruct i; cbn; try done; [by destruct (Hnw lp_amount)|by eapply Hf].
Qed.
End Holders.

(** ** On the markets *)

#[local] Existing Instance sim.
#[local] Existing Instance sim_build.
#[local] Existing Instance sim_laws_hold.

(** Time and gifts write accounts of other programs. *)
Definition foreignb (e : Event) (w : World) : bool :=
  match e with
  | Tx _ _ => true
  | Time _ _ => negb (key_eqb (acc_owner (get w CLOCK_ID)) SIM_ID)
  | Gift _ => negb (key_eqb (acc_owner (get w k_vault)) SIM_ID)
  end.

Fixpoint foreignsb (l : list Event) (w : World) : bool :=
  match l with
  | [] => true
  | e :: l => foreignb e w && foreignsb l (next e w)
  end.

Lemma insert_untouched k a w k' :
  acc_owner (get w k) <> SIM_ID -> acc_owner a <> SIM_ID -> untouched SIM_ID k' w (<[k := a]> w).
Proof.
  intros Ho Ha. unfold untouched. destruct (decide (k = k')) as [<-|Hn].
  - rewrite decide_False by done. rewrite get_insert_eq. intros E. by destruct Ha.
  - rewrite get_insert_ne by done. by case_decide.
Qed.

Lemma foreign_leaves_records e w :
  foreignb e w = true -> (forall accounts i, e <> Tx accounts i) ->
  leaves_records SIM_ID k_pool w (next e w).
Proof.
  intros Hf Hn. assert (U : forall k, untouched SIM_ID k w (next e w)).
  { intros k. destruct e as [accounts i|s e|amount]; [by destruct (Hn accounts i)|..];
      cbn [foreignb next] in *; apply negb_true_iff, key_eqb_neq in Hf; by apply insert_untouched. }
  split; [by apply frame_register_all|done].
Qed.

Lemma events_recorded l w :
  eventsb l w = true -> foreignsb l w = true -> recorded SIM_ID k_pool w ->
  recorded SIM_ID k_pool (replay l w).
Proof.
  revert w. induction l as [|e l IH]; intros w; cbn [eventsb foreignsb replay fold_left]; [done|].
  rewrite !andb_true_iff. intros [He Hl] [Hf Hfl] Hw. apply IH; [done|done|].
  apply eventb_step in He. destruct e.
  - by eapply rec_instruction.
  - eapply rec_environment; [done|done|by apply foreign_leaves_records].
  - eapply rec_environment; [done|done|by apply foreign_leaves_records].
Qed.

(** No account of the program exists yet. *)
Lemma genesis_unowned k : acc_owner (get genesis_world k) <> SIM_ID.
Proof.
  assert (H : map_Forall (fun _ a => acc_owner a <> SIM_ID) genesis_world)
    by (apply (bool_decide_unpack _); by vm_compute).
  unfold get. destruct (genesis_world !! k) as [a|] eqn:E; cbn [default]; [by apply (H k)|done].
Qed.

Lemma run_recorded accounts i l :
  is_init i = true -> eventsb (Tx accounts i :: l) genesis_world = true ->
  foreignsb (Tx accounts i :: l) genesis_world = true ->
  recorded SIM_ID k_pool (run (Tx accounts i :: l)).
Proof.
  cbn [eventsb eventb foreignsb foreignb]. rewrite !andb_true_iff. intros Hi [Ha Hl] [_ Hf].
  change (run _) with (replay l (next (Tx accounts i) genesis_world)).
  apply events_recorded; [done|done|].
  eapply rec_init; [apply genesis_world_ok|done|by apply acceptedb_accepts| |].
  - apply map_eq. intros k. rewrite register_lookup, lookup_empty. unfold holding.
    rewrite decide_False; [done|]. intros (_ & Ho & _). by apply genesis_unowned in Ho.
  - intros user _ Ho. by apply genesis_unowned in Ho.
Qed.

Lemma foreignsb_take n l w : foreignsb l w = true -> foreignsb (take n l) w = true.
Proof.
  revert l w. induction n as [|n IH]; intros [|e l] w; [done..|]. cbn [take foreignsb].
  rewrite !andb_true_iff. intros [He Hl]. split; [done|by apply IH].
Qed.

Lemma market_foreign : foreignsb market genesis_world = true.
Proof. by vm_compute. Qed.
Lemma tranches_foreign : foreignsb tranches genesis_world = true.
Proof. by vm_compute. Qed.

Lemma market_recorded n : recorded SIM_ID k_pool (run (take (S n) market)).
Proof.
  pose proof (eventsb_take (S n) _ _ market_runs) as H.
  pose proof (foreignsb_take (S n) _ _ market_foreign) as F. by apply (run_recorded acc_init).
Qed.
Lemma tranches_recorded n : recorded SIM_ID k_pool (run (take (S n) tranches)).
Proof.
  pose proof (eventsb_take (S n) _ _ tranches_runs) as H.
  pose proof (foreignsb_take (S n) _ _ tranches_foreign) as F. by apply (run_recorded acc_init).
Qed.

(** Alice's senior and Bob's junior record after the fee. *)
Lemma records_account_for_every_share_witness :
  let w := run (take 6 tranches) in
  map_to_list (register SIM_ID k_pool w)
    = [(k_alice_deposit, (false, 100000)); (k_bob_deposit, (true, 50000))] /\
  sp_total_lp_supply (pool_at k_pool w) = shares SIM_ID k_pool w /\ shares SIM_ID k_pool w = 150000.
Proof.
  cbn zeta. split_and!; [by vm_compute| |by vm_compute].
  destruct (records_account_for_every_share k_pool _ (tranches_recorded 5)) as (H & _). exact H.
Defined.

(** After the flush the junior holding is worth nothing and the senior one all
    that the vault holds. *)
Lemma all_holdings_are_covered_together_witness :
  let w := run (take 7 tranches) in
  exists p1, ledger_accrue (pool_at k_pool w) (vault_amount k_pool w) = Ok p1 /\
    map_sum (quoted p1) (register SIM_ID k_pool w) = 73000 /\ vault_amount k_pool w = 73000 /\
    map_sum (quoted p1) (register SIM_ID k_pool w) <= vault_amount k_pool w.
Proof.
  cbn zeta. pose proof (tranches_recorded 6) as R. set (w := run (take 7 tranches)) in *.
  assert (H : match ledger_accrue (pool_at k_pool w) (vault_amount k_pool w) with
              | Ok p1 => (map_sum (quoted p1) (register SIM_ID k_pool w) =? 73000) &&
                         negb (bool_decide (senior_balance p1 = None))
              | Err _ => false end = true) by by vm_compute.
  destruct (ledger_accrue (pool_at k_pool w) (vault_amount k_pool w)) as [p1|e] eqn:E;
    [|discriminate H]. exists p1. apply andb_true_iff in H as [H1%Z.eqb_eq H2].
  apply negb_true_iff, bool_decide_eq_false in H2. split_and!; [done|done|by vm_compute|].
  exact (all_holdings_are_covered_together k_pool w p1 R E (fun _ => H2)).
Defined.

(** No user who signs a transaction with these accounts has the record [k]. *)
Definition foreign_record (k : Pubkey) (accounts : list AccountInfo) : bool :=
  forallb (fun ai => negb (ai_is_signer ai && key_eqb k (record_of SIM_ID k_pool (ai_key ai)))) accounts.

Lemma foreign_record_ne k accounts user :
  foreign_record k accounts = true -> signed accounts user -> k <> record_of SIM_ID k_pool user.
Proof.
  unfold foreign_record. intros H (ai & Hin & <- & Hs) E. rewrite forallb_forall in H.
  apply list_elem_of_In, H in Hin. rewrite Hs in Hin. cbn [andb] in Hin.
  apply negb_true_iff, key_eqb_neq in Hin. by apply Hin.
Qed.

(** Bob's withdrawal leaves Alice's record. *)
Lemma transactions_leave_other_records_witness :
  let w := run (take 9 market) in let w' := run (take 10 market) in
  w !! k_bob_deposit <> w' !! k_bob_deposit /\
  acc_data (get w' k_alice_deposit) = acc_data (get w k_alice_deposit).
Proof.
  cbn zeta. split; [by vm_compute|].
  destruct (transactions_leave_other_records k_pool _ _ _ _ _ (or_intror (market_backed 8))
              (market_accepts 9 _ _ eq_refl) k_alice_deposit) as (_ & H & _);
    [by vm_compute|by vm_compute| |exact H].
  intros _ user Hs. eapply foreign_record_ne; [|exact Hs]. by vm_compute.
Defined.

(** The 20000 tokens Bob takes out come off his own record. *)
Lemma funds_leave_only_by_their_owners_witness :
  let w := run (take 9 market) in let w' := run (take 10 market) in
  vault_amount k_pool w' < vault_amount k_pool w /\
  exists user s j, signed acc_bob_withdraw user /\
    register SIM_ID k_pool w !! record_of SIM_ID k_pool user = Some (j, s) /\ 20000 <= s.
Proof.
  cbn zeta. assert (Hlt : vault_amount k_pool (run (take 10 market)) < vault_amount k_pool (run (take 9 market)))
    by by vm_compute.
  split; [exact Hlt|].
  destruct (funds_leave_only_by_their_owners k_pool _ _ _ _ _ (market_backed 8)
              (market_accepts 9 _ _ eq_refl)) as [H _].
  destruct (H Hlt) as [(lp & user & j & s & [= <-] & Hs & Hr & _ & Hle)|(a & E & _)]; [|discriminate E].
  exists user, s, j. split; [exact Hs|split; [exact Hr|exact Hle]].
Defined.

(** Bob, who bears the loss, leaves with part of what he had. *)
Lemma recorded_tranches_stay_solvent_witness :
  let w := run (take 8 tranches) in let w' := run (take 9 tranches) in
  junior_total_lp (pool_at k_pool w) = 50000 /\ junior_total_lp (pool_at k_pool w') = 40000 /\
  tranche_ok (pool_at k_pool w').
Proof.
  cbn zeta. split_and!; [by vm_compute..|].
  apply (recorded_tranches_stay_solvent k_pool _ _ _ _ _ (tranches_recorded 7)
           (tranches_accepts 8 _ _ eq_refl)); [intros a E; discriminate E|].
  split; [by vm_compute..|intros H; vm_compute in H; discriminate H|by vm_compute].
Defined.
